(* ===== verification/_CoqProject ===== *)
-Q . S2P
Prelude.v
KubeTypes.v
Types.v
Platform.v
Effects.v
Common.v
EnvoyAssets.v
ConfigMaps.v
Cnpg.v
Encoding.v
Sha256.v
Crypto.v
Secrets.v
Wizard.v
WizardTerminal.v
WizardProcess.v
Deployments.v
Services.v
Workloads.v
Gateway.v
ObjectSync.v
ClusterSync.v
Store.v
Defaulting.v
Apply.v
Converge.v
Provisioning.v
Database.v
CoreServices.v
PowerSync.v
Reconciler.v
OperatorProcess.v
ErrorFlow.v
Safety.v
Frame.v
Discipline.v
Gate.v
Readiness.v
Lifecycle.v
Order.v
Isolation.v
Phases.v
Watches.v
References.v
Effort.v
Frugal.v
Removal.v
Samples.v
WizardSamples.v
Simulation.v
Witnesses.v
