(* ===== verification/Prelude.v ===== *)
(** * CloudNative Supabase: a verification development

    The repository is a Kubernetes operator in Go.  It reconciles one custom
    resource, SupabaseProject, into a PostgreSQL cluster of CloudNativePG (CNPG)
    and the services of Supabase around it: GoTrue, PostgREST, postgres-meta,
    Studio, an Envoy gateway and, when configured, PowerSync.  Beside the
    operator stands an interactive command, project-credentials-wizard, that
    generates the credential bundle a project needs; the operator only reads and
    validates it.  This library translates both programs into Rocq definitions
    and proves what makes them correct.

    ** The program and its model

    The operator is one controller (Reconcile) that calls pure builders of API
    objects.  A reconciliation reads the project, repairs the metadata of durable
    objects, passes the credential gate, then provisions in phases: implementation
    Secrets and ConfigMaps, backup and recovery, the database cluster and the wait
    for it, the core services, PowerSync.  Its only state between two
    reconciliations is what the API server stores.

    - Data.  [KubeTypes] holds the structs of the Kubernetes, CNPG and Barman APIs
      as far as the operator reads or writes them; [Types] the custom resource
      (src/api/v1alpha1) with its admission markers as boolean predicates, and
      EffectivePublicationSchemas; [Platform] what the operator calls of
      apimachinery, controller-runtime, CNPG and sigs.k8s.io/yaml.
    - Builders.  [Common] (src/internal/resources/common and defaults),
      [EnvoyAssets] and [ConfigMaps] (configmaps), [Cnpg] (cnpg), [Deployments]
      (deployments), [Services] (services and jobs).
    - Credentials.  [Encoding] and [Sha256] are the functions of the Go standard
      library the formats depend on; [Crypto] is src/pkg/crypto; [Secrets] is
      src/internal/resources/secrets.
    - Controller, src/internal/controller/supabaseproject_controller.go.
      [ObjectSync] and [ClusterSync] are its pure helpers, [Store] its
      create-or-update helpers, [Provisioning] the phases up to the generated
      Secrets and ConfigMaps, [Database] backup, recovery, cluster and wait,
      [CoreServices] the five core components, [PowerSync] the PowerSync phase
      and its removal, [Reconciler] Reconcile itself, the watch mappings and
      SetupWithManager.
    - Process, src/cmd/main.go.  [OperatorProcess] is the start-up before the
      first reconciliation: API registration, command line, server and manager
      options, and the setup steps with the exit status of each failure.
    - Wizard, src/cmd/project-credentials-wizard.  [Wizard] is generator.go,
      [WizardTerminal] the dialogue of main.go, [WizardProcess] main and run with
      the interrupt goroutine.

    Definitions keep the names of the Go functions, methods and constants; a record
    field is the Go field behind a short prefix.  A pointer is an [option]; Go
    strings are byte strings; an error is a value of [error] (below), with its
    wrapping; a function that returns a value and an error returns a [result].

    ** Effects

    [Effects] models a controller function as a finite tree of requests (Get,
    Create, Update, Delete, List, status update, the clock, crypto/rand), each
    followed by a continuation on the answer, in a monad [M] that threads the
    SupabaseProject the Go code mutates through a pointer, on error paths too.  The
    server is not modelled: a theorem on a reconciliation quantifies over every
    answer to every request, conflicts and lost objects included, so it holds
    whatever other clients do in between.  What some theorems need of the server is
    an explicit rely on single answers: a status update leaves the metadata
    ([keeps_meta]) or also the spec ([keeps_spec]) alone, or returns the very
    status it was sent ([stores_status]); a read answers with the object asked for
    ([keyed]).  [safe] is the rely-guarantee judgement on such
    programs; it is proved once per controller function, through rules for the
    monad's operations, and composed along the calls of the source.  [runs] relates
    a program to one history and its outcome; [interp] executes it against a
    concrete server, and [interp_runs] joins the two.

    A nil dereference becomes the error controller-runtime recovers the panic
    into.  Concurrency: two reconciliations are interleaved in [Isolation], the
    wizard's two threads in [WizardProcess].

    ** What is proved

    Of whole reconciliations, for every behaviour of the server:
    - [Safety], [Discipline]: what may be created, changed and deleted (only
      children of the project; durable objects are neither owned nor deleted,
      generated Secrets never overwritten, adopted objects of others untouched);
    - [Gate]: no child is written before the credential bundle was validated;
    - [Isolation]: two projects never write each other's objects;
    - [Readiness]: what "finished" means; [Order]: nothing is rolled out before
      what it depends on was seen ready;
    - [Lifecycle]: the phase machine and the invariant of the status, over the
      walk of the controller in [Frame];
    - [ErrorFlow]: no failed request is lost; [Effort]: the number of requests is
      bounded; [Frugal]: every write directly follows the read that calls for it;
    - [Removal]: once PowerSync is no longer configured nothing of it is rolled out,
      and a reconciliation that finishes has removed all it owned of it;
    - [Watches]: events wake the projects concerned and no other, and whatever is
      written is watched.

    Of the process around them:
    - [OperatorProcess]: the start-up stops at its first failure with a non-zero
      status, the manager runs only when everything before it succeeded, and
      HTTP/2 and unprotected metrics need their flag on the command line.

    Of its parts:
    - [Apply] and [Converge]: the create-or-update helpers are instances of one
      abstract operation; a run leaves the object as it was asked for and touches
      nothing else, or changes nothing, and a second run over what the server made
      of it writes nothing;
    - [Phases]: the contracts of the wait for the database, of the permission Job
      and of the verdict on the core services; [ClusterSync] and [ObjectSync]:
      mutable cluster fields, the bootstrap guard, the Barman plugin and the owner
      repair against their specifications;
    - [References], [Workloads], [Gateway]: the objects of a project fit together
      (roles and Secrets, references of pods, Services and pods, the rendered Envoy
      configuration and what stands behind it), GoTrue's environment is an overlay,
      and credentials reach only the containers that need them;
    - [Secrets], [Crypto], [Types]: the validations accept exactly what they are
      documented to accept, generated Secrets pass them, the public key projection
      verifies the same tokens, the signing key is in range;
    - [Wizard]: a generated bundle is accepted by the operator until its tokens
      expire, and generation does not fail of itself; [WizardTerminal],
      [WizardProcess]: the clipboard discipline, independence of the output from
      the secrets, and what is left in the clipboard at every exit, the deaths by a
      signal included.

    [Samples], [WizardSamples] and [Simulation] instantiate the parameters with
    concrete functions and an executable API server; [Witnesses] applies the
    theorems that have hypotheses there.

    ** Parameters

    Third-party code is a class of operations, its documented behaviour a class of
    laws: [Platform] and [PlatformLaws] (conditions, controller references,
    quantities, API defaulting, YAML), [CryptoLib] (P-256 and encoding/json),
    [UrlLib] (net/url), [WizardLib] and [WizardLaws] (key generation and signing),
    [FlagLib] (the command-line flags that zap and controller-runtime register)
    and the event handlers of controller-runtime where the watches are concerned.
    Every class has an instance, with its laws proved, among the samples.

    Between a write and the next read the API server fills in defaults.  They are
    not a parameter: [Defaulting] states those the Kubernetes API reference
    documents, field by field and apart from the controller's own normalizers, and
    [Converge] quantifies over every object that results from them.  A custom
    resource (ObjectStore, ScheduledBackup) is taken to be served with the fields
    it was written with.

    ** Bounds

    The controller has no unbounded loop: its programs are finite trees by
    construction, and [Effort] counts their requests.  Recursion is structural
    throughout; where a Go loop consumes a string ([TrimSpace], the blocks of SHA-256)
    the fuel is its length or its number of blocks, and each step consumes some.
    Integers are [Z]; where Go's width matters it is written out (the 32-bit words
    of SHA-256, the byte lengths of coordinates).

    ** What modelling showed

    - The wizard's interrupt handler clears the clipboard and exits while the
      dialogue keeps running, so a credential copied in between stays behind
      ([interrupt_race] in [WizardProcess]).
    - The wizard handles SIGINT and SIGTERM only: closing its terminal kills it
      with the credential left in the clipboard ([hangup_leaves] in
      [WizardProcess]).
    - waitForDatabase replaces the whole endpoint status and so clears the API
      endpoint on every reconciliation until the gateway phase sets it again.
    - A running project whose database loses an instance keeps phase Running and
      Ready true, where the README says these need a ready database.
    - The repair of the PowerSync token Secret can create an empty placeholder
      when the Secret is deleted between two reads ([placeholder_race] in
      [Phases]).

    ** Not modelled

    The generated deep copies, RBAC markers, log lines and their zap options, what
    controller-runtime does in the steps of the start-up, the charts, manifests and
    scripts, and the end-to-end tests.  The text of the SQL and Lua assets is
    transcribed, but not given a semantics.

    ** This file

    Go strings and errors, maps, the automation and the generic lemmas the
    components share. *)

From stdpp Require Export base gmap strings list pretty.
From stdpp Require Import options.
From Stdlib Require Export ZArith Lia.
From Stdlib Require Import Ascii.
From coqutil Require Export Datatypes.RecordSettersUsingExistingGetters.

#[global] Arguments const {E} _ _ /.

#[global] Open Scope Z_scope.
#[global] Open Scope stdpp_scope.

(** ** Automation *)

Create Rewrite HintDb gostr.

(** Case analysis on every [match]/[if] of the goal or a hypothesis, closing
    the branches that are contradictory. *)
Ltac split_cases :=
  repeat (case_match; simplify_eq/=; try done).

(** Split boolean conjunctions and decide equations to propositions. *)
Ltac bools :=
  repeat match goal with
  | H : _ && _ = true |- _ => apply andb_true_iff in H as [? ?]
  | H : _ || _ = false |- _ => apply orb_false_iff in H as [? ?]
  | H : negb _ = true |- _ => apply negb_true_iff in H
  | H : negb _ = false |- _ => apply negb_false_iff in H
  | H : bool_decide _ = true |- _ => apply bool_decide_eq_true in H
  | H : bool_decide _ = false |- _ => apply bool_decide_eq_false in H
  end.

(** ** Go strings

    A Go string is an immutable sequence of bytes; [string([]byte)] and
    [[]byte(string)] are identities on it, so both types are [string] here. *)

(** The double quote, which a Rocq string literal cannot hold undoubled. *)
Definition dq : string := String (Ascii.ascii_of_nat 34) EmptyString.
Definition newline : string := String (Ascii.ascii_of_nat 10) EmptyString.

Fixpoint str_take (n : nat) (s : string) : string :=
  match n, s with
  | S n, String c s => String c (str_take n s)
  | _, _ => EmptyString
  end.

Fixpoint str_drop (n : nat) (s : string) : string :=
  match n, s with
  | S n, String _ s => str_drop n s
  | _, _ => s
  end.

(** The bytes of [s[i:j]]. *)
Definition str_slice (i j : nat) (s : string) : string :=
  str_take (j - i) (str_drop i s).

(** [strings.HasPrefix] and [strings.HasSuffix]. *)
Definition HasPrefix (s prefix : string) : bool := String.prefix prefix s.
Definition HasSuffix (s suffix : string) : bool :=
  bool_decide (String.length suffix ≤ String.length s)%nat &&
  bool_decide (str_drop (String.length s - String.length suffix) s = suffix).
(** [strings.TrimPrefix]. *)
Definition TrimPrefix (s prefix : string) : string :=
  if HasPrefix s prefix then str_drop (String.length prefix) s else s.

(** [strings.Contains]. *)
Fixpoint Contains (s substr : string) : bool :=
  HasPrefix s substr ||
  match s with
  | EmptyString => false
  | String _ s => Contains s substr
  end.

(** [strings.Split] on a one-byte separator. *)
Fixpoint Split (s : string) (sep : ascii) : list string :=
  match s with
  | EmptyString => [EmptyString]
  | String c s =>
      if bool_decide (c = sep) then EmptyString :: Split s sep
      else match Split s sep with
           | [] => [String c EmptyString]
           | w :: ws => String c w :: ws
           end
  end.

(** [strings.Join]. *)
Definition Join (l : list string) (sep : string) : string := String.concat sep l.

(** Every byte of the string satisfies [f]. *)
Fixpoint str_forallb (f : ascii → bool) (s : string) : bool :=
  match s with
  | EmptyString => true
  | String c s => f c && str_forallb f s
  end.

(** [strings.TrimRight(s, cutset)] for a one-byte cutset. *)
Fixpoint TrimRight (s : string) (c : ascii) : string :=
  match s with
  | EmptyString => EmptyString
  | String a s =>
      match TrimRight s c with
      | EmptyString => if bool_decide (a = c) then EmptyString else String a EmptyString
      | t => String a t
      end
  end.

Definition byte_Z (c : ascii) : Z := Z.of_N (N_of_ascii c).
Definition Z_byte (z : Z) : ascii := ascii_of_N (Z.to_N z).

(** [strings.TrimSpace]: the UTF-8 encodings of the code points for which
    [unicode.IsSpace] holds. *)
Fixpoint byte_string (l : list Z) : string :=
  match l with [] => EmptyString | z :: l => String (Z_byte z) (byte_string l) end.

Definition space_encodings : list string :=
  byte_string <$>
  [[9]; [10]; [11]; [12]; [13]; [32]; [0xC2; 0x85]; [0xC2; 0xA0];
   [0xE1; 0x9A; 0x80]; [0xE2; 0x80; 0x80]; [0xE2; 0x80; 0x81];
   [0xE2; 0x80; 0x82]; [0xE2; 0x80; 0x83]; [0xE2; 0x80; 0x84];
   [0xE2; 0x80; 0x85]; [0xE2; 0x80; 0x86]; [0xE2; 0x80; 0x87];
   [0xE2; 0x80; 0x88]; [0xE2; 0x80; 0x89]; [0xE2; 0x80; 0x8A];
   [0xE2; 0x80; 0xA8]; [0xE2; 0x80; 0xA9]; [0xE2; 0x80; 0xAF];
   [0xE2; 0x81; 0x9F]; [0xE3; 0x80; 0x80]].

(** Fuel: each step removes at least one byte, so the length is enough. *)
Fixpoint trim_left_fuel (fuel : nat) (s : string) : string :=
  match fuel with
  | O => s
  | S fuel =>
      match List.find (HasPrefix s) space_encodings with
      | Some w => trim_left_fuel fuel (str_drop (String.length w) s)
      | None => s
      end
  end.
Fixpoint trim_right_fuel (fuel : nat) (s : string) : string :=
  match fuel with
  | O => s
  | S fuel =>
      match List.find (HasSuffix s) space_encodings with
      | Some w => trim_right_fuel fuel (str_take (String.length s - String.length w) s)
      | None => s
      end
  end.
Definition TrimSpace (s : string) : string :=
  let s := trim_left_fuel (String.length s) s in
  trim_right_fuel (String.length s) s.

(** ** String lemmas *)

#[local] Arguments String.append !_ _ / : simpl nomatch.

Lemma str_app_nil_r s : s +:+ EmptyString = s.
Proof. induction s as [|c s IH]; cbn; congruence. Qed.
Lemma str_app_assoc a b c : a +:+ (b +:+ c) = (a +:+ b) +:+ c.
Proof. induction a as [|x a IH]; cbn; congruence. Qed.
Lemma str_app_length a b : String.length (a +:+ b) = (String.length a + String.length b)%nat.
Proof. induction a; cbn; congruence. Qed.
Lemma str_app_inj_l a b c : a +:+ b = a +:+ c → b = c.
Proof. induction a; cbn; [done | intros [=]; auto]. Qed.
Lemma str_app_inj_len a b c d :
  String.length a = String.length c → a +:+ b = c +:+ d → a = c ∧ b = d.
Proof.
  revert c. induction a as [|x a IH]; intros [|y c]; cbn; try done.
  intros [= Hl] [= -> H]. by destruct (IH c Hl H) as [-> ->].
Qed.
Lemma str_app_inj_r a b c : a +:+ c = b +:+ c → a = b.
Proof.
  intros H. apply (str_app_inj_len a c b c); [|done].
  apply (f_equal String.length) in H. rewrite !str_app_length in H. lia.
Qed.
#[export] Hint Rewrite str_app_length str_app_nil_r : gostr.

Lemma str_take_drop n s : str_take n s +:+ str_drop n s = s.
Proof. revert s; induction n as [|n IH]; intros [|c s]; cbn; try done. by rewrite IH. Qed.
Lemma str_take_app a b : str_take (String.length a) (a +:+ b) = a.
Proof. induction a as [|x a IH]; cbn; [by destruct b | by rewrite IH]. Qed.
Lemma str_drop_app a b : str_drop (String.length a) (a +:+ b) = b.
Proof. induction a as [|x a IH]; cbn; [by destruct b | done]. Qed.
Lemma str_take_all s n : (String.length s ≤ n)%nat → str_take n s = s.
Proof. revert n; induction s as [|c s IH]; intros [|n] ?; cbn in *; try done; try lia. rewrite IH; [done|lia]. Qed.
Lemma str_take_length n s : String.length (str_take n s) = (n `min` String.length s)%nat.
Proof. revert s; induction n as [|n IH]; intros [|c s]; cbn; try done. by rewrite IH. Qed.
Lemma str_drop_length n s : String.length (str_drop n s) = (String.length s - n)%nat.
Proof. revert s; induction n as [|n IH]; intros [|c s]; cbn; try done. Qed.
#[export] Hint Rewrite str_take_length str_drop_length str_take_app str_drop_app : gostr.

Lemma HasPrefix_spec s p : HasPrefix s p = true ↔ ∃ t, s = p +:+ t.
Proof.
  unfold HasPrefix. revert s. induction p as [|c p IH]; intros s.
  - split; [by exists s | by destruct s].
  - destruct s as [|d s]; [split; [done | by intros [? ?]]|].
    cbn. destruct (Ascii.ascii_dec c d) as [->|Hne].
    + rewrite IH. split; intros [t Ht]; exists t; cbn in *; congruence.
    + split; [done | intros [t [=]]; congruence].
Qed.
Lemma HasPrefix_app p t : HasPrefix (p +:+ t) p = true.
Proof. apply HasPrefix_spec. eauto. Qed.
Lemma TrimPrefix_app p t : TrimPrefix (p +:+ t) p = t.
Proof. unfold TrimPrefix. by rewrite HasPrefix_app, str_drop_app. Qed.

Lemma HasSuffix_spec s x : HasSuffix s x = true ↔ ∃ t, s = t +:+ x.
Proof.
  unfold HasSuffix. rewrite andb_true_iff, !bool_decide_eq_true. split.
  - intros [Hl Hd]. exists (str_take (String.length s - String.length x) s).
    rewrite <- Hd at 2. by rewrite str_take_drop.
  - intros [t ->]. rewrite str_app_length. split; [lia|].
    replace (_ - _)%nat with (String.length t) by lia. apply str_drop_app.
Qed.

Lemma str_forallb_app f a b : str_forallb f (a +:+ b) = str_forallb f a && str_forallb f b.
Proof. induction a as [|c a IH]; cbn; [done|]. by rewrite IH, andb_assoc. Qed.
Lemma str_forallb_take f n s : str_forallb f s = true → str_forallb f (str_take n s) = true.
Proof.
  intros H. rewrite <- (str_take_drop n s), str_forallb_app in H. by bools.
Qed.
Lemma str_forallb_impl (f g : ascii → bool) s :
  (∀ c, f c = true → g c = true) → str_forallb f s = true → str_forallb g s = true.
Proof. intros Hfg. induction s; cbn; [done|]. intros H; bools. rewrite Hfg; auto. Qed.

Lemma HasPrefix_refl_app_ne (a b x : string) :
  String.length a = String.length b → a ≠ b → HasPrefix (a +:+ x) b = false.
Proof.
  intros Hl Hne. destruct (HasPrefix (a +:+ x) b) eqn:E; [|done].
  apply HasPrefix_spec in E as [t Ht]. by apply str_app_inj_len in Ht as [? _].
Qed.

Lemma Contains_app a b x : Contains b x = true → Contains (a +:+ b) x = true.
Proof. intros H. induction a as [|c a IH]; cbn [String.append]; [done|]. cbn. rewrite IH. by rewrite orb_true_r. Qed.
Lemma HasPrefix_Contains s x : HasPrefix s x = true → Contains s x = true.
Proof. intros H. destruct s; cbn [Contains]; by rewrite H. Qed.
Lemma Contains_prefix a b : Contains (a +:+ b) a = true.
Proof. apply HasPrefix_Contains, HasPrefix_app. Qed.

Lemma TrimRight_not_suffix s c : HasSuffix (TrimRight s c) (String c EmptyString) = false.
Proof.
  induction s as [|a s IH]; [done|].
  cbn. destruct (TrimRight s c) as [|d t] eqn:E.
  - case_bool_decide; [done|].
    apply not_true_iff_false. rewrite HasSuffix_spec. intros [[|b u] Hu]; cbn in Hu; [congruence|].
    injection Hu as -> Hu. by destruct u.
  - apply not_true_iff_false. rewrite HasSuffix_spec. intros [[|b u] Hu]; cbn in Hu; [done|].
    apply not_true_iff_false in IH. apply IH, HasSuffix_spec.
    exists u. congruence.
Qed.

(** Joining the pieces of a split restores the string. *)
Lemma Split_ne_nil s c : Split s c ≠ [].
Proof. induction s as [|a s IH]; cbn; [done|]. split_cases. Qed.
Lemma Split_app_sep a b c :
  str_forallb (λ x, negb (bool_decide (x = c))) a = true →
  Split (a +:+ String c b) c = a :: Split b c.
Proof.
  induction a as [|x a IH]; cbn; [intros _; by rewrite bool_decide_eq_true_2|].
  intros H; bools. rewrite bool_decide_eq_false_2 by done. by rewrite IH.
Qed.
Lemma Split_no_sep a c :
  str_forallb (λ x, negb (bool_decide (x = c))) a = true → Split a c = [a].
Proof.
  induction a as [|x a IH]; cbn; [done|].
  intros H; bools. rewrite bool_decide_eq_false_2 by done. by rewrite IH.
Qed.

(** A separator that neither prefix contains can be cancelled. *)
Lemma str_app_sep_inj c a b x y :
  str_forallb (λ x, negb (bool_decide (x = c))) a = true →
  str_forallb (λ x, negb (bool_decide (x = c))) b = true →
  a +:+ String c x = b +:+ String c y → a = b ∧ x = y.
Proof.
  revert b. induction a as [|d a IH]; intros [|e b]; cbn; intros Ha Hb Heq; bools; simplify_eq.
  - done.
  - destruct (IH b) as [-> ->]; done.
Qed.

(** Decimal numbers contain digits only. *)
Lemma pretty_nat_chars (f : ascii → bool) (n : nat) :
  (∀ d, f (pretty_N_char d) = true) → str_forallb f (pretty n) = true.
Proof.
  intros Hf. unfold pretty, pretty_nat, pretty, pretty_N.
  case_decide; [cbn; by rewrite (Hf 0%N : f "0"%char = true)|].
  assert (Hgo : ∀ x s, str_forallb f s = true → str_forallb f (pretty_N_go x s) = true).
  { intros x. induction (N.lt_wf_0 x) as [x _ IH]; intros s Hs.
    destruct (decide (0 < x)%N) as [Hx|Hx].
    - rewrite pretty_N_go_step by done. apply IH; [by apply N.div_lt|]. cbn. by rewrite Hf.
    - replace x with 0%N by lia. done. }
  by apply Hgo.
Qed.

(** ** Machine integers *)

(** Go's conversion of an [int] to an [int32]: two's complement wrap-around. *)
Definition int32_of_int (z : Z) : Z := (z + 2^31) mod 2^32 - 2^31.
Lemma int32_of_int_small z : - 2^31 ≤ z < 2^31 → int32_of_int z = z.
Proof. intros H. unfold int32_of_int. rewrite Z.mod_small; lia. Qed.
Lemma int32_of_int_range z : - 2^31 ≤ int32_of_int z < 2^31.
Proof. unfold int32_of_int. pose proof (Z.mod_pos_bound (z + 2^31) (2^32)). lia. Qed.

(** ** Errors

    An [error] value of the source is one of: a string error
    ([errors.New], [fmt.Errorf] without [%w]), an error returned by the API
    client with its NotFound reason, a message wrapping another error with
    [%w] (always in last position in this code base), or [errors.Join]. *)
Inductive error :=
| ErrorString (msg : string)
| StatusError (notfound : bool) (msg : string)
| WrapError (prefix : string) (cause : error)
| JoinError (e1 e2 : error).

#[export] Instance error_eq_dec : EqDecision error.
Proof. solve_decision. Defined.

(** The [Error()] method. *)
Fixpoint Error (e : error) : string :=
  match e with
  | ErrorString msg => msg
  | StatusError _ msg => msg
  | WrapError prefix cause => prefix +:+ Error cause
  | JoinError e1 e2 => Error e1 +:+ newline +:+ Error e2
  end.

(** [apierrors.IsNotFound], which looks through wrapped errors. *)
Fixpoint IsNotFound (e : error) : bool :=
  match e with
  | ErrorString _ => false
  | StatusError nf _ => nf
  | WrapError _ cause => IsNotFound cause
  | JoinError e1 e2 => IsNotFound e1 || IsNotFound e2
  end.

(** Results of pure Go functions that return [(T, error)]. *)
Abbreviation result A := (sum error A).

#[export] Instance result_ret : MRet (sum error) := λ A x, inr x.
#[export] Instance result_bind : MBind (sum error) := λ A B f m,
  match m with inl e => inl e | inr x => f x end.

#[export] Instance result_fmap : FMap (sum error) := λ A B f m,
  match m with inl e => inl e | inr x => inr (f x) end.

(** [if cond { return err }]. *)
Definition guard_err (cond : bool) (e : error) : result unit :=
  if cond then inl e else inr tt.

Lemma guard_err_inr c e u : guard_err c e = inr u ↔ c = false.
Proof. destruct u, c; naive_solver. Qed.
Lemma result_bind_inr {A B} (m : result A) (f : A → result B) b :
  (m ≫= f) = inr b ↔ ∃ a, m = inr a ∧ f a = inr b.
Proof. destruct m; cbn; naive_solver. Qed.

(** Step over a computation known to succeed. *)
Lemma result_bind_ok {A B} (m : result A) (f : A → result B) a :
  m = inr a → (m ≫= f) = f a.
Proof. by intros ->. Qed.

(** Invert a successful run of a [result] computation, step by step. *)
Ltac invert_result :=
  repeat match goal with
  | H : (_ ≫= _) = inr _ |- _ => apply result_bind_inr in H as (? & ? & H)
  | H : guard_err _ _ = inr _ |- _ => apply guard_err_inr in H
  | H : mret _ = inr _ |- _ => injection H as H
  | H : inr _ = inr _ |- _ => injection H as H
  | H : inl _ = inr _ |- _ => discriminate H
  end.

(** ** Semantic equality

    [apiequality.Semantic.DeepEqual]: an empty and a nil map or slice are
    equal and quantities compare by value. A Go map or slice is modelled by
    [gmap] and [list] (an [option] around it where the code tests for nil),
    so on types without quantities semantic equality is equality. *)
Class DeepEqual (A : Type) := deep_equal : A → A → bool.
#[global] Hint Mode DeepEqual ! : typeclass_instances.
Class DeepEqualLaws (A : Type) `{DeepEqual A} := {
  deep_equal_refl (x : A) : deep_equal x x = true;
  deep_equal_sym (x y : A) : deep_equal x y = true → deep_equal y x = true;
  deep_equal_trans (x y z : A) :
    deep_equal x y = true → deep_equal y z = true → deep_equal x z = true }.
#[export] Hint Resolve deep_equal_refl : core.

(** Equality of a type without quantities. *)
Definition eq_deep_equal {A} `{EqDecision A} : DeepEqual A := λ x y, bool_decide (x = y).
Lemma eq_deep_equal_laws {A} `{EqDecision A} : @DeepEqualLaws A eq_deep_equal.
Proof.
  split; unfold deep_equal, eq_deep_equal; intros; bools; by apply bool_decide_eq_true; subst.
Qed.

(** ** Lists and options *)

Definition from_opt {A} (d : A) (o : option A) : A := default d o.

Lemma find_app_none {A} (f : A → bool) (l k : list A) :
  List.find f l = None → List.find f (l ++ k) = List.find f k.
Proof. induction l as [|x l IH]; cbn; [done|]. by destruct (f x). Qed.
