(* ===== verification/KubeTypes.v ===== *)
(** * Kubernetes and CloudNativePG API objects

    The Go structs of the Kubernetes, CloudNativePG (CNPG) and Barman Cloud
    APIs, with the fields this operator reads or writes under their Go names
    (behind a prefix that keeps them apart).  Where the operator updates an
    object it fetched, the fields it must preserve without knowing them are
    kept in an [_other] map, by JSON path.  A pointer is an [option]; a slice
    or map is a [list] or [gmap], inside an [option] only where the source
    tests it for nil.  Integers are [Z]. *)

From S2P Require Import Prelude.

(** ** Metadata *)

Record NamespacedName := { nn_Namespace : string; nn_Name : string }.
#[export] Instance NamespacedName_eq : EqDecision NamespacedName.
Proof. solve_decision. Defined.
#[export] Instance NamespacedName_countable : Countable NamespacedName.
Proof.
  by refine (inj_countable' (λ k, (nn_Namespace k, nn_Name k))
    (λ p, {| nn_Namespace := p.1; nn_Name := p.2 |}) _); intros [].
Defined.

Record OwnerReference := {
  or_APIVersion : string; or_Kind : string; or_Name : string; or_UID : string;
  or_Controller : option bool; or_BlockOwnerDeletion : option bool }.
#[export] Instance OwnerReference_eq : EqDecision OwnerReference.
Proof. solve_decision. Defined.

Record ObjectMeta := {
  om_Name : string; om_Namespace : string; om_UID : string; om_Generation : Z;
  om_Labels : gmap string string; om_Annotations : gmap string string;
  om_OwnerReferences : list OwnerReference }.
#[export] Instance ObjectMeta_eq : EqDecision ObjectMeta.
Proof. solve_decision. Defined.

(** [metav1.ObjectMeta{Name, Namespace, Labels, Annotations}]. *)
Definition new_meta (name namespace : string) (labels annotations : gmap string string) : ObjectMeta :=
  {| om_Name := name; om_Namespace := namespace; om_UID := ""; om_Generation := 0;
     om_Labels := labels; om_Annotations := annotations; om_OwnerReferences := [] |}.

Definition meta_key (m : ObjectMeta) : NamespacedName :=
  {| nn_Namespace := om_Namespace m; nn_Name := om_Name m |}.

(** [metav1.Condition]. *)
Record Condition := {
  cd_Type : string; cd_Status : string; cd_ObservedGeneration : Z;
  cd_LastTransitionTime : Z; cd_Reason : string; cd_Message : string }.
#[export] Instance Condition_eq : EqDecision Condition.
Proof. solve_decision. Defined.

Definition ConditionTrue : string := "True".
Definition ConditionFalse : string := "False".

(** ** Core objects *)

Record Secret := {
  sec_meta : ObjectMeta; sec_Data : gmap string string;
  sec_StringData : gmap string string; sec_Type : string }.
#[export] Instance Secret_eq : EqDecision Secret.
Proof. solve_decision. Defined.

Record ConfigMap := { cm_meta : ObjectMeta; cm_Data : gmap string string }.
#[export] Instance ConfigMap_eq : EqDecision ConfigMap.
Proof. solve_decision. Defined.

Record ServicePort := {
  sp_Name : string; sp_Port : Z; sp_TargetPort : Z; sp_Protocol : string }.
#[export] Instance ServicePort_eq : EqDecision ServicePort.
Proof. solve_decision. Defined.

Record Service := {
  svc_meta : ObjectMeta; svc_Type : string; svc_Selector : gmap string string;
  svc_Ports : list ServicePort; svc_ClusterIP : string; svc_other : gmap string string }.
#[export] Instance Service_eq : EqDecision Service.
Proof. solve_decision. Defined.

(** ** Pods *)

(** [corev1.ResourceRequirements]; a quantity is kept as its string. *)
Record ResourceRequirements := {
  rr_Requests : option (gmap string string); rr_Limits : option (gmap string string) }.
#[export] Instance ResourceRequirements_eq : EqDecision ResourceRequirements.
Proof. solve_decision. Defined.
Definition no_resources : ResourceRequirements := {| rr_Requests := None; rr_Limits := None |}.

Record KeySelector := { ks_Name : string; ks_Key : string; ks_Optional : option bool }.
#[export] Instance KeySelector_eq : EqDecision KeySelector.
Proof. solve_decision. Defined.

Record EnvVarSource := {
  evs_SecretKeyRef : option KeySelector; evs_ConfigMapKeyRef : option KeySelector }.
#[export] Instance EnvVarSource_eq : EqDecision EnvVarSource.
Proof. solve_decision. Defined.

Record EnvVar := { ev_Name : string; ev_Value : string; ev_ValueFrom : option EnvVarSource }.
#[export] Instance EnvVar_eq : EqDecision EnvVar.
Proof. solve_decision. Defined.

(** An environment entry with a literal value, and one reading a Secret key. *)
Definition env_value (name value : string) : EnvVar :=
  {| ev_Name := name; ev_Value := value; ev_ValueFrom := None |}.
Definition env_secret (name secretName key : string) : EnvVar :=
  {| ev_Name := name; ev_Value := "";
     ev_ValueFrom := Some {| evs_SecretKeyRef :=
       Some {| ks_Name := secretName; ks_Key := key; ks_Optional := None |};
       evs_ConfigMapKeyRef := None |} |}.
Definition env_configmap (name cmName key : string) : EnvVar :=
  {| ev_Name := name; ev_Value := "";
     ev_ValueFrom := Some {| evs_SecretKeyRef := None;
       evs_ConfigMapKeyRef :=
         Some {| ks_Name := cmName; ks_Key := key; ks_Optional := None |} |} |}.

(** [corev1.EnvFromSource] with only a [SecretRef]. *)
Record EnvFromSource := { efs_SecretRef : option string }.
#[export] Instance EnvFromSource_eq : EqDecision EnvFromSource.
Proof. solve_decision. Defined.

Record ContainerPort := { cp_Name : string; cp_ContainerPort : Z; cp_Protocol : string }.
#[export] Instance ContainerPort_eq : EqDecision ContainerPort.
Proof. solve_decision. Defined.

Record HTTPGetAction := { hg_Path : string; hg_Port : Z; hg_Scheme : string }.
#[export] Instance HTTPGetAction_eq : EqDecision HTTPGetAction.
Proof. solve_decision. Defined.

Record Probe := {
  pr_HTTPGet : option HTTPGetAction; pr_Exec : option (list string);
  pr_InitialDelaySeconds : Z; pr_TimeoutSeconds : Z; pr_PeriodSeconds : Z;
  pr_SuccessThreshold : Z; pr_FailureThreshold : Z }.
#[export] Instance Probe_eq : EqDecision Probe.
Proof. solve_decision. Defined.

Record VolumeMount := { vm_Name : string; vm_MountPath : string; vm_ReadOnly : bool }.
#[export] Instance VolumeMount_eq : EqDecision VolumeMount.
Proof. solve_decision. Defined.

(** A volume source that names an object and carries a default file mode. *)
Record NamedVolumeSource := { nv_Name : string; nv_DefaultMode : option Z }.
#[export] Instance NamedVolumeSource_eq : EqDecision NamedVolumeSource.
Proof. solve_decision. Defined.

Record Volume := {
  vol_Name : string; vol_ConfigMap : option NamedVolumeSource;
  vol_Secret : option NamedVolumeSource; vol_DownwardAPI : option NamedVolumeSource;
  vol_Projected : option NamedVolumeSource; vol_EmptyDir : bool }.
#[export] Instance Volume_eq : EqDecision Volume.
Proof. solve_decision. Defined.
Definition configmap_volume (name cm : string) (mode : option Z) : Volume :=
  {| vol_Name := name; vol_ConfigMap := Some {| nv_Name := cm; nv_DefaultMode := mode |};
     vol_Secret := None; vol_DownwardAPI := None; vol_Projected := None; vol_EmptyDir := false |}.
Definition emptydir_volume (name : string) : Volume :=
  {| vol_Name := name; vol_ConfigMap := None; vol_Secret := None; vol_DownwardAPI := None;
     vol_Projected := None; vol_EmptyDir := true |}.

Record Container := {
  ct_Name : string; ct_Image : string; ct_ImagePullPolicy : string;
  ct_Command : list string; ct_Args : list string;
  ct_Env : list EnvVar; ct_EnvFrom : list EnvFromSource;
  ct_Ports : list ContainerPort;
  ct_LivenessProbe : option Probe; ct_ReadinessProbe : option Probe;
  ct_StartupProbe : option Probe;
  ct_PreStop : option (list string);  (* Lifecycle.PreStop.Exec.Command *)
  ct_Resources : ResourceRequirements;
  ct_VolumeMounts : list VolumeMount;
  ct_TerminationMessagePath : string; ct_TerminationMessagePolicy : string }.
#[export] Instance Container_eq : EqDecision Container.
Proof. solve_decision. Defined.

(** The zero value of a container with a name and an image. *)
Definition new_container (name image : string) : Container :=
  {| ct_Name := name; ct_Image := image; ct_ImagePullPolicy := ""; ct_Command := [];
     ct_Args := []; ct_Env := []; ct_EnvFrom := []; ct_Ports := [];
     ct_LivenessProbe := None; ct_ReadinessProbe := None; ct_StartupProbe := None;
     ct_PreStop := None; ct_Resources := no_resources; ct_VolumeMounts := [];
     ct_TerminationMessagePath := ""; ct_TerminationMessagePolicy := "" |}.

Record PodSpec := {
  ps_RestartPolicy : string; ps_TerminationGracePeriodSeconds : option Z;
  ps_DNSPolicy : string;
  ps_SecurityContext : option (gmap string string);  (* nil, or the fields that are set *)
  ps_SchedulerName : string; ps_Volumes : list Volume;
  ps_InitContainers : list Container; ps_Containers : list Container;
  ps_ImagePullSecrets : list string; ps_other : gmap string string }.
#[export] Instance PodSpec_eq : EqDecision PodSpec.
Proof. solve_decision. Defined.
Definition new_podspec (init containers : list Container) (volumes : list Volume) : PodSpec :=
  {| ps_RestartPolicy := ""; ps_TerminationGracePeriodSeconds := None; ps_DNSPolicy := "";
     ps_SecurityContext := None; ps_SchedulerName := ""; ps_Volumes := volumes;
     ps_InitContainers := init; ps_Containers := containers; ps_ImagePullSecrets := [];
     ps_other := ∅ |}.

Record PodTemplateSpec := {
  pt_Labels : gmap string string; pt_Annotations : gmap string string; pt_Spec : PodSpec }.
#[export] Instance PodTemplateSpec_eq : EqDecision PodTemplateSpec.
Proof. solve_decision. Defined.

(** ** Workloads *)

Record DeploymentStrategy := { dst_Type : string; dst_RollingUpdate : option (string * string) }.
#[export] Instance DeploymentStrategy_eq : EqDecision DeploymentStrategy.
Proof. solve_decision. Defined.

Record DeploymentStatus := {
  dps_ObservedGeneration : Z; dps_UpdatedReplicas : Z; dps_ReadyReplicas : Z;
  dps_AvailableReplicas : Z; dps_UnavailableReplicas : Z }.
#[export] Instance DeploymentStatus_eq : EqDecision DeploymentStatus.
Proof. solve_decision. Defined.
Definition no_deployment_status : DeploymentStatus :=
  {| dps_ObservedGeneration := 0; dps_UpdatedReplicas := 0; dps_ReadyReplicas := 0;
     dps_AvailableReplicas := 0; dps_UnavailableReplicas := 0 |}.

Record Deployment := {
  dp_meta : ObjectMeta; dp_Replicas : option Z; dp_Selector : gmap string string;
  dp_Strategy : DeploymentStrategy; dp_Template : PodTemplateSpec;
  dp_other : gmap string string; dp_Status : DeploymentStatus }.
#[export] Instance Deployment_eq : EqDecision Deployment.
Proof. solve_decision. Defined.

Record JobCondition := { jc_Type : string; jc_Status : string; jc_Message : string }.
#[export] Instance JobCondition_eq : EqDecision JobCondition.
Proof. solve_decision. Defined.

Record JobSpec := {
  js_BackoffLimit : option Z; js_TTLSecondsAfterFinished : option Z;
  js_Template : PodTemplateSpec; js_other : gmap string string }.
#[export] Instance JobSpec_eq : EqDecision JobSpec.
Proof. solve_decision. Defined.

Record Job := {
  job_meta : ObjectMeta; job_Spec : JobSpec;
  job_Conditions : list JobCondition; job_Active : Z }.
#[export] Instance Job_eq : EqDecision Job.
Proof. solve_decision. Defined.

Record CronJobSpec := {
  cjs_Schedule : string; cjs_ConcurrencyPolicy : string;
  cjs_SuccessfulJobsHistoryLimit : option Z; cjs_FailedJobsHistoryLimit : option Z;
  cjs_StartingDeadlineSeconds : option Z; cjs_Suspend : option bool;
  cjs_JobTemplate : JobSpec }.
#[export] Instance CronJobSpec_eq : EqDecision CronJobSpec.
Proof. solve_decision. Defined.

Record CronJob := { cj_meta : ObjectMeta; cj_Spec : CronJobSpec }.
#[export] Instance CronJob_eq : EqDecision CronJob.
Proof. solve_decision. Defined.

(** ** CloudNativePG *)

(** [corev1.PersistentVolumeClaimSpec]: its quantities, and the other fields. *)
Record PersistentVolumeClaimSpec := {
  pvc_Resources : ResourceRequirements; pvc_other : gmap string string }.
#[export] Instance PersistentVolumeClaimSpec_eq : EqDecision PersistentVolumeClaimSpec.
Proof. solve_decision. Defined.

Record StorageConfiguration := {
  st_Size : string; st_StorageClass : option string; st_ResizeInUseVolumes : option bool;
  st_PersistentVolumeClaimTemplate : option PersistentVolumeClaimSpec }.
#[export] Instance StorageConfiguration_eq : EqDecision StorageConfiguration.
Proof. solve_decision. Defined.

Record RoleConfiguration := {
  rc_Name : string; rc_Comment : string; rc_Ensure : string;
  rc_PasswordSecret : option string; rc_ConnectionLimit : Z;
  rc_InRoles : list string; rc_Inherit : option bool;
  rc_Superuser : bool; rc_CreateDB : bool; rc_CreateRole : bool; rc_Login : bool;
  rc_Replication : bool; rc_BypassRLS : bool; rc_other : gmap string string }.
#[export] Instance RoleConfiguration_eq : EqDecision RoleConfiguration.
Proof. solve_decision. Defined.
(** [cnpgv1.RoleConfiguration{Name, Ensure, Comment}]. *)
Definition new_role (name ensure comment : string) : RoleConfiguration :=
  {| rc_Name := name; rc_Comment := comment; rc_Ensure := ensure; rc_PasswordSecret := None;
     rc_ConnectionLimit := 0; rc_InRoles := []; rc_Inherit := None; rc_Superuser := false;
     rc_CreateDB := false; rc_CreateRole := false; rc_Login := false;
     rc_Replication := false; rc_BypassRLS := false; rc_other := ∅ |}.

Record BootstrapInitDB := {
  ib_Database : string; ib_Owner : string; ib_Secret : option string;
  ib_PostInitApplicationSQLRefs : option (list (string * string));  (* ConfigMapRefs: name, key *)
  ib_other : gmap string string }.
#[export] Instance BootstrapInitDB_eq : EqDecision BootstrapInitDB.
Proof. solve_decision. Defined.

Record BootstrapRecovery := {
  br_Source : string; br_Database : string; br_Owner : string; br_Secret : option string;
  br_RecoveryTarget : option string;  (* RecoveryTarget.TargetTime *)
  br_other : gmap string string }.
#[export] Instance BootstrapRecovery_eq : EqDecision BootstrapRecovery.
Proof. solve_decision. Defined.

Record BootstrapConfiguration := {
  bc_InitDB : option BootstrapInitDB; bc_Recovery : option BootstrapRecovery }.
#[export] Instance BootstrapConfiguration_eq : EqDecision BootstrapConfiguration.
Proof. solve_decision. Defined.

Record PluginConfiguration := {
  pc_Name : string; pc_Enabled : option bool; pc_IsWALArchiver : option bool;
  pc_Parameters : gmap string string }.
#[export] Instance PluginConfiguration_eq : EqDecision PluginConfiguration.
Proof. solve_decision. Defined.

Record ExternalCluster := {
  ec_Name : string; ec_PluginConfiguration : option PluginConfiguration;
  ec_other : gmap string string }.
#[export] Instance ExternalCluster_eq : EqDecision ExternalCluster.
Proof. solve_decision. Defined.

Record PostgresConfiguration := {
  pg_Parameters : gmap string string; pg_PgHBA : list string;
  pg_AdditionalLibraries : list string; pg_other : gmap string string }.
#[export] Instance PostgresConfiguration_eq : EqDecision PostgresConfiguration.
Proof. solve_decision. Defined.

Record AffinityConfiguration := {
  af_EnablePodAntiAffinity : option bool; af_other : gmap string string }.
#[export] Instance AffinityConfiguration_eq : EqDecision AffinityConfiguration.
Proof. solve_decision. Defined.

Record ManagedConfiguration := {
  mg_Roles : list RoleConfiguration; mg_other : gmap string string }.
#[export] Instance ManagedConfiguration_eq : EqDecision ManagedConfiguration.
Proof. solve_decision. Defined.

Record ClusterSpec := {
  cs_Instances : Z; cs_ImageName : string; cs_EnableSuperuserAccess : option bool;
  cs_Bootstrap : option BootstrapConfiguration;
  cs_PostgresConfiguration : PostgresConfiguration;
  cs_StorageConfiguration : StorageConfiguration;
  cs_Managed : option ManagedConfiguration;
  cs_Resources : ResourceRequirements; cs_Affinity : AffinityConfiguration;
  cs_Plugins : list PluginConfiguration; cs_ExternalClusters : list ExternalCluster;
  cs_other : gmap string string }.
#[export] Instance ClusterSpec_eq : EqDecision ClusterSpec.
Proof. solve_decision. Defined.

Record ClusterStatus := {
  cst_ReadyInstances : Z; cst_Phase : string; cst_CurrentPrimary : string;
  cst_ByStatus : gmap string (list string);          (* ManagedRolesStatus.ByStatus *)
  cst_CannotReconcile : gmap string (list string) }. (* ManagedRolesStatus.CannotReconcile *)
#[export] Instance ClusterStatus_eq : EqDecision ClusterStatus.
Proof. solve_decision. Defined.
Definition no_cluster_status : ClusterStatus :=
  {| cst_ReadyInstances := 0; cst_Phase := ""; cst_CurrentPrimary := "";
     cst_ByStatus := ∅; cst_CannotReconcile := ∅ |}.

Record Cluster := { cl_meta : ObjectMeta; cl_Spec : ClusterSpec; cl_Status : ClusterStatus }.
#[export] Instance Cluster_eq : EqDecision Cluster.
Proof. solve_decision. Defined.

Record PublicationTargetObject := { pto_TablesInSchema : string }.
#[export] Instance PublicationTargetObject_eq : EqDecision PublicationTargetObject.
Proof. solve_decision. Defined.

Record PublicationSpec := {
  pbs_ClusterRef : string; pbs_Name : string; pbs_DBName : string;
  pbs_Objects : list PublicationTargetObject; pbs_ReclaimPolicy : string;
  pbs_other : gmap string string }.
#[export] Instance PublicationSpec_eq : EqDecision PublicationSpec.
Proof. solve_decision. Defined.

Record PublicationStatus := {
  pbt_ObservedGeneration : Z; pbt_Applied : option bool; pbt_Message : string }.
#[export] Instance PublicationStatus_eq : EqDecision PublicationStatus.
Proof. solve_decision. Defined.

Record Publication := {
  pb_meta : ObjectMeta; pb_Spec : PublicationSpec; pb_Status : PublicationStatus }.
#[export] Instance Publication_eq : EqDecision Publication.
Proof. solve_decision. Defined.

(** ** Backup: Barman Cloud object stores and CNPG schedules *)

Record SecretKeyRef := { skr_Name : string; skr_Key : string }.
#[export] Instance SecretKeyRef_eq : EqDecision SecretKeyRef.
Proof. solve_decision. Defined.

Record S3Credentials := {
  s3_AccessKeyIDReference : option SecretKeyRef;
  s3_SecretAccessKeyReference : option SecretKeyRef; s3_other : gmap string string }.
#[export] Instance S3Credentials_eq : EqDecision S3Credentials.
Proof. solve_decision. Defined.

(** [barmanapi.BarmanCredentials]; the operator builds S3 credentials only, the
    server may hold those of the other providers. *)
Record BarmanCredentials := {
  bcr_AWS : option S3Credentials; bcr_Azure : option (gmap string string);
  bcr_Google : option (gmap string string) }.
#[export] Instance BarmanCredentials_eq : EqDecision BarmanCredentials.
Proof. solve_decision. Defined.

Record WalBackupConfiguration := {
  wal_Compression : string; wal_MaxParallel : Z; wal_other : gmap string string }.
#[export] Instance WalBackupConfiguration_eq : EqDecision WalBackupConfiguration.
Proof. solve_decision. Defined.
Record DataBackupConfiguration := { dat_Compression : string; dat_other : gmap string string }.
#[export] Instance DataBackupConfiguration_eq : EqDecision DataBackupConfiguration.
Proof. solve_decision. Defined.

Record BarmanObjectStoreConfiguration := {
  bo_BarmanCredentials : BarmanCredentials;
  bo_EndpointURL : string; bo_DestinationPath : string;
  bo_Wal : option WalBackupConfiguration; bo_Data : option DataBackupConfiguration;
  bo_other : gmap string string }.
#[export] Instance BarmanObjectStoreConfiguration_eq : EqDecision BarmanObjectStoreConfiguration.
Proof. solve_decision. Defined.

Record ObjectStore := {
  os_meta : ObjectMeta; os_Configuration : BarmanObjectStoreConfiguration;
  os_RetentionPolicy : string; os_other : gmap string string }.
#[export] Instance ObjectStore_eq : EqDecision ObjectStore.
Proof. solve_decision. Defined.

Record ScheduledBackup := {
  sb_meta : ObjectMeta; sb_Schedule : string; sb_Cluster : string;
  sb_BackupOwnerReference : string; sb_Method : string;
  sb_PluginConfiguration : option (string * gmap string string);
  sb_other : gmap string string }.
#[export] Instance ScheduledBackup_eq : EqDecision ScheduledBackup.
Proof. solve_decision. Defined.
