(* ===== verification/Types.v ===== *)
(** * The SupabaseProject API (src/api/v1alpha1)

    The custom resource the operator reconciles, as in
    supabaseproject_types.go, its admission rules (the kubebuilder
    validation markers of the same file) as boolean predicates, and the
    effective publication schemas of publication_schemas.go. *)

From S2P Require Import Prelude KubeTypes.
From Stdlib Require Import Ascii.

(** ** Constants *)

Definition PhasePending : string := "Pending".
Definition PhaseProvisioning : string := "Provisioning".
Definition PhaseRunning : string := "Running".

Definition ConditionTypeReady : string := "Ready".
Definition ConditionTypeSecretsReady : string := "SecretsReady".
Definition ConditionTypeDatabaseReady : string := "DatabaseReady".
Definition ConditionTypeAuthReady : string := "AuthReady".
Definition ConditionTypeRestReady : string := "RestReady".
Definition ConditionTypeStudioReady : string := "StudioReady".
Definition ConditionTypeMetaReady : string := "MetaReady".
Definition ConditionTypeGatewayReady : string := "GatewayReady".
Definition ConditionTypeBackupReady : string := "BackupReady".
Definition ConditionTypeRecoveryReady : string := "RecoveryReady".
Definition ConditionTypeCDCReady : string := "CDCReady".
Definition ConditionTypePowersyncReady : string := "PowersyncReady".

(** [GroupVersion.Group] of groupversion_info.go. *)
Definition GroupVersion_Group : string := "supabase.guion.dev".

(** ** Spec *)

Record S3Config := {
  s3c_DestinationPath : string; s3c_EndpointURL : string; s3c_S3CredentialsSecret : string }.

Record BackupSpec := {
  bks_Enabled : bool; bks_Schedule : string; bks_RetentionPolicy : string;
  bks_S3Config : S3Config; bks_WalCompression : string; bks_DataCompression : string }.

Record RecoverySpec := {
  rcs_Enabled : bool; rcs_ServerName : string; rcs_TargetTime : string;
  rcs_S3Config : S3Config }.

Record DatabaseSpec := {
  db_Instances : Z; db_Storage : StorageConfiguration; db_Image : string;
  db_Resources : ResourceRequirements; db_EnableSuperuserAccess : bool;
  db_Parameters : gmap string string; db_AdditionalPreloadLibraries : list string;
  db_AdditionalExtensions : list string;
  db_Backup : option BackupSpec; db_Recovery : option RecoverySpec;
  db_AdditionalRoles : list RoleConfiguration }.

Record GoTrueEnvKeySelector := { gk_Name : string; gk_Key : string; gk_Optional : option bool }.

Record GoTrueEnvValueFrom := {
  gv_SecretKeyRef : option GoTrueEnvKeySelector;
  gv_ConfigMapKeyRef : option GoTrueEnvKeySelector }.

Record GoTrueEnvVar := {
  ge_Name : string; ge_Value : option string; ge_ValueFrom : option GoTrueEnvValueFrom }.

Record GoogleProviderSpec := { gp_Enabled : bool; gp_SkipNonceCheck : bool }.
Record AppleProviderSpec := { ap_Enabled : bool }.
Record AuthProvidersSpec := {
  aps_Google : option GoogleProviderSpec; aps_Apple : option AppleProviderSpec;
  aps_SecretRef : string }.
Record EmailHookSpec := { eh_Enabled : bool; eh_URI : string }.
Record SMTPSpec := {
  smtp_Host : string; smtp_Port : Z; smtp_User : string; smtp_SecretRef : string;
  smtp_SenderName : string; smtp_AdminEmail : string }.

Record AuthSpec := {
  as_ImageTag : string; as_Replicas : Z; as_SiteURL : string; as_ExternalURL : string;
  as_AccessTokenExpirationSeconds : Z; as_DisableSignup : bool;
  as_EnableAnonymousUsers : bool; as_AutoConfirmEmail : bool;
  as_GoTrueEnv : list GoTrueEnvVar; as_Providers : option AuthProvidersSpec;
  as_EmailHook : option EmailHookSpec; as_SMTP : option SMTPSpec;
  as_Resources : ResourceRequirements }.

Record RestSpec := {
  rs_ImageTag : string; rs_Replicas : Z; rs_Schemas : list string;
  rs_Resources : ResourceRequirements }.

Record StudioSpec := {
  ss_ImageTag : string; ss_Replicas : Z; ss_PublicURL : string;
  ss_OrganizationName : string; ss_ProjectName : string; ss_Resources : ResourceRequirements }.

Record MetaSpec := { ms_ImageTag : string; ms_Replicas : Z; ms_Resources : ResourceRequirements }.
Record GatewaySpec := { gs_ImageTag : string; gs_Replicas : Z; gs_Resources : ResourceRequirements }.

Record ImageSpec := {
  is_Registry : string; is_Repository : string; is_Tag : string; is_PullPolicy : string }.

Record PowersyncAPISpec := {
  pa_Replicas : Z; pa_Resources : ResourceRequirements; pa_NodeOptions : string }.
Record PowersyncReplicationSpec := {
  pr_Resources : ResourceRequirements; pr_NodeOptions : string }.
Record SyncRulesSpec := { sr_Inline : string; sr_ConfigMapRef : string }.
Record PowersyncCompactSpec := {
  pcs_Enabled : bool; pcs_Schedule : string; pcs_Resources : ResourceRequirements }.

(** [ps_PublicationSchemas] is tested for nil, hence the [option]. *)
Record PowersyncSpec := {
  pss_PublicationSchemas : option (list string); pss_Image : ImageSpec;
  pss_API : PowersyncAPISpec; pss_Replication : PowersyncReplicationSpec;
  pss_SyncRules : SyncRulesSpec; pss_Compact : PowersyncCompactSpec }.

Record SupabaseProjectSpec := {
  sps_Database : DatabaseSpec; sps_ProjectCredentialsSecret : string;
  sps_Auth : AuthSpec; sps_Rest : RestSpec; sps_Studio : StudioSpec; sps_Meta : MetaSpec;
  sps_Gateway : GatewaySpec; sps_Powersync : option PowersyncSpec;
  sps_ImagePullSecrets : list string }.

(** ** Status *)

Record DatabaseStatus := {
  dbs_Ready : bool; dbs_Phase : string; dbs_ReadyInstances : Z; dbs_PrimaryHost : string }.
#[export] Instance DatabaseStatus_eq : EqDecision DatabaseStatus.
Proof. solve_decision. Defined.

Record ServiceStatus := { svs_Ready : bool; svs_AvailableReplicas : Z }.
#[export] Instance ServiceStatus_eq : EqDecision ServiceStatus.
Proof. solve_decision. Defined.
(** [supabasev1alpha1.ServiceStatus{}]. *)
Definition no_service_status : ServiceStatus := {| svs_Ready := false; svs_AvailableReplicas := 0 |}.

Record ServicesStatus := {
  sv_Auth : ServiceStatus; sv_Rest : ServiceStatus; sv_Studio : ServiceStatus;
  sv_Meta : ServiceStatus; sv_Gateway : ServiceStatus;
  sv_PowersyncAPI : ServiceStatus; sv_PowersyncReplication : ServiceStatus }.
#[export] Instance ServicesStatus_eq : EqDecision ServicesStatus.
Proof. solve_decision. Defined.

Record SecretNamesStatus := {
  sn_GoTrueFallback : string; sn_SupabaseAdmin : string; sn_Authenticator : string;
  sn_AuthAdmin : string; sn_EmailHook : string;
  sn_PowersyncStoragePassword : string; sn_PowersyncReplicationPassword : string }.
#[export] Instance SecretNamesStatus_eq : EqDecision SecretNamesStatus.
Proof. solve_decision. Defined.
Definition no_secret_names : SecretNamesStatus :=
  {| sn_GoTrueFallback := ""; sn_SupabaseAdmin := ""; sn_Authenticator := "";
     sn_AuthAdmin := ""; sn_EmailHook := ""; sn_PowersyncStoragePassword := "";
     sn_PowersyncReplicationPassword := "" |}.

Record EndpointsStatus := { ep_API : string; ep_Database : string }.
#[export] Instance EndpointsStatus_eq : EqDecision EndpointsStatus.
Proof. solve_decision. Defined.

Record SupabaseProjectStatus := {
  sts_Phase : string; sts_Conditions : list Condition; sts_Database : DatabaseStatus;
  sts_Services : ServicesStatus; sts_SecretNames : SecretNamesStatus;
  sts_Endpoints : EndpointsStatus; sts_ObservedGeneration : Z }.
#[export] Instance SupabaseProjectStatus_eq : EqDecision SupabaseProjectStatus.
Proof. solve_decision. Defined.

Record SupabaseProject := {
  prj_meta : ObjectMeta; prj_Spec : SupabaseProjectSpec; prj_Status : SupabaseProjectStatus }.

Definition prj_Name (p : SupabaseProject) : string := om_Name (prj_meta p).
Definition prj_Namespace (p : SupabaseProject) : string := om_Namespace (prj_meta p).

(** ** Publication schemas (publication_schemas.go) *)

Definition is_lower (c : ascii) : bool := (97 <=? byte_Z c) && (byte_Z c <=? 122).
Definition is_digit (c : ascii) : bool := (48 <=? byte_Z c) && (byte_Z c <=? 57).
Definition is_underscore (c : ascii) : bool := byte_Z c =? 95.

(** The regular expression ^[a-z_][a-z0-9_]*$ of [publicationSchemaIdentifier]. *)
Definition publicationSchemaIdentifier (s : string) : bool :=
  match s with
  | EmptyString => false
  | String c s =>
      (is_lower c || is_underscore c) &&
      str_forallb (λ c, is_lower c || is_digit c || is_underscore c) s
  end.

(** The loop over the declared schemas: [i] is the index, [seen] the map. *)
Fixpoint check_schemas (schemas : list string) (i : nat) (seen : gset string) : result unit :=
  match schemas with
  | [] => inr tt
  | schema :: rest =>
      if bool_decide (63 < String.length schema)%nat || negb (publicationSchemaIdentifier schema)
      then inl (ErrorString ("powersync.publicationSchemas[" +:+ pretty i +:+
             "] must be a lowercase ASCII identifier of 1–63 characters"))
      else if bool_decide (schema ∈ seen)
      then inl (ErrorString ("powersync.publicationSchemas contains duplicate schema " +:+
             dq +:+ schema +:+ dq))
      else check_schemas rest (S i) ({[schema]} ∪ seen)
  end.

Definition EffectivePublicationSchemas (p : SupabaseProject) : result (list string) :=
  match sps_Powersync (prj_Spec p) ≫= pss_PublicationSchemas with
  | None => inr ["public"]
  | Some [] =>
      inl (ErrorString "powersync.publicationSchemas must contain at least one schema")
  | Some schemas => _ ← check_schemas schemas 0 ∅; mret schemas
  end.

(** ** Admission rules (kubebuilder markers of supabaseproject_types.go) *)

(** MinItems=1, items:Pattern, items:MaxLength=63 and listType=set. *)
Definition admitted_publication_schemas (l : list string) : bool :=
  bool_decide (l ≠ []) &&
  forallb (λ s, publicationSchemaIdentifier s && bool_decide (String.length s ≤ 63)%nat) l &&
  bool_decide (NoDup l).

(** Exactly one of inline and configMapRef. *)
Definition admitted_sync_rules (r : SyncRulesSpec) : bool :=
  xorb (bool_decide (sr_Inline r ≠ "")) (bool_decide (sr_ConfigMapRef r ≠ "")).

(** Distinct destinationPath values when backup and recovery are both enabled. *)
Definition admitted_database (d : DatabaseSpec) : bool :=
  match db_Backup d, db_Recovery d with
  | Some b, Some r =>
      negb (bks_Enabled b) || negb (rcs_Enabled r) ||
      negb (bool_decide (s3c_DestinationPath (bks_S3Config b) =
                         s3c_DestinationPath (rcs_S3Config r)))
  | _, _ => true
  end.

(** ** Properties *)

Lemma check_schemas_spec l i seen :
  check_schemas l i seen = inr tt ↔
  forallb (λ s, publicationSchemaIdentifier s && bool_decide (String.length s ≤ 63)%nat) l = true ∧
  NoDup l ∧ ∀ s, s ∈ l → s ∉ seen.
Proof.
  revert i seen. induction l as [|s l IH]; intros i seen; cbn.
  { split; [|done]. intros _. split_and!; [done | constructor | set_solver]. }
  rewrite NoDup_cons.
  destruct (publicationSchemaIdentifier s); cbn; [|rewrite orb_true_r; naive_solver].
  rewrite orb_false_r. destruct (decide (63 < String.length s)%nat).
  { rewrite bool_decide_eq_true_2, bool_decide_eq_false_2 by lia. naive_solver. }
  rewrite bool_decide_eq_false_2, (bool_decide_eq_true_2 (_ ≤ 63)%nat) by lia. cbn.
  destruct (decide (s ∈ seen)) as [Hin|Hin].
  - rewrite bool_decide_eq_true_2 by done. split; [done|].
    intros (_ & _ & Hs). by destruct (Hs s); [left|].
  - rewrite bool_decide_eq_false_2, IH by done. set_solver.
Qed.

(** C28: [EffectivePublicationSchemas] accepts an explicit list exactly when
    CRD admission does (at least one, identifiers of 1 to 63 characters, no
    duplicate) and returns it unchanged; only an omitted list, or a project
    without PowerSync, gets the default [public]. *)
Theorem EffectivePublicationSchemas_admission (p : SupabaseProject) :
  match sps_Powersync (prj_Spec p) ≫= pss_PublicationSchemas with
  | None => EffectivePublicationSchemas p = inr ["public"]
  | Some l =>
      (admitted_publication_schemas l = true → EffectivePublicationSchemas p = inr l) ∧
      (admitted_publication_schemas l = false → ∃ e, EffectivePublicationSchemas p = inl e)
  end.
Proof.
  unfold EffectivePublicationSchemas, admitted_publication_schemas.
  destruct (sps_Powersync _ ≫= _) as [[|s l]|]; [naive_solver| |done].
  rewrite (bool_decide_eq_true_2 (_ :: _ ≠ [])) by done.
  destruct (check_schemas (s :: l) 0 ∅) as [e|[]] eqn:E.
  - split; [|naive_solver]. intros H; bools. cut (check_schemas (s :: l) 0 ∅ = inr tt); [congruence|].
    apply check_schemas_spec. set_solver.
  - apply check_schemas_spec in E as (-> & ? & _).
    rewrite bool_decide_eq_true_2 by done. naive_solver.
Qed.
