(* ===== verification/Platform.v ===== *)
(** * The Kubernetes libraries the operator calls

    Functions of k8s.io/apimachinery, controller-runtime, CNPG and
    sigs.k8s.io/yaml are parameters of the development, gathered in the class
    [Platform]; what the operator relies on of their documented behaviour is
    the class [PlatformLaws].  Semantic equality is extended here from
    resource requirements, which hold quantities, to containers and pods. *)

From S2P Require Import Prelude KubeTypes Types.

Class Platform := {
  (** k8s.io/apimachinery/pkg/api/meta: status conditions *)
  SetStatusCondition : list Condition → Condition → list Condition;
  FindStatusCondition : list Condition → string → option Condition;
  RemoveStatusCondition : list Condition → string → list Condition;
  (** controllerutil.SetControllerReference(owner, controlled): the owner
      references of the controlled object afterwards *)
  SetControllerReference : ObjectMeta → ObjectMeta → result (list OwnerReference);
  (** metav1.IsControlledBy(object, owner) *)
  IsControlledBy : ObjectMeta → ObjectMeta → bool;
  (** schema.ParseGroupVersion: the group of an apiVersion *)
  ParseGroupVersion : string → result string;
  (** resource.Quantity *)
  Quantity : Type;
  ParseQuantity : string → result Quantity;
  QuantityCmp : Quantity → Quantity → comparison;
  (** apiequality.Semantic.DeepEqual on resource requirements *)
  ResourcesDeepEqual : ResourceRequirements → ResourceRequirements → bool;
  (** cnpgv1.Cluster.Default: CNPG's admission defaults *)
  ClusterDefault : Cluster → Cluster;
  (** yaml.Unmarshal of sync_rules.yaml into config.edition and whether
      streams is non-nil *)
  UnmarshalSyncRules : string → result (Z * bool);
  (** fmt's %q verb on a string (strconv.Quote) *)
  Quote : string → string
}.

Class PlatformLaws `{Platform} := {
  FindStatusCondition_Set_eq cs c :
    ∃ t, FindStatusCondition (SetStatusCondition cs c) (cd_Type c) =
         Some (c <| cd_LastTransitionTime := t |>);
  FindStatusCondition_Set_ne cs c ty :
    ty ≠ cd_Type c →
    FindStatusCondition (SetStatusCondition cs c) ty = FindStatusCondition cs ty;
  FindStatusCondition_Remove_eq cs ty :
    FindStatusCondition (RemoveStatusCondition cs ty) ty = None;
  FindStatusCondition_Remove_ne cs ty ty' :
    ty' ≠ ty →
    FindStatusCondition (RemoveStatusCondition cs ty) ty' = FindStatusCondition cs ty';
  (** a second call changes nothing *)
  SetControllerReference_idemp o m refs :
    SetControllerReference o m = inr refs →
    SetControllerReference o (m <| om_OwnerReferences := refs |>) = inr refs;
  (** only the owner references, the namespace and the owner matter *)
  SetControllerReference_meta o m m' :
    om_Namespace m = om_Namespace m' → om_OwnerReferences m = om_OwnerReferences m' →
    SetControllerReference o m = SetControllerReference o m';
  SetControllerReference_controls o m refs :
    SetControllerReference o m = inr refs →
    IsControlledBy (m <| om_OwnerReferences := refs |>) o = true;
  (** the owner is referred to by its kind, group and name, as the controller *)
  SetControllerReference_names o m refs :
    SetControllerReference o m = inr refs →
    ∃ r, r ∈ refs ∧ or_Controller r = Some true ∧ or_Kind r = "SupabaseProject" ∧
         or_Name r = om_Name o ∧ ParseGroupVersion (or_APIVersion r) = inr GroupVersion_Group;
  (** only the owner references of the controlled object matter *)
  IsControlledBy_refs m m' o :
    om_OwnerReferences m = om_OwnerReferences m' → IsControlledBy m o = IsControlledBy m' o;
  (** CNPG's defaults are defaults of the spec *)
  ClusterDefault_meta c : cl_meta (ClusterDefault c) = cl_meta c;
  QuantityCmp_refl q : QuantityCmp q q = Eq;
  ResourcesDeepEqual_laws : @DeepEqualLaws ResourceRequirements ResourcesDeepEqual
}.

(** ** Semantic equality of the object types *)

#[export] Instance string_deq : DeepEqual string := eq_deep_equal.
#[export] Instance bool_deq : DeepEqual bool := eq_deep_equal.
#[export] Instance strmap_deq : DeepEqual (gmap string string) := eq_deep_equal.
#[export] Instance OwnerReferences_deq : DeepEqual (list OwnerReference) := eq_deep_equal.
#[export] Instance Strategy_deq : DeepEqual DeploymentStrategy := eq_deep_equal.
#[export] Instance SqlRefs_deq : DeepEqual (option (list (string * string))) := eq_deep_equal.
#[export] Instance Recovery_deq : DeepEqual BootstrapRecovery := eq_deep_equal.
#[export] Instance Plugin_deq : DeepEqual PluginConfiguration := eq_deep_equal.
#[export] Instance Roles_deq : DeepEqual (list RoleConfiguration) := eq_deep_equal.
#[export] Instance strlist_deq : DeepEqual (list string) := eq_deep_equal.
#[export] Instance optZ_deq : DeepEqual (option Z) := eq_deep_equal.
#[export] Instance optbool_deq : DeepEqual (option bool) := eq_deep_equal.
#[export] Instance optstring_deq : DeepEqual (option string) := eq_deep_equal.
#[export] Instance optstrmap_deq : DeepEqual (option (gmap string string)) := eq_deep_equal.
#[export] Instance BarmanCredentials_deq : DeepEqual BarmanCredentials := eq_deep_equal.
#[export] Instance Wal_deq : DeepEqual (option WalBackupConfiguration) := eq_deep_equal.
#[export] Instance Data_deq : DeepEqual (option DataBackupConfiguration) := eq_deep_equal.
#[export] Instance BackupPlugin_deq : DeepEqual (option (string * gmap string string)) := eq_deep_equal.
#[export] Instance PublicationSpec_deq : DeepEqual PublicationSpec := eq_deep_equal.
#[export] Instance ServicePorts_deq : DeepEqual (list ServicePort) := eq_deep_equal.
#[export] Instance ServiceStatus_deq : DeepEqual ServiceStatus := eq_deep_equal.
#[export] Instance Status_deq : DeepEqual SupabaseProjectStatus := eq_deep_equal.

Section SemanticEquality.
Context `{Platform}.

#[export] Instance Resources_deq : DeepEqual ResourceRequirements := ResourcesDeepEqual.

(** A volume claim, or none: quantities semantically. *)
#[export] Instance PersistentVolumeClaim_deq : DeepEqual (option PersistentVolumeClaimSpec) := λ a b,
  match a, b with
  | Some a, Some b => deep_equal (pvc_Resources a) (pvc_Resources b) &&
                      bool_decide (pvc_other a = pvc_other b)
  | None, None => true
  | _, _ => false
  end.

(** Containers: resources semantically, every other field exactly. *)
#[export] Instance Container_deq : DeepEqual Container := λ a b,
  deep_equal (ct_Resources a) (ct_Resources b) &&
  bool_decide (a <| ct_Resources := no_resources |> = b <| ct_Resources := no_resources |>).

Fixpoint containers_deep_equal (a b : list Container) : bool :=
  match a, b with
  | [], [] => true
  | x :: a, y :: b => deep_equal x y && containers_deep_equal a b
  | _, _ => false
  end.
#[export] Instance Containers_deq : DeepEqual (list Container) := containers_deep_equal.

#[export] Instance PodSpec_deq : DeepEqual PodSpec := λ a b,
  deep_equal (ps_InitContainers a) (ps_InitContainers b) &&
  deep_equal (ps_Containers a) (ps_Containers b) &&
  bool_decide (a <| ps_InitContainers := [] |> <| ps_Containers := [] |> =
               b <| ps_InitContainers := [] |> <| ps_Containers := [] |>).

#[export] Instance PodTemplate_deq : DeepEqual PodTemplateSpec := λ a b,
  bool_decide (pt_Labels a = pt_Labels b) &&
  bool_decide (pt_Annotations a = pt_Annotations b) &&
  deep_equal (pt_Spec a) (pt_Spec b).

#[export] Instance JobSpec_deq : DeepEqual JobSpec := λ a b,
  deep_equal (js_BackoffLimit a) (js_BackoffLimit b) &&
  deep_equal (js_TTLSecondsAfterFinished a) (js_TTLSecondsAfterFinished b) &&
  deep_equal (js_Template a) (js_Template b) &&
  deep_equal (js_other a) (js_other b).

#[export] Instance CronJobSpec_deq : DeepEqual CronJobSpec := λ a b,
  bool_decide (cjs_Schedule a = cjs_Schedule b) &&
  bool_decide (cjs_ConcurrencyPolicy a = cjs_ConcurrencyPolicy b) &&
  deep_equal (cjs_SuccessfulJobsHistoryLimit a) (cjs_SuccessfulJobsHistoryLimit b) &&
  deep_equal (cjs_FailedJobsHistoryLimit a) (cjs_FailedJobsHistoryLimit b) &&
  deep_equal (cjs_StartingDeadlineSeconds a) (cjs_StartingDeadlineSeconds b) &&
  deep_equal (cjs_Suspend a) (cjs_Suspend b) &&
  deep_equal (cjs_JobTemplate a) (cjs_JobTemplate b).

Context `{!PlatformLaws}.

#[export] Instance Resources_deq_laws : DeepEqualLaws ResourceRequirements :=
  ResourcesDeepEqual_laws.

#[export] Instance PersistentVolumeClaim_deq_laws : DeepEqualLaws (option PersistentVolumeClaimSpec).
Proof.
  split; unfold deep_equal, PersistentVolumeClaim_deq.
  - intros [x|]; [|done]. by rewrite deep_equal_refl, bool_decide_eq_true_2.
  - intros [x|] [y|]; try done. intros Hxy; bools. apply andb_true_intro; split;
      [by apply deep_equal_sym | by apply bool_decide_eq_true_2].
  - intros [x|] [y|] [z|]; try done. intros Hxy Hyz; bools. apply andb_true_intro; split;
      [by eapply deep_equal_trans | apply bool_decide_eq_true_2; by etrans].
Qed.

#[export] Instance Container_deq_laws : DeepEqualLaws Container.
Proof.
  split; unfold deep_equal, Container_deq.
  - intros x. by rewrite deep_equal_refl, bool_decide_eq_true_2.
  - intros x y Hxy; bools. apply andb_true_intro; split.
    + by apply deep_equal_sym.
    + by apply bool_decide_eq_true_2.
  - intros x y z Hxy Hyz; bools. apply andb_true_intro; split.
    + by eapply deep_equal_trans.
    + apply bool_decide_eq_true_2. by etrans.
Qed.

#[export] Instance Containers_deq_laws : DeepEqualLaws (list Container).
Proof.
  split; unfold deep_equal, Containers_deq.
  - intros x. induction x as [|c x IH]; cbn; [done|]. by rewrite deep_equal_refl, IH.
  - intros x. induction x as [|c x IH]; intros [|d y]; cbn; try done.
    intros Hxy; bools. apply andb_true_intro; split; [by apply deep_equal_sym | by apply IH].
  - intros x. induction x as [|c x IH]; intros [|d y] [|e z]; cbn; try done.
    intros Hxy Hyz; bools. apply andb_true_intro; split;
      [by eapply deep_equal_trans | by eapply IH].
Qed.

(** Conjunctions of comparisons are lawful field by field. *)
#[local] Hint Extern 5 (DeepEqualLaws _) => exact eq_deep_equal_laws : typeclass_instances.
Ltac deq_fields :=
  repeat match goal with H : _ = true |- _ => apply andb_prop in H as [??] end;
  repeat (apply andb_true_intro; split);
  repeat match goal with H : bool_decide _ = true |- _ => apply bool_decide_eq_true in H end;
  first [apply deep_equal_refl | apply deep_equal_sym; assumption
        | eapply deep_equal_trans; eassumption | apply bool_decide_eq_true; congruence].

#[export] Instance PodSpec_deq_laws : DeepEqualLaws PodSpec.
Proof. split; intros; change (@deep_equal PodSpec _ ?x ?y) with (PodSpec_deq x y) in *; deq_fields. Qed.
#[export] Instance PodTemplate_deq_laws : DeepEqualLaws PodTemplateSpec.
Proof. split; intros; change (@deep_equal PodTemplateSpec _ ?x ?y) with (PodTemplate_deq x y) in *; deq_fields. Qed.
#[export] Instance JobSpec_deq_laws : DeepEqualLaws JobSpec.
Proof. split; intros; change (@deep_equal JobSpec _ ?x ?y) with (JobSpec_deq x y) in *; deq_fields. Qed.
#[export] Instance CronJobSpec_deq_laws : DeepEqualLaws CronJobSpec.
Proof. split; intros; change (@deep_equal CronJobSpec _ ?x ?y) with (CronJobSpec_deq x y) in *; deq_fields. Qed.
Lemma PodTemplate_deep_equal_refl (t : PodTemplateSpec) : deep_equal t t = true.
Proof. apply deep_equal_refl. Qed.
End SemanticEquality.
