(* ===== verification/Effects.v ===== *)
(** * Effects: programs that talk to the Kubernetes API server

    A controller function is a finite tree of requests (the API client's Get,
    Create, Update, Delete, List and status update, the clock and
    crypto/rand), each followed by a continuation on the server's answer: the
    server itself is not modelled, every theorem quantifies over its answers.
    The monad [M] adds the [*SupabaseProject] the controller mutates and Go
    errors.  The end of the file is a rely-guarantee logic on such programs:
    [safe] bounds the requests a program may make after a given history, for
    all answers a server may give. *)

From S2P Require Import Prelude KubeTypes Types.

(** ** Requests and responses *)

Inductive kind :=
| KSecret | KConfigMap | KService | KDeployment | KJob | KCronJob
| KCluster | KScheduledBackup | KObjectStore | KPublication | KProject.
#[export] Instance kind_eq : EqDecision kind.
Proof. solve_decision. Defined.

Definition object (k : kind) : Type :=
  match k with
  | KSecret => Secret | KConfigMap => ConfigMap | KService => Service
  | KDeployment => Deployment | KJob => Job | KCronJob => CronJob
  | KCluster => Cluster | KScheduledBackup => ScheduledBackup
  | KObjectStore => ObjectStore | KPublication => Publication
  | KProject => SupabaseProject
  end.

Definition obj_meta {k} : object k → ObjectMeta :=
  match k with
  | KSecret => sec_meta | KConfigMap => cm_meta | KService => svc_meta
  | KDeployment => dp_meta | KJob => job_meta | KCronJob => cj_meta
  | KCluster => cl_meta | KScheduledBackup => sb_meta
  | KObjectStore => os_meta | KPublication => pb_meta | KProject => prj_meta
  end.

Definition set_meta {k} : ObjectMeta → object k → object k :=
  match k with
  | KSecret => λ m o, o <| sec_meta := m |>
  | KConfigMap => λ m o, o <| cm_meta := m |>
  | KService => λ m o, o <| svc_meta := m |>
  | KDeployment => λ m o, o <| dp_meta := m |>
  | KJob => λ m o, o <| job_meta := m |>
  | KCronJob => λ m o, o <| cj_meta := m |>
  | KCluster => λ m o, o <| cl_meta := m |>
  | KScheduledBackup => λ m o, o <| sb_meta := m |>
  | KObjectStore => λ m o, o <| os_meta := m |>
  | KPublication => λ m o, o <| pb_meta := m |>
  | KProject => λ m o, o <| prj_meta := m |>
  end.

Definition obj_key {k} (o : object k) : NamespacedName := meta_key (obj_meta o).

(** [Update] and [StatusUpdate] answer with the stored object, which the
    client decodes back into its argument. *)
Inductive request :=
| Get (k : kind) (key : NamespacedName)
| Create (k : kind) (o : object k)
| Update (k : kind) (o : object k)
| Delete (k : kind) (o : object k) (foreground : bool)
| StatusUpdate (p : SupabaseProject)
| ListProjects (namespace : string)
| Now
| RandRead (n : nat).

Definition response (r : request) : Type :=
  match r with
  | Get k _ => result (object k)
  | Create _ _ => option error
  | Update k _ => result (object k)
  | Delete _ _ _ => option error
  | StatusUpdate _ => result SupabaseProject
  | ListProjects _ => result (list SupabaseProject)
  | Now => Z
  | RandRead _ => result string
  end.

(** ** Programs *)

Inductive prog (A : Type) : Type :=
| Ret (a : A)
| Call (r : request) (k : response r → prog A).
Arguments Ret {A} a.
Arguments Call {A} r k.

Fixpoint prog_bind {A B} (p : prog A) (f : A → prog B) : prog B :=
  match p with
  | Ret a => f a
  | Call r k => Call r (λ v, prog_bind (k v) f)
  end.

(** The controller monad: the project being reconciled is threaded through
    every call, on error paths too, as the Go pointer is. *)
Definition M (A : Type) : Type := SupabaseProject → prog (SupabaseProject * result A).

#[export] Instance M_ret : MRet M := λ A a s, Ret (s, inr a).
#[export] Instance M_bind : MBind M := λ A B f m s,
  prog_bind (m s) (λ o, match o.2 with
                        | inl e => Ret (o.1, inl e)
                        | inr a => f a o.1
                        end).

Definition throw {A} (e : error) : M A := λ s, Ret (s, inl e).
(** Run [m] and hand its error to the caller as a value. *)
Definition attempt {A} (m : M A) : M (result A) := λ s,
  prog_bind (m s) (λ o, Ret (o.1, inr o.2)).
Definition call (r : request) : M (response r) := λ s,
  Call r (λ v, Ret (s, inr v)).
Definition get_project : M SupabaseProject := λ s, Ret (s, inr s).
Definition put_project (p : SupabaseProject) : M unit := λ _, Ret (p, inr tt).
Definition modify_project (f : SupabaseProject → SupabaseProject) : M unit := λ s,
  Ret (f s, inr tt).
Definition modify_status (f : SupabaseProjectStatus → SupabaseProjectStatus) : M unit :=
  modify_project (λ p, p <| prj_Status ::= f |>).
Definition lift {A} (r : result A) : M A := λ s, Ret (s, r).
(** [if err := m; err != nil { h(err); return err }]; an error of [h] wins. *)
Definition on_error {A} (m : M A) (h : error → M unit) : M A :=
  r ← attempt m;
  match r with
  | inl e => _ ← h e; throw e
  | inr a => mret a
  end.
(** [if err != nil { return wrap(err) }]. *)
Definition map_error {A} (m : M A) (f : error → error) : M A :=
  r ← attempt m;
  match r with inl e => throw (f e) | inr a => mret a end.
(** [if err != nil { return fail(err) }]. *)
Definition catch {A} (m : M A) (fail : error → M A) : M A :=
  r ← attempt m;
  match r with inl e => fail e | inr a => mret a end.
(** [if cond { m }]. *)
Definition when (cond : bool) (m : M unit) : M unit := if cond then m else mret tt.
(** Dereferencing a nil pointer panics; controller-runtime recovers the panic
    into an error of the reconciliation. *)
Definition nil_dereference : error :=
  ErrorString "runtime error: invalid memory address or nil pointer dereference".
Definition deref {A} (o : option A) : M A :=
  match o with Some a => mret a | None => throw nil_dereference end.
(** A response that is only an error, or nil. *)
Definition call_err (r : request) (f : response r → option error) : M unit :=
  v ← call r;
  match f v with Some e => throw e | None => mret tt end.

Definition api_get (k : kind) (key : NamespacedName) : M (object k) :=
  r ← call (Get k key); lift r.
Definition api_create (k : kind) (o : object k) : M unit := call_err (Create k o) (λ v, v).
Definition api_update (k : kind) (o : object k) : M (object k) :=
  r ← call (Update k o); lift r.
Definition api_delete (k : kind) (o : object k) (foreground : bool) : M unit :=
  call_err (Delete k o foreground) (λ v, v).

Fixpoint for_each {A} (l : list A) (f : A → M unit) : M unit :=
  match l with
  | [] => mret tt
  | x :: l => _ ← f x; for_each l f
  end.

(** ** Histories *)

Record event := Ev { ev_req : request; ev_resp : response ev_req }.
Abbreviation trace := (list event).

(** [runs p tr a]: with the answers recorded in [tr], [p] returns [a]. *)
Fixpoint runs {A} (p : prog A) (tr : trace) (a : A) : Prop :=
  match p with
  | Ret x => tr = [] ∧ a = x
  | Call r k => ∃ v tr', tr = Ev r v :: tr' ∧ runs (k v) tr' a
  end.

(** Run a program against an executable server with state [W]. *)
Fixpoint interp {W A} (handle : W → ∀ r, W * response r) (w : W) (p : prog A)
    : W * trace * A :=
  match p with
  | Ret a => (w, [], a)
  | Call r k =>
      let (w', v) := handle w r in
      let '(w'', tr, a) := interp handle w' (k v) in
      (w'', Ev r v :: tr, a)
  end.

Lemma interp_runs {W A} handle (w : W) (p : prog A) w' tr a :
  interp handle w p = (w', tr, a) → runs p tr a.
Proof.
  revert w w' tr a. induction p as [x|r k IH]; cbn; intros w w' tr a H.
  - by simplify_eq.
  - destruct (handle w r) as [w1 v]. destruct (interp handle w1 (k v)) as [[w2 tr2] a2] eqn:E.
    simplify_eq. eauto 10.
Qed.

Lemma runs_bind {A B} (p : prog A) (f : A → prog B) tr b :
  runs (prog_bind p f) tr b → ∃ tr1 tr2 a, tr = tr1 ++ tr2 ∧ runs p tr1 a ∧ runs (f a) tr2 b.
Proof.
  revert tr. induction p as [a|r k IH]; cbn; intros tr H; [by exists [], tr, a|].
  destruct H as (v & tr' & -> & (tr1 & tr2 & a & -> & H1 & H2)%IH).
  exists (Ev r v :: tr1), tr2, a. eauto 10.
Qed.

(** ** Rely-guarantee reasoning *)

(** What the server may answer, and which requests the program may make
    after a history. *)
Record policy := {
  rely : ∀ r, response r → Prop;
  guarantee : trace → request → Prop }.

Fixpoint safe {A} (P : policy) (p : prog A) (h : trace) (Q : trace → A → Prop) : Prop :=
  match p with
  | Ret a => Q h a
  | Call r k =>
      guarantee P h r ∧ ∀ v, rely P r v → safe P (k v) (h ++ [Ev r v]) Q
  end.

Definition relies (P : policy) (tr : trace) : Prop :=
  Forall (λ e, rely P (ev_req e) (ev_resp e)) tr.

Lemma safe_mono {A} P (p : prog A) h (Q Q' : trace → A → Prop) :
  (∀ h' a, h `prefix_of` h' → Q h' a → Q' h' a) → safe P p h Q → safe P p h Q'.
Proof.
  revert h. induction p as [a|r k IH]; cbn; intros h HQ H.
  - by apply HQ.
  - destruct H as [Hg H]. split; [done|]. intros v Hv. apply IH; [|by apply H].
    intros h' a Hp. apply HQ. etrans; [|done]. by eexists.
Qed.

Lemma safe_bind {A B} P (p : prog A) (f : A → prog B) h Q :
  safe P p h (λ h' a, safe P (f a) h' Q) → safe P (prog_bind p f) h Q.
Proof.
  revert h. induction p as [a|r k IH]; cbn; intros h H; [done|].
  destruct H as [Hg H]. split; [done|]. intros v Hv. apply IH, H, Hv.
Qed.

(** The meaning of [safe]: on every run in which the server keeps to [rely],
    every request meets [guarantee] at its moment, and the result [Q]. *)
Lemma safe_sound {A} P (p : prog A) h Q tr a :
  safe P p h Q → runs p tr a → relies P tr →
  (∀ tr1 e tr2, tr = tr1 ++ e :: tr2 → guarantee P (h ++ tr1) (ev_req e)) ∧ Q (h ++ tr) a.
Proof.
  revert h tr. induction p as [x|r k IH]; cbn; intros h tr Hs Hr Hrel.
  - destruct Hr as [-> ->]. rewrite app_nil_r. split; [|done]. by intros [|??] ?? [=].
  - destruct Hs as [Hg Hs], Hr as (v & tr' & -> & Hr).
    apply Forall_cons in Hrel as [Hv Hrel].
    destruct (IH _ _ _ (Hs v Hv) Hr Hrel) as [HG HQ]. rewrite <- app_assoc in HQ.
    split; [|done]. intros [|e1 tr1] e tr2 [= <- ->]; cbn.
    + by rewrite app_nil_r.
    + specialize (HG tr1 e tr2 eq_refl). by rewrite <- app_assoc in HG.
Qed.

(** Triples on controller functions. *)
Definition triple {A} (P : policy) (Pre : trace → SupabaseProject → Prop) (m : M A)
    (Post : trace → SupabaseProject → result A → Prop) : Prop :=
  ∀ h s, Pre h s → safe P (m s) h (λ h' o, Post h' o.1 o.2).

Section Rules.
Context {P : policy}.
Implicit Types Pre : trace → SupabaseProject → Prop.

Lemma triple_conseq {A} Pre Pre' (m : M A) Post Post' :
  triple P Pre' m Post' →
  (∀ h s, Pre h s → Pre' h s) → (∀ h s r, Post' h s r → Post h s r) →
  triple P Pre m Post.
Proof. intros Hm H1 H2 h s Hp. eapply safe_mono; [|apply Hm, H1, Hp]. auto. Qed.

(** History only grows, so a condition kept by extension can be framed. *)
Lemma triple_grow {A} Pre (m : M A) Post :
  triple P Pre m Post →
  ∀ h s, Pre h s →
    safe P (m s) h (λ h' o, h `prefix_of` h' ∧ Post h' o.1 o.2).
Proof. intros Hm h s Hp. eapply safe_mono; [|by apply Hm]. auto. Qed.

Lemma triple_ret {A} Pre (a : A) Post :
  (∀ h s, Pre h s → Post h s (inr a)) → triple P Pre (mret a) Post.
Proof. intros H h s Hp. by eapply H. Qed.

Lemma triple_throw {A} Pre (e : error) (Post : _ → _ → result A → Prop) :
  (∀ h s, Pre h s → Post h s (inl e)) → triple P Pre (throw e) Post.
Proof. intros H h s Hp. by eapply H. Qed.

Lemma triple_lift {A} Pre (r : result A) Post :
  (∀ h s, Pre h s → Post h s r) → triple P Pre (lift r) Post.
Proof. intros H h s Hp. by eapply H. Qed.

Lemma triple_bind {A B} Pre (m : M A) (f : A → M B) Mid Post :
  triple P Pre m (λ h s r,
    match r with inl e => Post h s (inl e) | inr a => Mid a h s end) →
  (∀ a, triple P (Mid a) (f a) Post) →
  triple P Pre (m ≫= f) Post.
Proof.
  intros Hm Hf h s Hp. apply safe_bind. eapply safe_mono; [|by apply Hm].
  intros h' [s' [e|a]] _; cbn; [done|]. apply Hf.
Qed.

Lemma triple_attempt {A} Pre (m : M A) Post :
  triple P Pre m (λ h s r, Post h s (inr r)) → triple P Pre (attempt m) Post.
Proof. intros Hm h s Hp. apply safe_bind. by apply Hm. Qed.

Lemma triple_call Pre (r : request) Post :
  (∀ h s, Pre h s → guarantee P h r ∧
     ∀ v, rely P r v → Post (h ++ [Ev r v]) s (inr v)) →
  triple P Pre (call r) Post.
Proof. intros H h s Hp. destruct (H h s Hp) as [Hg Hv]. split; [done|]. intros v. apply Hv. Qed.

Lemma triple_get_project Pre Post :
  (∀ h s, Pre h s → Post h s (inr s)) → triple P Pre get_project Post.
Proof. intros H h s Hp. by eapply H. Qed.

Lemma triple_modify Pre f Post :
  (∀ h s, Pre h s → Post h (f s) (inr tt)) → triple P Pre (modify_project f) Post.
Proof. intros H h s Hp. by eapply H. Qed.

Lemma triple_put Pre p Post :
  (∀ h s, Pre h s → Post h p (inr tt)) → triple P Pre (put_project p) Post.
Proof. intros H h s Hp. by eapply H. Qed.

Lemma triple_on_error {A} Pre (m : M A) (hd : error → M unit) Fail Post :
  triple P Pre m (λ h s r,
    match r with inl e => Fail e h s | inr a => Post h s (inr a) end) →
  (∀ e, triple P (Fail e) (hd e) (λ h s r,
    match r with inl e' => Post h s (inl e') | inr _ => Post h s (inl e) end)) →
  triple P Pre (on_error m hd) Post.
Proof.
  intros Hm Hh. eapply (triple_bind _ _ _ (λ r h s,
    match r with inl e => Fail e h s | inr a => Post h s (inr a) end)).
  { apply triple_attempt. eapply triple_conseq; [apply Hm|done|]. by intros h s [e|a]. }
  intros [e|a]; [|by apply triple_ret].
  eapply (triple_bind _ _ _ (λ _ h s, Post h s (inl e))); [apply Hh|].
  intros u. by apply triple_throw.
Qed.

Lemma triple_map_error {A} Pre (m : M A) f Post :
  triple P Pre m (λ h s r,
    match r with inl e => Post h s (inl (f e)) | inr a => Post h s (inr a) end) →
  triple P Pre (map_error m f) Post.
Proof.
  intros Hm. eapply (triple_bind _ _ _ (λ r h s,
    match r with inl e => Post h s (inl (f e)) | inr a => Post h s (inr a) end)).
  { apply triple_attempt. eapply triple_conseq; [apply Hm|done|]. by intros h s [e|a]. }
  intros [e|a]; [by apply triple_throw|by apply triple_ret].
Qed.

Lemma triple_catch {A} Pre (m : M A) (f : error → M A) Fail Post :
  triple P Pre m (λ h s r,
    match r with inl e => Fail e h s | inr a => Post h s (inr a) end) →
  (∀ e, triple P (Fail e) (f e) Post) →
  triple P Pre (catch m f) Post.
Proof.
  intros Hm Hf. eapply (triple_bind _ _ _ (λ r h s,
    match r with inl e => Fail e h s | inr a => Post h s (inr a) end)).
  { apply triple_attempt. eapply triple_conseq; [apply Hm|done|]. by intros h s [e|a]. }
  intros [e|a]; [apply Hf|by apply triple_ret].
Qed.

(** Loop rule with an invariant; an error leaves the loop. *)
Lemma triple_for_each {A} (Inv : trace → SupabaseProject → Prop) (l : list A) f Post :
  (∀ x, x ∈ l → triple P Inv (f x) (λ h s r,
     match r with inl e => Post h s (inl e) | inr _ => Inv h s end)) →
  (∀ h s, Inv h s → Post h s (inr tt)) →
  triple P Inv (for_each l f) Post.
Proof.
  intros Hf HP. induction l as [|x l IH]; cbn; [by apply triple_ret|].
  eapply (triple_bind _ _ _ (λ _, Inv)); [apply Hf; by left|].
  intros _. apply IH. intros y Hy. apply Hf. by right.
Qed.
End Rules.

(** ** Invariant preservation

    [ok P J m]: started where [J] holds of the history and the project, [m]
    only makes requests that [P] guarantees, and [J] holds afterwards, on error
    too. *)

Definition is_read (r : request) : bool :=
  match r with Get _ _ | ListProjects _ | Now | RandRead _ => true | _ => false end.

(** [J] survives longer histories, the policy allows every read and every
    status update, and a stored status update keeps [J]. *)
Record permissive (P : policy) (J : trace → SupabaseProject → Prop) : Prop := {
  permissive_extend : ∀ h h' s, J h s → J (h ++ h') s;
  permissive_read : ∀ h r, is_read r = true → guarantee P h r;
  permissive_status : ∀ h s, J h s → guarantee P h (StatusUpdate s);
  permissive_stored : ∀ h s s', J h s → rely P (StatusUpdate s) (inr s') → J h s' }.

Definition ok {A} (P : policy) (J : trace → SupabaseProject → Prop) (m : M A) : Prop :=
  triple P J m (λ h s _, J h s).

(** The server answered a Get of this kind and key with the object. *)
Definition fetched (h : trace) (key : NamespacedName) {k} (o : object k) : Prop :=
  Ev (Get k key) (inr o) ∈ h.
Definition with_fetched (J : trace → SupabaseProject → Prop) (key : NamespacedName) {k}
    (o : object k) : trace → SupabaseProject → Prop := λ h s, J h s ∧ fetched h key o.

Lemma fetched_extend h h' key {k} (o : object k) : fetched h key o → fetched (h ++ h') key o.
Proof. intros Hk. apply elem_of_app. by left. Qed.
Lemma permissive_with_fetched P J key {k} (o : object k) :
  permissive P J → permissive P (with_fetched J key o).
Proof.
  intros [He Hr Hs Hst]. split.
  - intros h h' s [? ?]. split; [by apply He | by apply fetched_extend].
  - done.
  - intros h s [? _]. by apply Hs.
  - intros h s s' [? ?] ?. split; [by eapply Hst | done].
Qed.

Create HintDb ok.
Create HintDb returns.
#[export] Hint Constants Opaque : ok returns.

Section Ok.
Context {P : policy} {J : trace → SupabaseProject → Prop}.

Lemma ok_ret {A} (a : A) : ok P J (mret a).
Proof. by apply triple_ret. Qed.
Lemma ok_throw {A} e : ok P J (throw (A := A) e).
Proof. by apply triple_throw. Qed.
Lemma ok_lift {A} (r : result A) : ok P J (lift r).
Proof. by apply triple_lift. Qed.
Lemma ok_get_project : ok P J get_project.
Proof. by apply triple_get_project. Qed.

Lemma ok_bind {A B} (m : M A) (f : A → M B) :
  ok P J m → (∀ a, ok P J (f a)) → ok P J (m ≫= f).
Proof.
  intros Hm Hf. eapply (triple_bind _ _ _ (λ _, J)); [|apply Hf].
  eapply triple_conseq; [apply Hm|done|]. by intros h s [e|a].
Qed.
(** A step that keeps [J], in front of a part with its own contract. *)
Lemma triple_ok_bind {A B} (m : M A) (f : A → M B) Post :
  ok P J m → (∀ h s e, J h s → Post h s (inl e)) → (∀ a, triple P J (f a) Post) →
  triple P J (m ≫= f) Post.
Proof.
  intros Hm He Hf. eapply (triple_bind _ _ _ (λ _, J)); [|apply Hf].
  eapply triple_conseq; [apply Hm|done|]. intros h s [e|a]; [apply He|done].
Qed.
Lemma triple_bind_get {B} (f : SupabaseProject → M B) Post :
  (∀ p, (∃ h, J h p) → triple P J (f p) Post) → triple P J (get_project ≫= f) Post.
Proof. intros Hf h s Hs. apply (Hf s (ex_intro _ h Hs) h s Hs). Qed.
(** Reading the project gives a project of which [J] holds at some moment. *)
Lemma ok_bind_get {B} (f : SupabaseProject → M B) :
  (∀ p, (∃ h, J h p) → ok P J (f p)) → ok P J (get_project ≫= f).
Proof. intros Hf h s Hs. apply (Hf s (ex_intro _ h Hs) h s Hs). Qed.
(** A pure computation: its value is known where it succeeds. *)
Lemma ok_bind_lift {A B} (r : result A) (f : A → M B) :
  (∀ a, r = inr a → ok P J (f a)) → ok P J (lift r ≫= f).
Proof.
  intros Hf h s Hs. destruct r as [e|a]; [exact Hs|]. by apply (Hf a eq_refl h s).
Qed.
Lemma ok_modify f : (∀ h s, J h s → J h (f s)) → ok P J (modify_project f).
Proof. intros Hf. apply triple_modify. intros h s. apply Hf. Qed.
Lemma ok_attempt {A} (m : M A) : ok P J m → ok P J (attempt m).
Proof. intros Hm. by apply triple_attempt. Qed.
Lemma ok_catch {A} (m : M A) f : ok P J m → (∀ e, ok P J (f e)) → ok P J (catch m f).
Proof.
  intros Hm Hf. apply ok_bind; [by apply ok_attempt|]. intros [e|a]; [apply Hf|apply ok_ret].
Qed.
Lemma ok_on_error {A} (m : M A) f : ok P J m → (∀ e, ok P J (f e)) → ok P J (on_error m f).
Proof.
  intros Hm Hf. apply ok_bind; [by apply ok_attempt|].
  intros [e|a]; [|apply ok_ret]. apply ok_bind; [apply Hf|]. intros _. apply ok_throw.
Qed.
Lemma ok_map_error {A} (m : M A) f : ok P J m → ok P J (map_error m f).
Proof.
  intros Hm. apply ok_bind; [by apply ok_attempt|]. intros [e|a]; [apply ok_throw|apply ok_ret].
Qed.
Lemma ok_when b m : ok P J m → ok P J (when b m).
Proof. intros Hm. destruct b; [done|apply ok_ret]. Qed.
Lemma ok_deref {A} (o : option A) : ok P J (deref o).
Proof. destruct o; [apply ok_ret|apply ok_throw]. Qed.
Lemma ok_for_each {A} (l : list A) f : (∀ x, x ∈ l → ok P J (f x)) → ok P J (for_each l f).
Proof.
  intros Hf. apply triple_for_each; [|done]. intros x Hx.
  eapply triple_conseq; [apply (Hf x Hx)|done|]. by intros h s [e|a].
Qed.

Context (HP : permissive P J).

Lemma ok_call r : (∀ h s, J h s → guarantee P h r) → ok P J (call r).
Proof.
  intros Hr. apply triple_call. intros h s Hs. split; [by eapply Hr|].
  intros v _. by apply (permissive_extend P J HP).
Qed.
Lemma ok_call_err r f : (∀ h s, J h s → guarantee P h r) → ok P J (call_err r f).
Proof.
  intros Hr. apply ok_bind; [by apply ok_call|]. intros v.
  destruct (f v); [apply ok_throw|apply ok_ret].
Qed.
Lemma ok_create k o : (∀ h s, J h s → guarantee P h (Create k o)) → ok P J (api_create k o).
Proof. apply ok_call_err. Qed.
Lemma ok_update k o : (∀ h s, J h s → guarantee P h (Update k o)) → ok P J (api_update k o).
Proof. intros Hr. apply ok_bind; [by apply ok_call|]. intros v. apply ok_lift. Qed.
Lemma ok_delete k o fg :
  (∀ h s, J h s → guarantee P h (Delete k o fg)) → ok P J (api_delete k o fg).
Proof. apply ok_call_err. Qed.
Lemma ok_read r : is_read r = true → ok P J (call r).
Proof. intros Hr. apply ok_call. intros h s _. by apply (permissive_read P J HP). Qed.
Lemma ok_api_get k key : ok P J (api_get k key).
Proof. apply ok_bind; [by apply ok_read|]. intros v. apply ok_lift. Qed.
End Ok.

(** [ok] with what is known of a value that is returned. *)
Definition returns {A} (P : policy) (J : trace → SupabaseProject → Prop) (m : M A)
    (Q : A → Prop) : Prop :=
  triple P J m (λ h s r, J h s ∧ match r with inr a => Q a | inl _ => True end).

Section Returns.
Context {P : policy} {J : trace → SupabaseProject → Prop}.

Lemma returns_ret {A} (a : A) (Q : A → Prop) : Q a → returns P J (mret a) Q.
Proof. intros HQ. by apply triple_ret. Qed.
Lemma returns_ok {A} (m : M A) Q : returns P J m Q → ok P J m.
Proof. intros Hm. eapply triple_conseq; [apply Hm|done|]. by intros h s r [? _]. Qed.
Lemma returns_bind {A B} (m : M A) (f : A → M B) Q R :
  returns P J m Q → (∀ a, Q a → returns P J (f a) R) → returns P J (m ≫= f) R.
Proof.
  intros Hm Hf. eapply (triple_bind _ _ _ (λ a h s, J h s ∧ Q a)).
  - eapply triple_conseq; [apply Hm|done|]. by intros h s [e|a] [??].
  - intros a h s [Hs Ha]. by apply Hf.
Qed.
Lemma returns_any {A B} (m : M A) (f : A → M B) R :
  ok P J m → (∀ a, returns P J (f a) R) → returns P J (m ≫= f) R.
Proof.
  intros Hm Hf. apply returns_bind with (Q := λ _, True); [|by intros a _].
  eapply triple_conseq; [apply Hm|done|]. by intros h s [e|a].
Qed.
Lemma ok_bind_returns {A B} (m : M A) (f : A → M B) Q :
  returns P J m Q → (∀ a, Q a → ok P J (f a)) → ok P J (m ≫= f).
Proof.
  intros Hm Hf. eapply (triple_bind _ _ _ (λ a h s, J h s ∧ Q a)).
  - eapply triple_conseq; [apply Hm|done|]. by intros h s [e|a] [??].
  - intros a h s [Hs Ha]. by apply Hf.
Qed.
Lemma returns_bind_get {B} (f : SupabaseProject → M B) R :
  (∀ p, (∃ h, J h p) → returns P J (f p) R) → returns P J (get_project ≫= f) R.
Proof. intros Hf h s Hs. apply (Hf s (ex_intro _ h Hs) h s Hs). Qed.
Lemma returns_attempt {A} (m : M A) Q :
  returns P J m Q → returns P J (attempt m) (λ r, match r with inr a => Q a | inl _ => True end).
Proof. intros Hm. by apply triple_attempt. Qed.
Lemma returns_on_error {A} (m : M A) f Q :
  returns P J m Q → (∀ e, ok P J (f e)) → returns P J (on_error m f) Q.
Proof.
  intros Hm Hf. eapply returns_bind; [by apply returns_attempt|]. intros [e|a] Ha.
  - apply returns_any; [apply Hf|]. intros _. by apply triple_throw.
  - by apply returns_ret.
Qed.
End Returns.

(** Once a condition on the history that allows every request is reached, the
    rest of the program is safe. *)
Lemma safe_closed {A} P (H : trace → Prop) (p : prog A) h :
  (∀ h h', H h → H (h ++ h')) → (∀ h r, H h → guarantee P h r) →
  H h → safe P p h (λ h' _, H h').
Proof.
  intros Hext Hg. revert h. induction p as [a|r k IH]; cbn; intros h Hh; [done|].
  split; [by apply Hg|]. intros v _. apply IH. by apply Hext.
Qed.

#[export] Hint Resolve ok_ret ok_throw ok_lift ok_get_project ok_deref : ok.
#[export] Hint Resolve permissive_with_fetched : ok.
#[export] Hint Extern 1 (ok _ _ (api_get _ _)) => apply ok_api_get : ok.
#[export] Hint Extern 1 (ok _ _ (call _)) => apply ok_read; [|reflexivity] : ok.

(** Walk through a controller function: a bind, a branch, an error handler at
    a time; calls of other functions are discharged by the lemmas in [ok]. *)
Ltac ok_step :=
  match goal with
  | |- ok _ _ (get_project ≫= _) => apply ok_bind_get; intros ? ?
  | |- ok _ _ (lift _ ≫= _) => apply ok_bind_lift; intros ? ?
  | |- ok _ _ (_ ≫= _) => apply ok_bind; [|intros ?]
  | |- ok _ _ (catch _ _) => apply ok_catch; [|intros ?]
  | |- ok _ _ (on_error _ _) => apply ok_on_error; [|intros ?]
  | |- ok _ _ (map_error _ _) => apply ok_map_error
  | |- ok _ _ (attempt _) => apply ok_attempt
  | |- ok _ _ (when _ _) => apply ok_when
  | |- ok _ _ (for_each _ _) => apply ok_for_each; intros ? ?
  | |- ok _ _ (match ?x with _ => _ end) => destruct x eqn:?
  | |- ok _ _ (let _ := _ in _) => cbv zeta
  end.
Ltac ok_auto := repeat first
  [ solve [eauto 4 with ok]
  | eapply ok_bind_returns; [solve [eauto 5 with ok returns]|intros ? ?]
  | ok_step ].
(** The same for [returns], down to the value returned. *)
Ltac returns_auto := repeat match goal with
  | |- returns _ _ (mret _) _ => apply returns_ret
  | |- returns _ _ (_ ≫= _) _ =>
      first [ eapply returns_bind; [solve [eauto 5 with ok returns]|intros ? ?]
            | apply returns_any; [solve [ok_auto]|intros ?] ]
  | |- returns _ _ (match ?x with _ => _ end) _ => destruct x
  end.
#[export] Hint Resolve returns_attempt returns_on_error : returns.
