(* ===== verification/Common.v ===== *)
(** * Shared names, labels, URLs and images
    (src/internal/resources/common, src/internal/resources/defaults) *)

From S2P Require Import Prelude KubeTypes Types.
From Stdlib Require Import Ascii.

(** ** Labels (labels.go) *)

Definition LabelManagedBy : string := "app.kubernetes.io/managed-by".
Definition LabelInstance : string := "app.kubernetes.io/instance".
Definition LabelComponent : string := "app.kubernetes.io/component".
Definition LabelPartOf : string := "app.kubernetes.io/part-of".
Definition LabelName : string := "app.kubernetes.io/name".
Definition ManagerName : string := "cloudnative-supabase".
Definition DatabaseName : string := "supabase".
Definition ReloaderAnnotation : string := "reloader.stakater.com/auto".

Definition ReloaderAnnotations : gmap string string := {[ ReloaderAnnotation := "true" ]}.

Definition CommonLabels (p : SupabaseProject) : gmap string string :=
  {[ LabelManagedBy := ManagerName; LabelInstance := prj_Name p; LabelPartOf := "supabase" ]}.

Definition ComponentLabels (p : SupabaseProject) (component : string) : gmap string string :=
  <[LabelName := component]> (<[LabelComponent := component]> (CommonLabels p)).

Definition SelectorLabels (p : SupabaseProject) (component : string) : gmap string string :=
  {[ LabelInstance := prj_Name p; LabelComponent := component ]}.

(** Later maps win. *)
Definition MergeLabels (maps : list (gmap string string)) : gmap string string :=
  foldl (λ result m, m ∪ result) ∅ maps.

(** [labels[key]] of a Go map: the empty string when absent. *)
Definition map_get (m : gmap string string) (key : string) : string := default "" (m !! key).

(** ** Names (names.go) *)

Definition EnvoyConfigMapName (p : SupabaseProject) : string := prj_Name p +:+ "-envoy-config".
Definition JWKSConfigMapName (p : SupabaseProject) : string := prj_Name p +:+ "-auth-jwks".
Definition GatewayName (p : SupabaseProject) : string := prj_Name p +:+ "-api-gw".

(** ** Token lifetime (jwt.go) *)

Definition DefaultAccessTokenExpiration : Z := 3600.
Definition GetAccessTokenExpiration (p : SupabaseProject) : Z :=
  let e := as_AccessTokenExpirationSeconds (sps_Auth (prj_Spec p)) in
  if 0 <? e then e else DefaultAccessTokenExpiration.

(** ** URLs (url.go); net/url's parser and printer are parameters *)

Record URL := {
  u_Scheme : string; u_Host : string; u_Path : string; u_RawPath : string;
  u_RawQuery : string; u_Fragment : string; u_other : gmap string string }.

Class UrlLib := { url_Parse : string → result URL; url_String : URL → string }.

Definition slash : ascii := "/"%char.

Section Url.
Context `{UrlLib}.

Definition NormalizeExternalURL (raw : string) : string :=
  match url_Parse (TrimSpace raw) with
  | inr u =>
      if bool_decide (u_Scheme u = "") || bool_decide (u_Host u = "")
      then TrimRight (TrimSpace raw) slash
      else
        let u := u <| u_Path ::= (λ s, TrimRight s slash) |> in
        let u := u <| u_RawPath := "" |> in
        let u := u <| u_RawQuery := "" |> in
        let u := u <| u_Fragment := "" |> in
        TrimRight (url_String u) slash
  | inl _ => TrimRight (TrimSpace raw) slash
  end.

Definition AuthIssuerURL (externalURL : string) : string :=
  let base := NormalizeExternalURL externalURL in
  if HasSuffix base "/auth/v1" then base else base +:+ "/auth/v1".

Definition AuthJWKSURL (externalURL : string) : string :=
  AuthIssuerURL externalURL +:+ "/.well-known/jwks.json".

(** A normalised URL never ends in a slash, so the suffixes appended to it
    never produce an empty path segment. *)
Lemma NormalizeExternalURL_no_slash raw :
  HasSuffix (NormalizeExternalURL raw) "/" = false.
Proof. unfold NormalizeExternalURL. split_cases; apply TrimRight_not_suffix. Qed.

Lemma AuthIssuerURL_suffix raw : HasSuffix (AuthIssuerURL raw) "/auth/v1" = true.
Proof.
  unfold AuthIssuerURL. case_match eqn:E; [done|]. apply HasSuffix_spec. eauto.
Qed.
End Url.

(** ** Image defaults (defaults/images.go) *)

Definition PostgresImage : string := "ghcr.io/cloudnative-pg/postgresql".
Definition PostgresTag : string := "17".
Definition StudioImage : string := "supabase/studio".
Definition StudioTag : string := "2025.12.17-sha-43f4f7f".
Definition AuthImage : string := "supabase/gotrue".
Definition AuthTag : string := "v2.189.0".
Definition RestImage : string := "postgrest/postgrest".
Definition RestTag : string := "v14.12".
Definition MetaImage : string := "supabase/postgres-meta".
Definition MetaTag : string := "v0.95.1".
Definition EnvoyImage : string := "envoyproxy/envoy".
Definition EnvoyTag : string := "v1.39.0".
Definition PowersyncImage : string := "journeyapps/powersync-service".
Definition PowersyncTag : string := "1.21.0".

(** ** Label lemmas *)

Lemma ComponentLabels_instance p c : ComponentLabels p c !! LabelInstance = Some (prj_Name p).
Proof. done. Qed.
Lemma ComponentLabels_component p c : ComponentLabels p c !! LabelComponent = Some c.
Proof. done. Qed.
(** Pods labelled with [ComponentLabels] are selected by [SelectorLabels]. *)
Lemma SelectorLabels_subseteq p c : SelectorLabels p c ⊆ ComponentLabels p c.
Proof.
  unfold SelectorLabels. apply map_subseteq_spec. intros k v.
  rewrite lookup_insert. case_decide as Hk; [by subst; intros [= <-]|].
  rewrite lookup_singleton. case_decide as Hk'; [by subst; intros [= <-]|done].
Qed.
