(* ===== verification/ConfigMaps.v ===== *)
(** * Generated ConfigMaps (src/internal/resources/configmaps) *)

From S2P Require Import Prelude KubeTypes Types Platform Common EnvoyAssets.
From Stdlib Require Import Ascii.

(** [fmt.Sprintf] of a format whose only verbs are %s. *)
Fixpoint Sprintf_s (format : string) (args : list string) : string :=
  match format with
  | String "%" (String "s" rest) =>
      match args with
      | a :: args => a +:+ Sprintf_s rest args
      | [] => "%!s(MISSING)" +:+ Sprintf_s rest []
      end
  | String c rest => String c (Sprintf_s rest args)
  | EmptyString => EmptyString
  end.

Definition new_configmap (p : SupabaseProject) (name component : string)
    (data : gmap string string) : ConfigMap :=
  {| cm_meta := new_meta name (prj_Namespace p) (ComponentLabels p component) ∅;
     cm_Data := data |}.

(** ** init_sql.go *)

Definition InitSQLConfigMapName (p : SupabaseProject) : string := prj_Name p +:+ "-init-sql".

Definition BuildInitSQLConfigMap (p : SupabaseProject) : ConfigMap :=
  new_configmap p (InitSQLConfigMapName p) "init-sql" {[ "init.sql" := InitSQLTemplate ]}.

(** ** envoy.go *)

Definition EnvoyConfigComponentName : string := "gateway-config".
Definition JWKSDataKey : string := "jwks.json".

Definition BuildEnvoyConfigMap (p : SupabaseProject) : ConfigMap :=
  let auth := prj_Name p +:+ "-auth" in
  let rest := prj_Name p +:+ "-rest" in
  let meta := prj_Name p +:+ "-meta" in
  let studio := prj_Name p +:+ "-studio" in
  new_configmap p (EnvoyConfigMapName p) EnvoyConfigComponentName
    {[ "envoy.yaml" := envoyBootstrap;
       "cds.yaml" := Sprintf_s envoyCDS [auth; rest; meta; studio];
       "lds.template.yaml" := envoyLDS;
       "docker-entrypoint.sh" := envoyEntrypoint ]}.

Definition BuildJWKSConfigMap (p : SupabaseProject) (jwks : string) : ConfigMap :=
  new_configmap p (JWKSConfigMapName p) "auth-jwks" {[ JWKSDataKey := jwks ]}.

(** ** powersync.go *)

Definition PowersyncConfigComponentName : string := "powersync-config".
Definition PowersyncSyncRulesComponentName : string := "powersync-sync-rules".
Definition PowersyncConfigKey : string := "config.yaml".

Definition PowersyncConfigMapName (p : SupabaseProject) : string :=
  prj_Name p +:+ "-powersync-config".
Definition PowersyncSyncRulesConfigMapName (p : SupabaseProject) : string :=
  prj_Name p +:+ "-powersync-sync-rules".

Definition BuildPowersyncConfigMap `{Platform, UrlLib} (p : SupabaseProject) : ConfigMap :=
  let configYAML := "storage:
  type: postgresql
  uri: !env PS_POWERSYNC_STORAGE_URI
  sslmode: disable
replication:
  connections:
    - type: postgresql
      uri: !env PS_POWERSYNC_REPLICATION_URI
      sslmode: disable
      tag: default
dev:
  demo_auth: false
client_auth:
  supabase: false
  jwks_uri: " +:+ Quote (AuthJWKSURL (as_ExternalURL (sps_Auth (prj_Spec p)))) +:+ "
  audience:
    - authenticated
api:
  tokens:
    - !env PS_POWERSYNC_API_TOKEN
migrations:
  disable_auto_migration: false
port: 8080
sync_rules:
  path: /powersync/sync_rules/sync_rules.yaml
  exit_on_error: true
telemetry:
  prometheus_port: 9464
  disable_telemetry_sharing: false
" in
  new_configmap p (PowersyncConfigMapName p) PowersyncConfigComponentName
    {[ PowersyncConfigKey := configYAML ]}.

(** [nil] when an external ConfigMap is referenced, or no rules are given.
    The caller has checked that [spec.powersync] is present. *)
Definition BuildPowersyncSyncRulesConfigMap (p : SupabaseProject) (ps : PowersyncSpec)
    : option ConfigMap :=
  if bool_decide (sr_ConfigMapRef (pss_SyncRules ps) ≠ "") then None
  else if bool_decide (sr_Inline (pss_SyncRules ps) = "") then None
  else Some (new_configmap p (PowersyncSyncRulesConfigMapName p)
               PowersyncSyncRulesComponentName
               {[ "sync_rules.yaml" := sr_Inline (pss_SyncRules ps) ]}).

Definition SyncRulesConfigMapName (p : SupabaseProject) (ps : PowersyncSpec) : string :=
  if bool_decide (sr_ConfigMapRef (pss_SyncRules ps) ≠ "")
  then sr_ConfigMapRef (pss_SyncRules ps)
  else PowersyncSyncRulesConfigMapName p.

(** Every ConfigMap built here carries the project's instance label, which
    the adoption guard of the store requires. *)
Lemma new_configmap_instance p n c d :
  om_Labels (cm_meta (new_configmap p n c d)) !! LabelInstance = Some (prj_Name p).
Proof. done. Qed.
