(* ===== verification/Cnpg.v ===== *)
(** * CloudNativePG resources (src/internal/resources/cnpg) *)

From S2P Require Import Prelude KubeTypes Types Common ConfigMaps.

Definition OwnerRole : string := "supabase_admin".
Definition BarmanCloudPluginName : string := "barman-cloud.cloudnative-pg.io".
Definition DefaultAccessKeyIDKey : string := "ACCESS_KEY_ID".
Definition DefaultSecretAccessKeyKey : string := "SECRET_ACCESS_KEY".
(** cnpgv1 constants. *)
Definition EnsurePresent : string := "present".
Definition BackupMethodPlugin : string := "plugin".
Definition PublicationReclaimDelete : string := "delete".

(** ** Names *)

Definition ClusterName (p : SupabaseProject) : string := prj_Name p +:+ "-pg".
Definition ClusterRWServiceName (p : SupabaseProject) : string := ClusterName p +:+ "-rw".
Definition ObjectStoreName (p : SupabaseProject) : string := prj_Name p +:+ "-backup".
Definition RecoveryObjectStoreName (p : SupabaseProject) : string := prj_Name p +:+ "-recovery".
Definition ScheduledBackupName (p : SupabaseProject) : string := prj_Name p +:+ "-backup".
Definition RecoverySourceName (p : SupabaseProject) : string :=
  prj_Name p +:+ "-recovery-source".

(** [spec.database.backup] and [.recovery] when present and enabled. *)
Definition backup_enabled (p : SupabaseProject) : option BackupSpec :=
  match db_Backup (sps_Database (prj_Spec p)) with
  | Some b => if bks_Enabled b then Some b else None
  | None => None
  end.
Definition recovery_enabled (p : SupabaseProject) : option RecoverySpec :=
  match db_Recovery (sps_Database (prj_Spec p)) with
  | Some r => if rcs_Enabled r then Some r else None
  | None => None
  end.

(** ** Roles (cluster.go) *)

Definition applyGeneratedRoleDefaults (roles : list RoleConfiguration) : list RoleConfiguration :=
  (λ r, let r := r <| rc_ConnectionLimit := -1 |> in
        match rc_Inherit r with
        | None => r <| rc_Inherit := Some true |>
        | Some _ => r
        end) <$> roles.

Definition BuildPowersyncRoles (sn : SecretNamesStatus) : list RoleConfiguration :=
  applyGeneratedRoleDefaults [
    (new_role "powersync_storage" EnsurePresent "Powersync internal storage role")
      <| rc_Login := true |>
      <| rc_PasswordSecret := Some (sn_PowersyncStoragePassword sn) |>;
    (new_role "powersync_replication" EnsurePresent "Powersync CDC replication role")
      <| rc_Login := true |> <| rc_Replication := true |> <| rc_BypassRLS := true |>
      <| rc_PasswordSecret := Some (sn_PowersyncReplicationPassword sn) |> ].

Definition buildRoles (spec : DatabaseSpec) (sn : SecretNamesStatus) : list RoleConfiguration :=
  applyGeneratedRoleDefaults [
    new_role "api_access_role" EnsurePresent "Group role for API access permissions";
    (new_role "anon" EnsurePresent "Anonymous role for unauthenticated API access")
      <| rc_Inherit := Some true |> <| rc_InRoles := ["api_access_role"] |>;
    (new_role "authenticated" EnsurePresent "Role for authenticated API users")
      <| rc_Inherit := Some true |> <| rc_InRoles := ["api_access_role"] |>;
    (new_role "service_role" EnsurePresent
        "Service role with RLS bypass for backend operations")
      <| rc_Inherit := Some true |> <| rc_BypassRLS := true |>
      <| rc_InRoles := ["api_access_role"] |>;
    (new_role "supabase_admin" EnsurePresent "Database owner and admin role")
      <| rc_Login := true |> <| rc_CreateDB := true |> <| rc_CreateRole := true |>
      <| rc_BypassRLS := true |> <| rc_Replication := true |>
      <| rc_PasswordSecret := Some (sn_SupabaseAdmin sn) |>
      <| rc_InRoles := ["pg_read_all_data"; "pg_write_all_data"] |>;
    (new_role "authenticator" EnsurePresent "PostgREST role switcher")
      <| rc_Login := true |> <| rc_Inherit := Some false |>
      <| rc_PasswordSecret := Some (sn_Authenticator sn) |>
      <| rc_InRoles := ["anon"; "authenticated"; "service_role"] |>;
    (new_role "supabase_auth_admin" EnsurePresent "GoTrue auth service admin role")
      <| rc_Login := true |> <| rc_Inherit := Some false |> <| rc_CreateRole := true |>
      <| rc_PasswordSecret := Some (sn_AuthAdmin sn) |> ]
  ++ db_AdditionalRoles spec.

Definition buildAllRoles (p : SupabaseProject) (sn : SecretNamesStatus) : list RoleConfiguration :=
  let roles := buildRoles (sps_Database (prj_Spec p)) sn in
  match sps_Powersync (prj_Spec p) with
  | Some _ =>
      if bool_decide (sn_PowersyncStoragePassword sn ≠ "") &&
         bool_decide (sn_PowersyncReplicationPassword sn ≠ "")
      then roles ++ BuildPowersyncRoles sn else roles
  | None => roles
  end.

(** ** PostgreSQL parameters *)

Definition defaultParameters : gmap string string :=
  list_to_map [
    ("wal_level", "logical"); ("max_replication_slots", "10"); ("max_wal_senders", "10");
    ("wal_sender_timeout", "60s"); ("wal_receiver_timeout", "60s");
    ("shared_buffers", "256MB"); ("log_min_messages", "fatal");
    ("pgaudit.log", "function, ddl, role"); ("pgaudit.log_catalog", "on");
    ("pgaudit.log_client", "off"); ("pgaudit.log_level", "log");
    ("pgaudit.log_parameter", "off"); ("pgaudit.log_relation", "off");
    ("pgaudit.log_rows", "off"); ("pgaudit.log_statement", "on");
    ("pgaudit.log_statement_once", "off");
    ("auto_explain.log_min_duration", "1s"); ("auto_explain.log_analyze", "on");
    ("auto_explain.log_buffers", "on"); ("auto_explain.log_timing", "on");
    ("auto_explain.log_nested_statements", "on") ].

(** The two copying loops: custom entries are written last. *)
Definition mergeParameters (base custom : gmap string string) : gmap string string :=
  custom ∪ base.

(** ** Bootstrap *)

Definition buildBootstrapConfiguration (p : SupabaseProject) (sn : SecretNamesStatus)
    : BootstrapConfiguration :=
  match recovery_enabled p with
  | Some r =>
      {| bc_InitDB := None;
         bc_Recovery := Some
           {| br_Source := RecoverySourceName p; br_Database := DatabaseName;
              br_Owner := OwnerRole; br_Secret := Some (sn_SupabaseAdmin sn);
              br_RecoveryTarget :=
                if bool_decide (rcs_TargetTime r ≠ "") then Some (rcs_TargetTime r) else None;
              br_other := ∅ |} |}
  | None =>
      {| bc_InitDB := Some
           {| ib_Database := DatabaseName; ib_Owner := OwnerRole;
              ib_Secret := Some (sn_SupabaseAdmin sn);
              ib_PostInitApplicationSQLRefs := Some [(InitSQLConfigMapName p, "init.sql")];
              ib_other := ∅ |};
         bc_Recovery := None |}
  end.

(** ** The Cluster *)

Definition defaultPgHBA : list string :=
  ["local all all trust"; "host all all 10.42.0.0/16 scram-sha-256";
   "host all all 10.43.0.0/16 scram-sha-256"; "host all all 10.0.0.0/8 scram-sha-256";
   "host all all 172.16.0.0/12 scram-sha-256"; "host all all 192.168.0.0/16 scram-sha-256"].

Definition BuildCluster (p : SupabaseProject) (sn : SecretNamesStatus) : Cluster :=
  let spec := sps_Database (prj_Spec p) in
  let instances := if db_Instances spec <=? 0 then 1 else db_Instances spec in
  let image := if bool_decide (db_Image spec ≠ "") then db_Image spec
               else PostgresImage +:+ ":" +:+ PostgresTag in
  {| cl_meta := new_meta (ClusterName p) (prj_Namespace p) (ComponentLabels p "postgresql") ∅;
     cl_Spec :=
       {| cs_Instances := instances;
          cs_ImageName := image;
          cs_EnableSuperuserAccess := Some (db_EnableSuperuserAccess spec);
          cs_Bootstrap := Some (buildBootstrapConfiguration p sn);
          cs_PostgresConfiguration :=
            {| pg_Parameters := mergeParameters defaultParameters (db_Parameters spec);
               pg_PgHBA := defaultPgHBA;
               pg_AdditionalLibraries :=
                 ["pg_stat_statements"; "pgaudit"; "auto_explain"] ++
                 db_AdditionalPreloadLibraries spec;
               pg_other := ∅ |};
          cs_StorageConfiguration := db_Storage spec;
          cs_Managed := Some {| mg_Roles := buildAllRoles p sn; mg_other := ∅ |};
          cs_Resources :=
            if bool_decide (rr_Requests (db_Resources spec) ≠ None) ||
               bool_decide (rr_Limits (db_Resources spec) ≠ None)
            then db_Resources spec else no_resources;
          cs_Affinity :=
            {| af_EnablePodAntiAffinity := if 1 <? instances then Some true else None;
               af_other := ∅ |};
          cs_Plugins :=
            match backup_enabled p with
            | Some _ =>
                [{| pc_Name := BarmanCloudPluginName; pc_Enabled := Some true;
                    pc_IsWALArchiver := Some true;
                    pc_Parameters := {[ "barmanObjectName" := ObjectStoreName p ]} |}]
            | None => []
            end;
          cs_ExternalClusters :=
            match recovery_enabled p with
            | Some r =>
                [{| ec_Name := RecoverySourceName p;
                    ec_PluginConfiguration := Some
                      {| pc_Name := BarmanCloudPluginName; pc_Enabled := None;
                         pc_IsWALArchiver := None;
                         pc_Parameters :=
                           {[ "barmanObjectName" := RecoveryObjectStoreName p;
                              "serverName" := rcs_ServerName r ]} |};
                    ec_other := ∅ |}]
            | None => []
            end;
          cs_other := ∅ |};
     cl_Status := no_cluster_status |}.

(** ** Object stores (objectstore.go) *)

Definition s3_credentials (secretName : string) : S3Credentials :=
  {| s3_AccessKeyIDReference :=
       Some {| skr_Name := secretName; skr_Key := DefaultAccessKeyIDKey |};
     s3_SecretAccessKeyReference :=
       Some {| skr_Name := secretName; skr_Key := DefaultSecretAccessKeyKey |};
     s3_other := ∅ |}.
(** [BarmanCredentials{AWS: &S3Credentials{...}}]. *)
Definition aws_credentials (secretName : string) : BarmanCredentials :=
  {| bcr_AWS := Some (s3_credentials secretName); bcr_Azure := None; bcr_Google := None |}.

Definition BuildObjectStore (p : SupabaseProject) : option ObjectStore :=
  match backup_enabled p with
  | None => None
  | Some backup =>
      let walCompression :=
        if bool_decide (bks_WalCompression backup ≠ "") then bks_WalCompression backup else "gzip" in
      let dataCompression :=
        if bool_decide (bks_DataCompression backup ≠ "") then bks_DataCompression backup else "gzip" in
      Some {| os_meta := new_meta (ObjectStoreName p) (prj_Namespace p)
                           (ComponentLabels p "backup") ∅;
              os_Configuration :=
                {| bo_BarmanCredentials :=
                     aws_credentials (s3c_S3CredentialsSecret (bks_S3Config backup));
                   bo_EndpointURL := s3c_EndpointURL (bks_S3Config backup);
                   bo_DestinationPath := s3c_DestinationPath (bks_S3Config backup);
                   bo_Wal := Some {| wal_Compression := walCompression; wal_MaxParallel := 2;
                                     wal_other := ∅ |};
                   bo_Data := Some {| dat_Compression := dataCompression; dat_other := ∅ |};
                   bo_other := ∅ |};
              os_RetentionPolicy := bks_RetentionPolicy backup; os_other := ∅ |}
  end.

Definition BuildRecoveryObjectStore (p : SupabaseProject) : option ObjectStore :=
  match recovery_enabled p with
  | None => None
  | Some recovery =>
      Some {| os_meta := new_meta (RecoveryObjectStoreName p) (prj_Namespace p)
                           (ComponentLabels p "recovery") ∅;
              os_Configuration :=
                {| bo_BarmanCredentials :=
                     aws_credentials (s3c_S3CredentialsSecret (rcs_S3Config recovery));
                   bo_EndpointURL := s3c_EndpointURL (rcs_S3Config recovery);
                   bo_DestinationPath := s3c_DestinationPath (rcs_S3Config recovery);
                   bo_Wal := None; bo_Data := None; bo_other := ∅ |};
              os_RetentionPolicy := ""; os_other := ∅ |}
  end.

(** ** Schedules (scheduled_backup.go) *)

Definition BuildScheduledBackup (p : SupabaseProject) : option ScheduledBackup :=
  match backup_enabled p with
  | None => None
  | Some backup =>
      Some {| sb_meta := new_meta (ScheduledBackupName p) (prj_Namespace p)
                           (ComponentLabels p "backup") ∅;
              sb_Schedule := if bool_decide (bks_Schedule backup = "") then "0 0 2 * * *"
                             else bks_Schedule backup;
              sb_Cluster := ClusterName p;
              sb_BackupOwnerReference := "self";
              sb_Method := BackupMethodPlugin;
              sb_PluginConfiguration := Some (BarmanCloudPluginName, ∅);
              sb_other := ∅ |}
  end.

(** ** The PowerSync publication (publication.go) *)

Definition BuildPowerSyncPublication (p : SupabaseProject) : result Publication :=
  schemas ← EffectivePublicationSchemas p;
  mret {| pb_meta := new_meta (prj_Name p +:+ "-powersync") (prj_Namespace p)
                       (ComponentLabels p "powersync-publication") ∅;
          pb_Spec := {| pbs_ClusterRef := ClusterName p; pbs_Name := "powersync";
                        pbs_DBName := DatabaseName;
                        pbs_Objects := (λ s, {| pto_TablesInSchema := s |}) <$> schemas;
                        pbs_ReclaimPolicy := PublicationReclaimDelete; pbs_other := ∅ |};
          pb_Status := {| pbt_ObservedGeneration := 0; pbt_Applied := None; pbt_Message := "" |} |}.

(** ** Properties *)

(** A project declaration overrides a default parameter, and nothing else
    changes the defaults. *)
Lemma mergeParameters_lookup base custom k :
  mergeParameters base custom !! k =
  match custom !! k with Some v => Some v | None => base !! k end.
Proof. unfold mergeParameters. rewrite lookup_union. by destruct (custom !! k), (base !! k). Qed.

Lemma applyGeneratedRoleDefaults_inherit roles :
  Forall (λ r, rc_ConnectionLimit r = -1 ∧ is_Some (rc_Inherit r))
    (applyGeneratedRoleDefaults roles).
Proof.
  apply Forall_fmap, Forall_true. intros r. cbn. destruct (rc_Inherit r) eqn:E; cbn; by rewrite ?E.
Qed.
