(* ===== verification/Encoding.v ===== *)
(** * Go's byte encodings: encoding/base64, encoding/hex, SHA-256

    The parts of the Go standard library that the credential code depends on
    for its format: base64 in its standard and URL alphabets, with and without
    padding, hexadecimal, big-endian integers of [math/big], and SHA-256. *)

From S2P Require Import Prelude.
From Stdlib Require Import Ascii.

(** ** Bytes *)

#[local] Arguments String.append !_ _ / : simpl nomatch.

Definition is_byte (z : Z) : Prop := 0 ≤ z < 256.

Lemma byte_Z_range c : is_byte (byte_Z c).
Proof. unfold is_byte, byte_Z. pose proof (N_ascii_bounded c). lia. Qed.
Lemma Z_byte_byte_Z c : Z_byte (byte_Z c) = c.
Proof. unfold Z_byte, byte_Z. by rewrite N2Z.id, ascii_N_embedding. Qed.
Lemma byte_Z_Z_byte z : is_byte z → byte_Z (Z_byte z) = z.
Proof.
  intros [? ?]. unfold Z_byte, byte_Z. rewrite N_ascii_embedding by lia. lia.
Qed.

Fixpoint bytes (s : string) : list Z :=
  match s with EmptyString => [] | String c s => byte_Z c :: bytes s end.

Lemma bytes_range s : Forall is_byte (bytes s).
Proof. induction s; cbn; constructor; auto using byte_Z_range. Qed.
Lemma bytes_length s : length (bytes s) = String.length s.
Proof. induction s; cbn; congruence. Qed.
Lemma byte_string_bytes s : byte_string (bytes s) = s.
Proof. induction s as [|c s IH]; cbn; [done|]. by rewrite Z_byte_byte_Z, IH. Qed.
Lemma bytes_byte_string l : Forall is_byte l → bytes (byte_string l) = l.
Proof. induction 1; cbn; [done|]. by rewrite byte_Z_Z_byte; [f_equal|]. Qed.
Lemma byte_string_length l : String.length (byte_string l) = length l.
Proof. induction l; cbn; congruence. Qed.
Lemma bytes_app a b : bytes (a +:+ b) = bytes a ++ bytes b.
Proof. induction a as [|c a IH]; [done|]. cbn. f_equal. apply IH. Qed.

(** ** Base64 *)

(** The 64 characters of an alphabet, in order. *)
Definition upper : string := "ABCDEFGHIJKLMNOPQRSTUVWXYZ".
Definition lower : string := "abcdefghijklmnopqrstuvwxyz".
Definition digits : string := "0123456789".
Definition std_alphabet : string := upper +:+ lower +:+ digits +:+ "+/".
Definition url_alphabet : string := upper +:+ lower +:+ digits +:+ "-_".

Record base64 := { b64_alphabet : string; b64_padded : bool }.
Definition StdEncoding : base64 := {| b64_alphabet := std_alphabet; b64_padded := true |}.
Definition URLEncoding : base64 := {| b64_alphabet := url_alphabet; b64_padded := true |}.
Definition RawURLEncoding : base64 := {| b64_alphabet := url_alphabet; b64_padded := false |}.

Definition alphabet_char (a : string) (i : Z) : ascii :=
  default zero (String.get (Z.to_nat i) a).
#[global] Arguments alphabet_char : simpl never.
Fixpoint alphabet_index (a : string) (c : ascii) : option Z :=
  match a with
  | EmptyString => None
  | String d a =>
      if bool_decide (c = d) then Some 0 else Z.succ <$> alphabet_index a c
  end.

Definition pad : ascii := "="%char.

Fixpoint b64_encode_bytes (e : base64) (l : list Z) : string :=
  let ch := alphabet_char (b64_alphabet e) in
  let padding s := if b64_padded e then s else EmptyString in
  match l with
  | a :: b :: c :: l =>
      String (ch (a / 4)) (String (ch (a mod 4 * 16 + b / 16))
        (String (ch (b mod 16 * 4 + c / 64)) (String (ch (c mod 64)) (b64_encode_bytes e l))))
  | [a; b] =>
      String (ch (a / 4)) (String (ch (a mod 4 * 16 + b / 16))
        (String (ch (b mod 16 * 4)) (padding (String pad EmptyString))))
  | [a] =>
      String (ch (a / 4)) (String (ch (a mod 4 * 16))
        (padding (String pad (String pad EmptyString))))
  | [] => EmptyString
  end.

Definition EncodeToString (e : base64) (s : string) : string := b64_encode_bytes e (bytes s).

(** Go's decoder skips CR and LF anywhere in the input. *)
Definition is_crlf (c : ascii) : bool := (byte_Z c =? 10) || (byte_Z c =? 13).

(** The decoder is not strict: unused low bits of the last character are
    ignored. Padding is only accepted at the end, and only when padded. *)
Fixpoint b64_decode_chars (e : base64) (l : list ascii) : option (list Z) :=
  let ix := alphabet_index (b64_alphabet e) in
  match l with
  | [] => Some []
  | [_] => None
  | [c1; c2] =>
      if b64_padded e then None else
      i1 ← ix c1; i2 ← ix c2; Some [(i1 * 4 + i2 / 16) mod 256]
  | [c1; c2; c3] =>
      if b64_padded e then None else
      i1 ← ix c1; i2 ← ix c2; i3 ← ix c3;
      Some [(i1 * 4 + i2 / 16) mod 256; (i2 * 16 + i3 / 4) mod 256]
  | c1 :: c2 :: c3 :: c4 :: l =>
      i1 ← ix c1; i2 ← ix c2;
      if b64_padded e && bool_decide (c4 = pad) then
        match l with
        | [] =>
            if bool_decide (c3 = pad) then Some [(i1 * 4 + i2 / 16) mod 256]
            else i3 ← ix c3; Some [(i1 * 4 + i2 / 16) mod 256; (i2 * 16 + i3 / 4) mod 256]
        | _ => None
        end
      else
        i3 ← ix c3; i4 ← ix c4; rest ← b64_decode_chars e l;
        Some ((i1 * 4 + i2 / 16) mod 256 :: (i2 * 16 + i3 / 4) mod 256 ::
              (i3 * 64 + i4) mod 256 :: rest)
  end.

Definition DecodeString (e : base64) (s : string) : option string :=
  byte_string <$> b64_decode_chars e
    (List.filter (λ c, negb (is_crlf c)) (String.list_ascii_of_string s)).

(** *** Round trip *)

(** What a 64-character alphabet must satisfy; both alphabets do. *)
Definition good_alphabet (a : string) : bool :=
  forallb (λ i, bool_decide (alphabet_index a (alphabet_char a i) = Some i) &&
                negb (bool_decide (alphabet_char a i = pad)) &&
                negb (is_crlf (alphabet_char a i))) (seqZ 0 64).

Lemma good_alphabet_spec a i :
  good_alphabet a = true → 0 ≤ i < 64 →
  alphabet_index a (alphabet_char a i) = Some i ∧ alphabet_char a i ≠ pad ∧
  is_crlf (alphabet_char a i) = false.
Proof.
  unfold good_alphabet. rewrite forallb_forall. intros H Hi.
  specialize (H i). bools. rewrite <- list_elem_of_In, elem_of_seqZ in H.
  apply H in Hi. bools. eauto.
Qed.

Lemma std_good : good_alphabet std_alphabet = true. Proof. by vm_compute. Qed.
Lemma url_good : good_alphabet url_alphabet = true. Proof. by vm_compute. Qed.

(** Induction three bytes at a time. *)
Lemma list_ind3 {A} (Q : list A → Prop) :
  Q [] → (∀ a, Q [a]) → (∀ a b, Q [a; b]) → (∀ a b c l, Q l → Q (a :: b :: c :: l)) →
  ∀ l, Q l.
Proof.
  intros H0 H1 H2 H3 l.
  assert (Q l ∧ (∀ a, Q (a :: l)) ∧ (∀ a b, Q (a :: b :: l))) as [? _]; [|done].
  induction l as [|x l (IH1 & IH2 & IH3)]; eauto 10.
Qed.

Ltac solve_byte := unfold is_byte in *; Z.div_mod_to_equations; lia.

Section RoundTrip.
Context (e : base64) (Hgood : good_alphabet (b64_alphabet e) = true).

Lemma b64_chars_ok l :
  Forall is_byte l →
  List.filter (λ c, negb (is_crlf c)) (String.list_ascii_of_string (b64_encode_bytes e l)) =
  String.list_ascii_of_string (b64_encode_bytes e l).
Proof.
  assert (Hch : ∀ i, 0 ≤ i < 64 → is_crlf (alphabet_char (b64_alphabet e) i) = false).
  { intros i Hi. by apply (good_alphabet_spec _ _ Hgood Hi). }
  intros Hl. induction l as [|a|a b|a b c l IH] using list_ind3; [done|..];
    repeat match goal with H : Forall _ (_ :: _) |- _ => apply Forall_cons in H as [? H] end;
    cbn -[Z.div Z.modulo Z.mul]; rewrite ?Hch by solve_byte; cbn -[Z.div Z.modulo Z.mul].
  - by destruct (b64_padded e).
  - by destruct (b64_padded e).
  - by rewrite IH.
Qed.

Lemma b64_decode_encode_chars l :
  Forall is_byte l →
  b64_decode_chars e (String.list_ascii_of_string (b64_encode_bytes e l)) = Some l.
Proof.
  assert (Hix : ∀ i, 0 ≤ i < 64 → alphabet_index (b64_alphabet e)
            (alphabet_char (b64_alphabet e) i) = Some i).
  { intros i Hi. by apply (good_alphabet_spec _ _ Hgood Hi). }
  assert (Hpad : ∀ i, 0 ≤ i < 64 → bool_decide (alphabet_char (b64_alphabet e) i = pad) = false).
  { intros i Hi. apply bool_decide_eq_false. by apply (good_alphabet_spec _ _ Hgood Hi). }
  intros Hl. induction l as [|a|a b|a b c l IH] using list_ind3; [done|..];
    repeat match goal with H : Forall _ (_ :: _) |- _ => apply Forall_cons in H as [? H] end;
    cbn -[Z.div Z.modulo Z.mul].
  - destruct (b64_padded e); cbn -[Z.div Z.modulo Z.mul]; rewrite !Hix by solve_byte;
      cbn -[Z.div Z.modulo Z.mul]; do 2 f_equal; solve_byte.
  - destruct (b64_padded e); cbn -[Z.div Z.modulo Z.mul]; rewrite ?Hpad, !Hix by solve_byte;
      cbn -[Z.div Z.modulo Z.mul]; repeat f_equal; solve_byte.
  - rewrite !Hix, Hpad, andb_false_r, IH by (done || solve_byte).
    cbn -[Z.div Z.modulo Z.mul]. repeat f_equal; solve_byte.
Qed.

Lemma DecodeString_EncodeToString s : DecodeString e (EncodeToString e s) = Some s.
Proof.
  unfold DecodeString, EncodeToString.
  rewrite b64_chars_ok, b64_decode_encode_chars by apply bytes_range.
  cbn. by rewrite byte_string_bytes.
Qed.
End RoundTrip.

(** Lengths of unpadded encodings. *)
Lemma b64_raw_length a l :
  String.length (b64_encode_bytes {| b64_alphabet := a; b64_padded := false |} l) =
  ((length l * 4 + 2) / 3)%nat.
Proof.
  induction l as [|x|x y|x y z l IH] using list_ind3; [done..|].
  cbn [b64_encode_bytes b64_alphabet String.length]. rewrite IH.
  assert (length (x :: y :: z :: l) * 4 + 2 = length l * 4 + 2 + 4 * 3)%nat as ->
    by (cbn; lia).
  rewrite Nat.div_add by lia. lia.
Qed.

(** Every character of an unpadded encoding is one of the alphabet's. *)
Lemma b64_raw_chars a (f : ascii → bool) l :
  (∀ i, 0 ≤ i < 64 → f (alphabet_char a i) = true) → Forall is_byte l →
  str_forallb f (b64_encode_bytes {| b64_alphabet := a; b64_padded := false |} l) = true.
Proof.
  intros Hf Hl. induction l as [|x|x y|x y z l IH] using list_ind3; [done|..];
    repeat match goal with H : Forall _ (_ :: _) |- _ => apply Forall_cons in H as [? H] end;
    cbn -[Z.div Z.modulo Z.mul]; rewrite !Hf by solve_byte; cbn; auto.
Qed.

(** ** Hexadecimal *)

Definition hex_digits : string := "0123456789abcdef".
Fixpoint hex_bytes (l : list Z) : string :=
  match l with
  | [] => EmptyString
  | b :: l => String (alphabet_char hex_digits (b / 16))
                (String (alphabet_char hex_digits (b mod 16)) (hex_bytes l))
  end.
(** hex.EncodeToString, and the %x verb on bytes. *)
Definition HexEncode (s : string) : string := hex_bytes (bytes s).

Lemma HexEncode_length s : String.length (HexEncode s) = (2 * String.length s)%nat.
Proof.
  unfold HexEncode. rewrite <- (bytes_length s).
  generalize (bytes s). intros l. induction l as [|b l IH]; [done|].
  cbn [hex_bytes String.length length]. rewrite IH. lia.
Qed.

(** ** Big-endian integers *)

(** big.Int.SetBytes. *)
Definition SetBytes (s : string) : Z := foldl (λ acc b, acc * 256 + b) 0 (bytes s).
(** The [n] low bytes of [z], most significant first. *)
Fixpoint be_bytes (n : nat) (z : Z) : list Z :=
  match n with O => [] | S n => be_bytes n (z / 256) ++ [z mod 256] end.

Lemma be_bytes_length n z : length (be_bytes n z) = n.
Proof. revert z. induction n as [|n IH]; intros z; cbn; [done|]. rewrite length_app, IH. cbn. lia. Qed.
Lemma be_bytes_range n z : Forall is_byte (be_bytes n z).
Proof.
  revert z. induction n as [|n IH]; intros z; cbn; [constructor|].
  apply Forall_app. split; [done|]. repeat constructor; apply Z.mod_pos_bound; lia.
Qed.
Lemma foldl_be_bytes n z :
  0 ≤ z < 256 ^ Z.of_nat n → foldl (λ acc b, acc * 256 + b) 0 (be_bytes n z) = z.
Proof.
  revert z. induction n as [|n IH]; intros z Hz; cbn [be_bytes].
  - cbn in *. lia.
  - rewrite foldl_app, IH; cbn; [solve_byte|].
    rewrite Nat2Z.inj_succ, Z.pow_succ_r in Hz by lia.
    split; [apply Z.div_pos; lia | apply Z.div_lt_upper_bound; lia].
Qed.
Lemma SetBytes_be_bytes n z :
  0 ≤ z < 256 ^ Z.of_nat n → SetBytes (byte_string (be_bytes n z)) = z.
Proof.
  intros Hz. unfold SetBytes. rewrite bytes_byte_string by apply be_bytes_range.
  by apply foldl_be_bytes.
Qed.
