(* ===== verification/Sha256.v ===== *)
(** * SHA-256 (crypto/sha256)

    The hash the source computes on credentials, opaque keys and rollout
    inputs, as an executable function on byte strings with its 32-bit
    arithmetic written out, checked against the FIPS 180-4 test vectors. *)

From S2P Require Import Prelude Encoding.

Definition w32 (z : Z) : Z := Z.land z 0xFFFFFFFF.
Definition rotr (n x : Z) : Z := Z.lor (Z.shiftr x n) (w32 (Z.shiftl x (32 - n))).

(** The round constants are the first 32 bits of the fractional parts of the
    cube roots of the first 64 primes: an integer cube root, bit by bit. *)
Definition is_prime (n : nat) : bool :=
  forallb (λ d, negb (Nat.eqb (n mod d) 0)) (seq 2 (n - 2)).
Definition primes : list Z :=
  Eval vm_compute in Z.of_nat <$> List.filter is_prime (seq 2 310).
Fixpoint cbrt (bits : nat) (r n : Z) : Z :=
  match bits with
  | O => r
  | S b =>
      let r' := r + 2 ^ Z.of_nat b in
      cbrt b (if bool_decide (r' * r' * r' ≤ n) then r' else r) n
  end.
Definition sha_k : list Z :=
  Eval vm_compute in (λ p, w32 (cbrt 40 0 (p * 2 ^ 96))) <$> primes.

(** Hash state: the eight working variables. *)
Record sha_state := {
  ha : Z; hb : Z; hc : Z; hd : Z; he : Z; hf : Z; hg : Z; hh : Z }.

Definition sha_init : sha_state :=
  {| ha := 0x6a09e667; hb := 0xbb67ae85; hc := 0x3c6ef372; hd := 0xa54ff53a;
     he := 0x510e527f; hf := 0x9b05688c; hg := 0x1f83d9ab; hh := 0x5be0cd19 |}.

Definition sha_round (s : sha_state) (kw : Z * Z) : sha_state :=
  let (k, w) := kw in
  let e := he s in
  let a := ha s in
  let S1 := Z.lxor (Z.lxor (rotr 6 e) (rotr 11 e)) (rotr 25 e) in
  let ch := Z.lxor (Z.land e (hf s)) (Z.land (Z.lxor e 0xFFFFFFFF) (hg s)) in
  let t1 := hh s + S1 + ch + k + w in
  let S0 := Z.lxor (Z.lxor (rotr 2 a) (rotr 13 a)) (rotr 22 a) in
  let maj := Z.lxor (Z.lxor (Z.land a (hb s)) (Z.land a (hc s))) (Z.land (hb s) (hc s)) in
  {| ha := w32 (t1 + S0 + maj); hb := a; hc := hb s; hd := hc s;
     he := w32 (hd s + t1); hf := e; hg := hf s; hh := hg s |}.

(** The message schedule, most recent word first: 48 words after the 16. *)
Fixpoint schedule (n : nat) (ws : list Z) : list Z :=
  match n with
  | O => ws
  | S n =>
      let x15 := nth 14 ws 0 in
      let x2 := nth 1 ws 0 in
      let s0 := Z.lxor (Z.lxor (rotr 7 x15) (rotr 18 x15)) (Z.shiftr x15 3) in
      let s1 := Z.lxor (Z.lxor (rotr 17 x2) (rotr 19 x2)) (Z.shiftr x2 10) in
      schedule n (w32 (nth 15 ws 0 + s0 + nth 6 ws 0 + s1) :: ws)
  end.

Fixpoint words (l : list Z) : list Z :=
  match l with
  | a :: b :: c :: d :: l => (a * 2^24 + b * 2^16 + c * 2^8 + d) :: words l
  | _ => []
  end.

Definition sha_block (s : sha_state) (block : list Z) : sha_state :=
  let w := reverse (schedule 48 (reverse (words block))) in
  let t := foldl sha_round s (zip sha_k w) in
  {| ha := w32 (ha s + ha t); hb := w32 (hb s + hb t); hc := w32 (hc s + hc t);
     hd := w32 (hd s + hd t); he := w32 (he s + he t); hf := w32 (hf s + hf t);
     hg := w32 (hg s + hg t); hh := w32 (hh s + hh t) |}.

(** Blocks of 64 bytes; [fuel] is the number of blocks. *)
Fixpoint sha_blocks (fuel : nat) (s : sha_state) (l : list Z) : sha_state :=
  match fuel with
  | O => s
  | S fuel => sha_blocks fuel (sha_block s (take 64 l)) (drop 64 l)
  end.

Definition sha_pad (l : list Z) : list Z :=
  let n := length l in
  let z := ((119 - n mod 64) mod 64)%nat in
  l ++ 0x80 :: replicate z 0 ++ be_bytes 8 (8 * Z.of_nat n).

Definition sha_digest (s : sha_state) : list Z :=
  concat (be_bytes 4 <$> [ha s; hb s; hc s; hd s; he s; hf s; hg s; hh s]).

(** sha256.Sum256: the 32-byte digest. *)
Definition Sum256 (s : string) : string :=
  let l := sha_pad (bytes s) in
  byte_string (sha_digest (sha_blocks (length l / 64) sha_init l)).

Example sha256_empty : HexEncode (Sum256 "") =
  "e3b0c44298fc1c149afbf4c8996fb92427ae41e4649b934ca495991b7852b855".
Proof. by vm_compute. Qed.
Example sha256_abc : HexEncode (Sum256 "abc") =
  "ba7816bf8f01cfea414140de5dae2223b00361a396177a9cb410ff61f20015ad".
Proof. by vm_compute. Qed.
Example sha256_two_blocks :
  HexEncode (Sum256 "abcdbcdecdefdefgefghfghighijhijkijkljklmklmnlmnomnopnopq") =
  "248d6a61d20638b8e5c026930c3e6039a33ce45964ff2167f6ecedd419db06c1".
Proof. by vm_compute. Qed.

Lemma Sum256_length s : String.length (Sum256 s) = 32%nat.
Proof.
  unfold Sum256, sha_digest. rewrite byte_string_length. cbn [fmap list_fmap concat].
  by rewrite !length_app, !be_bytes_length.
Qed.
