(* ===== verification/Crypto.v ===== *)
(** * ES256 keys and tokens, random secrets (src/pkg/crypto)

    JWK and JWT validation of es256.go and the generators of password.go.
    encoding/json and the P-256 arithmetic of crypto/ecdsa and
    crypto/elliptic are parameters ([CryptoLib]); base64 and SHA-256 are the
    executable functions of [Encoding] and [Sha256].  The clock is an
    argument. *)

From S2P Require Import Prelude Encoding Sha256.
From Stdlib Require Import Ascii.

(** ** Data *)

Record JWK := {
  jwk_Kty : string; jwk_Alg : string; jwk_Use : string; jwk_Crv : string;
  jwk_X : string; jwk_Y : string; jwk_D : string; jwk_Kid : string;
  jwk_KeyOps : list string; jwk_Ext : option bool }.
#[export] Instance JWK_eq : EqDecision JWK.
Proof. solve_decision. Defined.

Record JWTHeader := { jh_Alg : string; jh_Typ : string; jh_Kid : string }.
#[export] Instance JWTHeader_eq : EqDecision JWTHeader.
Proof. solve_decision. Defined.

(** A decoded JSON value of Go type [any], as far as the code looks into it. *)
Inductive json := JString (s : string) | JArray (l : list json) | JOther.

Record JWTClaims := {
  jc_Role : string; jc_Aud : json; jc_Iss : string; jc_Iat : Z; jc_Exp : Z }.

(** An affine point and a key pair of crypto/ecdsa. *)
Record ecdsa_PublicKey := { pk_X : Z; pk_Y : Z }.
#[export] Instance ecdsa_PublicKey_eq : EqDecision ecdsa_PublicKey.
Proof. solve_decision. Defined.
Record ecdsa_PrivateKey := { sk_PublicKey : ecdsa_PublicKey; sk_D : Z }.

Class CryptoLib := {
  (** encoding/json *)
  UnmarshalJWKs : string → result (list JWK);
  UnmarshalHeader : string → result JWTHeader;
  UnmarshalClaims : string → result JWTClaims;
  MarshalJWKs : list JWK → result string;
  MarshalJWKSet : list JWK → result string;      (* {"keys": ...} *)
  MarshalHeader : JWTHeader → result string;
  MarshalClaims : JWTClaims → result string;
  (** elliptic.P256() *)
  P256_N : Z;
  P256_IsOnCurve : Z → Z → bool;
  P256_ScalarBaseMult : Z → Z * Z;
  (** crypto/ecdsa *)
  ecdsa_Verify : ecdsa_PublicKey → string → Z → Z → bool
}.

Definition ES256 : string := "ES256".
Definition RequiredRoleAudience : string := "authenticated".

(** ** Byte helpers *)

Definition decodeBase64URL (value : string) : option string :=
  match DecodeString RawURLEncoding value with
  | Some decoded => Some decoded
  | None => DecodeString URLEncoding value
  end.

Definition decodeCoordinate (value : string) : result Z :=
  if bool_decide (value = "") then inl (ErrorString "empty coordinate")
  else match decodeBase64URL value with
       | Some decoded =>
           if bool_decide (String.length decoded ≠ 32%nat)
           then inl (ErrorString "coordinate must be 32-byte base64url")
           else inr (SetBytes decoded)
       | None => inl (ErrorString "coordinate must be 32-byte base64url")
       end.

(** big.Int.Bytes: minimal big-endian bytes of a non-negative integer. *)
Definition big_Bytes (z : Z) : list Z :=
  if z =? 0 then [] else be_bytes (Z.to_nat (Z.log2 z / 8 + 1)) z.

(** The slice expression panics on more than 32 bytes; every caller passes a
    value below 2^256 ([decodeCoordinate_range]). *)
Definition paddedCoordinate (value : Z) : string :=
  let b := big_Bytes value in
  byte_string (replicate (32 - length b) 0 ++ b).

Definition contains (values : list string) (wanted : string) : bool :=
  existsb (λ v, bool_decide (v = wanted)) values.

(** ** Keys *)

Section Keys.
Context `{CryptoLib}.

Definition ecdsaPrivateKey (key : JWK) : result ecdsa_PrivateKey :=
  match decodeCoordinate (jwk_X key) with
  | inl _ => inl (ErrorString "x is not a valid P-256 coordinate")
  | inr x =>
      match decodeCoordinate (jwk_Y key) with
      | inl _ => inl (ErrorString "y is not a valid P-256 coordinate")
      | inr y =>
          match decodeCoordinate (jwk_D key) with
          | inl _ => inl (ErrorString "d is not a valid P-256 private scalar")
          | inr d =>
              if negb (P256_IsOnCurve x y)
              then inl (ErrorString "public point is not on P-256")
              else if (d <=? 0) || (P256_N <=? d)
              then inl (ErrorString "private scalar is outside P-256 range")
              else if negb (bool_decide (P256_ScalarBaseMult d = (x, y)))
              then inl (ErrorString "public coordinates do not match private scalar")
              else inr {| sk_PublicKey := {| pk_X := x; pk_Y := y |}; sk_D := d |}
          end
      end
  end.

Definition ecdsaPublicKey (key : JWK) : result ecdsa_PublicKey :=
  match decodeCoordinate (jwk_X key) with
  | inl _ => inl (ErrorString "x is not a valid P-256 coordinate")
  | inr x =>
      match decodeCoordinate (jwk_Y key) with
      | inl _ => inl (ErrorString "y is not a valid P-256 coordinate")
      | inr y =>
          if negb (P256_IsOnCurve x y)
          then inl (ErrorString "public point is not on P-256")
          else inr {| pk_X := x; pk_Y := y |}
      end
  end.

Definition ParseJWKArray (raw : string) : result (list JWK) :=
  match UnmarshalJWKs raw with
  | inl err => inl (WrapError "must be valid JSON: " err)
  | inr keys =>
      if bool_decide (length keys ≠ 1%nat)
      then inl (ErrorString "must contain exactly one key") else inr keys
  end.

Definition ValidateSigningJWK (key : JWK) : result unit :=
  _ ← guard_err (bool_decide (jwk_Kty key ≠ "EC")) (ErrorString "kty must be EC");
  _ ← guard_err (bool_decide (jwk_Crv key ≠ "P-256")) (ErrorString "crv must be P-256");
  _ ← guard_err (bool_decide (jwk_Alg key ≠ ES256)) (ErrorString "alg must be ES256");
  _ ← guard_err (bool_decide (jwk_Use key ≠ "") && bool_decide (jwk_Use key ≠ "sig"))
        (ErrorString "use must be sig");
  _ ← guard_err (bool_decide (jwk_Kid key = "")) (ErrorString "kid must be non-empty");
  _ ← guard_err (bool_decide (jwk_KeyOps key ≠ []) && negb (contains (jwk_KeyOps key) "sign"))
        (ErrorString "key_ops must include sign");
  _ ← guard_err (bool_decide (jwk_X key = "") || bool_decide (jwk_Y key = "") ||
                 bool_decide (jwk_D key = ""))
        (ErrorString "x, y, and d are required");
  _ ← ecdsaPrivateKey key;
  mret tt.

(** [keys[0]] of the single-element array. *)
Definition ParseSigningJWK (raw : string) : result JWK :=
  keys ← ParseJWKArray raw;
  match keys with
  | key :: _ => _ ← ValidateSigningJWK key; mret key
  | [] => inl (ErrorString "must contain exactly one key")
  end.

Definition PublicJWK (key : JWK) : result JWK :=
  _ ← ValidateSigningJWK key;
  private ← ecdsaPrivateKey key;
  let public :=
    {| jwk_Kty := "EC"; jwk_Alg := ES256; jwk_Use := "sig"; jwk_Crv := "P-256";
       jwk_X := EncodeToString RawURLEncoding
                  (paddedCoordinate (pk_X (sk_PublicKey private)));
       jwk_Y := EncodeToString RawURLEncoding
                  (paddedCoordinate (pk_Y (sk_PublicKey private)));
       jwk_D := ""; jwk_Kid := jwk_Kid key; jwk_KeyOps := ["verify"]; jwk_Ext := None |} in
  mret (match jwk_Ext key with
        | Some _ => public <| jwk_Ext := jwk_Ext key |>
        | None => public
        end).

Definition PublicJWKS (raw : string) : result string :=
  key ← ParseSigningJWK raw;
  public ← PublicJWK key;
  match MarshalJWKSet [public] with
  | inl err => inl (WrapError "marshalling public JWKS: " err)
  | inr encoded => inr encoded
  end.

(** ** Tokens *)

Definition audienceMatches (value : json) (expected : string) : bool :=
  match value with
  | JString aud => bool_decide (aud = expected)
  | JArray items =>
      existsb (λ item, match item with
                       | JString s => bool_decide (s = expected)
                       | _ => false
                       end) items
  | JOther => false
  end.

Definition dot : ascii := "."%char.

(** [now] is time.Now().Unix(). *)
Definition verifyWithPublicKey (now : Z) (token : string) (public : ecdsa_PublicKey)
    (expectedKid expectedRole expectedAudience : string) : result unit :=
  match Split token dot with
  | [p0; p1; p2] =>
      headerJSON ← from_option inr (inl (ErrorString "JWT header is not valid base64url"))
                     (decodeBase64URL p0);
      header ← match UnmarshalHeader headerJSON with
               | inl _ => inl (ErrorString "JWT header is not valid JSON")
               | inr h => inr h
               end;
      _ ← guard_err (bool_decide (jh_Alg header ≠ ES256)) (ErrorString "JWT alg must be ES256");
      _ ← guard_err (bool_decide (jh_Kid header ≠ expectedKid))
            (ErrorString "JWT kid does not match signing key");
      claimsJSON ← from_option inr (inl (ErrorString "JWT claims are not valid base64url"))
                     (decodeBase64URL p1);
      claims ← match UnmarshalClaims claimsJSON with
               | inl _ => inl (ErrorString "JWT claims are not valid JSON")
               | inr c => inr c
               end;
      _ ← guard_err (bool_decide (jc_Role claims ≠ expectedRole))
            (ErrorString "JWT role does not match expected role");
      _ ← guard_err (negb (audienceMatches (jc_Aud claims) expectedAudience))
            (ErrorString "JWT audience does not match expected audience");
      _ ← guard_err (jc_Exp claims <=? now) (ErrorString "JWT is expired");
      signature ← from_option inr
                    (inl (ErrorString "JWT signature is not a valid ES256 signature"))
                    (decodeBase64URL p2);
      _ ← guard_err (bool_decide (String.length signature ≠ 64%nat))
            (ErrorString "JWT signature is not a valid ES256 signature");
      let hash := Sum256 (p0 +:+ "." +:+ p1) in
      let r := SetBytes (str_take 32 signature) in
      let s := SetBytes (str_drop 32 signature) in
      guard_err (negb (ecdsa_Verify public hash r s))
        (ErrorString "JWT signature verification failed")
  | _ => inl (ErrorString "JWT must contain three segments")
  end.

Definition VerifyES256JWT (now : Z) (token : string) (key : JWK)
    (expectedRole expectedAudience : string) : result unit :=
  _ ← ValidateSigningJWK key;
  private ← ecdsaPrivateKey key;
  verifyWithPublicKey now token (sk_PublicKey private) (jwk_Kid key)
    expectedRole expectedAudience.

Definition VerifyES256JWTWithPublicKey (now : Z) (token : string) (key : JWK)
    (expectedRole expectedAudience : string) : result unit :=
  if bool_decide (jwk_Kty key ≠ "EC") || bool_decide (jwk_Crv key ≠ "P-256") ||
     bool_decide (jwk_Alg key ≠ ES256) || bool_decide (jwk_Kid key = "")
  then inl (ErrorString "public JWK must be a P-256 ES256 key with a kid")
  else
    public ← ecdsaPublicKey key;
    verifyWithPublicKey now token public (jwk_Kid key) expectedRole expectedAudience.
End Keys.

(** ** Random values (password.go); the argument is what rand.Read returned *)

Definition random_bytes (n : nat) (r : result string) : result string :=
  bytes ← r;
  if bool_decide (String.length bytes ≠ n)
  then inl (ErrorString ("insufficient random bytes: got " +:+
         pretty (String.length bytes) +:+ ", want " +:+ pretty n))
  else inr bytes.

Definition GenerateHex (n : nat) (r : result string) : result string :=
  HexEncode <$> random_bytes n r.
Definition GenerateBase64 (n : nat) (r : result string) : result string :=
  EncodeToString StdEncoding <$> random_bytes n r.
Definition GeneratePassword (r : result string) : result string := GenerateHex 32 r.
Definition GenerateWebhookSecret (r : result string) : result string :=
  secret ← GenerateBase64 32 r; mret ("v1,whsec_" +:+ secret).

(** ** Lemmas *)

Lemma foldl_bytes_range l acc n :
  Forall is_byte l → 0 ≤ acc < 256 ^ n → 0 ≤ n →
  0 ≤ foldl (λ acc b, acc * 256 + b) acc l < 256 ^ (n + Z.of_nat (length l)).
Proof.
  revert acc n. induction l as [|b l IH]; intros acc n Hl Hacc Hn; cbn.
  - by rewrite Z.add_0_r.
  - apply Forall_cons in Hl as [Hb Hl]. unfold is_byte in Hb.
    replace (n + Z.of_nat (S (length l))) with ((n + 1) + Z.of_nat (length l)) by lia.
    apply IH; [done| |lia]. rewrite Z.pow_add_r by lia. lia.
Qed.

Lemma SetBytes_range s : 0 ≤ SetBytes s < 256 ^ Z.of_nat (String.length s).
Proof.
  unfold SetBytes. rewrite <- bytes_length.
  apply (foldl_bytes_range (bytes s) 0 0); [apply bytes_range|lia|lia].
Qed.

Lemma decodeCoordinate_range v x : decodeCoordinate v = inr x → 0 ≤ x < 256 ^ 32.
Proof.
  unfold decodeCoordinate. intros H. split_cases.
  bools. pose proof (SetBytes_range s) as Hs.
  destruct (decide (String.length s = 32%nat)) as [E|E]; [by rewrite E in Hs|done].
Qed.

Lemma be_bytes_pad n m z :
  0 ≤ z < 256 ^ Z.of_nat n → be_bytes (m + n) z = replicate m 0 ++ be_bytes n z.
Proof.
  revert z. induction n as [|n IH]; intros z Hz.
  - assert (z = 0) as -> by (cbn in Hz; lia). rewrite Nat.add_0_r, app_nil_r. clear.
    induction m as [|m IH]; [done|]. cbn [be_bytes].
    rewrite Z.div_0_l, IH by lia. by rewrite <- replicate_cons_app.
  - rewrite Nat.add_succ_r. cbn [be_bytes]. rewrite app_assoc, IH; [done|].
    rewrite Nat2Z.inj_succ, Z.pow_succ_r in Hz by lia.
    split; [apply Z.div_pos; lia | apply Z.div_lt_upper_bound; lia].
Qed.

(** On 256-bit values padding yields exactly the 32 big-endian bytes. *)
Lemma paddedCoordinate_be v :
  0 ≤ v < 256 ^ 32 → paddedCoordinate v = byte_string (be_bytes 32 v).
Proof.
  intros Hv. unfold paddedCoordinate, big_Bytes. f_equal.
  destruct (Z.eqb_spec v 0) as [->|Hne]; [by vm_compute|].
  pose proof (Z.log2_spec v) as Hl. specialize (Hl ltac:(lia)).
  assert (Z.log2 v < 256) as Hub.
  { apply Z.log2_lt_pow2; [lia|]. change (2 ^ 256) with (256 ^ 32). lia. }
  pose proof (Z.log2_nonneg v) as Hge.
  set (n := Z.to_nat (Z.log2 v / 8 + 1)).
  assert (Hn : (n ≤ 32)%nat) by (unfold n; Z.div_mod_to_equations; lia).
  rewrite be_bytes_length.
  replace 32%nat with ((32 - n) + n)%nat at 2 by lia.
  rewrite be_bytes_pad; [done|]. split; [lia|].
  change 256 with (2 ^ 8). rewrite <- Z.pow_mul_r by lia.
  eapply Z.lt_le_trans; [apply Hl|]. apply Z.pow_le_mono_r; [lia|].
  unfold n. Z.div_mod_to_equations; lia.
Qed.

Lemma EncodeToString_raw_nonempty s : s ≠ "" → EncodeToString RawURLEncoding s ≠ "".
Proof. destruct s as [|c [|d [|e s]]]; by cbn. Qed.

(** Re-encoding a decoded coordinate and decoding it again is the identity. *)
Lemma decodeCoordinate_padded x :
  0 ≤ x < 256 ^ 32 →
  decodeCoordinate (EncodeToString RawURLEncoding (paddedCoordinate x)) = inr x.
Proof.
  intros Hx. rewrite paddedCoordinate_be by done. unfold decodeCoordinate.
  rewrite bool_decide_eq_false_2.
  2:{ apply EncodeToString_raw_nonempty. intros H.
      apply (f_equal String.length) in H. rewrite byte_string_length, be_bytes_length in H. done. }
  unfold decodeBase64URL. rewrite DecodeString_EncodeToString by apply url_good.
  rewrite byte_string_length, be_bytes_length, bool_decide_eq_false_2 by auto.
  by rewrite SetBytes_be_bytes.
Qed.

Section Projection.
Context `{CryptoLib}.

Lemma ecdsaPrivateKey_point key sk :
  ecdsaPrivateKey key = inr sk →
  P256_IsOnCurve (pk_X (sk_PublicKey sk)) (pk_Y (sk_PublicKey sk)) = true ∧
  0 ≤ pk_X (sk_PublicKey sk) < 256 ^ 32 ∧ 0 ≤ pk_Y (sk_PublicKey sk) < 256 ^ 32.
Proof.
  unfold ecdsaPrivateKey. intros Hk. split_cases. bools; cbn.
  split_and!; try done; by eapply decodeCoordinate_range.
Qed.

(** The public projection of a valid key. *)
Lemma PublicJWK_inr key pub :
  PublicJWK key = inr pub →
  ∃ sk, ValidateSigningJWK key = inr tt ∧ ecdsaPrivateKey key = inr sk ∧
    jwk_Kty pub = "EC" ∧ jwk_Crv pub = "P-256" ∧ jwk_Alg pub = ES256 ∧
    jwk_D pub = "" ∧ jwk_Kid pub = jwk_Kid key ∧
    ecdsaPublicKey pub = inr (sk_PublicKey sk).
Proof.
  unfold PublicJWK. intros Hp. invert_result. destruct x.
  exists x0. destruct (ecdsaPrivateKey_point key x0) as (Hc & Hx & Hy); [done|].
  split_and!; [done|done|..].
  1-5: by destruct (jwk_Ext key); subst pub.
  unfold ecdsaPublicKey.
  replace (jwk_X pub) with
    (EncodeToString RawURLEncoding (paddedCoordinate (pk_X (sk_PublicKey x0))))
    by (by destruct (jwk_Ext key); subst pub).
  replace (jwk_Y pub) with
    (EncodeToString RawURLEncoding (paddedCoordinate (pk_Y (sk_PublicKey x0))))
    by (by destruct (jwk_Ext key); subst pub).
  rewrite !decodeCoordinate_padded, Hc by done. by destruct x0 as [[]].
Qed.

Lemma ValidateSigningJWK_kid key u : ValidateSigningJWK key = inr u → jwk_Kid key ≠ "".
Proof. unfold ValidateSigningJWK. intros Hv. invert_result. by bools. Qed.

(** A coordinate as it is projected: 32 bytes, 43 characters. *)
Lemma projected_length v :
  0 ≤ v < 256 ^ 32 →
  String.length (paddedCoordinate v) = 32%nat ∧
  String.length (EncodeToString RawURLEncoding (paddedCoordinate v)) = 43%nat.
Proof.
  intros Hv. rewrite paddedCoordinate_be by done.
  assert (Hl : String.length (byte_string (be_bytes 32 v)) = 32%nat)
    by by rewrite byte_string_length, be_bytes_length.
  split; [done|]. unfold EncodeToString, RawURLEncoding. by rewrite b64_raw_length, bytes_length, Hl.
Qed.

Lemma ecdsaPrivateKey_scalar key sk :
  ecdsaPrivateKey key = inr sk →
  0 < sk_D sk < P256_N ∧ sk_D sk < 256 ^ 32 ∧
  P256_ScalarBaseMult (sk_D sk) = (pk_X (sk_PublicKey sk), pk_Y (sk_PublicKey sk)).
Proof.
  unfold ecdsaPrivateKey. intros Hk. split_cases. bools; cbn.
  match goal with Hd : decodeCoordinate (jwk_D key) = _ |- _ => apply decodeCoordinate_range in Hd end.
  split; [lia|]. split; [lia|done].
Qed.
(** A valid signing key has a private key, and a projection of its point. *)
Lemma ValidateSigningJWK_projects key u :
  ValidateSigningJWK key = inr u →
  ∃ sk pub, ecdsaPrivateKey key = inr sk ∧ PublicJWK key = inr pub ∧
    jwk_X pub = EncodeToString RawURLEncoding (paddedCoordinate (pk_X (sk_PublicKey sk))) ∧
    jwk_Y pub = EncodeToString RawURLEncoding (paddedCoordinate (pk_Y (sk_PublicKey sk))).
Proof.
  intros Hv. pose proof Hv as Hk. unfold ValidateSigningJWK in Hk. invert_result. 
  match goal with Hkey : ecdsaPrivateKey key = inr ?sk |- _ => exists sk; unfold PublicJWK; rewrite Hv, Hkey end.
  eexists. split; [done|]. split; [reflexivity|].
  by destruct (jwk_Ext key).
Qed.
End Projection.

(** C24: the public projection drops the private scalar and is exactly as
    discriminating as the signing key: on every token, role, audience and
    clock reading, verification with the projected key gives the same answer,
    error included, as verification with the key it was projected from. *)
Theorem PublicJWK_verifies `{CryptoLib} key pub :
  PublicJWK key = inr pub →
  jwk_D pub = "" ∧ jwk_Kid pub = jwk_Kid key ∧
  ∀ now token role audience,
    VerifyES256JWTWithPublicKey now token pub role audience =
    VerifyES256JWT now token key role audience.
Proof.
  intros Hp. destruct (PublicJWK_inr key pub Hp)
    as (sk & Hval & Hsk & Hkty & Hcrv & Halg & Hd & Hkid & Hpub).
  split; [done|]. split; [done|]. intros now token role audience.
  unfold VerifyES256JWTWithPublicKey, VerifyES256JWT.
  rewrite Hkty, Hcrv, Halg, Hkid, Hpub, Hval, Hsk, (bool_decide_eq_false_2 (jwk_Kid key = ""))
    by (by eapply ValidateSigningJWK_kid).
  by rewrite !bool_decide_eq_false_2 by (by intros []).
Qed.

(** C25: the range of a signing key.  A key [ParseSigningJWK] accepts has a
    private scalar strictly between 0 and the group order, coordinates below
    2^256 on the curve, and the scalar's public point; its public projection
    exists, no padding of a coordinate overflows its 32 bytes, and the
    projected coordinates are strings of exactly 43 characters that decode to
    the same point. *)
Theorem ParseSigningJWK_bounds `{CryptoLib} raw key :
  ParseSigningJWK raw = inr key →
  ∃ sk pub, ecdsaPrivateKey key = inr sk ∧ PublicJWK key = inr pub ∧
    0 < sk_D sk < P256_N ∧ sk_D sk < 2 ^ 256 ∧
    let x := pk_X (sk_PublicKey sk) in
    let y := pk_Y (sk_PublicKey sk) in
    0 ≤ x < 2 ^ 256 ∧ 0 ≤ y < 2 ^ 256 ∧ P256_IsOnCurve x y = true ∧
    P256_ScalarBaseMult (sk_D sk) = (x, y) ∧
    String.length (paddedCoordinate x) = 32%nat ∧ String.length (paddedCoordinate y) = 32%nat ∧
    String.length (jwk_X pub) = 43%nat ∧ String.length (jwk_Y pub) = 43%nat ∧
    decodeCoordinate (jwk_X pub) = inr x ∧ decodeCoordinate (jwk_Y pub) = inr y.
Proof.
  unfold ParseSigningJWK. intros Hp. invert_result. destruct x as [|k ks]; invert_result. subst k.
  destruct (ValidateSigningJWK_projects key _ ltac:(eassumption)) as (sk & pub & Hsk & Hpub & Hx & Hy).
  exists sk, pub. change (2 ^ 256) with (256 ^ 32).
  destruct (ecdsaPrivateKey_scalar key sk Hsk) as (Hd & Hd' & Hmul).
  destruct (ecdsaPrivateKey_point key sk Hsk) as (Hc & Hrx & Hry).
  destruct (projected_length _ Hrx), (projected_length _ Hry).
  cbv zeta. rewrite Hx, Hy, !decodeCoordinate_padded by done. split_and!; first [done | lia].
Qed.
