(* ===== verification/Secrets.v ===== *)
(** * Secrets (src/internal/resources/secrets/secrets.go)

    The external credential bundle and its validation, the canonical form of
    opaque keys, and the secrets the operator generates once.  Random bytes
    come from [RandRead] calls of the controller monad; the bundle's
    validation takes the two clock readings of its two token checks. *)

From S2P Require Import Prelude KubeTypes Types Platform Effects Common Encoding Sha256 Crypto.
From Stdlib Require Import Ascii.

(** ** Keys and names *)

Definition EmailHookSecretKey : string := "secret".
Definition ProjectCredentialsSigningKeysKey : string := "signingKeys".
Definition ProjectCredentialsPublishableKey : string := "publishableKey".
Definition ProjectCredentialsSecretKey : string := "secretKey".
Definition ProjectCredentialsAnonRoleJWTKey : string := "anonRoleJwt".
Definition ProjectCredentialsServiceRoleJWTKey : string := "serviceRoleJwt".
Definition GoTrueFallbackSecretKey : string := "secret".
Definition GoTrueFallbackSecretNameSuffix : string := "-gotrue-jwt-secret".
Definition PowersyncAPITokenSecretKey : string := "token".
Definition PowersyncAPITokenSecretNameSuffix : string := "-powersync-api-token".

Definition emailHookSecretBytes : nat := 32.
Definition powersyncAPITokenBytes : nat := 32.
Definition opaqueKeyChecksumContext : string := "supabase-self-hosted".
Definition opaqueKeyRandomLength : nat := 22.
Definition opaqueKeyChecksumLength : nat := 8.

Record ProjectCredentials := {
  pc_SigningKeys : string; pc_PublishableKey : string; pc_SecretKey : string;
  pc_AnonRoleJWT : string; pc_ServiceRoleJWT : string; pc_PublicJWKS : string;
  pc_SigningKeyID : string; pc_PodTemplateHash : string }.

Definition RequiredProjectCredentialKeys : list string :=
  [ProjectCredentialsSigningKeysKey; ProjectCredentialsPublishableKey;
   ProjectCredentialsSecretKey; ProjectCredentialsAnonRoleJWTKey;
   ProjectCredentialsServiceRoleJWTKey].

Definition GoTrueFallbackSecretName (p : SupabaseProject) : string :=
  prj_Name p +:+ GoTrueFallbackSecretNameSuffix.
Definition EmailHookSecretName (p : SupabaseProject) : string := prj_Name p +:+ "-email-hook".
Definition PowersyncSecretNames (p : SupabaseProject) : string * string :=
  (prj_Name p +:+ "-powersync-storage-password", prj_Name p +:+ "-powersync-replication-password").
Definition PowersyncAPITokenSecretName (p : SupabaseProject) : string :=
  prj_Name p +:+ PowersyncAPITokenSecretNameSuffix.

(** ** Opaque keys *)

(** The source ranges over runes; a byte outside ASCII yields a rune above
    127, which no range admits, so checking bytes gives the same answer. *)
Definition isBase64URLCharacter (r : ascii) : bool :=
  let z := byte_Z r in
  ((65 <=? z) && (z <=? 90)) || ((97 <=? z) && (z <=? 122)) ||
  ((48 <=? z) && (z <=? 57)) || (z =? 45) || (z =? 95).

(** [base64url(sha256(context|body))[:8]]. *)
Definition opaque_checksum (body : string) : string :=
  str_take opaqueKeyChecksumLength
    (EncodeToString RawURLEncoding (Sum256 (opaqueKeyChecksumContext +:+ "|" +:+ body))).

Definition validateOpaqueKey (value prefix : string) : result unit :=
  _ ← guard_err (negb (HasPrefix value prefix))
        (ErrorString "must start with the canonical prefix");
  let expectedLength :=
    (String.length prefix + opaqueKeyRandomLength + 1 + opaqueKeyChecksumLength)%nat in
  _ ← guard_err (bool_decide (String.length value ≠ expectedLength))
        (ErrorString ("must be exactly " +:+ pretty expectedLength +:+ " characters"));
  let randomStart := String.length prefix in
  let randomEnd := (randomStart + opaqueKeyRandomLength)%nat in
  _ ← guard_err (bool_decide (str_slice randomEnd (randomEnd + 1) value ≠ "_"))
        (ErrorString "must contain a separator after the 22-character random segment");
  _ ← guard_err (negb (str_forallb isBase64URLCharacter (str_slice randomStart randomEnd value)))
        (ErrorString "random segment contains an invalid Base64URL character");
  let checksum := str_drop (randomEnd + 1) value in
  _ ← guard_err (negb (str_forallb isBase64URLCharacter checksum))
        (ErrorString "checksum contains an invalid Base64URL character");
  guard_err (bool_decide (checksum ≠ opaque_checksum (str_take randomEnd value)))
    (ErrorString "checksum does not match the canonical key").

(** The canonical form of an opaque key. *)
Definition canonical_opaque_key (prefix random : string) : string :=
  let body := prefix +:+ random in body +:+ "_" +:+ opaque_checksum body.

(** ** The credential bundle *)

(** [for key := range m { if err := f(key); err != nil { return err } }]; Go
    leaves the order of the keys open, here it is that of [map_to_list]. *)
Definition for_keys (m : gmap string string) (f : string → result unit) : result unit :=
  foldr (λ kv rest, _ ← f kv.1; rest) (inr tt) (map_to_list m).

Definition secretValue (secret : Secret) (key : string) : option string :=
  match sec_Data secret !! key with
  | Some value => Some value
  | None => sec_StringData secret !! key
  end.

(** The bytes hashed into the pod template annotation. *)
Definition credentials_preimage (values : gmap string string) : string :=
  foldr (λ key acc, key +:+ ":" +:+ pretty (String.length (map_get values key)) +:+ ":" +:+
                    map_get values key +:+ acc) "" RequiredProjectCredentialKeys.

Section Credentials.
Context `{Platform} `{CryptoLib}.

Definition fieldError (field reason : string) : error :=
  ErrorString ("project credential field " +:+ Quote field +:+ ": " +:+ reason).

Definition unexpected_data (secret : Secret) : result unit :=
  for_keys (sec_Data secret) (λ key,
    guard_err (negb (bool_decide (key ∈ RequiredProjectCredentialKeys)))
      (fieldError key "unexpected field")).
Definition unexpected_string_data (secret : Secret) : result unit :=
  for_keys (sec_StringData secret) (λ key,
    _ ← guard_err (negb (bool_decide (key ∈ RequiredProjectCredentialKeys)))
          (fieldError key "unexpected field");
    guard_err (bool_decide (is_Some (sec_Data secret !! key)))
      (fieldError key "value is provided more than once")).

Fixpoint required_values (secret : Secret) (keys : list string)
    (values : gmap string string) : result (gmap string string) :=
  match keys with
  | [] => inr values
  | key :: keys =>
      match secretValue secret key with
      | Some value =>
          if bool_decide (value = "") then inl (fieldError key "value is required")
          else required_values secret keys (<[key := value]> values)
      | None => inl (fieldError key "value is required")
      end
  end.

(** [if err := r; err != nil { return nil, fieldError(field, err.Error()) }]. *)
Definition field_err {A} (field : string) (r : result A) : result A :=
  match r with inl err => inl (fieldError field (Error err)) | inr a => inr a end.

Definition ValidateProjectCredentials (now1 now2 : Z) (secret : option Secret)
    : result ProjectCredentials :=
  match secret with
  | None => inl (fieldError "secret" "object is nil")
  | Some secret =>
      _ ← unexpected_data secret;
      _ ← unexpected_string_data secret;
      values ← required_values secret RequiredProjectCredentialKeys ∅;
      let value := map_get values in
      signingKey ← field_err ProjectCredentialsSigningKeysKey
        (ParseSigningJWK (value ProjectCredentialsSigningKeysKey));
      publicJWKS ←
        match PublicJWKS (value ProjectCredentialsSigningKeysKey) with
        | inl _ => inl (fieldError ProjectCredentialsSigningKeysKey "public projection failed")
        | inr jwks => inr jwks
        end;
      _ ← field_err ProjectCredentialsPublishableKey
        (validateOpaqueKey (value ProjectCredentialsPublishableKey) "sb_publishable_");
      _ ← field_err ProjectCredentialsSecretKey
        (validateOpaqueKey (value ProjectCredentialsSecretKey) "sb_secret_");
      _ ← guard_err
        (bool_decide (value ProjectCredentialsPublishableKey = value ProjectCredentialsSecretKey))
        (fieldError ProjectCredentialsSecretKey "must be distinct from publishableKey");
      _ ← field_err ProjectCredentialsAnonRoleJWTKey
        (VerifyES256JWT now1 (value ProjectCredentialsAnonRoleJWTKey) signingKey "anon"
           RequiredRoleAudience);
      _ ← field_err ProjectCredentialsServiceRoleJWTKey
        (VerifyES256JWT now2 (value ProjectCredentialsServiceRoleJWTKey) signingKey
           "service_role" RequiredRoleAudience);
      mret {| pc_SigningKeys := value ProjectCredentialsSigningKeysKey;
              pc_PublishableKey := value ProjectCredentialsPublishableKey;
              pc_SecretKey := value ProjectCredentialsSecretKey;
              pc_AnonRoleJWT := value ProjectCredentialsAnonRoleJWTKey;
              pc_ServiceRoleJWT := value ProjectCredentialsServiceRoleJWTKey;
              pc_PublicJWKS := publicJWKS;
              pc_SigningKeyID := jwk_Kid signingKey;
              pc_PodTemplateHash := HexEncode (Sum256 (credentials_preimage values)) |}
  end.

(** ** Validation of the other secrets *)

Definition ValidateEmailHookSecret (secret : option Secret) : result unit :=
  match secret with
  | None => inl (ErrorString "email hook Secret is nil")
  | Some secret =>
      match secretValue secret EmailHookSecretKey with
      | Some value =>
          if negb (HasPrefix value "v1,whsec_")
          then inl (ErrorString "email hook Secret must contain a Standard Webhooks value")
          else match DecodeString StdEncoding (TrimPrefix value "v1,whsec_") with
               | Some payload =>
                   guard_err (bool_decide (String.length payload ≠ emailHookSecretBytes))
                     (ErrorString "email hook Secret contains an invalid Standard Webhooks value")
               | None =>
                   inl (ErrorString "email hook Secret contains an invalid Standard Webhooks value")
               end
      | None => inl (ErrorString "email hook Secret must contain a Standard Webhooks value")
      end
  end.

Definition ValidateRoleSecret (secret : option Secret) (secretName : string) : result unit :=
  match secret with
  | None => inl (ErrorString ("role Secret " +:+ secretName +:+ " is nil"))
  | Some secret =>
      foldr (λ key rest,
          match secretValue secret key with
          | None => inl (ErrorString ("role Secret " +:+ secretName +:+
                           " is missing required key " +:+ Quote key))
          | Some _ => rest
          end) (inr tt) ["username"; "password"]
  end.

Definition ValidatePowersyncAPITokenSecret (secret : option Secret) : result unit :=
  match secret with
  | None => inl (ErrorString "PowerSync API token Secret is nil")
  | Some secret =>
      guard_err
        match secretValue secret PowersyncAPITokenSecretKey with
        | Some value => bool_decide (TrimSpace value = "")
        | None => true
        end
        (ErrorString ("PowerSync API token Secret is missing required non-empty key " +:+
           Quote PowersyncAPITokenSecretKey))
  end.
End Credentials.

(** ** Generation *)

(** An opaque Secret of the project's namespace with component labels. *)
Definition opaque_secret (p : SupabaseProject) (name component : string)
    (data stringData : gmap string string) : Secret :=
  {| sec_meta := new_meta name (prj_Namespace p) (ComponentLabels p component) ∅;
     sec_Data := data; sec_StringData := stringData; sec_Type := "Opaque" |}.

Definition GenerateGoTrueFallbackSecret (p : SupabaseProject) : M (Secret * string) :=
  let name := GoTrueFallbackSecretName p in
  r ← call (RandRead 32);
  value ← map_error (lift (GenerateHex 32 r)) (WrapError "generating GoTrue fallback secret: ");
  mret (opaque_secret p name "gotrue-secret" ∅ {[ GoTrueFallbackSecretKey := value ]}, name).

Definition generateRoleSecret (p : SupabaseProject) (suffix username : string)
    : M (Secret * string) :=
  let name := prj_Name p +:+ "-" +:+ suffix +:+ "-password" in
  r ← call (RandRead 32);
  password ← map_error (lift (GeneratePassword r))
    (WrapError ("generating " +:+ username +:+ " password: "));
  mret (opaque_secret p name suffix ∅ {[ "username" := username; "password" := password ]}, name).

Definition GenerateSecrets (p : SupabaseProject) : M (list Secret * SecretNamesStatus) :=
  '(fallback, fallbackName) ← GenerateGoTrueFallbackSecret p;
  '(admin, adminName) ← generateRoleSecret p "supabase-admin" "supabase_admin";
  '(authenticator, authenticatorName) ← generateRoleSecret p "authenticator" "authenticator";
  '(authAdmin, authAdminName) ← generateRoleSecret p "auth-admin" "supabase_auth_admin";
  mret ([fallback; admin; authenticator; authAdmin],
        no_secret_names <| sn_GoTrueFallback := fallbackName |>
          <| sn_SupabaseAdmin := adminName |> <| sn_Authenticator := authenticatorName |>
          <| sn_AuthAdmin := authAdminName |>).

Definition GenerateEmailHookSecret (p : SupabaseProject) : M (Secret * string) :=
  let name := EmailHookSecretName p in
  r ← call (RandRead 32);
  value ← map_error (lift (GenerateWebhookSecret r)) (WrapError "generating webhook secret: ");
  mret (opaque_secret p name "email-hook" {[ EmailHookSecretKey := value ]} ∅, name).

Definition GeneratePowersyncSecrets (p : SupabaseProject) : M (list Secret) :=
  '(storage, _) ← generateRoleSecret p "powersync-storage" "powersync_storage";
  '(replication, _) ← generateRoleSecret p "powersync-replication" "powersync_replication";
  mret [storage; replication].

Definition GeneratePowersyncAPITokenSecret (p : SupabaseProject) : M Secret :=
  r ← call (RandRead powersyncAPITokenBytes);
  token ← map_error (lift (GenerateHex powersyncAPITokenBytes r))
    (WrapError "generating PowerSync API token: ");
  mret (opaque_secret p (PowersyncAPITokenSecretName p) "powersync-api-token" ∅
          {[ PowersyncAPITokenSecretKey := token ]}).

(** ** Opaque keys: the checks recognise exactly the canonical form *)

#[local] Arguments String.append !_ _ / : simpl nomatch.

Lemma b64url_chars i :
  0 ≤ i < 64 → isBase64URLCharacter (alphabet_char url_alphabet i) = true.
Proof.
  intros Hi.
  assert (Hall : forallb (λ n, isBase64URLCharacter (alphabet_char url_alphabet (Z.of_nat n)))
                   (seq 0 64) = true) by (by vm_compute).
  rewrite forallb_forall in Hall. specialize (Hall (Z.to_nat i)).
  rewrite Z2Nat.id in Hall by lia. apply Hall, in_seq. lia.
Qed.

Lemma opaque_checksum_length body : String.length (opaque_checksum body) = 8%nat.
Proof.
  unfold opaque_checksum. rewrite str_take_length. unfold EncodeToString, RawURLEncoding.
  rewrite b64_raw_length, bytes_length, Sum256_length. done.
Qed.
Lemma opaque_checksum_chars body :
  str_forallb isBase64URLCharacter (opaque_checksum body) = true.
Proof.
  apply str_forallb_take. unfold EncodeToString, RawURLEncoding.
  apply b64_raw_chars; [apply b64url_chars | apply bytes_range].
Qed.

(** Slices of a string whose parts have known lengths. *)
Lemma str_split3 (a b c : string) n m :
  String.length a = n → String.length b = m →
  str_take n (a +:+ b +:+ c) = a ∧
  str_slice n (n + m) (a +:+ b +:+ c) = b ∧ str_drop (n + m) (a +:+ b +:+ c) = c.
Proof.
  intros <- <-. unfold str_slice. split_and!.
  - apply str_take_app.
  - replace (_ - _)%nat with (String.length b) by lia.
    rewrite str_drop_app. apply str_take_app.
  - rewrite str_app_assoc, <- str_app_length. apply str_drop_app.
Qed.

Lemma str_take_slice_drop i j (s : string) :
  (i ≤ j)%nat → str_take i s +:+ str_slice i j s = str_take j s.
Proof.
  unfold str_slice. revert j s. induction i as [|i IH]; intros j s Hij.
  - by rewrite Nat.sub_0_r.
  - destruct j as [|j]; [lia|]. destruct s as [|c s]; [cbn; by destruct (j - i)%nat|].
    cbn. f_equal. apply IH. lia.
Qed.

(** Every canonical key is accepted. *)
Lemma canonical_opaque_key_valid prefix random :
  String.length random = opaqueKeyRandomLength →
  str_forallb isBase64URLCharacter random = true →
  validateOpaqueKey (canonical_opaque_key prefix random) prefix = inr tt.
Proof.
  intros Hlen Hchars. unfold opaqueKeyRandomLength in Hlen.
  unfold validateOpaqueKey, canonical_opaque_key, opaqueKeyRandomLength,
    opaqueKeyChecksumLength.
  set (body := prefix +:+ random).
  assert (Hbody : String.length body = (String.length prefix + 22)%nat)
    by (unfold body; rewrite str_app_length; lia).
  pose proof (opaque_checksum_length body) as Hcl.
  destruct (str_split3 body "_" (opaque_checksum body) _ 1 Hbody eq_refl) as (E1 & E2 & E3).
  destruct (str_split3 prefix random ("_" +:+ opaque_checksum body) _ 22 eq_refl Hlen)
    as (_ & E4 & _). rewrite str_app_assoc in E4. fold body in E4.
  rewrite E1, E2, E3, E4, Hchars, opaque_checksum_chars.
  replace (HasPrefix _ _) with true
    by (unfold body; by rewrite <- str_app_assoc, HasPrefix_app).
  assert (Htot : String.length (body +:+ "_" +:+ opaque_checksum body) =
                 (String.length prefix + 22 + 1 + 8)%nat)
    by (rewrite !str_app_length, Hbody, Hcl; cbn; lia).
  rewrite Htot. by rewrite !bool_decide_eq_false_2 by auto.
Qed.

(** C26: [validateOpaqueKey] accepts exactly the canonical keys: the prefix,
    22 base64url characters, an underscore and the 8-character checksum of
    what precedes it. *)
Theorem validateOpaqueKey_canonical value prefix :
  validateOpaqueKey value prefix = inr tt ↔
  ∃ random, String.length random = opaqueKeyRandomLength ∧
    str_forallb isBase64URLCharacter random = true ∧
    value = canonical_opaque_key prefix random.
Proof.
  split; [|intros (random & Hlen & Hchars & ->); by apply canonical_opaque_key_valid].
  unfold validateOpaqueKey, canonical_opaque_key, opaqueKeyRandomLength, opaqueKeyChecksumLength.
  intros Hv. invert_result. bools.
  match goal with H : HasPrefix _ _ = true |- _ => apply HasPrefix_spec in H as [t ->] end.
  set (n := String.length prefix) in *.
  assert (Hp : str_take n (prefix +:+ t) = prefix) by apply str_take_app.
  match goal with H : ¬ (String.length _ ≠ _) |- _ => apply dec_stable in H; rename H into Hlen end.
  repeat match goal with H : ¬ (_ ≠ _) |- _ => apply dec_stable in H end.
  exists (str_slice n (n + 22) (prefix +:+ t)).
  split; [|split; [done|]].
  { unfold str_slice. rewrite str_take_length, str_drop_length, Hlen. lia. }
  pose proof (str_take_slice_drop n (n + 22) (prefix +:+ t) ltac:(lia)) as Hb.
  rewrite Hp in Hb. rewrite Hb.
  rewrite <- (str_take_drop (n + 22 + 1) (prefix +:+ t)) at 1.
  rewrite <- (str_take_slice_drop (n + 22) (n + 22 + 1)) by lia.
  rewrite <- str_app_assoc. congruence.
Qed.

(** ** The credential bundle contract *)

Lemma for_keys_ok m f :
  for_keys m f = inr tt ↔ ∀ key, is_Some (m !! key) → f key = inr tt.
Proof.
  unfold for_keys. transitivity (∀ kv, kv ∈ map_to_list m → f kv.1 = inr tt).
  - induction (map_to_list m) as [|kv l IH]; cbn; [by split; [intros _ ? ?%not_elem_of_nil|]|].
    destruct (f kv.1) as [e|[]] eqn:E; cbn.
    + split; [done|]. intros Hl. rewrite <- E. apply Hl. by left.
    + rewrite IH. split; [|intros Hl kv' ?; apply Hl; by right].
      intros Hl kv' [->|?]%elem_of_cons; [done|by apply Hl].
  - split.
    + intros Hl key [v Hv]. apply (Hl (key, v)), elem_of_map_to_list, Hv.
    + intros Hm [key v] Hin%elem_of_map_to_list. apply Hm. eauto.
Qed.

(** The value of a bundle key, and the conditions a bundle must meet. *)
Definition bundle_value (secret : Secret) (key : string) : string :=
  default "" (secretValue secret key).

Record valid_bundle `{CryptoLib} (now1 now2 : Z) (secret : Secret) (key : JWK) (jwks : string)
    : Prop := {
  vb_data : ∀ k, is_Some (sec_Data secret !! k) → k ∈ RequiredProjectCredentialKeys;
  vb_string_data : ∀ k, is_Some (sec_StringData secret !! k) →
    k ∈ RequiredProjectCredentialKeys ∧ sec_Data secret !! k = None;
  vb_present : ∀ k, k ∈ RequiredProjectCredentialKeys → bundle_value secret k ≠ "";
  vb_signing : ParseSigningJWK (bundle_value secret ProjectCredentialsSigningKeysKey) = inr key;
  vb_jwks : PublicJWKS (bundle_value secret ProjectCredentialsSigningKeysKey) = inr jwks;
  vb_publishable :
    validateOpaqueKey (bundle_value secret ProjectCredentialsPublishableKey)
      "sb_publishable_" = inr tt;
  vb_secret :
    validateOpaqueKey (bundle_value secret ProjectCredentialsSecretKey) "sb_secret_" = inr tt;
  vb_anon :
    VerifyES256JWT now1 (bundle_value secret ProjectCredentialsAnonRoleJWTKey) key "anon"
      RequiredRoleAudience = inr tt;
  vb_service :
    VerifyES256JWT now2 (bundle_value secret ProjectCredentialsServiceRoleJWTKey) key
      "service_role" RequiredRoleAudience = inr tt }.

Lemma required_values_spec `{Platform} secret keys values r :
  required_values secret keys values = inr r →
  (∀ k, k ∈ keys → bundle_value secret k ≠ "") ∧
  ∀ k, map_get r k = if bool_decide (k ∈ keys) then bundle_value secret k else map_get values k.
Proof.
  revert values. induction keys as [|k keys IH]; cbn; intros values.
  { intros [= ->]. split; [by intros ? ?%not_elem_of_nil|]. done. }
  destruct (secretValue secret k) as [v|] eqn:Ek; [|done].
  assert (Hk : bundle_value secret k = v) by (unfold bundle_value; by rewrite Ek).
  case_bool_decide; [done|]. intros [Hp Hr]%IH. split.
  - intros k' [->|?]%elem_of_cons; [by rewrite Hk|by apply Hp].
  - intros k'. rewrite Hr. clear Hp Hr. unfold map_get.
    destruct (decide (k' = k)) as [->|Hne].
    + rewrite lookup_insert_eq, (bool_decide_eq_true_2 (k ∈ k :: keys)) by by left.
      by case_bool_decide.
    + rewrite lookup_insert_ne by done.
      by rewrite (bool_decide_ext (k' ∈ k :: keys) (k' ∈ keys))
        by (rewrite elem_of_cons; naive_solver).
Qed.

Lemma required_values_ok `{Platform} secret keys values :
  (∀ k, k ∈ keys → bundle_value secret k ≠ "") →
  ∃ r, required_values secret keys values = inr r.
Proof.
  revert values. induction keys as [|k keys IH]; cbn; intros values Hp; [eauto|].
  assert (Hk : bundle_value secret k ≠ "") by (apply Hp; by left).
  unfold bundle_value in Hk. destruct (secretValue secret k) as [v|]; [|done]. cbn in Hk.
  rewrite bool_decide_eq_false_2 by done. apply IH. intros k' ?. apply Hp. by right.
Qed.

Lemma field_err_inr `{Platform} {A} field (r : result A) a :
  field_err field r = inr a ↔ r = inr a.
Proof. destruct r; cbn; naive_solver. Qed.

Lemma validateOpaqueKey_prefix v p : validateOpaqueKey v p = inr tt → ∃ t, v = p +:+ t.
Proof. unfold validateOpaqueKey. intros Hv. invert_result. bools. by apply HasPrefix_spec. Qed.

(** A publishable key is never a secret key. *)
Lemma opaque_keys_distinct v :
  validateOpaqueKey v "sb_publishable_" = inr tt → validateOpaqueKey v "sb_secret_" ≠ inr tt.
Proof.
  intros [t1 H1]%validateOpaqueKey_prefix [t2 H2]%validateOpaqueKey_prefix.
  rewrite H1 in H2. cbn [String.append] in H2. discriminate H2.
Qed.

Lemma unexpected_data_ok `{Platform} secret :
  unexpected_data secret = inr tt ↔
  ∀ k, is_Some (sec_Data secret !! k) → k ∈ RequiredProjectCredentialKeys.
Proof.
  unfold unexpected_data. rewrite for_keys_ok.
  apply forall_proper; intros k. rewrite guard_err_inr, negb_false_iff, bool_decide_eq_true. done.
Qed.

Lemma unexpected_string_data_ok `{Platform} secret :
  unexpected_string_data secret = inr tt ↔
  ∀ k, is_Some (sec_StringData secret !! k) →
    k ∈ RequiredProjectCredentialKeys ∧ sec_Data secret !! k = None.
Proof.
  unfold unexpected_string_data. rewrite for_keys_ok.
  apply forall_proper; intros k. rewrite result_bind_inr. split.
  - intros Hk Hs. destruct (Hk Hs) as ([] & H1 & H2). apply guard_err_inr in H1, H2. bools.
    split; [done|]. by apply eq_None_not_Some.
  - intros Hk Hs. destruct (Hk Hs) as [H1 H2]. exists tt.
    rewrite !guard_err_inr, bool_decide_eq_true_2, bool_decide_eq_false_2; [done| |done].
    rewrite H2. apply is_Some_None.
Qed.

(** The values of a bundle as the operator keeps them. *)
Definition bundle_credentials (secret : Secret) (key : JWK) (jwks : string) : ProjectCredentials :=
  {| pc_SigningKeys := bundle_value secret ProjectCredentialsSigningKeysKey;
     pc_PublishableKey := bundle_value secret ProjectCredentialsPublishableKey;
     pc_SecretKey := bundle_value secret ProjectCredentialsSecretKey;
     pc_AnonRoleJWT := bundle_value secret ProjectCredentialsAnonRoleJWTKey;
     pc_ServiceRoleJWT := bundle_value secret ProjectCredentialsServiceRoleJWTKey;
     pc_PublicJWKS := jwks; pc_SigningKeyID := jwk_Kid key;
     pc_PodTemplateHash := HexEncode (Sum256 (foldr (λ key acc,
       key +:+ ":" +:+ pretty (String.length (bundle_value secret key)) +:+ ":" +:+
       bundle_value secret key +:+ acc) "" RequiredProjectCredentialKeys)) |}.

Lemma required_values_lookup `{Platform} secret r k :
  required_values secret RequiredProjectCredentialKeys ∅ = inr r →
  k ∈ RequiredProjectCredentialKeys → map_get r k = bundle_value secret k.
Proof. intros [_ Hr]%required_values_spec Hk. by rewrite Hr, bool_decide_eq_true_2. Qed.

(** Every valid bundle is accepted. *)
Lemma valid_bundle_accepted `{Platform} `{CryptoLib} now1 now2 secret key jwks :
  valid_bundle now1 now2 secret key jwks →
  ValidateProjectCredentials now1 now2 (Some secret) = inr (bundle_credentials secret key jwks).
Proof.
  intros []. cbn [ValidateProjectCredentials].
  destruct (required_values_ok secret RequiredProjectCredentialKeys ∅) as [r Er]; [done|].
  pose proof (λ k, required_values_lookup secret r k Er) as Hr.
  rewrite (result_bind_ok _ _ tt) by by apply unexpected_data_ok.
  rewrite (result_bind_ok _ _ tt) by by apply unexpected_string_data_ok.
  rewrite (result_bind_ok _ _ r) by done. cbv zeta.
  unfold credentials_preimage. unfold RequiredProjectCredentialKeys at 1. cbn [foldr].
  rewrite !Hr by (unfold RequiredProjectCredentialKeys; set_solver).
  rewrite (result_bind_ok _ _ key) by by apply field_err_inr.
  rewrite (result_bind_ok _ _ jwks) by by rewrite vb_jwks0.
  do 2 rewrite (result_bind_ok _ _ tt) by by apply field_err_inr.
  rewrite (result_bind_ok _ _ tt).
  2:{ apply guard_err_inr, bool_decide_eq_false_2. intros Heq.
      rewrite <- Heq in *. by eapply opaque_keys_distinct. }
  do 2 rewrite (result_bind_ok _ _ tt) by by apply field_err_inr.
  done.
Qed.

(** C20: [ValidateProjectCredentials] accepts a bundle exactly when it meets
    [valid_bundle] (the five fields and no other, each given once and not
    empty, a P-256 ES256 signing key, canonical opaque keys, role tokens of
    that key, unexpired, for the roles anon and service_role), and then
    returns the bundle's own values, the public key set and the key id. *)
Theorem ValidateProjectCredentials_contract `{Platform} `{CryptoLib} now1 now2 secret creds :
  ValidateProjectCredentials now1 now2 (Some secret) = inr creds ↔
  ∃ key jwks, valid_bundle now1 now2 secret key jwks ∧
    creds = bundle_credentials secret key jwks.
Proof.
  split; [|intros (key & jwks & Hv & ->); by apply valid_bundle_accepted].
  cbn [ValidateProjectCredentials].
  intros Hv. invert_result.
  repeat match goal with x : () |- _ => destruct x end.
  rename x1 into r, x2 into key, x3 into jwks.
  match goal with H : required_values _ _ _ = inr r |- _ =>
    pose proof (λ k, required_values_lookup secret r k H) as Hr; apply required_values_spec in H as [Hp _] end.
  unfold credentials_preimage, RequiredProjectCredentialKeys in Hv. cbn [foldr] in Hv.
  rewrite !Hr in * by (unfold RequiredProjectCredentialKeys; set_solver).
  repeat match goal with H : field_err _ _ = inr _ |- _ => apply field_err_inr in H end.
  exists key, jwks. split; [|by rewrite <- Hv].
  split; try done.
  + by apply unexpected_data_ok.
  + by apply unexpected_string_data_ok.
  + split_cases.
Qed.

(** ** The pod template hash *)

(** C27: the text hashed into the pod template annotation determines every
    credential value: two bundles with the same pre-image agree on all five
    fields, so (short of a SHA-256 collision) a rotation of any field changes
    the annotation. *)
Theorem credentials_preimage_inj v w :
  credentials_preimage v = credentials_preimage w →
  ∀ k, k ∈ RequiredProjectCredentialKeys → map_get v k = map_get w k.
Proof.
  assert (Hstep : ∀ k keys,
    (foldr (λ key acc, key +:+ ":" +:+ pretty (String.length (map_get v key)) +:+ ":" +:+
       map_get v key +:+ acc) "" (k :: keys) =
     foldr (λ key acc, key +:+ ":" +:+ pretty (String.length (map_get w key)) +:+ ":" +:+
       map_get w key +:+ acc) "" (k :: keys)) →
    map_get v k = map_get w k ∧
    (foldr (λ key acc, key +:+ ":" +:+ pretty (String.length (map_get v key)) +:+ ":" +:+
       map_get v key +:+ acc) "" keys =
     foldr (λ key acc, key +:+ ":" +:+ pretty (String.length (map_get w key)) +:+ ":" +:+
       map_get w key +:+ acc) "" keys)).
  { intros k keys. cbn [foldr]. intros Heq. do 2 apply str_app_inj_l in Heq.
    apply str_app_sep_inj in Heq as [Hl Heq];
      [|apply pretty_nat_chars; intros d; unfold pretty_N_char; by repeat case_match..].
    apply (inj pretty) in Hl. by apply str_app_inj_len in Heq. }
  unfold credentials_preimage. generalize RequiredProjectCredentialKeys as keys.
  induction keys as [|k keys IH]; intros Heq k' Hk'; [by apply not_elem_of_nil in Hk'|].
  apply Hstep in Heq as [Hk Heq]. apply elem_of_cons in Hk' as [->|Hk']; [done|by apply IH].
Qed.

(** ** Generated secrets pass their own validation *)

Lemma GenerateWebhookSecret_spec r :
  match GenerateWebhookSecret r with
  | inl _ => ∀ b, r = inr b → String.length b ≠ 32%nat
  | inr v => ∃ b, r = inr b ∧ String.length b = 32%nat ∧
               v = "v1,whsec_" +:+ EncodeToString StdEncoding b
  end.
Proof.
  unfold GenerateWebhookSecret, GenerateBase64, random_bytes.
  destruct r as [e|b]; [by intros ? [=]|]. cbn [mbind result_bind].
  case_bool_decide as Hl; cbn; [by intros ? [= <-]|]. eauto.
Qed.

Lemma secretValue_data p name component k v sd :
  secretValue (opaque_secret p name component {[ k := v ]} sd) k = Some v.
Proof. unfold secretValue, opaque_secret. cbn [sec_Data]. by rewrite lookup_singleton_eq. Qed.

(** C34: generating the email-hook Secret makes one read of 32 random bytes;
    whatever bytes it returns, the Secret built from them is accepted by
    [ValidateEmailHookSecret] and carries exactly those bytes; a failed or
    short read yields an error and no Secret. *)
Theorem GenerateEmailHookSecret_valid p s :
  ∃ k, GenerateEmailHookSecret p s = Call (RandRead 32) k ∧
  ∀ r, ∃ res, k r = Ret (s, res) ∧
  match r, res with
  | inr bytes, inr (secret, name) =>
      String.length bytes = 32%nat ∧ name = EmailHookSecretName p ∧
      ValidateEmailHookSecret (Some secret) = inr tt ∧
      DecodeString StdEncoding (TrimPrefix (map_get (sec_Data secret) EmailHookSecretKey)
        "v1,whsec_") = Some bytes
  | inr bytes, inl _ => String.length bytes ≠ 32%nat
  | inl _, inr _ => False
  | inl _, inl _ => True
  end.
Proof.
  eexists. split; [done|]. intros r.
  exists (match GenerateWebhookSecret r with
          | inl e => inl (WrapError "generating webhook secret: " e)
          | inr v => inr (opaque_secret p (EmailHookSecretName p) "email-hook"
                            {[ EmailHookSecretKey := v ]} ∅, EmailHookSecretName p)
          end).
  split; [cbn -[GenerateWebhookSecret opaque_secret]; by destruct (GenerateWebhookSecret r)|].
  pose proof (GenerateWebhookSecret_spec r) as Hs.
  destruct (GenerateWebhookSecret r) as [e|v]; [destruct r; auto|].
  destruct Hs as (b & -> & Hl & ->).
  assert (Hd : DecodeString StdEncoding (EncodeToString StdEncoding b) = Some b)
    by apply DecodeString_EncodeToString, std_good.
  split; [done|]. split; [done|].
  unfold ValidateEmailHookSecret, map_get. rewrite secretValue_data.
  unfold opaque_secret. cbn [sec_Data]. rewrite lookup_singleton_eq.
  unfold default, from_option, id.
  rewrite HasPrefix_app, TrimPrefix_app, Hd, Hl. done.
Qed.
