(* ===== verification/Wizard.v ===== *)
(** * The credentials wizard: the generator
    (src/cmd/project-credentials-wizard/generator.go)

    The bundle of five credentials the wizard generates offline.  The
    [io.Reader] of random bytes is a state [R] threaded through every call;
    crypto/ecdsa's key generation and signing, which read it, are parameters
    ([WizardLib]) with their documented contract ([WizardLaws]).  Calendar
    arithmetic of package time is executable.  The main theorem joins the
    wizard to the operator: what the generator builds, the validation of
    [Secrets] accepts until the role tokens expire. *)

From S2P Require Import Prelude KubeTypes Types Platform Encoding Sha256 Crypto Secrets.
From Stdlib Require Import Ascii.

(** ** Package time: [now.AddDate(years, 0, 0)]

    A time is its Unix second and the offset of its zone, taken constant over
    the interval. Years run from March, so that a leap day ends its year. *)

Record Time := { t_Unix : Z; t_Offset : Z }.

(** Days from 1 March of year 0 to 1 March of the year. *)
Definition days_before_year (y : Z) : Z := 365 * y + y / 4 - y / 100 + y / 400.
(** 1970-01-01 is day 719468 counted from 0000-03-01. *)
Definition epoch_shift : Z := 719468.

(** The March-based year of a day number: the estimate is never too small
    and at most one too large. *)
Definition year_of_day (d : Z) : Z :=
  let y := (d * 400 + 591) / 146097 in
  if d <? days_before_year y then y - 1 else y.

Definition AddYears (t : Time) (years : Z) : Time :=
  let local := t_Unix t + t_Offset t in
  let d := local / 86400 + epoch_shift in
  let y := year_of_day d in
  let d' := d - days_before_year y + days_before_year (y + years) in
  {| t_Unix := (d' - epoch_shift) * 86400 + local mod 86400 - t_Offset t;
     t_Offset := t_Offset t |}.

(** ** The random source *)

Definition G (R A : Type) : Type := R → R * result A.
#[export] Instance G_ret {R} : MRet (G R) := λ A a r, (r, inr a).
#[export] Instance G_bind {R} : MBind (G R) := λ A B f m r,
  match m r with
  | (r, inl e) => (r, inl e)
  | (r, inr a) => f a r
  end.
Definition G_lift {R A} (x : result A) : G R A := λ r, (r, x).
(** [if err != nil { return fmt.Errorf(prefix + "%w", err) }]. *)
Definition G_wrap {R A} (prefix : string) (m : G R A) : G R A := λ r,
  match m r with
  | (r, inl e) => (r, inl (WrapError prefix e))
  | (r, inr a) => (r, inr a)
  end.

Class WizardLib (R : Type) := {
  (** io.ReadFull into a slice of that length *)
  ReadFull : nat → G R string;
  (** crypto/ecdsa *)
  ecdsa_GenerateKey : G R ecdsa_PrivateKey;
  ecdsa_Sign : ecdsa_PrivateKey → string → G R (Z * Z)
}.

(** ** generator.go *)

Definition opaqueChecksumContext : string := "supabase-self-hosted".

Record credentialBundle := {
  bd_SigningKeys : string; bd_PublishableKey : string; bd_SecretKey : string;
  bd_AnonRoleJWT : string; bd_ServiceRoleJWT : string }.

(** The slice expression panics on more than 32 bytes; see
    [paddedInteger_be]. *)
Definition paddedInteger (value : Z) : string :=
  let encoded := big_Bytes value in
  byte_string (replicate (32 - length encoded) 0 ++ encoded).

Definition encodeCoordinate (value : Z) : string :=
  EncodeToString RawURLEncoding (paddedInteger value).

(** [value[i] = f(value[i])]. *)
Definition set_byte (i : nat) (f : Z → Z) (l : list Z) : list Z := alter f i l.

Definition format_key_id (value : list Z) : string :=
  hex_bytes (take 4 value) +:+ "-" +:+ hex_bytes (take 2 (drop 4 value)) +:+ "-" +:+
  hex_bytes (take 2 (drop 6 value)) +:+ "-" +:+ hex_bytes (take 2 (drop 8 value)) +:+ "-" +:+
  hex_bytes (take 6 (drop 10 value)).

Definition secret (bundle : credentialBundle) : Secret :=
  {| sec_meta := new_meta "" "" ∅ ∅; sec_Data := ∅;
     sec_StringData :=
       {[ ProjectCredentialsSigningKeysKey := bd_SigningKeys bundle;
          ProjectCredentialsPublishableKey := bd_PublishableKey bundle;
          ProjectCredentialsSecretKey := bd_SecretKey bundle;
          ProjectCredentialsAnonRoleJWTKey := bd_AnonRoleJWT bundle;
          ProjectCredentialsServiceRoleJWTKey := bd_ServiceRoleJWT bundle ]};
     sec_Type := "" |}.

(** The JWK of a key pair. *)
Definition signing_jwk (privateKey : ecdsa_PrivateKey) (kid : string) : JWK :=
  {| jwk_Kty := "EC"; jwk_Alg := ES256; jwk_Use := "sig"; jwk_Crv := "P-256";
     jwk_X := encodeCoordinate (pk_X (sk_PublicKey privateKey));
     jwk_Y := encodeCoordinate (pk_Y (sk_PublicKey privateKey));
     jwk_D := encodeCoordinate (sk_D privateKey);
     jwk_Kid := kid; jwk_KeyOps := ["sign"]; jwk_Ext := Some true |}.

Section Generator.
Context {R : Type} `{Platform} `{CryptoLib} `{!WizardLib R}.

Definition generateKeyID : G R string :=
  value ← G_wrap "generate key ID: " (ReadFull 16);
  let value := bytes value in
  let value := set_byte 6 (λ b, Z.lor (Z.land b 0x0f) 0x40) value in
  let value := set_byte 8 (λ b, Z.lor (Z.land b 0x3f) 0x80) value in
  mret (format_key_id value).

Definition generateOpaqueKey (prefix : string) : G R string :=
  randomBytes ← ReadFull 17;
  let randomSegment := str_take 22 (EncodeToString RawURLEncoding randomBytes) in
  let base := prefix +:+ randomSegment in
  let digest := Sum256 (opaqueChecksumContext +:+ "|" +:+ base) in
  let checksum := str_take 8 (EncodeToString RawURLEncoding digest) in
  mret (base +:+ "_" +:+ checksum).

Definition signRoleJWT (privateKey : ecdsa_PrivateKey) (kid role : string)
    (issuedAt expiresAt : Z) : G R string :=
  header ← G_lift (MarshalHeader {| jh_Alg := ES256; jh_Typ := "JWT"; jh_Kid := kid |});
  claims ← G_lift (MarshalClaims
    {| jc_Role := role; jc_Aud := JString RequiredRoleAudience; jc_Iss := "supabase";
       jc_Iat := issuedAt; jc_Exp := expiresAt |});
  let message := EncodeToString RawURLEncoding header +:+ "." +:+
                 EncodeToString RawURLEncoding claims in
  '(r, s) ← ecdsa_Sign privateKey (Sum256 message);
  let signature := paddedInteger r +:+ paddedInteger s in
  mret (message +:+ "." +:+ EncodeToString RawURLEncoding signature).

(** [clock1] and [clock2] are the clock readings of the final validation. *)
Definition generateCredentialBundle (now : Time) (clock1 clock2 : Z) : G R credentialBundle :=
  privateKey ← G_wrap "generate ES256 key: " ecdsa_GenerateKey;
  kid ← generateKeyID;
  let jwk := signing_jwk privateKey kid in
  signingKeys ← G_wrap "encode signing key: " (G_lift (MarshalJWKs [jwk]));
  publishableKey ← G_wrap "generate publishable key: " (generateOpaqueKey "sb_publishable_");
  secretKey ← G_wrap "generate secret key: " (generateOpaqueKey "sb_secret_");
  let expiresAt := t_Unix (AddYears now 5) in
  anonRoleJWT ← G_wrap "sign anon role JWT: "
    (signRoleJWT privateKey kid "anon" (t_Unix now) expiresAt);
  serviceRoleJWT ← G_wrap "sign service role JWT: "
    (signRoleJWT privateKey kid "service_role" (t_Unix now) expiresAt);
  let bundle :=
    {| bd_SigningKeys := signingKeys; bd_PublishableKey := publishableKey;
       bd_SecretKey := secretKey; bd_AnonRoleJWT := anonRoleJWT;
       bd_ServiceRoleJWT := serviceRoleJWT |} in
  match ValidateProjectCredentials clock1 clock2 (Some (secret bundle)) with
  | inl err => G_lift (inl (WrapError "generated bundle failed operator validation: " err))
  | inr _ => mret bundle
  end.
End Generator.

(** ** What the libraries promise *)

(** encoding/json replaces invalid UTF-8; ASCII text survives a round trip. *)
Definition ascii_text (s : string) : bool := str_forallb (λ c, byte_Z c <? 128) s.

Definition ascii_jwk (k : JWK) : bool :=
  forallb ascii_text [jwk_Kty k; jwk_Alg k; jwk_Use k; jwk_Crv k; jwk_X k; jwk_Y k; jwk_D k;
                      jwk_Kid k] && forallb ascii_text (jwk_KeyOps k).

(** A key pair of crypto/ecdsa on P-256. *)
Definition p256_pair `{CryptoLib} (k : ecdsa_PrivateKey) : Prop :=
  0 < sk_D k < P256_N ∧
  P256_IsOnCurve (pk_X (sk_PublicKey k)) (pk_Y (sk_PublicKey k)) = true ∧
  P256_ScalarBaseMult (sk_D k) = (pk_X (sk_PublicKey k), pk_Y (sk_PublicKey k)) ∧
  0 ≤ pk_X (sk_PublicKey k) < 2 ^ 256 ∧ 0 ≤ pk_Y (sk_PublicKey k) < 2 ^ 256.

Class WizardLaws (R : Type) `{CryptoLib} `{!WizardLib R} := {
  ReadFull_length n r r' b : ReadFull n r = (r', inr b) → String.length b = n;
  GenerateKey_pair r r' k : ecdsa_GenerateKey r = (r', inr k) → p256_pair k;
  P256_N_bound : P256_N < 2 ^ 256;
  Sign_Verify k digest r r' a b :
    p256_pair k → ecdsa_Sign k digest r = (r', inr (a, b)) →
    0 ≤ a < 2 ^ 256 ∧ 0 ≤ b < 2 ^ 256 ∧ ecdsa_Verify (sk_PublicKey k) digest a b = true;
  (** json.Marshal of these types does not fail *)
  MarshalJWKs_total l : ∃ s, MarshalJWKs l = inr s;
  MarshalJWKSet_total l : ∃ s, MarshalJWKSet l = inr s;
  MarshalHeader_total h : ∃ s, MarshalHeader h = inr s;
  MarshalClaims_total c : ∃ s, MarshalClaims c = inr s;
  (** and json.Unmarshal restores what it wrote *)
  UnmarshalJWKs_Marshal l s :
    forallb ascii_jwk l = true → MarshalJWKs l = inr s → UnmarshalJWKs s = inr l;
  UnmarshalJWKs_empty : ∃ e, UnmarshalJWKs "" = inl e;
  UnmarshalHeader_Marshal h s :
    ascii_text (jh_Alg h) && ascii_text (jh_Typ h) && ascii_text (jh_Kid h) = true →
    MarshalHeader h = inr s → UnmarshalHeader s = inr h;
  UnmarshalClaims_Marshal c s aud :
    jc_Aud c = JString aud → ascii_text (jc_Role c) && ascii_text aud && ascii_text (jc_Iss c) = true →
    MarshalClaims c = inr s → UnmarshalClaims s = inr c
}.

(** ** Calendar *)

Lemma year_of_day_spec d :
  days_before_year (year_of_day d) ≤ d < days_before_year (year_of_day d + 1).
Proof.
  unfold year_of_day. set (y := (d * 400 + 591) / 146097).
  assert (Hy : 146097 * y ≤ d * 400 + 591 < 146097 * y + 146097)
    by (unfold y; Z.div_mod_to_equations; lia).
  clearbody y. unfold days_before_year.
  destruct (Z.ltb_spec d (365 * y + y / 4 - y / 100 + y / 400)) as [Hd|Hd];
    Z.div_mod_to_equations; lia.
Qed.

(** Five years are 1825 to 1827 days. *)
Lemma AddYears_5_bounds t :
  t_Unix t + 1825 * 86400 ≤ t_Unix (AddYears t 5) ≤ t_Unix t + 1827 * 86400.
Proof.
  unfold AddYears. cbn [t_Unix]. set (d := _ / 86400 + epoch_shift).
  assert (Hb : 1825 ≤ days_before_year (year_of_day d + 5) - days_before_year (year_of_day d) ≤ 1827).
  { generalize (year_of_day d). intros y. unfold days_before_year. Z.div_mod_to_equations; lia. }
  pose proof (Z.div_mod (t_Unix t + t_Offset t) 86400 ltac:(lia)). subst d. lia.
Qed.

(** ** Integers and text *)

Lemma paddedInteger_be v : 0 ≤ v < 2 ^ 256 → paddedInteger v = byte_string (be_bytes 32 v).
Proof. exact (paddedCoordinate_be v). Qed.
Lemma paddedInteger_length v : 0 ≤ v < 2 ^ 256 → String.length (paddedInteger v) = 32%nat.
Proof. intros Hv. by rewrite paddedInteger_be, byte_string_length, be_bytes_length. Qed.
Lemma SetBytes_paddedInteger v : 0 ≤ v < 2 ^ 256 → SetBytes (paddedInteger v) = v.
Proof. intros Hv. rewrite paddedInteger_be by done. by apply SetBytes_be_bytes. Qed.
Lemma decodeCoordinate_encode v :
  0 ≤ v < 2 ^ 256 → decodeCoordinate (encodeCoordinate v) = inr v.
Proof. exact (decodeCoordinate_padded v). Qed.
Lemma encodeCoordinate_ne v : 0 ≤ v < 2 ^ 256 → encodeCoordinate v ≠ "".
Proof.
  intros Hv. apply EncodeToString_raw_nonempty. intros H.
  pose proof (paddedInteger_length v Hv). by rewrite H in *.
Qed.

(** Every character of unpadded base64url satisfies a test of its alphabet. *)
Lemma raw_url_chars (f : ascii → bool) s :
  str_forallb f url_alphabet = true → str_forallb f (EncodeToString RawURLEncoding s) = true.
Proof.
  intros Hf. apply b64_raw_chars; [|apply bytes_range].
  assert (Hg : ∀ a i, str_forallb f a = true → (i < String.length a)%nat →
            f (default zero (String.get i a)) = true).
  { intros a. induction a as [|c a IH]; intros [|i] Ha Hi; cbn in *; try lia; bools;
      [done|apply IH; [done|lia]]. }
  intros i Hi. apply Hg; [done|]. change (String.length url_alphabet) with 64%nat. lia.
Qed.
Lemma raw_url_ascii s : ascii_text (EncodeToString RawURLEncoding s) = true.
Proof. by apply raw_url_chars. Qed.
Lemma raw_url_no_dot s :
  str_forallb (λ x, negb (bool_decide (x = dot))) (EncodeToString RawURLEncoding s) = true.
Proof. by apply raw_url_chars. Qed.
Lemma decodeBase64URL_raw s : decodeBase64URL (EncodeToString RawURLEncoding s) = Some s.
Proof. unfold decodeBase64URL. by rewrite DecodeString_EncodeToString by apply url_good. Qed.

(** *** Key identifiers *)

Definition hex_digit (c : ascii) : bool :=
  ((48 <=? byte_Z c) && (byte_Z c <=? 57)) || ((97 <=? byte_Z c) && (byte_Z c <=? 102)).
Fixpoint matches (pattern : list (ascii → bool)) (s : string) : bool :=
  match pattern, s with
  | [], EmptyString => true
  | f :: pattern, String c s => f c && matches pattern s
  | _, _ => false
  end.
(** The text of a random (version 4, variant 1) UUID. *)
Definition uuid4 : string → bool :=
  let h := hex_digit in
  let only (c d : ascii) := bool_decide (d = c) in
  matches [h; h; h; h; h; h; h; h; only "-"; h; h; h; h; only "-"; only "4"; h; h; h; only "-";
    λ c, existsb (λ d, only d c) ["8"; "9"; "a"; "b"]; h; h; h; only "-";
    h; h; h; h; h; h; h; h; h; h; h; h]%char.

(** A test of every integer below [n]. *)
Lemma below_forallb (f : Z → bool) n i :
  forallb (λ k, f (Z.of_nat k)) (seq 0 n) = true → 0 ≤ i < Z.of_nat n → f i = true.
Proof.
  intros Hall Hi. rewrite forallb_forall in Hall.
  specialize (Hall (Z.to_nat i) ltac:(apply in_seq; lia)). by rewrite Z2Nat.id in Hall by lia.
Qed.

Lemma hex_char_digit i : 0 ≤ i < 16 → hex_digit (alphabet_char hex_digits i) = true.
Proof. exact (below_forallb (λ i, hex_digit (alphabet_char hex_digits i)) 16 i eq_refl). Qed.

Lemma version_nibble b :
  0 ≤ b < 256 → Z.lor (Z.land b 0x0f) 0x40 / 16 = 4.
Proof.
  intros Hb. apply Z.eqb_eq.
  exact (below_forallb (λ b, Z.lor (Z.land b 0x0f) 0x40 / 16 =? 4) 256 b eq_refl Hb).
Qed.
Lemma variant_nibble b :
  0 ≤ b < 256 → existsb (λ d, bool_decide (alphabet_char hex_digits
    (Z.lor (Z.land b 0x3f) 0x80 / 16) = d)) ["8"; "9"; "a"; "b"]%char = true.
Proof.
  exact (below_forallb (λ b, existsb (λ d, bool_decide (alphabet_char hex_digits
    (Z.lor (Z.land b 0x3f) 0x80 / 16) = d)) ["8"; "9"; "a"; "b"]%char) 256 b eq_refl).
Qed.

#[local] Arguments String.append !_ _ / : simpl nomatch.
Lemma uuid4_format a b c d e f g h i j k l m n o p :
  Forall is_byte [a; b; c; d; e; f; g; h; i; j; k; l; m; n; o; p] →
  uuid4 (format_key_id
    (set_byte 8 (λ b, Z.lor (Z.land b 0x3f) 0x80)
      (set_byte 6 (λ b, Z.lor (Z.land b 0x0f) 0x40)
        [a; b; c; d; e; f; g; h; i; j; k; l; m; n; o; p]))) = true.
Proof.
  intros Hb. repeat match goal with H : Forall _ (_ :: _) |- _ => apply Forall_cons in H as [? H] end.
  unfold is_byte in *.
  pose proof (version_nibble g ltac:(done)) as Hg. pose proof (variant_nibble i ltac:(done)) as Hi.
  unfold format_key_id, set_byte, uuid4.
  cbn [alter list_alter take drop hex_bytes String.append matches].
  rewrite Hg. cbn [matches].
  set (v := Z.lor (Z.land i 0x3f) 0x80) in *. set (u := Z.lor (Z.land g 0x0f) 0x40) in *.
  cbn -[hex_digit existsb Z.div Z.modulo alphabet_char bool_decide hex_digits].
  rewrite !hex_char_digit by (done || (Z.div_mod_to_equations; lia)).
  rewrite Hi, !(bool_decide_eq_true_2 (_ = _)) by by vm_compute. done.
Qed.

Lemma list_16 {A} (l : list A) :
  length l = 16%nat → ∃ a b c d e f g h i j k l' m n o p,
    l = [a; b; c; d; e; f; g; h; i; j; k; l'; m; n; o; p].
Proof. intros H. do 17 (destruct l as [|? l]; try discriminate H). eauto 20. Qed.

Lemma uuid4_of_bytes s : String.length s = 16%nat →
  uuid4 (format_key_id
    (set_byte 8 (λ b, Z.lor (Z.land b 0x3f) 0x80)
      (set_byte 6 (λ b, Z.lor (Z.land b 0x0f) 0x40) (bytes s)))) = true.
Proof.
  intros Hs. pose proof (bytes_range s) as Hr. rewrite <- bytes_length in Hs.
  apply list_16 in Hs as (?&?&?&?&?&?&?&?&?&?&?&?&?&?&?&?&E). rewrite E in *.
  by apply uuid4_format.
Qed.

(** A pattern of ASCII tests only matches ASCII text. *)
Lemma matches_ascii pattern s :
  matches pattern s = true →
  (∀ f, In f pattern → ∀ c, f c = true → (byte_Z c <? 128) = true) → ascii_text s = true.
Proof.
  revert s. induction pattern as [|f pattern IH]; intros [|c s]; cbn; try done.
  intros Hm Hf. bools. apply andb_true_iff. split; [by eapply Hf; [left|]|].
  apply IH; [done|]. intros g Hg. apply Hf. by right.
Qed.
Lemma uuid4_ascii s : uuid4 s = true → ascii_text s = true ∧ s ≠ "".
Proof.
  intros Hu. split; [|by intros ->]. eapply matches_ascii; [exact Hu|].
  intros f Hf c Hc. cbn in Hf.
  repeat destruct Hf as [<-|Hf]; try done; unfold hex_digit in Hc;
    try (apply bool_decide_eq_true in Hc as ->; done);
    try (apply orb_true_iff in Hc as [Hc|Hc]; bools; lia).
  rewrite !orb_true_iff, !bool_decide_eq_true in Hc.
  by destruct Hc as [->|[->|[->|[->|]]]].
Qed.

(** ** Generation meets validation *)

Lemma G_bind_inr {R A B} (m : G R A) (f : A → G R B) r r' b :
  (m ≫= f) r = (r', inr b) ↔ ∃ r1 a, m r = (r1, inr a) ∧ f a r1 = (r', inr b).
Proof. unfold mbind, G_bind. destruct (m r) as [r1 [e|a]]; naive_solver. Qed.
Lemma G_wrap_inr {R A} prefix (m : G R A) r r' a :
  G_wrap prefix m r = (r', inr a) ↔ m r = (r', inr a).
Proof. unfold G_wrap. destruct (m r) as [r1 [e|x]]; naive_solver. Qed.
Lemma G_lift_inr {R A} (x : result A) (r r' : R) a :
  G_lift x r = (r', inr a) ↔ x = inr a ∧ r' = r.
Proof. unfold G_lift. naive_solver. Qed.
Lemma G_ret_inr {R A} (x : A) (r r' : R) a :
  mret (M := G R) x r = (r', inr a) ↔ a = x ∧ r' = r.
Proof. unfold mret, G_ret. naive_solver. Qed.

(** Invert a successful generation step by step. *)
Ltac invert_G :=
  repeat match goal with
  | H : (_ ≫= _) _ = (_, inr _) |- _ => apply G_bind_inr in H as (? & ? & ? & H)
  | H : G_wrap _ _ _ = (_, inr _) |- _ => apply G_wrap_inr in H
  | H : G_lift _ _ = (_, inr _) |- _ => apply G_lift_inr in H as [? ->]
  | H : mret _ _ = (_, inr _) |- _ => apply G_ret_inr in H as [-> ->]
  | H : (let '(_, _) := ?x in _) _ = (_, inr _) |- _ => destruct x
  end.

Section GeneratorLaws.
Context {R : Type} `{Platform} `{CryptoLib} `{!WizardLib R} `{!WizardLaws R}.

(** A generated opaque key is canonical for its prefix. *)
Lemma generateOpaqueKey_valid prefix r r' key :
  generateOpaqueKey prefix r = (r', inr key) → validateOpaqueKey key prefix = inr tt.
Proof.
  unfold generateOpaqueKey. intros Hg. invert_G.
  match goal with H : ReadFull 17 _ = _ |- _ => apply ReadFull_length in H as Hl end.
  apply (canonical_opaque_key_valid prefix); [|by apply str_forallb_take, raw_url_chars].
  rewrite str_take_length. unfold EncodeToString, RawURLEncoding. rewrite b64_raw_length, bytes_length, Hl. done.
Qed.

Lemma generateKeyID_uuid r r' kid : generateKeyID r = (r', inr kid) → uuid4 kid = true.
Proof.
  unfold generateKeyID. intros Hg. invert_G.
  match goal with H : ReadFull 16 _ = _ |- _ => apply ReadFull_length in H end.
  by apply uuid4_of_bytes.
Qed.

(** A signed role token verifies with the key that signed it until it
    expires. *)
Lemma signRoleJWT_verifies key kid role issuedAt expiresAt r r' token now :
  p256_pair key → ascii_text kid = true → ascii_text role = true →
  signRoleJWT key kid role issuedAt expiresAt r = (r', inr token) → now < expiresAt →
  token ≠ "" ∧
  verifyWithPublicKey now token (sk_PublicKey key) kid role RequiredRoleAudience = inr tt.
Proof.
  intros Hk Hkid Hrole Hs Hnow. unfold signRoleJWT in Hs. invert_G.
  match goal with H : MarshalHeader _ = inr _ |- _ =>
    apply UnmarshalHeader_Marshal in H as Hh; [|cbn [jh_Alg jh_Typ jh_Kid]; by rewrite Hkid] end.
  match goal with H : MarshalClaims _ = inr _ |- _ =>
    apply (UnmarshalClaims_Marshal _ _ RequiredRoleAudience) in H as Hc;
      [|done|cbn [jc_Role jc_Iss]; by rewrite Hrole] end.
  match goal with H : ecdsa_Sign _ _ _ = _ |- _ =>
    apply Sign_Verify in H as (Ha & Hb & Hv); [|done] end.
  rename x0 into header, x2 into claims, z into a, z0 into b.
  set (p0 := EncodeToString RawURLEncoding header) in *.
  set (p1 := EncodeToString RawURLEncoding claims) in *.
  set (p2 := EncodeToString RawURLEncoding _).
  split. { destruct p0; cbn; done. }
  unfold verifyWithPublicKey.
  assert (Split ((p0 +:+ "." +:+ p1) +:+ "." +:+ p2) dot = [p0; p1; p2]) as ->.
  { assert (Hdot : ∀ x, "." +:+ x = String dot x) by done.
    rewrite <- !str_app_assoc, !Hdot.
    rewrite Split_app_sep by apply raw_url_no_dot.
    rewrite Split_app_sep by apply raw_url_no_dot.
    by rewrite Split_no_sep by apply raw_url_no_dot. }
  unfold p0, p1, p2. rewrite !decodeBase64URL_raw. fold p0 p1. cbn [from_option].
  rewrite (result_bind_ok _ _ header) by done. rewrite Hh.
  rewrite (result_bind_ok (inr _) _ _) by done. cbn [jh_Alg jh_Kid].
  rewrite (bool_decide_eq_false_2 (ES256 ≠ ES256)), (bool_decide_eq_false_2 (kid ≠ kid)) by auto.
  do 2 rewrite (result_bind_ok (guard_err false _) _ tt) by done.
  rewrite (result_bind_ok _ _ claims) by done. rewrite Hc.
  rewrite (result_bind_ok (inr _) _ _) by done. cbn [jc_Role jc_Aud jc_Exp audienceMatches].
  rewrite (bool_decide_eq_false_2 (role ≠ role)), (bool_decide_eq_true_2 (_ = _)),
    (proj2 (Z.leb_gt expiresAt now)) by (done || auto).
  do 3 rewrite (result_bind_ok (guard_err _ _) _ tt) by done.
  rewrite (result_bind_ok _ _ (paddedInteger a +:+ paddedInteger b)) by done.
  pose proof (paddedInteger_length a Ha) as Hla.
  rewrite bool_decide_eq_false_2
    by (rewrite str_app_length, Hla, paddedInteger_length by done; auto).
  rewrite (result_bind_ok (guard_err _ _) _ tt) by done. cbv zeta.
  rewrite <- Hla, str_take_app, str_drop_app, !SetBytes_paddedInteger by done.
  unfold p0, p1 in *. by rewrite Hv.
Qed.

(** The generated signing key is valid and stands for its key pair. *)
Lemma signing_jwk_key key kid :
  p256_pair key → ecdsaPrivateKey (signing_jwk key kid) = inr key.
Proof.
  intros (Hd & Hc & Hm & Hx & Hy). pose proof P256_N_bound as HN.
  unfold ecdsaPrivateKey. cbn [signing_jwk jwk_X jwk_Y jwk_D].
  rewrite !decodeCoordinate_encode, Hc by (done || lia). cbn [negb].
  rewrite (proj2 (Z.leb_gt _ _)), (proj2 (Z.leb_gt P256_N _)), Hm, bool_decide_eq_true_2
    by (done || lia).
  by destruct key as [[]].
Qed.
Lemma signing_jwk_valid key kid :
  p256_pair key → kid ≠ "" → ValidateSigningJWK (signing_jwk key kid) = inr tt.
Proof.
  intros Hp Hkid. pose proof Hp as (Hd & _ & _ & Hx & Hy). pose proof P256_N_bound as HN.
  unfold ValidateSigningJWK. rewrite signing_jwk_key by done.
  cbn [signing_jwk jwk_Kty jwk_Crv jwk_Alg jwk_Use jwk_Kid jwk_KeyOps jwk_X jwk_Y jwk_D].
  rewrite (bool_decide_eq_false_2 (kid = "")), !(bool_decide_eq_false_2 (encodeCoordinate _ = ""))
    by (done || apply encodeCoordinate_ne; (done || lia)).
  done.
Qed.

Lemma signing_jwk_ascii key kid : ascii_text kid = true → ascii_jwk (signing_jwk key kid) = true.
Proof.
  intros Hkid. unfold ascii_jwk. cbn [signing_jwk jwk_Kty jwk_Alg jwk_Use jwk_Crv jwk_X jwk_Y
    jwk_D jwk_Kid jwk_KeyOps forallb]. unfold encodeCoordinate. by rewrite !raw_url_ascii, Hkid.
Qed.

Lemma signing_keys_parse key kid signingKeys :
  p256_pair key → uuid4 kid = true →
  MarshalJWKs [signing_jwk key kid] = inr signingKeys →
  ParseSigningJWK signingKeys = inr (signing_jwk key kid) ∧
  ∃ jwks, PublicJWKS signingKeys = inr jwks.
Proof.
  intros Hp [Hascii Hkid]%uuid4_ascii Hm.
  assert (Hparse : ParseSigningJWK signingKeys = inr (signing_jwk key kid)).
  { unfold ParseSigningJWK, ParseJWKArray.
    rewrite (UnmarshalJWKs_Marshal [signing_jwk key kid] signingKeys)
      by (done || by cbn [forallb]; rewrite signing_jwk_ascii).
    rewrite bool_decide_eq_false_2 by auto.
    rewrite (result_bind_ok (inr _) _ [signing_jwk key kid]) by done. cbv beta iota.
    by rewrite (result_bind_ok _ _ tt) by by apply signing_jwk_valid. }
  split; [exact Hparse|]. unfold PublicJWKS. rewrite (result_bind_ok _ _ _ Hparse).
  unfold PublicJWK. rewrite (result_bind_ok _ _ tt) by by apply signing_jwk_valid.
  rewrite (result_bind_ok _ _ key) by by apply signing_jwk_key. cbv zeta.
  cbn [signing_jwk jwk_Ext]. rewrite (result_bind_ok (mret _) _ _ eq_refl).
  match goal with |- context [MarshalJWKSet ?l] => destruct (MarshalJWKSet_total l) as [jwks ->] end.
  eauto.
Qed.

(** The parts of a bundle, as generated. *)
Record well_generated (expiresAt : Z) (bundle : credentialBundle) (key : ecdsa_PrivateKey)
    (kid : string) : Prop := {
  wg_pair : p256_pair key;
  wg_kid : uuid4 kid = true;
  wg_signing : MarshalJWKs [signing_jwk key kid] = inr (bd_SigningKeys bundle);
  wg_publishable : validateOpaqueKey (bd_PublishableKey bundle) "sb_publishable_" = inr tt;
  wg_secret : validateOpaqueKey (bd_SecretKey bundle) "sb_secret_" = inr tt;
  wg_anon : ∃ iat r r',
    signRoleJWT key kid "anon" iat expiresAt r = (r', inr (bd_AnonRoleJWT bundle));
  wg_service : ∃ iat r r',
    signRoleJWT key kid "service_role" iat expiresAt r = (r', inr (bd_ServiceRoleJWT bundle)) }.

Lemma MarshalJWKs_ne key kid signingKeys :
  p256_pair key → uuid4 kid = true →
  MarshalJWKs [signing_jwk key kid] = inr signingKeys → signingKeys ≠ "".
Proof.
  intros Hp [Hascii _]%uuid4_ascii Hm ->. destruct UnmarshalJWKs_empty as [e He].
  rewrite (UnmarshalJWKs_Marshal [signing_jwk key kid] "") in He
    by (done || by cbn [forallb]; rewrite signing_jwk_ascii).
  done.
Qed.

(** A token that verifies is not empty, and neither is a canonical key. *)
Lemma validateOpaqueKey_ne v p : p ≠ "" → validateOpaqueKey v p = inr tt → v ≠ "".
Proof. intros Hp [t ->]%validateOpaqueKey_prefix. by destruct p. Qed.

Lemma well_generated_bundle expiresAt bundle key kid now1 now2 :
  well_generated expiresAt bundle key kid →
  now1 < expiresAt → now2 < expiresAt →
  ∃ jwks, valid_bundle now1 now2 (secret bundle) (signing_jwk key kid) jwks.
Proof.
  intros [Hp Hk Hm Hpub Hsec (i1 & r1 & r1' & Ha) (i2 & r2 & r2' & Hs)] H1 H2.
  pose proof (MarshalJWKs_ne _ _ _ Hp Hk Hm) as Hne.
  destruct (signing_keys_parse _ _ _ Hp Hk Hm) as [Hparse [jwks Hjwks]].
  destruct (uuid4_ascii kid Hk) as [Hascii Hkid].
  apply (signRoleJWT_verifies _ _ _ _ _ _ _ _ now1) in Ha as [Hane Hav]; [|done..].
  apply (signRoleJWT_verifies _ _ _ _ _ _ _ _ now2) in Hs as [Hsne Hsv]; [|done..].
  assert (Hv : ∀ now token role,
    verifyWithPublicKey now token (sk_PublicKey key) kid role RequiredRoleAudience = inr tt →
    VerifyES256JWT now token (signing_jwk key kid) role RequiredRoleAudience = inr tt).
  { intros now token role Ht. unfold VerifyES256JWT.
    rewrite (result_bind_ok _ _ tt) by by apply signing_jwk_valid.
    by rewrite (result_bind_ok _ _ key) by by apply signing_jwk_key. }
  exists jwks. split; try done; try by apply Hv.
  - intros k [? Hx]. cbn [secret sec_Data] in Hx. by rewrite lookup_empty in Hx.
  - intros k Hx. split; [|by apply lookup_empty]. revert Hx. cbn [secret sec_StringData].
    rewrite <- elem_of_dom, !dom_insert_L, dom_singleton_L.
    unfold RequiredProjectCredentialKeys. set_solver.
  - intros k Hx. unfold RequiredProjectCredentialKeys in Hx.
    repeat (apply elem_of_cons in Hx as [->|Hx]); [done| | |done|done|by apply not_elem_of_nil in Hx].
    + by eapply (validateOpaqueKey_ne _ "sb_publishable_").
    + by eapply (validateOpaqueKey_ne _ "sb_secret_").
Qed.

Lemma generateCredentialBundle_parts now c1 c2 r r' bundle :
  generateCredentialBundle now c1 c2 r = (r', inr bundle) →
  ∃ key kid, well_generated (t_Unix (AddYears now 5)) bundle key kid.
Proof.
  unfold generateCredentialBundle. intros Hg. invert_G.
  destruct (ValidateProjectCredentials _ _ _) as [e|creds]; [by apply G_lift_inr in Hg as [? _]|].
  invert_G. do 2 eexists. split; cbn.
  - by eapply GenerateKey_pair.
  - by eapply generateKeyID_uuid.
  - done.
  - by eapply generateOpaqueKey_valid.
  - by eapply generateOpaqueKey_valid.
  - eauto.
  - eauto.
Qed.
End GeneratorLaws.

(** C35: a generated bundle works: the operator's validation accepts it at
    every moment before the role tokens expire, five calendar years (1825 to
    1827 days) after it was generated, and reads back the five values. *)
Theorem generateCredentialBundle_valid {R} `{Platform} `{CryptoLib} `{!WizardLib R}
    `{!WizardLaws R} now c1 c2 r r' bundle now1 now2 :
  generateCredentialBundle now c1 c2 r = (r', inr bundle) →
  let expiresAt := t_Unix (AddYears now 5) in
  t_Unix now + 1825 * 86400 ≤ expiresAt ≤ t_Unix now + 1827 * 86400 ∧
  (now1 < expiresAt → now2 < expiresAt →
   ∃ creds, ValidateProjectCredentials now1 now2 (Some (secret bundle)) = inr creds ∧
     pc_SigningKeys creds = bd_SigningKeys bundle ∧
     pc_PublishableKey creds = bd_PublishableKey bundle ∧
     pc_SecretKey creds = bd_SecretKey bundle ∧
     pc_AnonRoleJWT creds = bd_AnonRoleJWT bundle ∧
     pc_ServiceRoleJWT creds = bd_ServiceRoleJWT bundle ∧
     uuid4 (pc_SigningKeyID creds) = true).
Proof.
  intros (key & kid & Hw)%generateCredentialBundle_parts expiresAt.
  split; [apply AddYears_5_bounds|]. intros H1 H2.
  destruct (well_generated_bundle _ _ _ _ now1 now2 Hw H1 H2) as [jwks Hv].
  exists (bundle_credentials (secret bundle) (signing_jwk key kid) jwks).
  split; [by apply valid_bundle_accepted|]. destruct Hw. by split_and!.
Qed.

(** Sources that never fail. *)
Definition succeeds {R A} (m : G R A) : Prop := ∀ r, ∃ r' a, m r = (r', inr a).

Lemma succeeds_bind {R A B} (m : G R A) (f : A → G R B) :
  succeeds m → (∀ a, succeeds (f a)) → succeeds (m ≫= f).
Proof.
  intros Hm Hf r. destruct (Hm r) as (r1 & a & E), (Hf a r1) as (r2 & b & E').
  exists r2, b. apply G_bind_inr. eauto.
Qed.
Lemma succeeds_wrap {R A} prefix (m : G R A) : succeeds m → succeeds (G_wrap prefix m).
Proof. intros Hm r. destruct (Hm r) as (r1 & a & E). exists r1, a. by apply G_wrap_inr. Qed.
Lemma succeeds_ret {R A} (a : A) : succeeds (mret (M := G R) a).
Proof. intros r. by exists r, a. Qed.
Lemma succeeds_lift {R A} (x : result A) : (∃ a, x = inr a) → succeeds (G_lift (R := R) x).
Proof. intros [a ->] r. by exists r, a. Qed.

(** One step of a generation that succeeds; the value is kept abstract. *)
Lemma G_step {R A B} (m : G R A) (f : A → G R B) r :
  succeeds m →
  (∀ r1 a, m r = (r1, inr a) → ∃ r'' c, f a r1 = (r'', inr c)) →
  ∃ r'' c, (m ≫= f) r = (r'', inr c).
Proof.
  intros Hm Hf. destruct (Hm r) as (r1 & a & E), (Hf r1 a E) as (r2 & c & E').
  exists r2, c. apply G_bind_inr. eauto.
Qed.

(** C36: generation never fails of itself: where the random source delivers
    and crypto/ecdsa generates and signs, and the clock has not passed the
    five years, a bundle is returned; the final self-check never rejects it. *)
Theorem generateCredentialBundle_total {R} `{Platform} `{CryptoLib} `{!WizardLib R}
    `{!WizardLaws R} now c1 c2 :
  (∀ n, succeeds (ReadFull (R := R) n)) → succeeds (ecdsa_GenerateKey (R := R)) →
  (∀ key digest, succeeds (ecdsa_Sign (R := R) key digest)) →
  c1 < t_Unix (AddYears now 5) → c2 < t_Unix (AddYears now 5) →
  succeeds (generateCredentialBundle (R := R) now c1 c2).
Proof.
  intros Hread Hgen Hsign H1 H2 r.
  assert (Hkey : ∀ prefix, succeeds (generateOpaqueKey (R := R) prefix)).
  { intros prefix. apply succeeds_bind; [done|]. intros a. apply succeeds_ret. }
  assert (Htoken : ∀ key kid role iat exp, succeeds (signRoleJWT (R := R) key kid role iat exp)).
  { intros key kid role iat exp. unfold signRoleJWT.
    apply succeeds_bind; [apply succeeds_lift, MarshalHeader_total|]. intros h.
    apply succeeds_bind; [apply succeeds_lift, MarshalClaims_total|]. intros c.
    apply succeeds_bind; [done|]. intros [a b]. apply succeeds_ret. }
  unfold generateCredentialBundle.
  apply G_step; [by apply succeeds_wrap|]. intros r1 key Ekey%G_wrap_inr.
  apply G_step.
  { apply succeeds_bind; [by apply succeeds_wrap|]. intros b. apply succeeds_ret. }
  intros r2 kid Ekid. cbv zeta.
  apply G_step; [apply succeeds_wrap, succeeds_lift, MarshalJWKs_total|].
  intros r3 keys [Ejwk _]%G_wrap_inr%G_lift_inr.
  apply G_step; [by apply succeeds_wrap|]. intros r4 pub Epub%G_wrap_inr.
  apply G_step; [by apply succeeds_wrap|]. intros r5 sec Esec%G_wrap_inr.
  apply G_step; [by apply succeeds_wrap|]. intros r6 anon Eanon%G_wrap_inr.
  apply G_step; [by apply succeeds_wrap|]. intros r7 service Eservice%G_wrap_inr.
  set (bundle := {| bd_SigningKeys := keys |}).
  assert (Hw : well_generated (t_Unix (AddYears now 5)) bundle key kid).
  { split; [by eapply GenerateKey_pair|by eapply generateKeyID_uuid|done|
            by eapply generateOpaqueKey_valid|by eapply generateOpaqueKey_valid|eauto|eauto]. }
  destruct (well_generated_bundle _ _ _ _ c1 c2 Hw H1 H2) as [jwks Hv].
  rewrite (valid_bundle_accepted _ _ _ _ _ Hv). apply succeeds_ret.
Qed.
