(* ===== verification/WizardTerminal.v ===== *)
(** * The credentials wizard: the terminal dialogue
    (src/cmd/project-credentials-wizard/main.go)

    [runWizard] hands the five credentials of a generated bundle to the
    operator one at a time through the terminal's clipboard.  A dialogue is a
    tree of terminal operations, each followed by a continuation on its
    outcome; writes whose error the source discards answer nothing.  The
    deferred [clipboard.Clear] is the last operation on every path. *)

From S2P Require Import Prelude KubeTypes Types Platform Encoding Sha256 Crypto Secrets Wizard.

(** ** Terminal operations *)

Inductive operation :=
| Println (text : string)        (* fmt.Fprintln/Fprintf(output, ...), error discarded *)
| WriteString (text : string)    (* io.WriteString(output, ...) *)
| ReadLine                       (* reader.ReadString('\n') *)
| Copy (value : string)          (* clipboard.Copy *)
| Clear                          (* clipboard.Clear *)
| Open                           (* os.OpenFile("/dev/tty", os.O_WRONLY, 0) *)
| Close                          (* terminal.Close *)
| Notify                         (* signal.Notify(interrupts, ...), go handler *)
| Stop                           (* signal.Stop(interrupts) *)
| Eprint (text : string).        (* fmt.Fprintf(os.Stderr, ...), error discarded *)
#[export] Instance operation_eq : EqDecision operation.
Proof. solve_decision. Defined.

(** A dialogue; an operation answers its error, or [None]. *)
Inductive dialogue (A : Type) : Type :=
| Done (a : A)
| Do (op : operation) (k : option error → dialogue A).
Arguments Done {A} a.
Arguments Do {A} op k.

Fixpoint dialogue_bind {A B} (d : dialogue A) (f : A → dialogue B) : dialogue B :=
  match d with
  | Done a => f a
  | Do op k => Do op (λ e, dialogue_bind (k e) f)
  end.

(** The bodies return Go errors. *)
Definition D (A : Type) : Type := dialogue (result A).
#[export] Instance D_ret : MRet D := λ A a, Done (inr a).
#[export] Instance D_bind : MBind D := λ A B f m,
  dialogue_bind m (λ r, match r with inl e => Done (inl e) | inr a => f a end).
Definition D_fail {A} (e : error) : D A := Done (inl e).
(** An operation whose error is discarded, and one whose error is wrapped. *)
Definition print (text : string) : D unit := Do (Println text) (λ _, Done (inr tt)).
Definition perform (op : operation) (wrap : error → error) : D unit :=
  Do op (λ r, match r with Some e => D_fail (wrap e) | None => Done (inr tt) end).

Fixpoint D_for_each {A} (l : list A) (f : A → D unit) : D unit :=
  match l with
  | [] => mret tt
  | x :: l => _ ← f x; D_for_each l f
  end.

(** ** The OSC 52 clipboard *)

Definition escape (code : string) : string :=
  byte_string [27] +:+ "]52;c;" +:+ code +:+ byte_string [7].
(** What [Copy] and [Clear] write to the terminal. *)
Definition osc52_Copy (value : string) : string := escape (EncodeToString StdEncoding value).
Definition osc52_Clear : string := escape "".

(** ** main.go *)

Definition waitForEnter (prompt : string) : D unit :=
  _ ← perform (WriteString prompt) (WrapError "write prompt: ");
  perform ReadLine (λ _, ErrorString "input ended before the bundle was saved").

Definition fields (bundle : credentialBundle) : list (string * string) :=
  [("signingKeys", bd_SigningKeys bundle); ("publishableKey", bd_PublishableKey bundle);
   ("secretKey", bd_SecretKey bundle); ("anonRoleJwt", bd_AnonRoleJWT bundle);
   ("serviceRoleJwt", bd_ServiceRoleJWT bundle)].

Section Wizard.
Context `{Platform}.

Definition offer (count : nat) (field : nat * (string * string)) : D unit :=
  let '(index, (name, value)) := field in
  _ ← perform (Copy value) (WrapError ("copy " +:+ name +:+ ": "));
  _ ← print (newline +:+ "[" +:+ pretty (index + 1)%nat +:+ "/" +:+ pretty count +:+ "] " +:+ name +:+
             " is now in your clipboard." +:+ newline);
  _ ← waitForEnter ("Paste and save it under the exact key " +:+ Quote name +:+
                    ", then press Enter: ");
  perform Clear (WrapError ("clear clipboard after " +:+ name +:+ ": ")).

(** The body of [runWizard]; [generated] is the generator's result. *)
Definition runWizard_body (generated : result credentialBundle) : D unit :=
  _ ← D_for_each
    ["CloudNative Supabase project credential bundle";
     "=============================================="; "";
     "This generates one atomic five-field bundle in process memory.";
     "Credential values are sent to the terminal clipboard without rendering plaintext."; ""]
    print;
  _ ← waitForEnter ("Open the target project/environment/path in your secret manager, " +:+
                    "then press Enter: ");
  _ ← print "";
  _ ← print "Generating and validating the complete bundle...";
  match generated with
  | inl err => D_fail err
  | inr bundle =>
      _ ← print "Bundle validated. Keep all five values from this run together.";
      _ ← D_for_each (zip (seq 0 5) (fields bundle)) (offer (length (fields bundle)));
      _ ← print "";
      _ ← print "All five fields were copied in sequence.";
      _ ← waitForEnter ("Confirm the destination contains all five exact keys, " +:+
                        "then press Enter to finish: ");
      _ ← perform Clear (WrapError "clear clipboard: ");
      _ ← print "";
      print "Done. The clipboard is clear; the credential process will now exit."
  end.

(** With the deferred clear, joined to the error returned. *)
Definition runWizard (generated : result credentialBundle) : dialogue (option error) :=
  dialogue_bind (runWizard_body generated) (λ r,
    Do Clear (λ clearErr,
      let err := match r with inl e => Some e | inr _ => None end in
      Done (match clearErr with
            | None => err
            | Some e =>
                let e := WrapError "clear clipboard: " e in
                Some (match err with Some err => JoinError err e | None => e end)
            end))).
End Wizard.

(** [runWizard] on the reader it is given. *)
Definition runWizard_with {R} `{Platform} `{CryptoLib} `{!WizardLib R} (now : Time)
    (clock1 clock2 : Z) (random : R) : dialogue (option error) :=
  runWizard (generateCredentialBundle now clock1 clock2 random).2.

(** ** Histories of a dialogue *)

Abbreviation history := (list (operation * option error)).

(** [plays d h a]: with the outcomes recorded in [h], [d] ends with [a]. *)
Fixpoint plays {A} (d : dialogue A) (h : history) (a : A) : Prop :=
  match d with
  | Done x => h = [] ∧ a = x
  | Do op k => ∃ e h', h = (op, e) :: h' ∧ plays (k e) h' a
  end.

(** What the terminal's clipboard may hold of the wizard: a write that failed
    may have reached the terminal, a clear that failed may not. *)
Definition clip_step (clip : option string) (o : operation * option error) : option string :=
  match o with
  | (Copy v, _) => Some v
  | (Clear, None) => None
  | _ => clip
  end.
Definition clip (h : history) : option string := foldl clip_step None h.
(** The values that were handed over, in order. *)
Definition copied (h : history) : list string :=
  omap (λ o, match o with (Copy v, None) => Some v | _ => None end) h.

(** A dialogue that copies only into an empty clipboard. *)
Fixpoint wary {A} (d : dialogue A) (h : history) (Q : history → A → Prop) : Prop :=
  match d with
  | Done a => Q h a
  | Do op k =>
      (∀ v, op = Copy v → clip h = None) ∧ ∀ e, wary (k e) (h ++ [(op, e)]) Q
  end.

Lemma wary_mono {A} (d : dialogue A) h (Q Q' : history → A → Prop) :
  (∀ h' a, Q h' a → Q' h' a) → wary d h Q → wary d h Q'.
Proof.
  intros HQ. revert h. induction d as [a|op k IH]; cbn; intros h; [apply HQ|].
  intros [Hop Hk]. split; [done|]. intros e. apply IH, Hk.
Qed.
Lemma wary_dialogue_bind {A B} (d : dialogue A) (f : A → dialogue B) h Q :
  wary d h (λ h' a, wary (f a) h' Q) → wary (dialogue_bind d f) h Q.
Proof.
  revert h. induction d as [a|op k IH]; cbn; intros h; [done|].
  intros [Hop Hk]. split; [done|]. intros e. apply IH, Hk.
Qed.
Lemma wary_bind {A B} (m : D A) (f : A → D B) h (Q : history → result B → Prop) :
  wary m h (λ h' r, match r with inl e => Q h' (inl e) | inr a => wary (f a) h' Q end) →
  wary (m ≫= f) h Q.
Proof. intros Hm. apply wary_dialogue_bind. eapply wary_mono, Hm. by intros h' [e|a]. Qed.

Lemma wary_sound {A} (d : dialogue A) h Q h1 a :
  wary d h Q → plays d h1 a →
  Q (h ++ h1) a ∧ ∀ h2 v e h3, h1 = h2 ++ (Copy v, e) :: h3 → clip (h ++ h2) = None.
Proof.
  revert h h1. induction d as [x|op k IH]; cbn; intros h h1 Hw Hp.
  - destruct Hp as [-> ->]. rewrite app_nil_r. split; [done|]. by intros [|??] ??? [=].
  - destruct Hw as [Hop Hk], Hp as (e & h' & -> & Hp).
    destruct (IH e _ _ (Hk e) Hp) as [HQ Hc]. rewrite <- app_assoc in HQ. split; [done|].
    intros [|o h2] v e' h3 Heq; simplify_eq/=; [rewrite app_nil_r; by eapply Hop|].
    specialize (Hc h2 v e' h3 eq_refl). by rewrite <- app_assoc in Hc.
Qed.

Lemma clip_snoc h o : clip (h ++ [o]) = clip_step (clip h) o.
Proof. unfold clip. by rewrite foldl_app. Qed.
Lemma copied_snoc h o : copied (h ++ [o]) = copied h ++ copied [o].
Proof. apply omap_app. Qed.

(** Parts of the dialogue that leave the clipboard alone. *)
Definition quiet {A} (m : D A) : Prop :=
  ∀ h, wary m h (λ h' _, clip h' = clip h ∧ copied h' = copied h).
Lemma wary_quiet {A B} (m : D A) (f : A → D B) h (Q : history → result B → Prop) :
  quiet m →
  (∀ h' e, clip h' = clip h → copied h' = copied h → Q h' (inl e)) →
  (∀ h' a, clip h' = clip h → copied h' = copied h → wary (f a) h' Q) →
  wary (m ≫= f) h Q.
Proof.
  intros Hm He Hf. apply wary_bind. eapply wary_mono, Hm. intros h' [e|a] [Hc Hd]; auto.
Qed.
Lemma quiet_bind {A B} (m : D A) (f : A → D B) : quiet m → (∀ a, quiet (f a)) → quiet (m ≫= f).
Proof.
  intros Hm Hf h. apply wary_quiet; [done|by intros|]. intros h' a Hc Hd.
  eapply wary_mono, Hf. by intros h'' b [-> ->].
Qed.
Lemma quiet_print text : quiet (print text).
Proof. intros h. split; [done|]. intros e. cbn. by rewrite clip_snoc, copied_snoc, app_nil_r. Qed.
Lemma quiet_perform op wrap :
  (∀ v, op ≠ Copy v) → op ≠ Clear → quiet (perform op wrap).
Proof.
  intros Hc Hd h. split; [by intros v Hv%Hc|].
  intros e. destruct e as [e|]; cbn; rewrite clip_snoc, copied_snoc;
    (destruct op as [| | |value| | | | | |]; try (by destruct (Hc value)); try done);
    by rewrite ?app_nil_r.
Qed.
Lemma quiet_waitForEnter prompt : quiet (waitForEnter prompt).
Proof. apply quiet_bind; [|intros _]; by apply quiet_perform. Qed.
Lemma quiet_prints l : quiet (D_for_each l print).
Proof.
  induction l as [|x l IH]; [by intros h|]. apply quiet_bind; [apply quiet_print|by intros _].
Qed.

Section Discipline.
Context `{Platform}.

(** One field: from an empty clipboard, a success has handed the value over
    and emptied the clipboard again. *)
Lemma offer_wary count i name value h :
  clip h = None →
  wary (offer count (i, (name, value))) h (λ h' r,
    r = inr tt → clip h' = None ∧ copied h' = copied h ++ [value]).
Proof.
  intros Hh. cbn [offer]. apply wary_bind. split; [done|].
  intros [e|]; [by intros|]. set (h1 := h ++ [(Copy value, None)]). cbn [wary].
  assert (Hd1 : copied h1 = copied h ++ [value]) by (unfold h1; by rewrite copied_snoc).
  apply wary_quiet; [apply quiet_print|by intros|]. intros h2 _ _ Hd2.
  apply wary_quiet; [apply quiet_waitForEnter|by intros|]. intros h3 _ _ Hd3.
  split; [by intros|]. intros [e|]; [by intros|]. intros _.
  rewrite clip_snoc, copied_snoc, app_nil_r. split; [done|congruence].
Qed.

Lemma offers_wary count l h :
  clip h = None →
  wary (D_for_each l (offer count)) h (λ h' r,
    r = inr tt → clip h' = None ∧ copied h' = copied h ++ (snd ∘ snd <$> l)).
Proof.
  revert h. induction l as [|[i [name value]] l IH]; intros h Hh.
  { intros _. by rewrite app_nil_r. }
  apply wary_bind. eapply wary_mono, (offer_wary count i name value h Hh).
  intros h1 [e|[]] Hr; [by intros|]. destruct (Hr eq_refl) as [Hc Hd].
  eapply wary_mono, (IH h1 Hc). intros h2 r Hr2 Heq. destruct (Hr2 Heq) as [-> ->].
  by rewrite Hd, <- app_assoc.
Qed.

Lemma runWizard_body_wary generated :
  wary (runWizard_body generated) [] (λ h r, r = inr tt →
    ∃ bundle, generated = inr bundle ∧ clip h = None ∧ copied h = (fields bundle).*2).
Proof.
  apply wary_quiet; [apply quiet_prints|by intros|]. intros h1 _ Hc1 Hd1.
  apply wary_quiet; [apply quiet_waitForEnter|by intros|]. intros h2 _ Hc2 Hd2.
  do 2 (apply wary_quiet; [apply quiet_print|by intros|]; intros ? _ ? ?).
  destruct generated as [e|bundle]; [by intros|].
  apply wary_quiet; [apply quiet_print|by intros|]. intros h5 _ Hc5 Hd5.
  apply wary_bind. eapply wary_mono, offers_wary; [|cbn in *; congruence].
  intros h6 [e|[]] Hr; [by intros|]. destruct (Hr eq_refl) as [Hc6 Hd6].
  do 2 (apply wary_quiet; [apply quiet_print|by intros|]; intros ? _ ? ?).
  apply wary_quiet; [apply quiet_waitForEnter|by intros|]. intros h9 _ Hc9 Hd9.
  apply wary_bind. split; [by intros|]. intros [e|]; [by intros|]. cbn [wary].
  apply wary_quiet; [apply quiet_print|by intros|]. intros h10 _ Hc10 Hd10.
  eapply wary_mono, quiet_print. intros h11 r [Hc11 Hd11] _. exists bundle. split; [done|].
  rewrite clip_snoc in Hc10. rewrite copied_snoc, app_nil_r in Hd10. cbn in *.
  assert (Hd0 : copied h5 = []) by congruence. rewrite Hd0 in Hd6; cbn in Hd6. split; congruence.
Qed.
(** The deferred clear ends every dialogue. *)
Lemma runWizard_wary generated :
  wary (runWizard generated) [] (λ h err,
    (∃ h1 e, h = h1 ++ [(Clear, e)] ∧ (is_Some e → is_Some err)) ∧
    (err = None → clip h = None ∧
       ∃ bundle, generated = inr bundle ∧ copied h = (fields bundle).*2)).
Proof.
  apply wary_dialogue_bind. eapply wary_mono, runWizard_body_wary. intros h r Hr.
  split; [by intros|]. intros e. cbn. split.
  - exists h, e. split; [done|]. intros [x ->]. eauto.
  - destruct e as [e|]; [done|]. destruct r as [e|[]]; [done|]. intros _.
    destruct (Hr eq_refl) as (bundle & -> & Hc & Hd).
    rewrite clip_snoc, copied_snoc, app_nil_r. split; [done|]. exists bundle. split; done.
Qed.
End Discipline.

(** C37: the clipboard discipline of the wizard.  Whatever fails on the way
    (a prompt, the input, the clipboard, the generator), a credential is
    copied only into an empty clipboard, the last operation is a clear, and a
    clear that fails is reported; so the wizard ends without an error only
    with an empty clipboard, after handing over exactly the five values of the
    generated bundle, in order. *)
Theorem runWizard_clipboard `{Platform} generated h err :
  plays (runWizard generated) h err →
  (∀ h1 v e h2, h = h1 ++ (Copy v, e) :: h2 → clip h1 = None) ∧
  (∃ h1 e, h = h1 ++ [(Clear, e)] ∧ (is_Some e → is_Some err)) ∧
  (err = None → clip h = None ∧
     ∃ bundle, generated = inr bundle ∧ copied h = (fields bundle).*2).
Proof.
  intros Hp. destruct (wary_sound _ _ _ _ _ (runWizard_wary generated) Hp) as [[? ?] ?].
  split_and!; done.
Qed.

(** ** No credential is printed *)

Definition hide (o : operation * option error) : operation * option error :=
  match o with (Copy _, e) => (Copy "", e) | _ => o end.

(** Dialogues that differ only in the values they copy. *)
Fixpoint alike {A} (d1 d2 : dialogue A) : Prop :=
  match d1, d2 with
  | Done a, Done b => a = b
  | Do op1 k1, Do op2 k2 =>
      hide (op1, None) = hide (op2, None) ∧ ∀ e, alike (k1 e) (k2 e)
  | _, _ => False
  end.
Lemma alike_refl {A} (d : dialogue A) : alike d d.
Proof. by induction d. Qed.
Lemma alike_dialogue_bind {A B} (d1 d2 : dialogue A) (f1 f2 : A → dialogue B) :
  alike d1 d2 → (∀ a, alike (f1 a) (f2 a)) → alike (dialogue_bind d1 f1) (dialogue_bind d2 f2).
Proof.
  intros Hd Hf. revert d2 Hd. induction d1 as [a|op k IH]; intros [b|op2 k2]; cbn; try done.
  - intros ->. apply Hf.
  - intros [Hop Hk]. split; [done|]. intros e. apply IH, Hk.
Qed.
Lemma alike_bind {A B} (m1 m2 : D A) (f1 f2 : A → D B) :
  alike m1 m2 → (∀ a, alike (f1 a) (f2 a)) → alike (m1 ≫= f1) (m2 ≫= f2).
Proof. intros Hm Hf. apply alike_dialogue_bind; [done|]. by intros [e|a]. Qed.
Lemma alike_plays {A} (d1 d2 : dialogue A) h a :
  alike d1 d2 → plays d1 h a → ∃ h2, plays d2 h2 a ∧ hide <$> h2 = hide <$> h.
Proof.
  revert d2 h. induction d1 as [x|op k IH]; intros [y|op2 k2] h; cbn; try done.
  - intros -> [-> ->]. by exists [].
  - intros [Hop Hk] (e & h' & -> & Hp). destruct (IH e _ _ (Hk e) Hp) as (h2 & Hp2 & Hh).
    exists ((op2, e) :: h2). split; [eauto|]. rewrite !fmap_cons, Hh. f_equal.
    destruct op, op2; cbn in *; congruence.
Qed.

Lemma alike_offer `{Platform} count i name v1 v2 :
  alike (offer count (i, (name, v1))) (offer count (i, (name, v2))).
Proof. apply alike_bind; [|intros _; apply alike_refl]. split; [done|]. by intros [e|]. Qed.

(** C38: the wizard's output is independent of the credentials: a dialogue
    that hands over one bundle can be replayed, answer for answer, with any
    other bundle, and the two histories (every text written to the terminal,
    every prompt, the error returned) differ only in the values given to the
    clipboard. *)
Theorem runWizard_no_leak `{Platform} bundle1 bundle2 h err :
  plays (runWizard (inr bundle1)) h err →
  ∃ h2, plays (runWizard (inr bundle2)) h2 err ∧ hide <$> h2 = hide <$> h.
Proof.
  apply alike_plays. apply alike_dialogue_bind; [|intros r; apply alike_refl].
  do 4 (apply alike_bind; [apply alike_refl|intros _]).
  apply alike_bind; [apply alike_refl|intros _].
  apply alike_bind; [|intros _; apply alike_refl].
  cbn [fields zip zip_with seq D_for_each length].
  repeat (apply alike_bind; [apply alike_offer|intros _]). apply alike_refl.
Qed.
