(* ===== verification/WizardProcess.v ===== *)
(** * The credentials wizard: the process
    ([main] and [run] of src/cmd/project-credentials-wizard/main.go)

    The process has two threads: [main], which checks the terminal, installs
    the signal handler and runs the dialogue, and the handler's goroutine,
    which on an interrupt clears the clipboard and exits with status 130.  They
    are interleaved by a step relation, in which a signal that is not handled
    kills the process at any moment; the theorem says what the terminal's
    clipboard may hold however the process ends. *)

From S2P Require Import Prelude KubeTypes Types Platform Encoding Sha256 Crypto Secrets Wizard WizardTerminal.

(** ** The two threads *)

Section Process.
Context `{Platform} (stdin_terminal stdout_terminal : bool) (generated : result credentialBundle).

(** [run]: the deferred [signal.Stop] and [terminal.Close] run in that order;
    an error of the close is returned only if there is no other. *)
Definition run : dialogue (option error) :=
  if negb stdin_terminal || negb stdout_terminal
  then Done (Some (ErrorString
         "run directly in an interactive terminal without redirected input or output"))
  else
    Do Open (λ opened,
      match opened with
      | Some err => Done (Some (WrapError "open controlling terminal: " err))
      | None =>
          Do Notify (λ _,
          dialogue_bind (runWizard generated) (λ err,
          Do Stop (λ _,
          Do Close (λ closeErr,
            Done (match err, closeErr with
                  | None, Some e => Some (WrapError "close controlling terminal: " e)
                  | _, _ => err
                  end)))))
      end).

(** [main]: the exit status. *)
Definition main : dialogue Z :=
  dialogue_bind run (λ r,
    match r with
    | Some err =>
        Do (Eprint ("project credential wizard: " +:+ Error err +:+ newline)) (λ _, Done 1)
    | None => Done 0
    end).

(** The goroutine, once it has received a signal; it then exits with 130. *)
Definition handler : dialogue unit :=
  Do Clear (λ r,
    match r with
    | Some err =>
        Do (Eprint (newline +:+ "warning: clipboard may still contain credential material: " +:+
                    Error err +:+ newline)) (λ _, Done tt)
    | None => Done tt
    end).

(** ** Interleaving *)

(** The signals that end a process: those passed to [signal.Notify], and the
    others (among them SIGKILL, which cannot be notified). *)
Inductive signal := SIGINT | SIGTERM | SIGHUP | SIGQUIT | SIGKILL.
Definition registered (s : signal) : bool :=
  match s with SIGINT | SIGTERM => true | _ => false end.

Inductive goroutine := Unstarted | Blocked | Active (d : dialogue unit).
Inductive process :=
| Alive (program : dialogue Z) (g : goroutine) (notified : bool)
| Exited (status : Z)
| Killed (s : signal).
Inductive thread := Main | Handler.
Abbreviation entry := (thread * (operation * option error))%type.

Definition starts (op : operation) (g : goroutine) : goroutine :=
  match op, g with Notify, Unstarted => Blocked | _, _ => g end.
Definition notifies (op : operation) (notified : bool) : bool :=
  match op with Notify => true | Stop => false | _ => notified end.

(** One step, with the operation it performs.  A signal that is not notified
    kills the process: SIGINT and SIGTERM while the handler is not installed, any
    other signal at any time.  The channel holds one signal. *)
Inductive step : process → list entry → process → Prop :=
| step_main op k g b e :
    step (Alive (Do op k) g b) [(Main, (op, e))] (Alive (k e) (starts op g) (notifies op b))
| step_return code g b : step (Alive (Done code) g b) [] (Exited code)
| step_signal s d :
    registered s = true → step (Alive d Blocked true) [] (Alive d (Active handler) true)
| step_default s d g b : registered s && b = false → step (Alive d g b) [] (Killed s)
| step_handler d op k b e :
    step (Alive d (Active (Do op k)) b) [(Handler, (op, e))] (Alive d (Active (k e)) b)
| step_exit d b : step (Alive d (Active (Done tt)) b) [] (Exited 130).

Definition launch : process := Alive main Unstarted false.
Inductive reaches : list entry → process → Prop :=
| reaches_start : reaches [] launch
| reaches_step log p l q : reaches log p → step p l q → reaches (log ++ l) q.
End Process.

#[export] Instance thread_eq : EqDecision thread.
Proof. solve_decision. Defined.

(** What one thread has done, and what the terminal has seen. *)
Definition of_thread (t : thread) (log : list (thread * (operation * option error))) : history :=
  omap (λ x, if bool_decide (x.1 = t) then Some x.2 else None) log.
Definition seen (log : list (thread * (operation * option error))) : history := log.*2.

Lemma of_thread_app t l1 l2 : of_thread t (l1 ++ l2) = of_thread t l1 ++ of_thread t l2.
Proof. apply omap_app. Qed.
Lemma elem_of_thread t log o : o ∈ of_thread t log ↔ (t, o) ∈ log.
Proof.
  unfold of_thread. rewrite list_elem_of_omap. split.
  - intros ([u x] & Hx & Ho). cbn in Ho. case_bool_decide; by simplify_eq.
  - intros Ho. exists (t, o). split; [done|]. cbn. by rewrite bool_decide_eq_true_2.
Qed.

(** ** Prefixes of a dialogue *)

(** With the outcomes of [h], [d] gets to [d']. *)
Fixpoint follows {A} (d : dialogue A) (h : history) (d' : dialogue A) : Prop :=
  match h with
  | [] => d = d'
  | (op, e) :: h => ∃ k, d = Do op k ∧ follows (k e) h d'
  end.

Lemma follows_snoc {A} (d : dialogue A) h op k e :
  follows d h (Do op k) → follows d (h ++ [(op, e)]) (k e).
Proof.
  revert d. induction h as [|[op' e'] h IH]; intros d; cbn; [intros ->; by exists k|].
  intros (k' & -> & Hf). exists k'. split; [done|]. by apply IH.
Qed.
Lemma follows_plays {A} (d : dialogue A) h a : follows d h (Done a) → plays d h a.
Proof.
  revert d. induction h as [|[op e] h IH]; intros d; cbn; [by intros ->|].
  intros (k & -> & Hf). exists e, h. split; [done|]. by apply IH.
Qed.
Lemma plays_follows {A} (d : dialogue A) h a : plays d h a → follows d h (Done a).
Proof.
  revert d. induction h as [|o h IH]; intros [x|op k] Hp; cbn in Hp.
  - by destruct Hp as [_ ->].
  - destruct Hp as (e & h' & [=] & _).
  - by destruct Hp as [[=] _].
  - destruct Hp as (e & h' & [= -> <-] & Hp). exists k. split; [done|]. by apply IH.
Qed.
Lemma follows_do {A} op (k : option error → dialogue A) h d' :
  follows (Do op k) h d' →
  (h = [] ∧ d' = Do op k) ∨ ∃ e h', h = (op, e) :: h' ∧ follows (k e) h' d'.
Proof.
  destruct h as [|[op' e] h]; cbn; [by left|]. intros (k' & [= -> ->] & Hf). right. by exists e, h.
Qed.
Lemma follows_done {A} (a : A) h d' : follows (Done a) h d' → h = [] ∧ d' = Done a.
Proof. destruct h as [|[op e] h]; cbn; [done|]. by intros (k & [=] & _). Qed.
Lemma follows_bind {A B} (d : dialogue A) (f : A → dialogue B) h d' :
  follows (dialogue_bind d f) h d' →
  (∃ d1, follows d h d1 ∧ d' = dialogue_bind d1 f) ∨
  (∃ h1 h2 a, h = h1 ++ h2 ∧ plays d h1 a ∧ follows (f a) h2 d').
Proof.
  revert h. induction d as [a|op k IH]; cbn; intros h Hf; [right; by exists [], h, a|].
  apply follows_do in Hf as [[-> ->]|(e & h' & -> & Hf)]; [left; by exists (Do op k)|].
  apply IH in Hf as [(d1 & Hf & ->)|(h1 & h2 & a & -> & Hp & Hf)].
  - left. exists d1. split; [by exists k|done].
  - right. exists ((op, e) :: h1), h2, a. split; [done|]. split; [by exists e, h1|done].
Qed.

(** Every operation of a dialogue is of one sort. *)
Fixpoint all_ops {A} (Q : operation → Prop) (d : dialogue A) : Prop :=
  match d with
  | Done _ => True
  | Do op k => Q op ∧ ∀ e, all_ops Q (k e)
  end.
Lemma all_ops_follows {A} Q (d : dialogue A) h d' :
  all_ops Q d → follows d h d' → Forall (λ o, Q o.1) h.
Proof.
  revert d. induction h as [|[op e] h IH]; intros d Hd; [constructor|].
  intros (k & -> & Hf). destruct Hd as [Hop Hk]. constructor; [done|]. by apply (IH (k e)).
Qed.
Lemma all_ops_bind {A B} Q (d : dialogue A) (f : A → dialogue B) :
  all_ops Q d → (∀ a, all_ops Q (f a)) → all_ops Q (dialogue_bind d f).
Proof.
  intros Hd Hf. induction d as [a|op k IH]; cbn in *; [apply Hf|].
  destruct Hd as [Hop Hk]. split; [done|]. intros e. by apply IH.
Qed.
Lemma all_ops_mono {A} (Q R : operation → Prop) (d : dialogue A) :
  (∀ op, Q op → R op) → all_ops Q d → all_ops R d.
Proof. intros HQ. induction d as [a|op k IH]; cbn; [done|]. intros [Hop Hk]. eauto. Qed.
Lemma all_ops_D_bind {A B} Q (m : D A) (f : A → D B) :
  all_ops Q m → (∀ a, all_ops Q (f a)) → all_ops Q (m ≫= f).
Proof. intros Hm Hf. apply all_ops_bind; [done|]. by intros [e|a]. Qed.

(** The dialogue neither opens nor closes the terminal, and leaves signals
    alone. *)
Definition dialogue_op (op : operation) : Prop :=
  match op with Println _ | WriteString _ | ReadLine | Copy _ | Clear => True | _ => False end.
Lemma waitForEnter_ops prompt : all_ops dialogue_op (waitForEnter prompt).
Proof. split; [done|]. intros [e|]; cbn; [done|]. split; [done|]. by intros [e|]. Qed.
Lemma print_ops text : all_ops dialogue_op (print text).
Proof. by split. Qed.
Lemma perform_ops op wrap : dialogue_op op → all_ops dialogue_op (perform op wrap).
Proof. intros Hop. split; [done|]. by intros [e|]. Qed.
Lemma for_each_ops {A} (l : list A) f :
  (∀ x, all_ops dialogue_op (f x)) → all_ops dialogue_op (D_for_each l f).
Proof. intros Hf. induction l as [|x l IH]; [done|]. by apply all_ops_D_bind; [|intros _]. Qed.

Create HintDb ops.
#[export] Hint Resolve waitForEnter_ops print_ops perform_ops for_each_ops : ops.

Section Prefixes.
Context `{Platform} (stdin_terminal stdout_terminal : bool) (generated : result credentialBundle).

Lemma offer_ops count field : all_ops dialogue_op (offer count field).
Proof.
  destruct field as [i [name value]]. cbn [offer].
  repeat (apply all_ops_D_bind; [auto with ops; by apply perform_ops|intros _]).
  by apply perform_ops.
Qed.
Lemma runWizard_ops : all_ops dialogue_op (runWizard generated).
Proof.
  apply all_ops_bind; [|by split]. unfold runWizard_body.
  repeat (apply all_ops_D_bind; [auto with ops|intros _]). destruct generated as [e|bundle]; [done|].
  repeat (apply all_ops_D_bind; [first [by apply perform_ops|apply for_each_ops, offer_ops
                                       |auto with ops]|intros _]).
  auto with ops.
Qed.

(** What is copied is a value of the bundle. *)
Definition bundle_op (op : operation) : Prop :=
  ∀ v, op = Copy v → ∃ bundle, generated = inr bundle ∧ v ∈ (fields bundle).*2.
Lemma for_each_all {A} (Q : operation → Prop) (l : list A) f :
  (∀ x, x ∈ l → all_ops Q (f x)) → all_ops Q (D_for_each l f).
Proof.
  intros Hf. induction l as [|x l IH]; [done|]. apply all_ops_D_bind; [apply Hf; by left|].
  intros _. apply IH. intros y Hy. apply Hf. by right.
Qed.
Lemma perform_bundle op wrap : bundle_op op → all_ops bundle_op (perform op wrap).
Proof. intros Hop. split; [done|]. by intros [e|]. Qed.
Lemma print_bundle text : all_ops bundle_op (print text).
Proof. by split. Qed.
Lemma waitForEnter_bundle prompt : all_ops bundle_op (waitForEnter prompt).
Proof. split; [done|]. intros [e|]; cbn; [done|]. split; [done|]. by intros [e|]. Qed.
#[local] Hint Resolve print_bundle waitForEnter_bundle : ops.
Lemma offer_bundle bundle count i field :
  generated = inr bundle → field ∈ fields bundle → all_ops bundle_op (offer count (i, field)).
Proof.
  intros Hg Hin. destruct field as [name value]. cbn [offer].
  apply all_ops_D_bind; [|intros _].
  { apply perform_bundle. intros v [= <-]. exists bundle. split; [done|].
    by apply (list_elem_of_fmap_2 snd _ (name, value)). }
  repeat (apply all_ops_D_bind; [auto with ops|intros _]). by apply perform_bundle.
Qed.
Lemma runWizard_bundle : all_ops bundle_op (runWizard generated).
Proof.
  apply all_ops_bind; [|by split]. unfold runWizard_body.
  apply all_ops_D_bind; [apply for_each_all; auto with ops|intros _].
  repeat (apply all_ops_D_bind; [auto with ops|intros _]).
  destruct generated as [e|bundle] eqn:Hg; [done|].
  apply all_ops_D_bind; [auto with ops|intros _]. apply all_ops_D_bind.
  { apply for_each_all. intros [i field] Hin. apply (offer_bundle bundle); [done|].
    by apply elem_of_zip_r in Hin. }
  intros _. repeat (apply all_ops_D_bind; [first [by apply perform_bundle|auto with ops]|intros _]).
  auto with ops.
Qed.
Lemma main_bundle : all_ops bundle_op (main stdin_terminal stdout_terminal generated).
Proof.
  apply all_ops_bind; [|intros [e|]; [by split|done]]. unfold run.
  destruct (_ || _); [done|]. split; [done|]. intros [e|]; [done|]. split; [done|]. intros _.
  apply all_ops_bind; [apply runWizard_bundle|]. intros err. by repeat (split; [done|]; intros ?).
Qed.

(** Outside the dialogue: before it, and after it. *)
Definition before_op (op : operation) : Prop := match op with Open | Eprint _ => True | _ => False end.
Definition after_op (op : operation) : Prop := match op with Close | Eprint _ => True | _ => False end.
Abbreviation main' := (main stdin_terminal stdout_terminal generated).
Abbreviation terminals := (stdin_terminal = true ∧ stdout_terminal = true).

(** How far [main] has come: it has failed or not started the dialogue, or it
    is in the dialogue, or it is after it. *)
Inductive progress (h : history) (d : dialogue Z) : Prop :=
| before_dialogue :
    Forall (λ o, before_op o.1) h → (∀ code, d = Done code → code = 1) → progress h d
| in_dialogue x h' d' :
    terminals → h = (Open, None) :: (Notify, x) :: h' → follows (runWizard generated) h' d' →
    (∀ code, d ≠ Done code) → progress h d
| after_dialogue x h' err y h'' :
    terminals → h = (Open, None) :: (Notify, x) :: h' ++ (Stop, y) :: h'' →
    plays (runWizard generated) h' err → Forall (λ o, after_op o.1) h'' →
    (∀ code, d = Done code → code = 1 ∨ code = 0 ∧ err = None) → progress h d.

Lemma main_failed r err h d :
  r = Some err → Forall (λ o, before_op o.1) h →
  ∀ h', follows (match r with
     | Some err => Do (Eprint ("project credential wizard: " +:+ Error err +:+ newline)) (λ _, Done 1)
     | None => Done 0
     end) h' d → progress (h ++ h') d.
Proof.
  intros -> Hh h' Hf. apply before_dialogue.
  - apply Forall_app. split; [done|].
    apply follows_do in Hf as [[-> _]|(e & t & -> & [-> _]%follows_done)]; by repeat constructor.
  - intros code ->. apply follows_do in Hf as [[_ [=]]|(e & t & _ & [_ [= ->]]%follows_done)]. done.
Qed.

Lemma main_progress h d : follows main' h d → progress h d.
Proof.
  unfold main, run. destruct (negb _ || negb _) eqn:Ht.
  { intros Hf. by eapply (main_failed _ _ [] d eq_refl). }
  apply orb_false_iff in Ht as [Hin Hout]. apply negb_false_iff in Hin, Hout.
  cbn [dialogue_bind]. intros [[-> ->]|(e & h1 & -> & Hf)]%follows_do;
    [by apply before_dialogue|].
  destruct e as [e|]; [by eapply (main_failed _ _ [(Open, Some e)] d eq_refl); [repeat constructor|]|].
  cbn [dialogue_bind] in Hf.
  apply follows_do in Hf as [[-> ->]|(x & h2 & -> & Hf)];
    [apply before_dialogue; [by repeat constructor|done]|].
  apply follows_bind in Hf as [(d1 & Hf & ->)|(h3 & h4 & r & -> & Hp & Hf)].
  - apply follows_bind in Hf as [(d2 & Hf & ->)|(h3 & h4 & err & -> & Hp & Hf)].
    { eapply in_dialogue; [done|reflexivity|exact Hf|]. intros code. by destruct d2. }
    apply follows_do in Hf as [[-> ->]|(y & h5 & -> & Hf)].
    { rewrite app_nil_r. eapply in_dialogue; [done|reflexivity|by apply plays_follows|done]. }
    eapply after_dialogue; [done|reflexivity|exact Hp|..];
      apply follows_do in Hf as [[-> ->]|(ce & h6 & -> & [-> ->]%follows_done)]; try done;
      [by repeat constructor|].
    cbn. intros code. destruct err as [err|]; [done|]. destruct ce; [done|]. intros [= <-]. by right.
  - apply plays_follows, follows_bind in Hp as [(d2 & _ & Hd)|(hw & h5 & err & -> & Hp & Hc)].
    { destruct d2; [|done]. by cbn in Hd. }
    apply follows_do in Hc as [[_ [=]]|(y & h6 & -> & Hc)].
    apply follows_do in Hc as [[_ [=]]|(ce & h7 & -> & [-> [= ->]]%follows_done)].
    rewrite <- app_assoc. cbn [app].
    eapply after_dialogue; [done|reflexivity|exact Hp|..].
    + constructor; [done|]. destruct err as [err|]; [|destruct ce as [ce|]];
        [apply follows_do in Hf as [[-> _]|(e & t & -> & [-> _]%follows_done)]..|
         apply follows_done in Hf as [-> _]]; by repeat constructor.
    + intros code ->. destruct err as [err|]; [|destruct ce as [ce|]];
        [apply follows_do in Hf as [[_ [=]]|(e & t & _ & [_ [= ->]]%follows_done)]..|
         apply follows_done in Hf as [_ [= ->]]]; [by left..|by right].
Qed.
End Prefixes.

(** ** The clipboard *)

Definition no_copy (o : operation * option error) : Prop := ∀ v, o.1 ≠ Copy v.
Definition untouched (o : operation * option error) : Prop := no_copy o ∧ o.1 ≠ Clear.

Lemma clip_app h1 h2 : clip (h1 ++ h2) = foldl clip_step (clip h1) h2.
Proof. apply foldl_app. Qed.
Lemma clip_untouched h1 h2 : Forall untouched h2 → clip (h1 ++ h2) = clip h1.
Proof.
  rewrite clip_app. generalize (clip h1). induction h2 as [|[op e] h2 IH]; intros c Hh; [done|].
  apply Forall_cons in Hh as [[Hc Hd] Hh]. cbn. rewrite (IH _ Hh).
  destruct op; try done; by destruct (Hc value).
Qed.
Lemma clip_some h1 h2 v : clip h1 = None → clip (h1 ++ h2) = Some v → ∃ e, (Copy v, e) ∈ h2.
Proof.
  rewrite clip_app. intros ->. induction h2 as [|[op e] h2 IH] using rev_ind; [done|].
  rewrite foldl_app. cbn. intros Hv. destruct op; destruct e; simplify_eq;
    first [by (eexists; apply elem_of_app; right; left)
          |destruct (IH Hv) as [e' He]; exists e'; by apply elem_of_app; left].
Qed.

(** A thread that copies nothing can only clear what the other has copied. *)
Lemma clip_main log :
  (∀ o, (Handler, o) ∈ log → no_copy o) →
  clip (seen log) = None ∨ clip (seen log) = clip (of_thread Main log).
Proof.
  induction log as [|[t [op e]] log IH] using rev_ind; [by left|]. intros Hh.
  unfold seen in *. rewrite fmap_app, of_thread_app. cbn [fmap list_fmap snd].
  assert (Hop : t = Handler → no_copy (op, e))
    by (intros ->; apply Hh, elem_of_app; right; by left).
  destruct IH as [IH|IH]; [intros o Ho; apply Hh, elem_of_app; by left|..];
    rewrite clip_snoc, IH; destruct t; cbn;
    rewrite ?(bool_decide_eq_true_2 (Main = Main)), ?app_nil_r, ?clip_snoc by done;
    destruct op; try destruct e; try (by left); try (by right);
    by destruct (Hop eq_refl value).
Qed.

(** ** Reachable states *)

Definition flag (h : history) : bool := foldl (λ b o, notifies o.1 b) false h.

Section Reachable.
Context `{Platform} (stdin_terminal stdout_terminal : bool) (generated : result credentialBundle).
Abbreviation main' := (main stdin_terminal stdout_terminal generated).
Abbreviation reaches' := (reaches stdin_terminal stdout_terminal generated).

(** Each thread follows its program. *)
Definition consistent (log : list (thread * (operation * option error))) (p : process) : Prop :=
  let hm := of_thread Main log in
  let hh := of_thread Handler log in
  (∃ a, follows handler hh a) ∧
  match p with
  | Alive d g b =>
      follows main' hm d ∧ b = flag hm ∧
      match g with Active a => follows handler hh a | _ => hh = [] end
  | Exited code =>
      follows main' hm (Done code) ∨
      code = 130 ∧ (∃ d, follows main' hm d) ∧ follows handler hh (Done tt)
  | Killed s => ∃ d, follows main' hm d ∧ registered s && flag hm = false
  end.

Lemma reaches_consistent log p : reaches' log p → consistent log p.
Proof.
  induction 1 as [|log p l q _ [[a Ha] IH] Hs]; [split; [by exists handler|done]|].
  destruct Hs as [op k g b e|code g b|s d Hs|s d g b Hs|d op k b e|d b]; unfold consistent;
    rewrite !of_thread_app; cbn; rewrite ?app_nil_r;
    rewrite ?(bool_decide_eq_true_2 (Main = Main)), ?(bool_decide_eq_true_2 (Handler = Handler)),
      ?(bool_decide_eq_false_2 (Main = Handler)), ?(bool_decide_eq_false_2 (Handler = Main)),
      ?app_nil_r by done.
  - destruct IH as (Hm & Hb & Hg). split; [by exists a|]. split; [by apply follows_snoc|].
    split; [|by destruct op, g].
    unfold flag. rewrite foldl_app. cbn. by rewrite Hb.
  - split; [by exists a|]. left. apply IH.
  - destruct IH as (Hm & Hb & Hg). split; [by exists a|]. rewrite Hg. done.
  - destruct IH as (Hm & Hb & Hg). split; [by exists a|]. exists d. by rewrite <- Hb.
  - destruct IH as (Hm & Hb & Hg). pose proof (follows_snoc _ _ _ _ e Hg). split; [by eexists|done].
  - destruct IH as (Hm & Hb & Hg). split; [by exists a|]. right. split; [done|]. split; [by exists d|done].
Qed.

Lemma handler_copies_nothing log p :
  consistent log p → ∀ o, (Handler, o) ∈ log → no_copy o.
Proof.
  intros [[a Ha] _] o Ho%elem_of_thread.
  assert (Hops : all_ops (λ op, ∀ v, op ≠ Copy v) handler) by (split; [done|]; by intros [e|]).
  exact (proj1 (Forall_forall _ _) (all_ops_follows _ _ _ _ Hops Ha) o Ho).
Qed.

Lemma flag_dialogue h b :
  Forall (λ o : operation * option error, dialogue_op o.1) h → foldl (λ (b : bool) (o : operation * option error), notifies o.1 b) b h = b.
Proof. intros Hh. induction Hh as [|[op e] h Hop Hh IH]; [done|]. cbn. by destruct op. Qed.
Lemma dialogue_history h d : follows (runWizard generated) h d → Forall (λ o : operation * option error, dialogue_op o.1) h.
Proof. apply all_ops_follows, runWizard_ops. Qed.
Lemma sorts_untouched (Q : operation → Prop) h :
  (∀ op, Q op → untouched (op, None)) → Forall (λ o : operation * option error, Q o.1) h → Forall untouched h.
Proof. intros HQ Hh. eapply Forall_impl; [exact Hh|]. intros [op e] Hop. by apply (HQ op). Qed.
Lemma before_untouched op : before_op op → untouched (op, None).
Proof. by destruct op. Qed.
Lemma after_untouched op : after_op op → untouched (op, None).
Proof. by destruct op. Qed.

(** What is left in the clipboard when the dialogue is over. *)
Lemma after_clip x h' y h'' :
  Forall (λ o : operation * option error, after_op o.1) h'' →
  clip ((Open, None) :: (Notify, x) :: h' ++ (Stop, y) :: h'') = clip h' ∧
  copied ((Open, None) :: (Notify, x) :: h' ++ (Stop, y) :: h'') = copied h'.
Proof.
  intros Ht. split.
  - change (clip ((h' ++ [(Stop, y)] ++ h'')) = clip h'). apply clip_untouched.
    constructor; [by split|]. by apply (sorts_untouched after_op), Ht; apply after_untouched.
  - change (copied (h' ++ (Stop, y) :: h'') = copied h'). unfold copied. rewrite omap_app. cbn.
    rewrite <- (app_nil_r (omap _ h')) at 2. f_equal. clear -Ht.
    induction Ht as [|[op e] t Hop Ht IH]; [done|]. cbn. by destruct op.
Qed.

Lemma main_clear h d :
  progress stdin_terminal stdout_terminal generated h d → flag h = false ∨ (∃ code, d = Done code) →
  ∀ v, clip h = Some v → ∃ e, (Clear, Some e) ∈ h.
Proof.
  intros [Hh _|x h' d' _ -> Hf Hd|x h' err y h'' _ -> Hp Ht _] Hend v Hv.
  - pose proof (clip_untouched [] h (sorts_untouched _ _ before_untouched Hh)) as Hc.
    change (clip h = None) in Hc. by rewrite Hv in Hc.
  - destruct Hend as [Hb|[code ->]]; [|by destruct (Hd code)]. unfold flag in Hb. cbn in Hb.
    by rewrite (flag_dialogue h') in Hb by (by eapply dialogue_history).
  - destruct (after_clip x h' y h'' Ht) as [Hc _]. rewrite Hc in Hv.
    destruct (wary_sound _ _ _ _ _ (runWizard_wary generated) Hp) as [[(h1 & e & E & _) _] _].
    cbn in E. subst h'. rewrite clip_snoc in Hv. destruct e as [e|]; [|done].
    exists e. do 2 apply list_elem_of_further. apply elem_of_app. left. apply elem_of_app. right. by left.
Qed.
Lemma main_success h :
  progress stdin_terminal stdout_terminal generated h (Done 0) →
  clip h = None ∧ ∃ bundle, generated = inr bundle ∧ copied h = (fields bundle).*2.
Proof.
  intros [_ Hc|x h' d' _ _ _ Hd|x h' err y h'' _ -> Hp Ht Hc].
  - by specialize (Hc 0 eq_refl).
  - by destruct (Hd 0).
  - destruct (Hc 0 eq_refl) as [[=]|[_ ->]]. destruct (after_clip x h' y h'' Ht) as [-> ->].
    destruct (wary_sound _ _ _ _ _ (runWizard_wary generated) Hp) as [[_ Hs] _]. by apply Hs.
Qed.
(** A copy comes after the handler's installation. *)
Lemma main_guarded h d h1 v e h2 :
  progress stdin_terminal stdout_terminal generated h d → h = h1 ++ (Copy v, e) :: h2 →
  (stdin_terminal = true ∧ stdout_terminal = true) ∧ ∃ x, (Notify, x) ∈ h1.
Proof.
  intros [Hh _|x h' d' Ht E _ _|x h' err y h'' Ht E _ _ _] ->.
  - apply Forall_app in Hh as [_ [[] _]%Forall_cons].
  - split; [done|]. exists x. destruct h1 as [|o1 [|o2 h1]]; simplify_eq/=; set_solver.
  - split; [done|]. exists x. destruct h1 as [|o1 [|o2 h1]]; simplify_eq/=; set_solver.
Qed.
End Reachable.

Lemma of_thread_split t log o rest :
  of_thread t log = o :: rest → ∃ l1 l2, log = l1 ++ (t, o) :: l2.
Proof.
  intros E. apply list_elem_of_split, elem_of_thread. rewrite E. by left.
Qed.
Lemma of_thread_prefix t l1 o l2 :
  of_thread t (l1 ++ (t, o) :: l2) = of_thread t l1 ++ o :: of_thread t l2.
Proof. rewrite of_thread_app. cbn. by rewrite bool_decide_eq_true_2. Qed.

(** A credential is left in the clipboard only where a clear failed. *)
Definition cleared_unless_failed (log : list (thread * (operation * option error))) : Prop :=
  ∀ v, clip (seen log) = Some v → ∃ e, (Main, (Clear, Some e)) ∈ log.
(** The handler has cleared the clipboard, and what is left was copied after. *)
Definition cleared_by_handler (log : list (thread * (operation * option error))) : Prop :=
  ∃ l1 e l2, log = l1 ++ (Handler, (Clear, e)) :: l2 ∧
    (e = None → ∀ v, clip (seen log) = Some v → ∃ e', (Main, (Copy v, e')) ∈ l2).

(** C39: the wizard as a process.  However the two threads interleave, whatever
    fails and whatever signal arrives: a credential is copied only if both
    standard streams are a terminal and the interrupt handler is installed, and
    what the clipboard holds is a value of the bundle; status 0 means that the
    clipboard is empty and that exactly the five values of the bundle were
    handed over, in order; with status 1, or when SIGINT or SIGTERM kills the
    process while it is not handled, a credential is left only if a clear
    failed; with status 130 the handler has cleared the clipboard, and if that
    worked the only credential that can be left is one that the dialogue copied
    after it.  Nothing is claimed where a signal kills the process that the
    program does not handle (SIGHUP, SIGQUIT, SIGKILL): [hangup_leaves] shows
    that a credential can stay behind then. *)
Theorem wizard_process `{Platform} stdin_terminal stdout_terminal generated log p :
  reaches stdin_terminal stdout_terminal generated log p →
  (∀ l1 v e l2, log = l1 ++ (Main, (Copy v, e)) :: l2 →
     (stdin_terminal = true ∧ stdout_terminal = true) ∧ ∃ x, (Main, (Notify, x)) ∈ l1) ∧
  (∀ v, clip (seen log) = Some v → ∃ bundle, generated = inr bundle ∧ v ∈ (fields bundle).*2) ∧
  match p with
  | Alive _ _ _ => True
  | Killed s => registered s = true → cleared_unless_failed log
  | Exited code =>
      code = 0 ∧ clip (seen log) = None ∧
        (∃ bundle, generated = inr bundle ∧ copied (of_thread Main log) = (fields bundle).*2) ∨
      code = 1 ∧ cleared_unless_failed log ∨
      code = 130 ∧ cleared_by_handler log
  end.
Proof.
  intros Hr. pose proof (reaches_consistent _ _ _ _ _ Hr) as Hc.
  pose proof (clip_main log (handler_copies_nothing _ _ _ _ _ Hc)) as Hclip.
  assert (Hunless : ∀ d, follows (main stdin_terminal stdout_terminal generated) (of_thread Main log) d →
    flag (of_thread Main log) = false ∨ (∃ code, d = Done code) → cleared_unless_failed log).
  { intros d Hf Hend v Hv. rewrite Hv in Hclip. destruct Hclip as [|Hm]; [done|].
    destruct (main_clear _ _ _ _ _ (main_progress _ _ _ _ _ Hf) Hend v (eq_sym Hm)) as [e He].
    exists e. by apply elem_of_thread. }
  destruct Hc as [_ Hc].
  assert (∃ d, follows (main stdin_terminal stdout_terminal generated) (of_thread Main log) d)
    as [d Hf].
  { destruct p; [destruct Hc; by eexists|destruct Hc as [?|(_ & ? & _)]; [by eexists|done]|].
    destruct Hc as (d & ? & _). by exists d. }
  split_and!.
  - intros l1 v e l2 E. rewrite E, of_thread_prefix in Hf.
    destruct (main_guarded _ _ _ _ _ _ _ _ _ (main_progress _ _ _ _ _ Hf) eq_refl) as [Ht [x Hx]].
    split; [exact Ht|]. exists x. by apply elem_of_thread.
  - intros v Hv. destruct Hclip as [Hn|Hm]; [congruence|]. rewrite Hm in Hv.
    destruct (clip_some [] _ v eq_refl Hv) as [e He].
    exact (proj1 (Forall_forall _ _) (all_ops_follows _ _ _ _ (main_bundle _ _ _) Hf) _ He v eq_refl).
  - clear d Hf. destruct p as [d g b|code|s]; [done| |].
    + destruct Hc as [Hf|(-> & _ & Hf)].
      * pose proof (main_progress _ _ _ _ _ Hf) as Hp.
        assert (Hcode : code = 1 ∨ code = 0).
        { destruct Hp as [_ Hd|? ? ? _ _ _ Hd|? ? ? ? ? _ _ _ _ Hd];
            [left; by apply Hd|by destruct (Hd code)|].
          destruct (Hd code eq_refl) as [?|[? _]]; [by left|by right]. }
        destruct Hcode as [-> | ->]; [right; left; split; [done|]; eapply Hunless; [exact Hf|eauto]|].
        left. destruct (main_success _ _ _ _ Hp) as [Hm Hb]. split; [done|].
        split; [|done]. destruct Hclip; congruence.
      * right. right. split; [done|].
        apply follows_do in Hf as [[_ [=]]|(e & t & E & _)].
        apply of_thread_split in E as (l1 & l2 & E). exists l1, e, l2. split; [exact E|].
        intros -> v Hv. rewrite E in Hv. unfold seen in Hv.
        rewrite fmap_app, fmap_cons, cons_middle, app_assoc in Hv.
        apply clip_some in Hv as [e' He']; [|by rewrite clip_snoc].
        exists e'. apply list_elem_of_fmap in He' as ([[|] o] & Ho & Hin); cbn in Ho; subst o; [done|].
        exfalso. refine (handler_copies_nothing _ _ _ log _ (reaches_consistent _ _ _ _ _ Hr)
          (Copy v, e') _ v eq_refl).
        rewrite E. apply elem_of_app. right. by apply list_elem_of_further.
    + destruct Hc as (d & Hf & Hb). intros Hs. rewrite Hs in Hb. eapply Hunless; [exact Hf|by left].
Qed.

(** ** Schedules *)

(** Which thread runs next; every operation succeeds. *)
Inductive choice := RunMain | RunHandler | Raise (s : signal).
Definition advance (c : choice) (p : process)
    : option (list (thread * (operation * option error)) * process) :=
  match c, p with
  | RunMain, Alive (Do op k) g b =>
      Some ([(Main, (op, None))], Alive (k None) (starts op g) (notifies op b))
  | RunMain, Alive (Done code) _ _ => Some ([], Exited code)
  | Raise s, Alive d g b =>
      if registered s && b
      then match g with Blocked => Some ([], Alive d (Active handler) true) | _ => None end
      else Some ([], Killed s)
  | RunHandler, Alive d (Active (Do op k)) b =>
      Some ([(Handler, (op, None))], Alive d (Active (k None)) b)
  | RunHandler, Alive d (Active (Done tt)) b => Some ([], Exited 130)
  | _, _ => None
  end.
Fixpoint schedule (cs : list choice) (p : process)
    : option (list (thread * (operation * option error)) * process) :=
  match cs with
  | [] => Some ([], p)
  | c :: cs => '(l, q) ← advance c p; '(l', q') ← schedule cs q; Some (l ++ l', q')
  end.

Lemma advance_step c p l q : advance c p = Some (l, q) → step p l q.
Proof.
  destruct c as [| |s], p as [[code|op k] [| |[[]|op' k']] [|]|code|s']; try destruct s; cbn;
    intros Ha; simplify_eq;
    first [by apply (step_signal SIGINT) | by apply step_default | by constructor].
Qed.
Lemma schedule_reaches `{Platform} s1 s2 generated cs log p l q :
  reaches s1 s2 generated log p → schedule cs p = Some (l, q) →
  reaches s1 s2 generated (log ++ l) q.
Proof.
  revert log p l. induction cs as [|c cs IH]; cbn; intros log p l Hr Hs.
  - simplify_eq. by rewrite app_nil_r.
  - destruct (advance c p) as [[l1 q1]|] eqn:Ha; [|done]. cbn in Hs.
    destruct (schedule cs q1) as [[l2 q2]|] eqn:Hq; [|done]. cbn in Hs. simplify_eq.
    rewrite app_assoc. eapply IH; [|exact Hq]. eapply reaches_step; [exact Hr|].
    by apply (advance_step c).
Qed.

(** The race that is left: an interrupt is handled while the operator answers a
    prompt; the dialogue copies the next credential after the handler's clear
    and before its exit.  Nothing fails, and the credential stays in the
    clipboard. *)
Lemma interrupt_race `{Platform} bundle :
  ∃ log, reaches true true (inr bundle) log (Exited 130) ∧
    Forall (λ x : thread * (operation * option error), x.2.2 = None) log ∧
    clip (seen log) = Some (bd_SigningKeys bundle).
Proof.
  pose (cs := replicate 9 RunMain ++ [Raise SIGINT; RunHandler] ++ replicate 5 RunMain ++ [RunHandler]).
  destruct (schedule cs (launch true true (inr bundle))) as [[log q]|] eqn:E; cbn in E; [|done].
  injection E as <- <-. eexists. split.
  - eapply (schedule_reaches _ _ _ cs []); [apply reaches_start|]. cbn. reflexivity.
  - split; [by repeat constructor|done].
Qed.

(** Closing the terminal's window sends SIGHUP, which is not notified: the
    process dies at the prompt, no clear is attempted, and the first credential
    stays in the clipboard. *)
Lemma hangup_leaves `{Platform} bundle :
  ∃ log, reaches true true (inr bundle) log (Killed SIGHUP) ∧
    Forall (λ x : thread * (operation * option error), x.2.2 = None ∧ x.2.1 ≠ Clear) log ∧
    clip (seen log) = Some (bd_SigningKeys bundle).
Proof.
  pose (cs := replicate 14 RunMain ++ [Raise SIGHUP]).
  destruct (schedule cs (launch true true (inr bundle))) as [[log q]|] eqn:E; cbn in E; [|done].
  injection E as <- <-. eexists. split.
  - eapply (schedule_reaches _ _ _ cs []); [apply reaches_start|]. cbn. reflexivity.
  - split; [by repeat constructor|done].
Qed.
