(* ===== verification/Deployments.v ===== *)
(** * Workloads (src/internal/resources/deployments)

    One builder per component of a project: GoTrue (auth.go), PostgREST
    (rest.go), Studio (studio.go), postgres-meta (meta.go), the Envoy gateway
    (gateway.go) and PowerSync (powersync.go), on the helpers of helpers.go.
    The PowerSync builders take the PowerSync section the source dereferences. *)

From S2P Require Import Prelude KubeTypes Types Platform Effects Common EnvoyAssets ConfigMaps Cnpg Secrets.
From Stdlib Require Import Ascii.

Definition PullIfNotPresent : string := "IfNotPresent".
Definition ProtocolTCP : string := "TCP".

(** [fmt.Sprintf] with %t. *)
Definition format_bool (b : bool) : string := if b then "true" else "false".

(** [if s != "" { v = s }]. *)
Definition or_default (s d : string) : string := if bool_decide (s ≠ "") then s else d.

(** ** Helpers (helpers.go) *)

Definition ResolveImage (spec : ImageSpec) (defaultImage defaultTag : string) : string :=
  let repository := or_default (is_Repository spec) defaultImage in
  let tag := or_default (is_Tag spec) defaultTag in
  let image := repository +:+ ":" +:+ tag in
  if bool_decide (is_Registry spec ≠ "") then is_Registry spec +:+ "/" +:+ image else image.

Definition ResolvePullPolicy (spec : ImageSpec) : string :=
  or_default (is_PullPolicy spec) PullIfNotPresent.

Record ProbeConfig := {
  pcf_Path : string; pcf_Port : Z; pcf_InitialDelaySeconds : Z; pcf_PeriodSeconds : Z;
  pcf_TimeoutSeconds : Z }.

Definition DefaultLivenessConfig (path : string) (port : Z) : ProbeConfig :=
  {| pcf_Path := path; pcf_Port := port; pcf_InitialDelaySeconds := 10;
     pcf_PeriodSeconds := 10; pcf_TimeoutSeconds := 5 |}.
Definition DefaultReadinessConfig (path : string) (port : Z) : ProbeConfig :=
  {| pcf_Path := path; pcf_Port := port; pcf_InitialDelaySeconds := 5;
     pcf_PeriodSeconds := 5; pcf_TimeoutSeconds := 3 |}.

Definition BuildHTTPProbe (config : ProbeConfig) : Probe :=
  {| pr_HTTPGet := Some {| hg_Path := pcf_Path config; hg_Port := pcf_Port config; hg_Scheme := "" |};
     pr_Exec := None; pr_InitialDelaySeconds := pcf_InitialDelaySeconds config;
     pr_TimeoutSeconds := pcf_TimeoutSeconds config; pr_PeriodSeconds := pcf_PeriodSeconds config;
     pr_SuccessThreshold := 0; pr_FailureThreshold := 3 |}.
Definition BuildLivenessProbe (path : string) (port : Z) : Probe :=
  BuildHTTPProbe (DefaultLivenessConfig path port).
Definition BuildReadinessProbe (path : string) (port : Z) : Probe :=
  BuildHTTPProbe (DefaultReadinessConfig path port).

Definition NormalizeReplicas (replicas : Z) : Z := if replicas =? 0 then 1 else replicas.

Definition AddImagePullSecrets (podSpec : PodSpec) (p : SupabaseProject) : PodSpec :=
  if bool_decide (sps_ImagePullSecrets (prj_Spec p) ≠ [])
  then podSpec <| ps_ImagePullSecrets := sps_ImagePullSecrets (prj_Spec p) |>
  else podSpec.

Definition BuildDatabaseEnv (dbHost : string) : list EnvVar :=
  [env_value "DB_HOST" dbHost; env_value "DB_PORT" "5432"; env_value "DB_DRIVER" "postgres";
   env_value "DB_SSL" "disable"; env_value "DB_NAME" DatabaseName].

(** The deployment every builder returns: reloader annotations, the
    component's labels and selector, and the pod of [spec]. *)
Definition new_deployment (p : SupabaseProject) (name component : string) (replicas : Z)
    (spec : PodSpec) : Deployment :=
  {| dp_meta := new_meta name (prj_Namespace p) (ComponentLabels p component) ReloaderAnnotations;
     dp_Replicas := Some replicas;
     dp_Selector := SelectorLabels p component;
     dp_Strategy := {| dst_Type := ""; dst_RollingUpdate := None |};
     dp_Template := {| pt_Labels := ComponentLabels p component;
                       pt_Annotations := ReloaderAnnotations;
                       pt_Spec := AddImagePullSecrets spec p |};
     dp_other := ∅; dp_Status := no_deployment_status |}.

Definition tcp_port (name : string) (port : Z) : ContainerPort :=
  {| cp_Name := name; cp_ContainerPort := port; cp_Protocol := ProtocolTCP |}.

(** ** GoTrue (auth.go) *)

Definition AuthComponentName : string := "auth".
Definition AuthPort : Z := 9999.
Definition AuthDeploymentName (p : SupabaseProject) : string := prj_Name p +:+ "-auth".
Definition AuthServiceName (p : SupabaseProject) : string := prj_Name p +:+ "-auth".

Definition operatorOwnedGoTrueEnvNames : gset string :=
  list_to_set ["GOTRUE_JWT_KEYS"; "GOTRUE_JWT_SECRET"; "GOTRUE_JWT_ALG"; "GOTRUE_JWT_KEY_ID";
    "GOTRUE_JWT_ISSUER"; "GOTRUE_JWT_AUD"; "GOTRUE_JWT_EXP"; "GOTRUE_JWT_VALID_METHODS";
    "GOTRUE_JWT_ALLOWED_ALGS"; "GOTRUE_JWT_ADMIN_ROLES"; "GOTRUE_JWT_ADMIN_GROUP_NAME";
    "GOTRUE_JWT_DEFAULT_GROUP_NAME"; "GOTRUE_JWT_ROLE_CLAIM"].
Definition IsOperatorOwnedGoTrueEnv (name : string) : bool :=
  bool_decide (name ∈ operatorOwnedGoTrueEnvNames).

Definition goTrueEnvKeyRef (ref : option GoTrueEnvKeySelector) : option KeySelector :=
  (λ r, {| ks_Name := gk_Name r; ks_Key := gk_Key r; ks_Optional := gk_Optional r |}) <$> ref.
Definition goTrueEnvSecretKeyRef (ref : option GoTrueEnvKeySelector) : option KeySelector :=
  goTrueEnvKeyRef ref.
Definition goTrueEnvConfigMapKeyRef (ref : option GoTrueEnvKeySelector) : option KeySelector :=
  goTrueEnvKeyRef ref.

(** The entry the loop body builds for a configured variable. *)
Definition gotrue_variable (c : GoTrueEnvVar) : EnvVar :=
  match ge_Value c with
  | Some value => env_value (ge_Name c) value
  | None =>
      match ge_ValueFrom c with
      | Some valueFrom =>
          {| ev_Name := ge_Name c; ev_Value := "";
             ev_ValueFrom := Some {|
               evs_SecretKeyRef := goTrueEnvSecretKeyRef (gv_SecretKeyRef valueFrom);
               evs_ConfigMapKeyRef := goTrueEnvConfigMapKeyRef (gv_ConfigMapKeyRef valueFrom) |} |}
      | None => env_value (ge_Name c) ""
      end
  end.

(** One iteration on the environment and the map from names to positions. *)
Definition gotrue_step (st : list EnvVar * gmap string nat) (c : GoTrueEnvVar)
    : list EnvVar * gmap string nat :=
  let '(env, indexes) := st in
  if IsOperatorOwnedGoTrueEnv (ge_Name c) then (env, indexes)
  else
    let variable := gotrue_variable c in
    match indexes !! ev_Name variable with
    | Some index => (<[index := variable]> env, indexes)
    | None => (env ++ [variable], <[ev_Name variable := length env]> indexes)
    end.

Definition env_indexes (env : list EnvVar) : gmap string nat :=
  (foldl (λ acc v, (<[ev_Name v := acc.2]> acc.1, S acc.2)) (∅, 0%nat) env).1.

Definition applyGoTrueEnv (env : list EnvVar) (configured : list GoTrueEnvVar) : list EnvVar :=
  (foldl gotrue_step (env, env_indexes env) configured).1.

Section Auth.
Context `{UrlLib}.

Definition buildAuthEnv (p : SupabaseProject) (sn : SecretNamesStatus) (dbHost : string)
    : list EnvVar :=
  let spec := sps_Auth (prj_Spec p) in
  let fallbackSecretName :=
    if bool_decide (sn_GoTrueFallback sn = "") then GoTrueFallbackSecretName p
    else sn_GoTrueFallback sn in
  let env := BuildDatabaseEnv dbHost ++
    [env_value "GOTRUE_API_HOST" "0.0.0.0";
     env_value "GOTRUE_API_PORT" (pretty AuthPort);
     env_value "API_EXTERNAL_URL" (as_ExternalURL spec);
     env_value "GOTRUE_SITE_URL" (as_SiteURL spec);
     env_value "GOTRUE_URI_ALLOW_LIST" "*";
     env_value "GOTRUE_JWT_DEFAULT_GROUP_NAME" "authenticated";
     env_value "GOTRUE_JWT_ADMIN_ROLES" "service_role";
     env_value "GOTRUE_JWT_AUD" "authenticated";
     env_value "GOTRUE_JWT_EXP" (pretty (GetAccessTokenExpiration p));
     env_value "GOTRUE_JWT_ISSUER" (AuthIssuerURL (as_ExternalURL spec));
     env_value "GOTRUE_JWT_VALID_METHODS" "ES256";
     env_secret "GOTRUE_JWT_KEYS" (sps_ProjectCredentialsSecret (prj_Spec p))
       ProjectCredentialsSigningKeysKey;
     env_value "GOTRUE_DISABLE_SIGNUP" (format_bool (as_DisableSignup spec));
     env_value "GOTRUE_EXTERNAL_ANONYMOUS_USERS_ENABLED"
       (format_bool (as_EnableAnonymousUsers spec));
     env_value "GOTRUE_EXTERNAL_EMAIL_ENABLED" "true";
     env_value "GOTRUE_MAILER_AUTOCONFIRM" (format_bool (as_AutoConfirmEmail spec));
     env_value "GOTRUE_MAILER_OTP_EXP" "3600";
     env_secret "DB_USER" (sn_AuthAdmin sn) "username";
     env_secret "DB_PASSWORD" (sn_AuthAdmin sn) "password";
     env_secret "DB_PASSWORD_ENC" (sn_AuthAdmin sn) "password";
     env_secret "GOTRUE_JWT_SECRET" fallbackSecretName GoTrueFallbackSecretKey;
     env_value "GOTRUE_DB_DATABASE_URL"
       "$(DB_DRIVER)://$(DB_USER):$(DB_PASSWORD_ENC)@$(DB_HOST):$(DB_PORT)/$(DB_NAME)?search_path=auth&sslmode=$(DB_SSL)";
     env_value "GOTRUE_DB_DRIVER" "$(DB_DRIVER)"] in
  let env := env ++
    match as_Providers spec with
    | Some providers =>
        match aps_Google providers with
        | Some google =>
            if gp_Enabled google then
              env_value "GOTRUE_EXTERNAL_GOOGLE_ENABLED" "true" ::
              (if gp_SkipNonceCheck google
               then [env_value "GOTRUE_EXTERNAL_GOOGLE_SKIP_NONCE_CHECK" "true"] else [])
            else []
        | None => []
        end ++
        match aps_Apple providers with
        | Some apple =>
            if ap_Enabled apple then [env_value "GOTRUE_EXTERNAL_APPLE_ENABLED" "true"] else []
        | None => []
        end
    | None => []
    end in
  let env := env ++
    match as_EmailHook spec with
    | Some hook =>
        if eh_Enabled hook then
          let emailHookSecretName :=
            if bool_decide (sn_EmailHook sn = "") then EmailHookSecretName p
            else sn_EmailHook sn in
          [env_value "GOTRUE_HOOK_SEND_EMAIL_ENABLED" "true";
           env_value "GOTRUE_HOOK_SEND_EMAIL_URI" (eh_URI hook);
           env_secret "GOTRUE_HOOK_SEND_EMAIL_SECRETS" emailHookSecretName "secret"]
        else []
    | None => []
    end in
  applyGoTrueEnv env (as_GoTrueEnv spec).

Definition BuildAuthDeployment (p : SupabaseProject) (sn : SecretNamesStatus) : Deployment :=
  let spec := sps_Auth (prj_Spec p) in
  let dbHost := ClusterRWServiceName p in
  let imageTag := or_default (as_ImageTag spec) AuthTag in
  let env := buildAuthEnv p sn dbHost in
  let envFrom :=
    match as_Providers spec with
    | Some providers =>
        if bool_decide (aps_SecretRef providers ≠ "")
        then [{| efs_SecretRef := Some (aps_SecretRef providers) |}] else []
    | None => []
    end in
  let container :=
    (new_container AuthComponentName (AuthImage +:+ ":" +:+ imageTag))
      <| ct_ImagePullPolicy := PullIfNotPresent |> <| ct_Env := env |>
      <| ct_EnvFrom := envFrom |> <| ct_Ports := [tcp_port "http" AuthPort] |>
      <| ct_LivenessProbe := Some (BuildLivenessProbe "/health" AuthPort) |>
      <| ct_ReadinessProbe := Some (BuildReadinessProbe "/health" AuthPort) |>
      <| ct_Resources := as_Resources spec |> in
  new_deployment p (AuthDeploymentName p) AuthComponentName
    (NormalizeReplicas (as_Replicas spec)) (new_podspec [] [container] []).
End Auth.

(** ** PostgREST (rest.go) *)

Definition RestComponentName : string := "rest".
Definition RestPort : Z := 3000.
Definition RestDeploymentName (p : SupabaseProject) : string := prj_Name p +:+ "-rest".

Definition buildRestDBInitContainer (sn : SecretNamesStatus) (dbHost : string) : Container :=
  (new_container "init-db" "postgres:15-alpine")
    <| ct_ImagePullPolicy := PullIfNotPresent |>
    <| ct_Env := [env_value "DB_HOST" dbHost; env_value "DB_PORT" "5432";
                  env_secret "DB_USER" (sn_Authenticator sn) "username"] |>
    <| ct_Command := ["/bin/sh"; "-c"] |>
    <| ct_Args := [quoted "until pg_isready -h $(DB_HOST) -p $(DB_PORT) -U $(DB_USER); do
echo `Waiting for database to start...`
sleep 2
done
echo `Database is ready`"] |>.

Definition BuildRestDeployment (p : SupabaseProject) (sn : SecretNamesStatus) : Deployment :=
  let spec := sps_Rest (prj_Spec p) in
  let dbHost := ClusterRWServiceName p in
  let imageTag := or_default (rs_ImageTag spec) RestTag in
  let schemas := if bool_decide (rs_Schemas spec ≠ []) then rs_Schemas spec else ["public"] in
  let env := BuildDatabaseEnv dbHost ++
    [env_value "PGRST_DB_SCHEMAS" (Join schemas ",");
     env_value "PGRST_DB_ANON_ROLE" "anon";
     env_value "PGRST_DB_USE_LEGACY_GUCS" "false";
     env_value "PGRST_APP_SETTINGS_JWT_EXP" (pretty (GetAccessTokenExpiration p));
     env_secret "DB_USER" (sn_Authenticator sn) "username";
     env_secret "DB_PASSWORD" (sn_Authenticator sn) "password";
     env_configmap "PGRST_JWT_SECRET" (JWKSConfigMapName p) JWKSDataKey;
     env_value "PGRST_JWT_ALG" "ES256";
     env_value "PGRST_DB_URI"
       "$(DB_DRIVER)://$(DB_USER):$(DB_PASSWORD)@$(DB_HOST):$(DB_PORT)/$(DB_NAME)?sslmode=$(DB_SSL)"] in
  let container :=
    (new_container RestComponentName (RestImage +:+ ":" +:+ imageTag))
      <| ct_ImagePullPolicy := PullIfNotPresent |> <| ct_Env := env |>
      <| ct_Ports := [tcp_port "http" RestPort] |>
      <| ct_LivenessProbe := Some (BuildLivenessProbe "/" RestPort) |>
      <| ct_ReadinessProbe := Some (BuildReadinessProbe "/" RestPort) |>
      <| ct_Resources := rs_Resources spec |> in
  new_deployment p (RestDeploymentName p) RestComponentName (NormalizeReplicas (rs_Replicas spec))
    (new_podspec [buildRestDBInitContainer sn dbHost] [container] []).

(** ** Studio (studio.go) *)

Definition StudioComponentName : string := "studio".
Definition StudioPort : Z := 3000.
Definition StudioDeploymentName (p : SupabaseProject) : string := prj_Name p +:+ "-studio".

Definition BuildStudioDeployment (p : SupabaseProject) (sn : SecretNamesStatus) : Deployment :=
  let spec := sps_Studio (prj_Spec p) in
  let dbHost := ClusterRWServiceName p in
  let imageTag := or_default (ss_ImageTag spec) StudioTag in
  let orgName := or_default (ss_OrganizationName spec) "Default Organization" in
  let projName := or_default (ss_ProjectName spec) "Default Project" in
  let gatewayService := GatewayName p in
  let metaService := prj_Name p +:+ "-meta" in
  let credentials := sps_ProjectCredentialsSecret (prj_Spec p) in
  let env :=
    [env_value "HOSTNAME" "::"; env_value "STUDIO_PORT" (pretty StudioPort);
     env_value "POSTGRES_HOST" dbHost; env_value "POSTGRES_PORT" "5432";
     env_value "POSTGRES_DB" DatabaseName;
     env_value "STUDIO_DEFAULT_ORGANIZATION" orgName;
     env_value "STUDIO_DEFAULT_PROJECT" projName;
     env_value "SUPABASE_URL" ("http://" +:+ gatewayService +:+ ":8000");
     env_value "STUDIO_PG_META_URL" ("http://" +:+ metaService +:+ ":8080");
     env_value "SUPABASE_PUBLIC_URL" (ss_PublicURL spec);
     env_secret "POSTGRES_USER" (sn_SupabaseAdmin sn) "username";
     env_secret "POSTGRES_PASSWORD" (sn_SupabaseAdmin sn) "password";
     env_secret "SUPABASE_ANON_KEY" credentials ProjectCredentialsPublishableKey;
     env_secret "SUPABASE_SERVICE_KEY" credentials ProjectCredentialsSecretKey;
     env_secret "SUPABASE_ANON_KEY_ASYMMETRIC" credentials ProjectCredentialsAnonRoleJWTKey;
     env_secret "SUPABASE_SERVICE_KEY_ASYMMETRIC" credentials
       ProjectCredentialsServiceRoleJWTKey] in
  let container :=
    (new_container StudioComponentName (StudioImage +:+ ":" +:+ imageTag))
      <| ct_ImagePullPolicy := PullIfNotPresent |> <| ct_Env := env |>
      <| ct_Ports := [tcp_port "http" StudioPort] |>
      <| ct_LivenessProbe := Some (BuildHTTPProbe
           {| pcf_Path := "/api/platform/profile"; pcf_Port := StudioPort;
              pcf_InitialDelaySeconds := 15; pcf_PeriodSeconds := 10;
              pcf_TimeoutSeconds := 10 |}) |>
      <| ct_ReadinessProbe := Some (BuildHTTPProbe
           {| pcf_Path := "/api/platform/profile"; pcf_Port := StudioPort;
              pcf_InitialDelaySeconds := 10; pcf_PeriodSeconds := 5;
              pcf_TimeoutSeconds := 10 |}) |>
      <| ct_Resources := ss_Resources spec |> in
  new_deployment p (StudioDeploymentName p) StudioComponentName
    (NormalizeReplicas (ss_Replicas spec)) (new_podspec [] [container] []).

(** ** postgres-meta (meta.go) *)

Definition MetaComponentName : string := "meta".
Definition MetaPort : Z := 8080.
Definition MetaDeploymentName (p : SupabaseProject) : string := prj_Name p +:+ "-meta".

Definition BuildMetaDeployment (p : SupabaseProject) (sn : SecretNamesStatus) : Deployment :=
  let spec := sps_Meta (prj_Spec p) in
  let dbHost := ClusterRWServiceName p in
  let imageTag := or_default (ms_ImageTag spec) MetaTag in
  let env :=
    [env_value "PG_META_DB_HOST" dbHost; env_value "PG_META_DB_PORT" "5432";
     env_value "PG_META_DB_NAME" DatabaseName; env_value "PG_META_DB_SSL_MODE" "disable";
     env_value "PG_META_PORT" (pretty MetaPort);
     env_secret "PG_META_DB_USER" (sn_SupabaseAdmin sn) "username";
     env_secret "PG_META_DB_PASSWORD" (sn_SupabaseAdmin sn) "password"] in
  let container :=
    (new_container MetaComponentName (MetaImage +:+ ":" +:+ imageTag))
      <| ct_ImagePullPolicy := PullIfNotPresent |> <| ct_Env := env |>
      <| ct_Ports := [tcp_port "http" MetaPort] |>
      <| ct_LivenessProbe := Some (BuildLivenessProbe "/health" MetaPort) |>
      <| ct_ReadinessProbe := Some (BuildReadinessProbe "/health" MetaPort) |>
      <| ct_Resources := ms_Resources spec |> in
  new_deployment p (MetaDeploymentName p) MetaComponentName (NormalizeReplicas (ms_Replicas spec))
    (new_podspec [] [container] []).

(** ** Envoy gateway (gateway.go) *)

Definition GatewayComponentName : string := "gateway".
Definition GatewayPort : Z := 8000.
Definition GatewayAdminPort : Z := 9901.
Definition GatewayHealthPath : string := "/_internal/health".

(** [corev1.ResourceRequirements] with memory and CPU, requests and limits. *)
Definition resources (reqMemory reqCPU limMemory limCPU : string) : ResourceRequirements :=
  {| rr_Requests := Some {[ "memory" := reqMemory; "cpu" := reqCPU ]};
     rr_Limits := Some {[ "memory" := limMemory; "cpu" := limCPU ]} |}.

(** [len(resources.Requests) == 0 && len(resources.Limits) == 0]. *)
Definition resources_empty (r : ResourceRequirements) : bool :=
  bool_decide (default ∅ (rr_Requests r) = ∅) && bool_decide (default ∅ (rr_Limits r) = ∅).

Definition DefaultGatewayResources : ResourceRequirements := resources "128Mi" "100m" "256Mi" "500m".
Definition NormalizeGatewayResources (r : ResourceRequirements) : ResourceRequirements :=
  if resources_empty r then DefaultGatewayResources else r.

Definition secretEnv (name secretName key : string) : EnvVar := env_secret name secretName key.

Definition BuildGatewayDeployment (p : SupabaseProject) : Deployment :=
  let spec := sps_Gateway (prj_Spec p) in
  let imageTag := or_default (gs_ImageTag spec) EnvoyTag in
  let credentials := sps_ProjectCredentialsSecret (prj_Spec p) in
  let container :=
    (new_container GatewayComponentName (EnvoyImage +:+ ":" +:+ imageTag))
      <| ct_ImagePullPolicy := PullIfNotPresent |> <| ct_Command := ["/bin/sh"; "-ec"] |>
      <| ct_Args := ["cp /config/envoy.yaml /config/cds.yaml /config/lds.template.yaml /config/docker-entrypoint.sh /etc/envoy/ && exec /bin/sh /config/docker-entrypoint.sh"] |>
      <| ct_Env :=
         [secretEnv "SUPABASE_PUBLISHABLE_KEY" credentials ProjectCredentialsPublishableKey;
          secretEnv "SUPABASE_SECRET_KEY" credentials ProjectCredentialsSecretKey;
          secretEnv "SUPABASE_ANON_ROLE_JWT" credentials ProjectCredentialsAnonRoleJWTKey;
          secretEnv "SUPABASE_SERVICE_ROLE_JWT" credentials
            ProjectCredentialsServiceRoleJWTKey] |>
      <| ct_Ports := [tcp_port "http" GatewayPort] |>
      <| ct_LivenessProbe := Some (BuildHTTPProbe
           {| pcf_Path := GatewayHealthPath; pcf_Port := GatewayPort;
              pcf_InitialDelaySeconds := 10; pcf_PeriodSeconds := 10;
              pcf_TimeoutSeconds := 3 |}) |>
      <| ct_ReadinessProbe := Some (BuildHTTPProbe
           {| pcf_Path := GatewayHealthPath; pcf_Port := GatewayPort;
              pcf_InitialDelaySeconds := 5; pcf_PeriodSeconds := 5;
              pcf_TimeoutSeconds := 3 |}) |>
      <| ct_Resources := NormalizeGatewayResources (gs_Resources spec) |>
      <| ct_VolumeMounts :=
         [{| vm_Name := "envoy-assets"; vm_MountPath := "/config"; vm_ReadOnly := true |};
          {| vm_Name := "envoy-runtime"; vm_MountPath := "/etc/envoy"; vm_ReadOnly := false |}] |> in
  new_deployment p (GatewayName p) GatewayComponentName (NormalizeReplicas (gs_Replicas spec))
    (new_podspec [] [container]
       [configmap_volume "envoy-assets" (EnvoyConfigMapName p) None;
        emptydir_volume "envoy-runtime"]).

(** ** PowerSync (powersync.go) *)

Definition PowersyncAPIComponentName : string := "powersync-api".
Definition PowersyncReplicationComponentName : string := "powersync-replication".
Definition PowersyncCompactComponentName : string := "powersync-compact".
Definition PowersyncHTTPPort : Z := 8080.
Definition PowersyncMetricsPort : Z := 9464.

Definition PowersyncAPIDeploymentName (p : SupabaseProject) : string :=
  prj_Name p +:+ "-powersync-api".
Definition PowersyncReplicationDeploymentName (p : SupabaseProject) : string :=
  prj_Name p +:+ "-powersync-replication".
Definition PowersyncCompactCronJobName (p : SupabaseProject) : string :=
  prj_Name p +:+ "-powersync-compact".

Definition DefaultPowersyncAPIResources : ResourceRequirements :=
  resources "180Mi" "100m" "360Mi" "1".
Definition DefaultPowersyncReplicationResources : ResourceRequirements :=
  resources "256Mi" "100m" "512Mi" "1".
Definition DefaultPowersyncCompactResources : ResourceRequirements :=
  resources "256Mi" "100m" "1Gi" "1".

Definition normalizePowersyncResources (r fallback : ResourceRequirements)
    : ResourceRequirements :=
  if resources_empty r then fallback else r.

Definition powersyncFileProbe (path : string) (failureThreshold periodSeconds timeoutSeconds : Z)
    : Probe :=
  {| pr_HTTPGet := None; pr_Exec := Some ["cat"; path]; pr_InitialDelaySeconds := 5;
     pr_TimeoutSeconds := timeoutSeconds; pr_PeriodSeconds := periodSeconds;
     pr_SuccessThreshold := 0; pr_FailureThreshold := failureThreshold |}.

Definition powersyncLivenessProbe : Probe :=
  {| pr_HTTPGet := None;
     pr_Exec := Some ["sh"; "-ec";
       quoted "age=$(( $(date +%s) - $(stat -c %Y /app/.probes/poll) )); [ `$age` -lt 10 ]"];
     pr_InitialDelaySeconds := 5; pr_TimeoutSeconds := 30; pr_PeriodSeconds := 10;
     pr_SuccessThreshold := 0; pr_FailureThreshold := 5 |}.

Definition powersyncLifecycle : option (list string) := Some ["sh"; "-c"; "sleep 5"].

Definition buildPowersyncEnv (p : SupabaseProject) (sn : SecretNamesStatus)
    (nodeOptions : string) : list EnvVar :=
  let dbHost := ClusterRWServiceName p in
  [env_value "POWERSYNC_CONFIG_PATH" "/powersync/config/config.yaml";
   env_value "NODE_OPTIONS" nodeOptions;
   env_value "LOG_FORMAT" "json";
   env_value "MICRO_ENVIRONMENT_NAME" "production";
   env_value "MICRO_PROBE_TYPE" "fs";
   env_value "MICRO_SERVICE_NAME" "powersync";
   env_secret "PS_POWERSYNC_API_TOKEN" (PowersyncAPITokenSecretName p) PowersyncAPITokenSecretKey;
   env_secret "PS_STORAGE_PASSWORD" (sn_PowersyncStoragePassword sn) "password";
   env_secret "PS_REPLICATION_PASSWORD" (sn_PowersyncReplicationPassword sn) "password";
   env_value "PS_POWERSYNC_STORAGE_URI"
     ("postgresql://powersync_storage:$(PS_STORAGE_PASSWORD)@" +:+ dbHost +:+ ":5432/supabase");
   env_value "PS_POWERSYNC_REPLICATION_URI"
     ("postgresql://powersync_replication:$(PS_REPLICATION_PASSWORD)@" +:+ dbHost +:+
      ":5432/supabase")].

Definition powersyncVolumeMounts : list VolumeMount :=
  [{| vm_Name := "config"; vm_MountPath := "/powersync/config"; vm_ReadOnly := true |};
   {| vm_Name := "sync-rules"; vm_MountPath := "/powersync/sync_rules"; vm_ReadOnly := true |}].

Definition powersyncVolumes (p : SupabaseProject) (ps : PowersyncSpec) : list Volume :=
  [configmap_volume "config" (PowersyncConfigMapName p) None;
   configmap_volume "sync-rules" (SyncRulesConfigMapName p ps) None].

Definition BuildPowersyncAPIDeployment (p : SupabaseProject) (ps : PowersyncSpec)
    (sn : SecretNamesStatus) : Deployment :=
  let image := ResolveImage (pss_Image ps) PowersyncImage PowersyncTag in
  let nodeOptions :=
    if bool_decide (pa_NodeOptions (pss_API ps) = "") then "--max-old-space-size=150"
    else pa_NodeOptions (pss_API ps) in
  let container :=
    (new_container "powersync-api" image)
      <| ct_ImagePullPolicy := ResolvePullPolicy (pss_Image ps) |>
      <| ct_Args := ["start"; "-r"; "api"] |>
      <| ct_Env := buildPowersyncEnv p sn nodeOptions |>
      <| ct_Ports := [tcp_port "http" PowersyncHTTPPort; tcp_port "metrics" PowersyncMetricsPort] |>
      <| ct_LivenessProbe := Some powersyncLivenessProbe |>
      <| ct_ReadinessProbe := Some (powersyncFileProbe "/app/.probes/ready" 5 10 30) |>
      <| ct_StartupProbe := Some (powersyncFileProbe "/app/.probes/startup" 200 1 1) |>
      <| ct_PreStop := powersyncLifecycle |>
      <| ct_Resources := normalizePowersyncResources (pa_Resources (pss_API ps))
                           DefaultPowersyncAPIResources |>
      <| ct_VolumeMounts := powersyncVolumeMounts |> in
  new_deployment p (PowersyncAPIDeploymentName p) PowersyncAPIComponentName
    (NormalizeReplicas (pa_Replicas (pss_API ps)))
    (new_podspec [] [container] (powersyncVolumes p ps)).

(** Replication is always a single instance, replaced by recreation. *)
Definition BuildPowersyncReplicationDeployment (p : SupabaseProject) (ps : PowersyncSpec)
    (sn : SecretNamesStatus) : Deployment :=
  let image := ResolveImage (pss_Image ps) PowersyncImage PowersyncTag in
  let nodeOptions :=
    if bool_decide (pr_NodeOptions (pss_Replication ps) = "") then "--max-old-space-size=230"
    else pr_NodeOptions (pss_Replication ps) in
  let container :=
    (new_container "powersync-replication" image)
      <| ct_ImagePullPolicy := ResolvePullPolicy (pss_Image ps) |>
      <| ct_Args := ["start"; "-r"; "sync"] |>
      <| ct_Env := buildPowersyncEnv p sn nodeOptions |>
      <| ct_Ports := [tcp_port "metrics" PowersyncMetricsPort] |>
      <| ct_LivenessProbe := Some powersyncLivenessProbe |>
      <| ct_ReadinessProbe := Some (powersyncFileProbe "/app/.probes/ready" 5 10 30) |>
      <| ct_StartupProbe := Some (powersyncFileProbe "/app/.probes/startup" 200 1 1) |>
      <| ct_PreStop := powersyncLifecycle |>
      <| ct_Resources := normalizePowersyncResources (pr_Resources (pss_Replication ps))
                           DefaultPowersyncReplicationResources |>
      <| ct_VolumeMounts := powersyncVolumeMounts |> in
  (new_deployment p (PowersyncReplicationDeploymentName p) PowersyncReplicationComponentName 1
    (new_podspec [] [container] (powersyncVolumes p ps)))
    <| dp_Strategy := {| dst_Type := "Recreate"; dst_RollingUpdate := None |} |>.

Definition BuildPowersyncCompactCronJob (p : SupabaseProject) (ps : PowersyncSpec)
    (sn : SecretNamesStatus) : option CronJob :=
  if negb (pcs_Enabled (pss_Compact ps)) then None
  else
    let image := ResolveImage (pss_Image ps) PowersyncImage PowersyncTag in
    let schedule :=
      if bool_decide (pcs_Schedule (pss_Compact ps) = "") then "0 3 * * *"
      else pcs_Schedule (pss_Compact ps) in
    let container :=
      (new_container "powersync-compact" image)
        <| ct_ImagePullPolicy := ResolvePullPolicy (pss_Image ps) |>
        <| ct_Args := ["compact"] |>
        <| ct_Env := buildPowersyncEnv p sn "--max-old-space-size=512" |>
        <| ct_Resources := normalizePowersyncResources (pcs_Resources (pss_Compact ps))
                             DefaultPowersyncCompactResources |>
        <| ct_VolumeMounts := powersyncVolumeMounts |> in
    let podSpec :=
      (new_podspec [] [container] (powersyncVolumes p ps)) <| ps_RestartPolicy := "Never" |> in
    Some {|
      cj_meta := new_meta (PowersyncCompactCronJobName p) (prj_Namespace p)
                   (ComponentLabels p PowersyncCompactComponentName) ∅;
      cj_Spec := {|
        cjs_Schedule := schedule; cjs_ConcurrencyPolicy := "Forbid";
        cjs_SuccessfulJobsHistoryLimit := Some 3; cjs_FailedJobsHistoryLimit := Some 1;
        cjs_StartingDeadlineSeconds := Some 300; cjs_Suspend := None;
        cjs_JobTemplate := {|
          js_BackoffLimit := Some 2; js_TTLSecondsAfterFinished := Some 3600;
          js_Template := {|
            pt_Labels := ComponentLabels p PowersyncCompactComponentName;
            pt_Annotations := ∅; pt_Spec := AddImagePullSecrets podSpec p |};
          js_other := ∅ |} |} |}.
