(* ===== verification/Services.v ===== *)
(** * Services and the CDC permission job
    (src/internal/resources/services, src/internal/resources/jobs)

    The ClusterIP services in front of the deployments, and the job that
    grants the PowerSync roles access to the published schemas. *)

From S2P Require Import Prelude KubeTypes Types Platform Effects Common EnvoyAssets ConfigMaps Cnpg Secrets Deployments.
From Stdlib Require Import Ascii.

(** ** Services (services.go) *)

Definition tcp_service_port (name : string) (port : Z) : ServicePort :=
  {| sp_Name := name; sp_Port := port; sp_TargetPort := port; sp_Protocol := ProtocolTCP |}.

Definition cluster_ip_service (p : SupabaseProject) (name component : string)
    (ports : list ServicePort) : Service :=
  {| svc_meta := new_meta name (prj_Namespace p) (ComponentLabels p component) ∅;
     svc_Type := "ClusterIP"; svc_Selector := SelectorLabels p component;
     svc_Ports := ports; svc_ClusterIP := ""; svc_other := ∅ |}.

Definition BuildService (p : SupabaseProject) (name component : string) (port : Z) : Service :=
  cluster_ip_service p name component [tcp_service_port "http" port].

Definition BuildAuthService (p : SupabaseProject) : Service :=
  BuildService p (prj_Name p +:+ "-auth") "auth" 9999.
Definition BuildRestService (p : SupabaseProject) : Service :=
  BuildService p (prj_Name p +:+ "-rest") "rest" 3000.
Definition BuildStudioService (p : SupabaseProject) : Service :=
  BuildService p (prj_Name p +:+ "-studio") "studio" 3000.
Definition BuildMetaService (p : SupabaseProject) : Service :=
  BuildService p (prj_Name p +:+ "-meta") "meta" 8080.
Definition BuildPowersyncAPIService (p : SupabaseProject) : Service :=
  cluster_ip_service p (prj_Name p +:+ "-powersync-api") "powersync-api"
    [tcp_service_port "http" 8080; tcp_service_port "metrics" 9464].
Definition BuildGatewayService (p : SupabaseProject) : Service :=
  cluster_ip_service p (GatewayName p) "gateway" [tcp_service_port "http" 8000].

(** ** CDC permissions (cdc_permissions.go) *)

Definition CDCComponentName : string := "cdc-permissions".
Definition CDCConfigMapName (p : SupabaseProject) : string := prj_Name p +:+ "-cdc-migrations".
Definition CDCJobName (p : SupabaseProject) : string := prj_Name p +:+ "-cdc-permissions".

(** The statements granted per published schema. *)
Definition schema_grants (schema : string) : string :=
  "GRANT USAGE ON SCHEMA " +:+ dq +:+ schema +:+ dq +:+ " TO powersync_replication;
GRANT SELECT ON ALL TABLES IN SCHEMA " +:+ dq +:+ schema +:+ dq +:+ " TO powersync_replication;
ALTER DEFAULT PRIVILEGES FOR ROLE supabase_admin IN SCHEMA " +:+ dq +:+ schema +:+ dq +:+
" GRANT SELECT ON TABLES TO powersync_replication;
".

Definition buildCDCSetupScript (p : SupabaseProject) : result string :=
  schemas ← EffectivePublicationSchemas p;
  let script := quoted "#!/bin/sh
set -e

echo `=== CDC Permissions Setup ===`
" in
  let script :=
    match sps_Powersync (prj_Spec p) with
    | Some _ =>
        let script := script +:+ quoted "
# Apply Powersync grants
echo `Applying Powersync grants...`
psql -v ON_ERROR_STOP=1 --single-transaction `$PGCONNSTR` <<'EOSQL'
-- Grant powersync_storage role access to create its schema (internal sync state)
GRANT CREATE ON DATABASE supabase TO powersync_storage;

" in
        foldl (λ script schema, script +:+ schema_grants schema) script schemas +:+ "EOSQL
"
    | None => script
    end in
  mret (script +:+ quoted "
echo `=== CDC Permissions Setup Complete ===`
").

Definition BuildCDCMigrationsConfigMap (p : SupabaseProject) : result ConfigMap :=
  setupScript ← buildCDCSetupScript p;
  mret (new_configmap p (CDCConfigMapName p) CDCComponentName {[ "setup.sh" := setupScript ]}).

Definition buildCDCEnv (dbHost : string) (sn : SecretNamesStatus) : list EnvVar :=
  [env_secret "PGUSER" (sn_SupabaseAdmin sn) "username";
   env_secret "PGPASSWORD" (sn_SupabaseAdmin sn) "password";
   env_value "PGCONNSTR"
     ("postgres://$(PGUSER):$(PGPASSWORD)@" +:+ dbHost +:+ ":5432/supabase?sslmode=disable")].

Definition BuildCDCPermissionsJob (p : SupabaseProject) (sn : SecretNamesStatus) : Job :=
  let dbHost := ClusterRWServiceName p in
  let pgImage := PostgresImage +:+ ":" +:+ PostgresTag in
  let wait :=
    (new_container "wait-for-db" pgImage)
      <| ct_Command := ["sh"; "-c"] |>
      <| ct_Args := [quoted "echo `Waiting for database to be ready...`
until pg_isready -h " +:+ dbHost +:+ quoted " -p 5432 -U `$PGUSER`; do
  echo `Database not ready yet, retrying in 5s...`
  sleep 5
done
echo `Database is ready`"] |>
      <| ct_Env := buildCDCEnv dbHost sn |> in
  let setup :=
    (new_container "cdc-setup" pgImage)
      <| ct_Command := ["sh"; "/scripts/setup.sh"] |>
      <| ct_Env := buildCDCEnv dbHost sn |>
      <| ct_VolumeMounts :=
         [{| vm_Name := "scripts"; vm_MountPath := "/scripts"; vm_ReadOnly := true |}] |> in
  {| job_meta := new_meta (CDCJobName p) (prj_Namespace p) (ComponentLabels p CDCComponentName) ∅;
     job_Spec := {|
       js_BackoffLimit := Some 3; js_TTLSecondsAfterFinished := None;
       js_Template := {|
         pt_Labels := ComponentLabels p CDCComponentName; pt_Annotations := ∅;
         pt_Spec :=
           (new_podspec [wait] [setup]
              [configmap_volume "scripts" (CDCConfigMapName p) (Some 493)])
             <| ps_RestartPolicy := "OnFailure" |> |};
       js_other := ∅ |};
     job_Conditions := []; job_Active := 0 |}.
