(* ===== verification/Workloads.v ===== *)
(** * The workloads, as pods and traffic see them

    Three properties of the objects the builders of [Deployments] and
    [Services] describe: the environment GoTrue gets is the operator's
    settings overlaid with the configured variables, with no name twice
    ([applyGoTrueEnv_overlay], [buildAuthEnv_settings]); every Service of a
    project reaches the pods of its own Deployment and no others
    ([services_route]); and only GoTrue is given the project's signing keys
    ([credentials_confined]). *)

From S2P Require Import Prelude KubeTypes Types Platform Effects Common ConfigMaps Cnpg Secrets Deployments Services.

(** ** Environments *)

(** The variable of this name. *)
Definition env_get (env : list EnvVar) (name : string) : option EnvVar :=
  List.find (λ v, bool_decide (ev_Name v = name)) env.
(** The last configured variable of this name. *)
Definition last_configured (configured : list GoTrueEnvVar) (name : string) : option GoTrueEnvVar :=
  List.find (λ c, bool_decide (ge_Name c = name)) (rev configured).

(** [indexes] maps each name of [env] to its position. *)
Definition indexed (env : list EnvVar) (indexes : gmap string nat) : Prop :=
  ∀ name i, indexes !! name = Some i ↔ ev_Name <$> env !! i = Some name.

Lemma indexed_NoDup env indexes : indexed env indexes → NoDup (ev_Name <$> env).
Proof.
  intros Hi. apply NoDup_alt. intros i j name H1 H2.
  rewrite list_lookup_fmap in H1, H2. apply Hi in H1, H2. congruence.
Qed.
Lemma indexed_get env indexes name :
  indexed env indexes → env_get env name = indexes !! name ≫= λ i, env !! i.
Proof.
  intros Hi. unfold env_get.
  destruct (List.find _ env) as [v|] eqn:Hf.
  - apply List.find_some in Hf as [Hv Hn]. apply bool_decide_eq_true in Hn.
    apply list_elem_of_In, list_elem_of_lookup in Hv as [i Hv].
    assert (indexes !! name = Some i) as -> by (apply Hi; by rewrite Hv; cbn; rewrite Hn).
    by cbn.
  - destruct (indexes !! name) as [i|] eqn:Hn; [|done]. apply Hi in Hn.
    destruct (env !! i) as [v|] eqn:Hv; [|done]. cbn in *. injection Hn as <-.
    apply list_elem_of_lookup_2, list_elem_of_In, (List.find_none _ _ Hf) in Hv.
    by apply bool_decide_eq_false in Hv.
Qed.

(** A new name at the end. *)
Lemma indexed_snoc env indexes v :
  indexed env indexes → indexes !! ev_Name v = None →
  indexed (env ++ [v]) (<[ev_Name v := length env]> indexes).
Proof.
  intros Hi Hn name i. rewrite lookup_insert_Some.
  destruct (decide (i = length env)) as [->|Hne].
  - rewrite list_lookup_middle by done. cbn. split.
    + intros [[-> _]|[? Hl]]; [done|]. apply Hi in Hl. by rewrite lookup_ge_None_2 in Hl.
    + intros [= <-]. by left.
  - assert ((env ++ [v]) !! i = env !! i) as ->.
    { destruct (decide (i < length env)%nat); [by apply lookup_app_l|].
      rewrite !lookup_ge_None_2; [done| |rewrite length_app; cbn]; lia. }
    rewrite <- (Hi name i). split; [intros [[_ ?]|[_ ?]]; [lia|done]|].
    intros Hl. right. split; [|done]. intros <-. congruence.
Qed.
(** Another variable of the same name, in place. *)
Lemma indexed_insert env indexes v i :
  indexed env indexes → indexes !! ev_Name v = Some i → indexed (<[i := v]> env) indexes.
Proof.
  intros Hi Hn name j. rewrite (Hi name j). destruct (decide (i = j)) as [->|Hne].
  - apply Hi in Hn. assert (j < length env)%nat.
    { apply lookup_lt_is_Some. by destruct (env !! j). }
    by rewrite list_lookup_insert_eq, Hn.
  - by rewrite list_lookup_insert_ne.
Qed.

Lemma env_indexes_indexed env : NoDup (ev_Name <$> env) → indexed env (env_indexes env).
Proof.
  unfold env_indexes. set (step := λ (acc : gmap string nat * nat) (v : EnvVar), _).
  assert (Hl : ∀ l acc, (foldl step acc l).2 = (acc.2 + length l)%nat).
  { induction l as [|v l IH]; intros acc; cbn; [lia|]. rewrite IH. cbn. lia. }
  induction env as [|v env IH] using rev_ind; intros Hd.
  { intros name i. cbn. by rewrite lookup_empty. }
  rewrite fmap_app, NoDup_app in Hd. destruct Hd as (Hd & Hn & _). specialize (IH Hd).
  rewrite foldl_app. cbn. rewrite (Hl env (∅, 0%nat)). cbn.
  apply indexed_snoc; [done|].
  destruct ((foldl step (∅, 0%nat) env).1 !! ev_Name v) as [i|] eqn:Hi; [|done].
  apply IH in Hi. exfalso. apply (Hn (ev_Name v)); [|by left].
  apply list_elem_of_lookup. exists i. by rewrite list_lookup_fmap.
Qed.

Lemma gotrue_variable_name c : ev_Name (gotrue_variable c) = ge_Name c.
Proof. unfold gotrue_variable. by destruct (ge_Value c), (ge_ValueFrom c). Qed.

(** One configured variable. *)
Lemma gotrue_step_get env indexes c :
  indexed env indexes →
  let st := gotrue_step (env, indexes) c in
  indexed st.1 st.2 ∧ ev_Name <$> env `prefix_of` ev_Name <$> st.1 ∧
  ∀ name, env_get st.1 name =
    if IsOperatorOwnedGoTrueEnv (ge_Name c) then env_get env name
    else if bool_decide (ge_Name c = name) then Some (gotrue_variable c) else env_get env name.
Proof.
  intros Hi. unfold gotrue_step. destruct (IsOperatorOwnedGoTrueEnv (ge_Name c)); [done|].
  cbv zeta. destruct (indexes !! ev_Name (gotrue_variable c)) as [i|] eqn:Hn; cbn [fst snd].
  - assert (Hi' := indexed_insert _ _ _ _ Hi Hn).
    assert (Hlt : (i < length env)%nat).
    { apply lookup_lt_is_Some. apply Hi in Hn. by destruct (env !! i). }
    split; [done|]. split.
    { exists []. rewrite app_nil_r. apply list_eq. intros j. rewrite !list_lookup_fmap.
      destruct (decide (i = j)) as [->|]; [|by rewrite list_lookup_insert_ne].
      rewrite list_lookup_insert_eq by done. apply Hi in Hn. by rewrite Hn. }
    intros name. rewrite (indexed_get _ _ _ Hi'), (indexed_get _ _ _ Hi).
    rewrite gotrue_variable_name in Hn. case_bool_decide as Hne.
    + subst name. rewrite Hn. cbn. by apply list_lookup_insert_eq.
    + destruct (indexes !! name) as [j|] eqn:Hj; [|done]. cbn.
      apply list_lookup_insert_ne. intros ->. apply Hi in Hj, Hn. congruence.
  - assert (Hi' := indexed_snoc _ _ _ Hi Hn). split; [done|].
    split; [rewrite fmap_app; by eexists|].
    intros name. rewrite (indexed_get _ _ _ Hi'), (indexed_get _ _ _ Hi).
    rewrite gotrue_variable_name in *. case_bool_decide as Hne.
    + subst name. rewrite lookup_insert_eq. cbn. by apply list_lookup_middle.
    + rewrite lookup_insert_ne by done. destruct (indexes !! name) as [j|] eqn:Hj; [|done]. cbn.
      apply lookup_app_l. apply lookup_lt_is_Some. apply Hi in Hj. by destruct (env !! j).
Qed.

(** All of them, in order. *)
Lemma gotrue_steps env indexes configured :
  indexed env indexes →
  let st := foldl gotrue_step (env, indexes) configured in
  indexed st.1 st.2 ∧ ev_Name <$> env `prefix_of` ev_Name <$> st.1 ∧
  ∀ name, env_get st.1 name =
    if IsOperatorOwnedGoTrueEnv name then env_get env name
    else match last_configured configured name with
         | Some c => Some (gotrue_variable c)
         | None => env_get env name
         end.
Proof.
  intros Hi. induction configured as [|c configured IH] using rev_ind.
  { split; [done|]. split; [done|]. intros name. by destruct (IsOperatorOwnedGoTrueEnv name). }
  rewrite foldl_app. cbn [foldl]. destruct IH as (Hix & Hp & Hget).
  destruct (foldl gotrue_step (env, indexes) configured) as [env1 ix1]. cbn [fst snd] in *.
  destruct (gotrue_step_get env1 ix1 c Hix) as (Hix' & Hp' & Hget').
  split; [done|]. split; [by etrans|]. intros name. rewrite Hget', Hget.
  unfold last_configured. rewrite rev_app_distr. cbn.
  case_bool_decide as Hn; [subst name|by destruct (IsOperatorOwnedGoTrueEnv (ge_Name c))].
  by destruct (IsOperatorOwnedGoTrueEnv (ge_Name c)).
Qed.

(** C32: the merge of configured GoTrue variables.  Over an environment without
    repeated names, [applyGoTrueEnv] is a map overlay: every name reads as the
    last configured variable of that name, except operator-owned names and
    names not configured, which keep the environment's value; the entries of
    the environment keep their positions and no name occurs twice. *)
Theorem applyGoTrueEnv_overlay env configured :
  NoDup (ev_Name <$> env) →
  let merged := applyGoTrueEnv env configured in
  NoDup (ev_Name <$> merged) ∧ ev_Name <$> env `prefix_of` ev_Name <$> merged ∧
  ∀ name, env_get merged name =
    if IsOperatorOwnedGoTrueEnv name then env_get env name
    else match last_configured configured name with
         | Some c => Some (gotrue_variable c)
         | None => env_get env name
         end.
Proof.
  intros Hd. destruct (gotrue_steps env (env_indexes env) configured
    (env_indexes_indexed env Hd)) as (Hi & Hp & Hget).
  split; [by eapply indexed_NoDup|]. by split.
Qed.

Section AuthEnv.
Context `{UrlLib}.

(** The operator's part: what GoTrue gets when nothing is configured. *)
Definition operator_env (p : SupabaseProject) (sn : SecretNamesStatus) (dbHost : string)
    : list EnvVar :=
  buildAuthEnv (p <| prj_Spec ::= (λ s, s <| sps_Auth ::= (λ a, a <| as_GoTrueEnv := [] |>) |>) |>)
    sn dbHost.
Lemma buildAuthEnv_unfold p sn dbHost :
  buildAuthEnv p sn dbHost =
  applyGoTrueEnv (operator_env p sn dbHost) (as_GoTrueEnv (sps_Auth (prj_Spec p))).
Proof. reflexivity. Qed.

(** The names it may set, in order. *)
Definition operator_names : list string :=
  ["DB_HOST"; "DB_PORT"; "DB_DRIVER"; "DB_SSL"; "DB_NAME"; "GOTRUE_API_HOST"; "GOTRUE_API_PORT";
   "API_EXTERNAL_URL"; "GOTRUE_SITE_URL"; "GOTRUE_URI_ALLOW_LIST"; "GOTRUE_JWT_DEFAULT_GROUP_NAME";
   "GOTRUE_JWT_ADMIN_ROLES"; "GOTRUE_JWT_AUD"; "GOTRUE_JWT_EXP"; "GOTRUE_JWT_ISSUER";
   "GOTRUE_JWT_VALID_METHODS"; "GOTRUE_JWT_KEYS"; "GOTRUE_DISABLE_SIGNUP";
   "GOTRUE_EXTERNAL_ANONYMOUS_USERS_ENABLED"; "GOTRUE_EXTERNAL_EMAIL_ENABLED";
   "GOTRUE_MAILER_AUTOCONFIRM"; "GOTRUE_MAILER_OTP_EXP"; "DB_USER"; "DB_PASSWORD";
   "DB_PASSWORD_ENC"; "GOTRUE_JWT_SECRET"; "GOTRUE_DB_DATABASE_URL"; "GOTRUE_DB_DRIVER"].
Definition optional_names : list string :=
  ["GOTRUE_EXTERNAL_GOOGLE_ENABLED"; "GOTRUE_EXTERNAL_GOOGLE_SKIP_NONCE_CHECK";
   "GOTRUE_EXTERNAL_APPLE_ENABLED"; "GOTRUE_HOOK_SEND_EMAIL_ENABLED"; "GOTRUE_HOOK_SEND_EMAIL_URI";
   "GOTRUE_HOOK_SEND_EMAIL_SECRETS"].

Lemma operator_env_names p sn dbHost :
  ev_Name <$> operator_env p sn dbHost `sublist_of` operator_names ++ optional_names.
Proof.
  unfold operator_env, buildAuthEnv, applyGoTrueEnv. cbv zeta.
  match goal with |- context [as_GoTrueEnv ?a] => change (as_GoTrueEnv a) with (@nil GoTrueEnvVar) end.
  cbn [foldl fst]. rewrite <- app_assoc, fmap_app. apply sublist_app; [reflexivity|].
  repeat case_match; cbn; repeat constructor.
Qed.
Lemma operator_env_NoDup p sn dbHost : NoDup (ev_Name <$> operator_env p sn dbHost).
Proof.
  assert (Hd : NoDup (operator_names ++ optional_names))
    by (apply (bool_decide_unpack _); vm_compute; exact I).
  by apply (sublist_NoDup _ _ Hd), operator_env_names.
Qed.

Lemma env_get_None env name : name ∉ ev_Name <$> env → env_get env name = None.
Proof.
  intros Hn. unfold env_get. destruct (List.find _ env) as [v|] eqn:Hf; [|done].
  apply List.find_some in Hf as [Hv <-%bool_decide_eq_true]. destruct Hn.
  by apply list_elem_of_fmap_2, list_elem_of_In.
Qed.

(** The names the operator owns without setting them. *)
Definition reserved_names : list string :=
  ["GOTRUE_JWT_ALG"; "GOTRUE_JWT_KEY_ID"; "GOTRUE_JWT_ALLOWED_ALGS"; "GOTRUE_JWT_ADMIN_GROUP_NAME";
   "GOTRUE_JWT_ROLE_CLAIM"].
(** The token settings of the operator. *)
Definition token_settings (p : SupabaseProject) (sn : SecretNamesStatus) : list EnvVar :=
  [env_value "GOTRUE_JWT_DEFAULT_GROUP_NAME" "authenticated";
   env_value "GOTRUE_JWT_ADMIN_ROLES" "service_role";
   env_value "GOTRUE_JWT_AUD" "authenticated";
   env_value "GOTRUE_JWT_EXP" (pretty (GetAccessTokenExpiration p));
   env_value "GOTRUE_JWT_ISSUER" (AuthIssuerURL (as_ExternalURL (sps_Auth (prj_Spec p))));
   env_value "GOTRUE_JWT_VALID_METHODS" "ES256";
   env_secret "GOTRUE_JWT_KEYS" (sps_ProjectCredentialsSecret (prj_Spec p))
     ProjectCredentialsSigningKeysKey;
   env_secret "GOTRUE_JWT_SECRET"
     (if bool_decide (sn_GoTrueFallback sn = "") then GoTrueFallbackSecretName p
      else sn_GoTrueFallback sn) GoTrueFallbackSecretKey].

Lemma operator_env_settings p sn dbHost :
  Forall (λ v, env_get (operator_env p sn dbHost) (ev_Name v) = Some v) (token_settings p sn).
Proof. repeat constructor. Qed.
Lemma operator_env_reserved p sn dbHost :
  Forall (λ name, env_get (operator_env p sn dbHost) name = None) reserved_names.
Proof.
  assert (Hr : Forall (λ name, name ∉ operator_names ++ optional_names) reserved_names)
    by (apply (bool_decide_unpack _); vm_compute; exact I).
  eapply Forall_impl; [exact Hr|]. intros name Hn. apply env_get_None. intros Hin. apply Hn.
  eapply elem_of_sublist; [exact Hin|apply operator_env_names].
Qed.
Lemma token_settings_owned p sn :
  Forall (λ v, IsOperatorOwnedGoTrueEnv (ev_Name v) = true) (token_settings p sn).
Proof. repeat (apply Forall_cons; split; [by vm_compute|]). constructor. Qed.
Lemma reserved_names_owned : Forall (λ name, IsOperatorOwnedGoTrueEnv name = true) reserved_names.
Proof. repeat (apply Forall_cons; split; [by vm_compute|]). constructor. Qed.
End AuthEnv.

(** C33: what the Auth container is told about tokens.  Whatever variables are
    configured, the environment [buildAuthEnv] gives to GoTrue names no
    variable twice; the token settings (issuer, audience, lifetime, ES256 only,
    signing keys from the credential Secret, fallback secret) are the
    operator's, and the operator-owned names it does not set stay unset; every
    other configured variable has the value it was last given. *)
Theorem buildAuthEnv_settings `{UrlLib} p sn dbHost :
  let env := buildAuthEnv p sn dbHost in
  NoDup (ev_Name <$> env) ∧
  Forall (λ v, env_get env (ev_Name v) = Some v) (token_settings p sn) ∧
  Forall (λ name, env_get env name = None) reserved_names ∧
  ∀ name c, IsOperatorOwnedGoTrueEnv name = false →
    last_configured (as_GoTrueEnv (sps_Auth (prj_Spec p))) name = Some c →
    env_get env name = Some (gotrue_variable c).
Proof.
  intros env. subst env. rewrite buildAuthEnv_unfold. unfold applyGoTrueEnv.
  destruct (gotrue_steps _ _ (as_GoTrueEnv (sps_Auth (prj_Spec p)))
    (env_indexes_indexed _ (operator_env_NoDup p sn dbHost))) as (Hi & _ & Hget).
  split; [by eapply indexed_NoDup|]. split_and!.
  - apply Forall_forall. intros v Hv. rewrite Hget.
    rewrite (proj1 (Forall_forall _ _) (token_settings_owned p sn) v Hv).
    exact (proj1 (Forall_forall _ _) (operator_env_settings p sn dbHost) v Hv).
  - apply Forall_forall. intros name Hn. rewrite Hget.
    rewrite (proj1 (Forall_forall _ _) reserved_names_owned name Hn).
    exact (proj1 (Forall_forall _ _) (operator_env_reserved p sn dbHost) name Hn).
  - intros name c Hown Hc. by rewrite Hget, Hown, Hc.
Qed.

(** ** Traffic *)

Section Objects.
Context `{UrlLib}.

(** Every Deployment of a project with PowerSync, by component. *)
Definition deployments (p : SupabaseProject) (ps : PowersyncSpec) (sn : SecretNamesStatus)
    : list (string * Deployment) :=
  [(AuthComponentName, BuildAuthDeployment p sn); (RestComponentName, BuildRestDeployment p sn);
   (StudioComponentName, BuildStudioDeployment p sn); (MetaComponentName, BuildMetaDeployment p sn);
   (GatewayComponentName, BuildGatewayDeployment p);
   (PowersyncAPIComponentName, BuildPowersyncAPIDeployment p ps sn);
   (PowersyncReplicationComponentName, BuildPowersyncReplicationDeployment p ps sn)].
Definition services (p : SupabaseProject) : list (string * Service) :=
  [(AuthComponentName, BuildAuthService p); (RestComponentName, BuildRestService p);
   (StudioComponentName, BuildStudioService p); (MetaComponentName, BuildMetaService p);
   (GatewayComponentName, BuildGatewayService p);
   (PowersyncAPIComponentName, BuildPowersyncAPIService p)].
(** Every pod template, those of the jobs included. *)
Definition pods (p : SupabaseProject) (ps : PowersyncSpec) (sn : SecretNamesStatus)
    : list (string * PodTemplateSpec) :=
  (prod_map id dp_Template <$> deployments p ps sn) ++
  match BuildPowersyncCompactCronJob p ps sn with
  | Some job => [(PowersyncCompactComponentName, js_Template (cjs_JobTemplate (cj_Spec job)))]
  | None => []
  end ++ [(CDCComponentName, js_Template (job_Spec (BuildCDCPermissionsJob p sn)))].

Lemma deployment_labels p ps sn c d :
  (c, d) ∈ deployments p ps sn →
  om_Namespace (dp_meta d) = prj_Namespace p ∧ dp_Selector d = SelectorLabels p c ∧
  pt_Labels (dp_Template d) = ComponentLabels p c.
Proof.
  unfold deployments. intros Hd.
  repeat (apply elem_of_cons in Hd as [[= -> ->]|Hd]; [by split_and!|]).
  by apply not_elem_of_nil in Hd.
Qed.
Lemma pod_labels p ps sn c t : (c, t) ∈ pods p ps sn → pt_Labels t = ComponentLabels p c.
Proof.
  unfold pods. rewrite !elem_of_app. intros [Ht|[Ht|Ht]].
  - apply list_elem_of_fmap in Ht as ([c' d] & [= -> ->] & Hd). by eapply deployment_labels.
  - unfold BuildPowersyncCompactCronJob in Ht. destruct (negb _); [by apply not_elem_of_nil in Ht|].
    apply list_elem_of_singleton in Ht. by injection Ht as -> ->.
  - apply list_elem_of_singleton in Ht. by injection Ht as -> ->.
Qed.
Lemma service_selector p c svc :
  (c, svc) ∈ services p →
  om_Namespace (svc_meta svc) = prj_Namespace p ∧ svc_Selector svc = SelectorLabels p c.
Proof.
  unfold services. intros Hs.
  repeat (apply elem_of_cons in Hs as [[= -> ->]|Hs]; [by split_and!|]).
  by apply not_elem_of_nil in Hs.
Qed.

(** A selector picks one component of one project. *)
Lemma selector_matches p c p' c' :
  SelectorLabels p c ⊆ ComponentLabels p' c' → prj_Name p = prj_Name p' ∧ c = c'.
Proof.
  intros Hs. split.
  - assert (Hi : SelectorLabels p c !! LabelInstance = Some (prj_Name p)) by by vm_compute.
    apply (lookup_weaken _ _ _ _ Hi) in Hs. rewrite ComponentLabels_instance in Hs. congruence.
  - assert (Hi : SelectorLabels p c !! LabelComponent = Some c) by by vm_compute.
    apply (lookup_weaken _ _ _ _ Hi) in Hs. rewrite ComponentLabels_component in Hs. congruence.
Qed.

(** A port of the service leads to a port some container declares. *)
Definition served_port (t : PodTemplateSpec) (port : ServicePort) : Prop :=
  Exists (λ ct, Exists (λ cp, cp_ContainerPort cp = sp_TargetPort port ∧
    cp_Protocol cp = sp_Protocol port) (ct_Ports ct)) (ps_Containers (pt_Spec t)).

Lemma AddImagePullSecrets_containers spec p :
  ps_Containers (AddImagePullSecrets spec p) = ps_Containers spec ∧
  ps_InitContainers (AddImagePullSecrets spec p) = ps_InitContainers spec ∧
  ps_Volumes (AddImagePullSecrets spec p) = ps_Volumes spec.
Proof. unfold AddImagePullSecrets. by destruct (bool_decide _). Qed.

Lemma services_served p ps sn :
  Forall (λ cs : string * Service, ∃ d, (cs.1, d) ∈ deployments p ps sn ∧
    Forall (served_port (dp_Template d)) (svc_Ports cs.2)) (services p).
Proof.
  assert (Hc : ∀ name component n spec port, Exists (λ ct, Exists (λ cp,
      cp_ContainerPort cp = sp_TargetPort port ∧ cp_Protocol cp = sp_Protocol port) (ct_Ports ct))
      (ps_Containers spec) → served_port (dp_Template (new_deployment p name component n spec)) port).
  { intros name component n spec port Hs. unfold served_port. cbn.
    by destruct (AddImagePullSecrets_containers spec p) as (-> & _). }
  unfold services, deployments. repeat (apply Forall_cons; split); try by apply Forall_nil.
  all: cbn [fst snd].
  all: eexists; split; [repeat first [left; reflexivity | right]|].
  all: repeat (apply Forall_cons; split); try by apply Forall_nil.
  all: apply Hc, Exists_cons_hd; first [apply Exists_cons_hd; by split
         | apply Exists_cons_tl, Exists_cons_hd; by split].
Qed.

(** ** Credentials *)

(** The Secret key a variable reads. *)
Definition secret_ref (v : EnvVar) : option KeySelector := ev_ValueFrom v ≫= evs_SecretKeyRef.
Definition pod_env (t : PodTemplateSpec) : list EnvVar :=
  (ps_InitContainers (pt_Spec t) ++ ps_Containers (pt_Spec t)) ≫= ct_Env.
(** The keys of the credential bundle a component is given. *)
Definition allowed_keys (component : string) : list string :=
  if bool_decide (component = AuthComponentName) then [ProjectCredentialsSigningKeysKey]
  else if bool_decide (component ∈ [StudioComponentName; GatewayComponentName])
  then [ProjectCredentialsPublishableKey; ProjectCredentialsSecretKey;
        ProjectCredentialsAnonRoleJWTKey; ProjectCredentialsServiceRoleJWTKey]
  else [].
(** A variable that reads a key named as in the bundle reads it from the bundle,
    and the component is given it. *)
Definition confined (p : SupabaseProject) (component : string) (v : EnvVar) : Prop :=
  ∀ ref, secret_ref v = Some ref → ks_Key ref ∈ RequiredProjectCredentialKeys →
    ks_Name ref = sps_ProjectCredentialsSecret (prj_Spec p) ∧ ks_Key ref ∈ allowed_keys component.

Lemma confined_value p c name value : confined p c (env_value name value).
Proof. by intros ref. Qed.
Lemma confined_configmap p c name cm key : confined p c (env_configmap name cm key).
Proof. by intros ref. Qed.
Lemma confined_other p c name secret key :
  bool_decide (key ∈ RequiredProjectCredentialKeys) = false → confined p c (env_secret name secret key).
Proof. intros Hk ref [= <-] Hin. by apply bool_decide_eq_false in Hk. Qed.
Lemma confined_bundle p c name key :
  bool_decide (key ∈ allowed_keys c) = true →
  confined p c (env_secret name (sps_ProjectCredentialsSecret (prj_Spec p)) key).
Proof. intros Hk ref [= <-] _. split; [done|]. by apply bool_decide_eq_true in Hk. Qed.

Ltac confine := repeat (apply Forall_cons; split; [first
  [ apply confined_value | apply confined_configmap | by apply confined_other
  | by apply confined_bundle ]|]); try apply Forall_nil; try done.

Lemma operator_env_confined p sn dbHost :
  Forall (confined p AuthComponentName) (operator_env p sn dbHost).
Proof.
  set (q := p <| prj_Spec ::= (λ s, s <| sps_Auth ::= (λ a, a <| as_GoTrueEnv := [] |>) |>) |>).
  change (confined p AuthComponentName) with (confined q AuthComponentName).
  unfold operator_env, buildAuthEnv, applyGoTrueEnv, BuildDatabaseEnv. fold q. cbv zeta.
  match goal with |- context [as_GoTrueEnv ?a] => change (as_GoTrueEnv a) with (@nil GoTrueEnvVar) end.
  cbn [foldl fst]. rewrite !Forall_app. split_and!; repeat case_match; confine.
Qed.

(** A variable of the merged environment is the operator's or a configured one. *)
Lemma buildAuthEnv_origin p sn dbHost v :
  v ∈ buildAuthEnv p sn dbHost →
  v ∈ operator_env p sn dbHost ∨
  ∃ c, c ∈ as_GoTrueEnv (sps_Auth (prj_Spec p)) ∧ v = gotrue_variable c.
Proof.
  rewrite buildAuthEnv_unfold. unfold applyGoTrueEnv.
  set (env := operator_env p sn dbHost). generalize (env_indexes env) as ix. generalize env. clear.
  induction (as_GoTrueEnv (sps_Auth (prj_Spec p))) as [|c cs IH]; intros env ix; [by left|].
  cbn [foldl]. intros Hv. destruct (gotrue_step (env, ix) c) as [env' ix'] eqn:Hst.
  destruct (IH env' ix' Hv) as [Hin|(c' & Hc' & ->)]; [|right; exists c'; split; [by right|done]].
  unfold gotrue_step in Hst. destruct (IsOperatorOwnedGoTrueEnv (ge_Name c)).
  { injection Hst as <- <-. by left. }
  destruct (ix !! _) as [i|]; injection Hst as <- <-.
  - apply list_elem_of_lookup in Hin as [j Hj].
    destruct (decide (i = j)) as [->|Hne].
    + apply list_lookup_insert_Some in Hj as [(_ & <- & _)|[? _]]; [|done].
      right. exists c. split; [by left|done].
    + rewrite list_lookup_insert_ne in Hj by done. left. by eapply list_elem_of_lookup_2.
  - apply elem_of_app in Hin as [Hin|Hin%list_elem_of_singleton]; [by left|]. subst v.
    right. exists c. split; [by left|done].
Qed.

(** Pull secrets do not change the environment. *)
Lemma pod_env_pulled t spec p :
  pt_Spec t = AddImagePullSecrets spec p →
  pod_env t = (ps_InitContainers spec ++ ps_Containers spec) ≫= ct_Env.
Proof.
  intros Ht. unfold pod_env. rewrite Ht.
  by destruct (AddImagePullSecrets_containers spec p) as (-> & -> & _).
Qed.

(** The Secret that the project names for the settings of GoTrue's providers. *)
Definition providers_secret (p : SupabaseProject) : option string :=
  match as_Providers (sps_Auth (prj_Spec p)) with
  | Some providers =>
      if bool_decide (aps_SecretRef providers ≠ "") then Some (aps_SecretRef providers) else None
  | None => None
  end.
(** No Secret is mounted as a volume; [envFrom] imports a whole Secret only into
    GoTrue, and only that of its providers. *)
Definition sealed (p : SupabaseProject) (component : string) (t : PodTemplateSpec) : Prop :=
  Forall (λ vol, vol_Secret vol = None ∧ vol_Projected vol = None) (ps_Volumes (pt_Spec t)) ∧
  Forall (λ ct, ∀ src, src ∈ ct_EnvFrom ct →
    component = AuthComponentName ∧ ∃ secret, providers_secret p = Some secret ∧
      src = {| efs_SecretRef := Some secret |})
    (ps_InitContainers (pt_Spec t) ++ ps_Containers (pt_Spec t)).
Lemma sealed_closed p c t :
  Forall (λ vol, vol_Secret vol = None ∧ vol_Projected vol = None) (ps_Volumes (pt_Spec t)) →
  Forall (λ ct, ct_EnvFrom ct = []) (ps_InitContainers (pt_Spec t) ++ ps_Containers (pt_Spec t)) →
  sealed p c t.
Proof.
  intros Hv Hc. split; [done|]. eapply Forall_impl; [exact Hc|].
  intros ct -> src Hsrc. by apply not_elem_of_nil in Hsrc.
Qed.
Lemma sealed_pulled q t c spec p :
  pt_Spec t = AddImagePullSecrets spec p →
  Forall (λ vol, vol_Secret vol = None ∧ vol_Projected vol = None) (ps_Volumes spec) →
  Forall (λ ct, ct_EnvFrom ct = []) (ps_InitContainers spec ++ ps_Containers spec) →
  sealed q c t.
Proof.
  intros Ht. destruct (AddImagePullSecrets_containers spec p) as (Hc & Hi & Hv).
  rewrite <- Hc, <- Hi, <- Hv, <- Ht. apply sealed_closed.
Qed.
Lemma auth_sealed p sn : sealed p AuthComponentName (dp_Template (BuildAuthDeployment p sn)).
Proof.
  unfold sealed. cbn [BuildAuthDeployment new_deployment dp_Template pt_Spec].
  match goal with |- context [AddImagePullSecrets ?spec ?p] =>
    destruct (AddImagePullSecrets_containers spec p) as (-> & -> & ->) end.
  split; [constructor|]. constructor; [|constructor]. intros src Hsrc. split; [done|].
  cbn in Hsrc. unfold providers_secret. destruct (as_Providers _) as [providers|];
    [|by apply not_elem_of_nil in Hsrc].
  case_bool_decide; [|by apply not_elem_of_nil in Hsrc].
  apply list_elem_of_singleton in Hsrc as ->. by eexists.
Qed.
Lemma pods_sealed p ps sn c t : (c, t) ∈ pods p ps sn → sealed p c t.
Proof.
  unfold pods, deployments. intros Ht. rewrite !elem_of_app in Ht. destruct Ht as [Ht|[Ht|Ht]].
  - cbn [fmap list_fmap prod_map fst snd id] in Ht.
    apply elem_of_cons in Ht as [[= -> ->]|Ht]; [apply auth_sealed|].
    repeat (apply elem_of_cons in Ht as [[= -> ->]|Ht];
      [eapply sealed_pulled; [reflexivity|by repeat constructor..]|]).
    by apply not_elem_of_nil in Ht.
  - unfold BuildPowersyncCompactCronJob in Ht. destruct (negb _); [by apply not_elem_of_nil in Ht|].
    apply list_elem_of_singleton in Ht. injection Ht as -> ->.
    eapply sealed_pulled; [reflexivity|by repeat constructor..].
  - apply list_elem_of_singleton in Ht. injection Ht as -> ->. apply sealed_closed; by repeat constructor.
Qed.

Lemma pods_auth p ps sn t :
  (AuthComponentName, t) ∈ pods p ps sn → t = dp_Template (BuildAuthDeployment p sn).
Proof.
  unfold pods, deployments, BuildPowersyncCompactCronJob. intros Ht. rewrite !elem_of_app in Ht.
  destruct Ht as [Ht|[Ht|Ht]].
  - cbn [fmap list_fmap prod_map fst snd id] in Ht.
    apply elem_of_cons in Ht as [[= ->]|Ht]; [done|].
    repeat (apply elem_of_cons in Ht as [Ht|Ht]; [done|]). by apply not_elem_of_nil in Ht.
  - destruct (negb _); [by apply not_elem_of_nil in Ht|]. by apply list_elem_of_singleton in Ht.
  - by apply list_elem_of_singleton in Ht.
Qed.
Lemma pods_confined p ps sn c t :
  (c, t) ∈ pods p ps sn → c ≠ AuthComponentName → Forall (confined p c) (pod_env t).
Proof.
  unfold pods, deployments. intros Ht Hc. rewrite !elem_of_app in Ht. destruct Ht as [Ht|[Ht|Ht]].
  - cbn [fmap list_fmap prod_map fst snd id] in Ht.
    repeat (apply elem_of_cons in Ht as [[= -> ->]|Ht];
      [try done; erewrite pod_env_pulled by reflexivity; cbn; by confine|]).
    by apply not_elem_of_nil in Ht.
  - unfold BuildPowersyncCompactCronJob in Ht. destruct (negb _); [by apply not_elem_of_nil in Ht|].
    apply list_elem_of_singleton in Ht. injection Ht as -> ->.
    erewrite pod_env_pulled by reflexivity. cbn. confine.
  - apply list_elem_of_singleton in Ht. injection Ht as -> ->. unfold pod_env. cbn. confine.
Qed.
End Objects.

(** C30: every Service reaches its own pods, and no others.  For a project with
    PowerSync: each Deployment's selector matches its own pod template; each
    Service has a Deployment of its component, in the same namespace, whose
    pods it selects and whose containers declare every target port; and no
    Service or Deployment selector matches a pod, those of the jobs included,
    of another component, or of another project. *)
Theorem services_route `{UrlLib} p ps sn :
  (∀ c d, (c, d) ∈ deployments p ps sn → dp_Selector d ⊆ pt_Labels (dp_Template d)) ∧
  (∀ c svc, (c, svc) ∈ services p → ∃ d, (c, d) ∈ deployments p ps sn ∧
     om_Namespace (svc_meta svc) = om_Namespace (dp_meta d) ∧
     svc_Selector svc ⊆ pt_Labels (dp_Template d) ∧
     Forall (served_port (dp_Template d)) (svc_Ports svc)) ∧
  (∀ selector c, (∃ d, (c, d) ∈ deployments p ps sn ∧ selector = dp_Selector d) ∨
                 (∃ svc, (c, svc) ∈ services p ∧ selector = svc_Selector svc) →
     ∀ p' ps' sn' c' t, (c', t) ∈ pods p' ps' sn' → selector ⊆ pt_Labels t →
       prj_Name p = prj_Name p' ∧ c = c').
Proof.
  split_and!.
  - intros c d Hd. destruct (deployment_labels p ps sn c d Hd) as (_ & -> & ->).
    apply SelectorLabels_subseteq.
  - intros c svc Hsvc. destruct (proj1 (Forall_forall _ _) (services_served p ps sn) _ Hsvc)
      as (d & Hd & Hports). exists d. destruct (deployment_labels _ _ _ _ _ Hd) as (-> & _ & ->).
    destruct (service_selector _ _ _ Hsvc) as [-> ->]. split; [done|]. split; [done|].
    split; [apply SelectorLabels_subseteq|done].
  - intros selector c Hs p' ps' sn' c' t Ht. rewrite (pod_labels _ _ _ _ _ Ht).
    assert (selector = SelectorLabels p c) as ->.
    { destruct Hs as [(d & Hd & ->)|(svc & Hsvc & ->)]; [by eapply deployment_labels|].
      by eapply service_selector. }
    apply selector_matches.
Qed.

(** C29: the credential bundle goes where it is needed.  No pod of the project
    mounts a Secret as a volume, and a whole Secret is imported only into
    GoTrue, and only the one the project names for its providers.  Of the five
    keys of the credential Secret, GoTrue's variables read the signing keys
    only, those of Studio and the gateway the two opaque keys and the two role
    tokens, and those of every other pod (PostgREST, postgres-meta, PowerSync,
    the jobs) none; the one exception is what the project itself configures as
    GoTrue environment.  So a pod gets a key of the bundle it is not meant to
    have only if the project itself refers GoTrue to it. *)
Theorem credentials_confined `{UrlLib} p ps sn c t :
  (c, t) ∈ pods p ps sn →
  sealed p c t ∧
  ∀ v ref, v ∈ pod_env t → secret_ref v = Some ref → ks_Key ref ∈ RequiredProjectCredentialKeys →
    (ks_Name ref = sps_ProjectCredentialsSecret (prj_Spec p) ∧ ks_Key ref ∈ allowed_keys c) ∨
    (c = AuthComponentName ∧
     ∃ configured, configured ∈ as_GoTrueEnv (sps_Auth (prj_Spec p)) ∧ v = gotrue_variable configured).
Proof.
  intros Ht. split; [by eapply pods_sealed|]. intros v ref Hv Href Hkey.
  destruct (decide (c = AuthComponentName)) as [->|Hc].
  - assert (t = dp_Template (BuildAuthDeployment p sn)) as -> by (by eapply pods_auth).
    erewrite pod_env_pulled in Hv by reflexivity. cbn in Hv. rewrite app_nil_r in Hv.
    destruct (buildAuthEnv_origin p sn _ v Hv) as [Hop|Hconf]; [left|by right].
    eapply (proj1 (Forall_forall _ _) (operator_env_confined p sn _)); eauto.
  - left. eapply (proj1 (Forall_forall _ _) (pods_confined p ps sn c t Ht Hc)); eauto.
Qed.
