(* ===== verification/Gateway.v ===== *)
(** * The gateway and the services behind it

    The Envoy configuration is text the operator renders; here it is read
    back, line by line, and compared with the Services and the Deployment the
    operator creates beside it. *)

From S2P Require Import Prelude KubeTypes Types Platform Common EnvoyAssets ConfigMaps Cnpg Secrets Deployments Services Workloads.
From Stdlib Require Import Ascii.

(** ** Reading a text *)

Definition newline : ascii := ascii_of_nat 10.
Fixpoint newline_free (s : string) : bool :=
  match s with
  | EmptyString => true
  | String c s => negb (Ascii.eqb c newline) && newline_free s
  end.

(** [x] in front of the first line. *)
Definition in_front (x : string) (ls : list string) : list string :=
  match ls with [] => [x] | l :: ls => (x +:+ l) :: ls end.
Fixpoint lines (s : string) : list string :=
  match s with
  | EmptyString => [EmptyString]
  | String c s =>
      if Ascii.eqb c newline then EmptyString :: lines s
      else match lines s with l :: ls => String c l :: ls | [] => [String c EmptyString] end
  end.

Fixpoint strip_prefix (prefix s : string) : option string :=
  match prefix, s with
  | EmptyString, s => Some s
  | String c prefix, String d s => if Ascii.eqb c d then strip_prefix prefix s else None
  | String _ _, EmptyString => None
  end.
Fixpoint unindent (s : string) : string :=
  match s with
  | String c s' => if Ascii.eqb c " "%char then unindent s' else s
  | EmptyString => s
  end.

(** The names between [${] and a closing brace. *)
Fixpoint placeholders (name : option string) (s : string) : list string :=
  match s with
  | EmptyString => []
  | String c s =>
      match name with
      | Some n =>
          if Ascii.eqb c "}"%char then n :: placeholders None s
          else placeholders (Some (n +:+ String c EmptyString)) s
      | None =>
          match s with
          | String d s' =>
              if Ascii.eqb c "$"%char && Ascii.eqb d "{"%char then placeholders (Some "") s'
              else placeholders None s
          | EmptyString => []
          end
      end
  end.

#[local] Arguments String.append !_ _ / : simpl nomatch.

Lemma lines_nonempty s : lines s ≠ [].
Proof. destruct s as [|c s]; cbn; [done|]. destruct (Ascii.eqb c newline); [done|]. by destruct (lines s). Qed.
(** A text without newlines extends the first line of what follows. *)
Lemma lines_in_front x s : newline_free x = true → lines (x +:+ s) = in_front x (lines s).
Proof.
  induction x as [|c x IH]; cbn; intros Hx.
  - by destruct (lines s) eqn:E; [destruct (lines_nonempty s)|].
  - bools. destruct (Ascii.eqb c newline); [done|]. rewrite IH by done. by destruct (lines s).
Qed.
Lemma newline_free_app x y : newline_free (x +:+ y) = newline_free x && newline_free y.
Proof. induction x as [|c x IH]; cbn; [done|]. by rewrite IH, andb_assoc. Qed.

(** The lines of two texts, the last of the first joined with the first of the
    second. *)
Fixpoint join_lines (xs ys : list string) : list string :=
  match xs with
  | [] => ys
  | [x] => in_front x ys
  | x :: xs => x :: join_lines xs ys
  end.
Lemma lines_app x y : lines (x +:+ y) = join_lines (lines x) (lines y).
Proof.
  induction x as [|c x IH]; cbn.
  - by destruct (lines y) eqn:E; [destruct (lines_nonempty y)|].
  - rewrite IH. pose proof (lines_nonempty x) as Hx. destruct (lines x) as [|l ls]; [done|].
    destruct (Ascii.eqb c newline); [done|]. destruct ls as [|l' ls]; cbn; [|done].
    by destruct (lines y) eqn:E; [destruct (lines_nonempty y)|].
Qed.

(** ** The Envoy files *)

Record upstream := { up_Cluster : string; up_Address : string; up_Port : string }.

(** One line of the cluster file: a cluster starts, its endpoint is named, and
    its port completes it. *)
Definition read_cds (st : string * string * list upstream) (line : string)
    : string * string * list upstream :=
  let '(cluster, address, found) := st in
  match strip_prefix "    name: " line with
  | Some name => (name, address, found)
  | None =>
      match strip_prefix "                    address: " line with
      | Some a => (cluster, a, found)
      | None =>
          match strip_prefix "                    port_value: " line with
          | Some port =>
              (cluster, address,
               found ++ [{| up_Cluster := cluster; up_Address := address; up_Port := port |}])
          | None => st
          end
      end
  end.
Definition upstreams (cds : string) : list upstream :=
  (foldl read_cds ("", "", []) (lines cds)).2.
(** The values of a field, at any indentation. *)
Definition field_values (field text : string) : list string :=
  omap (λ line, strip_prefix (field +:+ ": ") (unindent line)) (lines text).

(** The clusters and the Services behind them. *)
Definition backends (p : SupabaseProject) : list (string * Service) :=
  [("auth", BuildAuthService p); ("rest", BuildRestService p); ("meta", BuildMetaService p);
   ("studio", BuildStudioService p)].
Definition upstreams_of (b : string * Service) : list upstream :=
  (λ port, {| up_Cluster := b.1; up_Address := om_Name (svc_meta b.2);
              up_Port := pretty (sp_Port port) |}) <$> svc_Ports b.2.

(** ** The cluster file of a project *)

(** The pieces of a format between its verbs. *)
Fixpoint pieces (format : string) : list string :=
  match format with
  | String "%" (String "s" rest) => EmptyString :: pieces rest
  | String c rest =>
      match pieces rest with p :: ps => String c p :: ps | [] => [String c EmptyString] end
  | EmptyString => [EmptyString]
  end.
Fixpoint interleave (ps args : list string) : string :=
  match ps, args with
  | p :: ps, a :: args => p +:+ (a +:+ interleave ps args)
  | p :: ps, [] => p +:+ interleave ps []
  | [], _ => EmptyString
  end.

Lemma cds_pieces a b c d :
  Sprintf_s envoyCDS [a; b; c; d] = interleave (pieces envoyCDS) [a; b; c; d].
Proof. vm_compute. reflexivity. Qed.

(** The text of four addresses, read back. *)
Lemma upstreams_cds a b c d :
  newline_free a = true → newline_free b = true → newline_free c = true → newline_free d = true →
  upstreams (Sprintf_s envoyCDS [a; b; c; d]) =
    [{| up_Cluster := "auth"; up_Address := a +:+ ""; up_Port := "9999" |};
     {| up_Cluster := "rest"; up_Address := b +:+ ""; up_Port := "3000" |};
     {| up_Cluster := "meta"; up_Address := c +:+ ""; up_Port := "8080" |};
     {| up_Cluster := "studio"; up_Address := d +:+ ""; up_Port := "3000" |}].
Proof.
  intros Ha Hb Hc Hd. unfold upstreams. rewrite cds_pieces.
  assert (Hp : pieces envoyCDS = [nth 0 (pieces envoyCDS) ""; nth 1 (pieces envoyCDS) "";
    nth 2 (pieces envoyCDS) ""; nth 3 (pieces envoyCDS) ""; nth 4 (pieces envoyCDS) ""])
    by (vm_compute; reflexivity).
  rewrite Hp. clear Hp. cbn [interleave].
  rewrite lines_app, (lines_in_front _ _ Ha), lines_app, (lines_in_front _ _ Hb),
    lines_app, (lines_in_front _ _ Hc), lines_app, (lines_in_front _ _ Hd), lines_app.
  vm_compute. reflexivity.
Qed.

(** ** The gateway's files *)

(** The entries of a ConfigMap with four files. *)
Lemma four_files a b c d :
  let m : gmap string string := {[ "envoy.yaml" := a; "cds.yaml" := b; "lds.template.yaml" := c;
                                   "docker-entrypoint.sh" := d ]} in
  map_get m "cds.yaml" = b ∧ map_get m "lds.template.yaml" = c ∧
  map_get m "docker-entrypoint.sh" = d.
Proof. by split_and!. Qed.

Section Files.
Context (p : SupabaseProject).

Definition envoy_file (name : string) : string := map_get (cm_Data (BuildEnvoyConfigMap p)) name.
Definition gateway_template : PodTemplateSpec := dp_Template (BuildGatewayDeployment p).

Ltac read_file :=
  unfold envoy_file, BuildEnvoyConfigMap, new_configmap; cbv zeta; cbn [cm_Data];
  match goal with |- map_get {[ _ := ?a; _ := ?b; _ := ?c; _ := ?d ]} _ = _ =>
    destruct (four_files a b c d) as (Hb & Hc & Hd); first [exact Hb | exact Hc | exact Hd] end.

Lemma envoy_cds :
  envoy_file "cds.yaml" = Sprintf_s envoyCDS
    [prj_Name p +:+ "-auth"; prj_Name p +:+ "-rest"; prj_Name p +:+ "-meta"; prj_Name p +:+ "-studio"].
Proof. read_file. Qed.
Lemma envoy_lds : envoy_file "lds.template.yaml" = envoyLDS.
Proof. read_file. Qed.
Lemma envoy_entrypoint : envoy_file "docker-entrypoint.sh" = envoyEntrypoint.
Proof. read_file. Qed.

Lemma gateway_env_names :
  ev_Name <$> pod_env gateway_template =
  ["SUPABASE_PUBLISHABLE_KEY"; "SUPABASE_SECRET_KEY"; "SUPABASE_ANON_ROLE_JWT";
   "SUPABASE_SERVICE_ROLE_JWT"].
Proof. unfold gateway_template. erewrite pod_env_pulled by reflexivity. reflexivity. Qed.
(** The paths its containers are probed at. *)
Definition probe_paths (t : PodTemplateSpec) : list string :=
  ps_Containers (pt_Spec t) ≫= (λ ct, omap (λ probe, hg_Path <$> (probe ≫= pr_HTTPGet))
    [ct_LivenessProbe ct; ct_ReadinessProbe ct]).
Lemma gateway_probes : probe_paths gateway_template = [GatewayHealthPath; GatewayHealthPath].
Proof.
  unfold probe_paths, gateway_template, BuildGatewayDeployment, new_deployment. cbv zeta.
  cbn [dp_Template pt_Spec].
  match goal with |- context [AddImagePullSecrets ?s p] =>
    destruct (AddImagePullSecrets_containers s p) as (-> & _) end. reflexivity.
Qed.
End Files.

(** C31: the gateway fits what stands behind it.  For a project whose name holds
    no newline: Envoy's clusters, read back from the rendered file, are the
    Services of GoTrue, PostgREST, postgres-meta and Studio, by name and port;
    the listener routes to exactly these clusters and listens on the port the
    gateway's Service targets; the path its Deployment probes is one the
    listener answers; and the credential placeholders of the listener are
    exactly the variables the container is given, and exactly those its
    entrypoint substitutes. *)
Theorem gateway_routes p :
  newline_free (prj_Name p) = true →
  let clusters := field_values "cluster" (envoy_file p "lds.template.yaml") in
  let variables := ev_Name <$> pod_env (gateway_template p) in
  upstreams (envoy_file p "cds.yaml") = backends p ≫= upstreams_of ∧
  list_to_set clusters =@{gset string} list_to_set (backends p).*1 ∧
  field_values "port_value" (envoy_file p "lds.template.yaml") =
    (λ port, pretty (sp_TargetPort port)) <$> svc_Ports (BuildGatewayService p) ∧
  Forall (λ path, path ∈ field_values "path" (envoy_file p "lds.template.yaml"))
    (probe_paths (gateway_template p)) ∧
  list_to_set (placeholders None (envoy_file p "lds.template.yaml")) =@{gset string}
    list_to_set variables ∧
  list_to_set (placeholders None (envoy_file p "docker-entrypoint.sh")) =@{gset string}
    list_to_set variables.
Proof.
  intros Hn. cbv zeta. rewrite envoy_lds, envoy_cds, envoy_entrypoint, gateway_env_names, gateway_probes.
  rewrite upstreams_cds by (rewrite newline_free_app, Hn; reflexivity). rewrite !str_app_nil_r.
  split; [reflexivity|]. split; [by apply (bool_decide_unpack _); vm_compute|].
  split; [vm_compute; reflexivity|]. split; [by apply (bool_decide_unpack _); vm_compute|].
  split; by apply (bool_decide_unpack _); vm_compute.
Qed.
