(* ===== verification/ObjectSync.v ===== *)
(** * Object helpers of the controller
    (src/internal/controller/supabaseproject_controller.go)

    The pure helpers by which the controller compares and edits objects:
    owner references and labels, API defaulting of pod templates, readiness of
    deployments, publications and managed roles, rollout annotations. *)

From S2P Require Import Prelude KubeTypes Types Platform Effects Common Encoding Sha256 Cnpg.

Definition emailHookSecretHashAnnotation : string := "supabase.guion.dev/email-hook-secret-hash".
Definition projectCredentialsHashAnnotation : string :=
  "supabase.guion.dev/project-credentials-hash".
Definition powerSyncConfigHashAnnotation : string := "supabase.guion.dev/powersync-config-hash".
Definition cdcScriptHashAnnotation : string := "supabase.guion.dev/cdc-script-hash".
Definition supabaseProjectKind : string := "SupabaseProject".

(** ** Owner references and labels *)

Section Owner.
Context `{Platform}.

(** An owner reference to the named SupabaseProject of this API group. *)
Definition owned_by_project (projectName : string) (owner : OwnerReference) : bool :=
  match ParseGroupVersion (or_APIVersion owner) with
  | inr group =>
      bool_decide (group = GroupVersion_Group) &&
      bool_decide (or_Kind owner = supabaseProjectKind) &&
      bool_decide (or_Name owner = projectName)
  | inl _ => false
  end.

Definition removeSupabaseProjectOwnerReference (m : ObjectMeta) (projectName : string)
    : ObjectMeta * bool :=
  if bool_decide (projectName = "") then (m, false)
  else
    let owners := om_OwnerReferences m in
    let filtered := List.filter (λ o, negb (owned_by_project projectName o)) owners in
    let changed := existsb (owned_by_project projectName) owners in
    if changed then (m <| om_OwnerReferences := filtered |>, true) else (m, false).
End Owner.

(** The keys of [desired] are distinct, so the loop's iterations do not
    interact: the entries written are those that differ. *)
Definition mergeLabels (m : ObjectMeta) (desired : gmap string string) : ObjectMeta * bool :=
  let updates := filter (λ kv, map_get (om_Labels m) kv.1 ≠ kv.2) desired in
  (m <| om_Labels ::= (λ labels, updates ∪ labels) |>, bool_decide (updates ≠ ∅)).

(** ** API defaults of pod templates *)

(** [if x == 0 { x = d }], [if s == "" { s = d }], [if p == nil { p = d }],
    as updates of the field. *)
Definition zero_default (d x : Z) : Z := if x =? 0 then d else x.
Definition empty_default (d s : string) : string := if bool_decide (s = "") then d else s.
Definition nil_default {A} (d : A) (o : option A) : option A :=
  match o with None => Some d | Some _ => o end.

Definition default_scheme (h : HTTPGetAction) : HTTPGetAction :=
  h <| hg_Scheme ::= empty_default "HTTP" |>.
Definition normalizeProbeDefaults (probe : Probe) : Probe :=
  probe
    <| pr_TimeoutSeconds ::= zero_default 1 |>
    <| pr_PeriodSeconds ::= zero_default 10 |>
    <| pr_SuccessThreshold ::= zero_default 1 |>
    <| pr_FailureThreshold ::= zero_default 3 |>
    <| pr_HTTPGet ::= fmap default_scheme |>.

Definition default_port (port : ContainerPort) : ContainerPort :=
  port <| cp_Protocol ::= empty_default "TCP" |>.

Definition normalizeContainerDefaults (c : Container) : Container :=
  c <| ct_TerminationMessagePath ::= empty_default "/dev/termination-log" |>
    <| ct_TerminationMessagePolicy ::= empty_default "File" |>
    <| ct_Ports ::= fmap default_port |>
    <| ct_LivenessProbe ::= fmap normalizeProbeDefaults |>
    <| ct_ReadinessProbe ::= fmap normalizeProbeDefaults |>
    <| ct_StartupProbe ::= fmap normalizeProbeDefaults |>.

(** 0o644. *)
Definition defaultMode : Z := 420.
Definition default_mode (source : NamedVolumeSource) : NamedVolumeSource :=
  source <| nv_DefaultMode ::= nil_default defaultMode |>.
Definition normalizeVolumeDefaults (v : Volume) : Volume :=
  v <| vol_ConfigMap ::= fmap default_mode |>
    <| vol_Secret ::= fmap default_mode |>
    <| vol_DownwardAPI ::= fmap default_mode |>
    <| vol_Projected ::= fmap default_mode |>.

Definition normalize_pod_spec (s : PodSpec) : PodSpec :=
  s <| ps_RestartPolicy ::= empty_default "Always" |>
    <| ps_TerminationGracePeriodSeconds ::= nil_default 30 |>
    <| ps_DNSPolicy ::= empty_default "ClusterFirst" |>
    <| ps_SecurityContext ::= nil_default ∅ |>
    <| ps_SchedulerName ::= empty_default "default-scheduler" |>
    <| ps_Volumes ::= fmap normalizeVolumeDefaults |>
    <| ps_InitContainers ::= fmap normalizeContainerDefaults |>
    <| ps_Containers ::= fmap normalizeContainerDefaults |>.

Definition normalizePodTemplateDefaults (t : PodTemplateSpec) : PodTemplateSpec :=
  t <| pt_Spec ::= normalize_pod_spec |>.

Definition normalizeCronJobDefaults (s : CronJobSpec) : CronJobSpec :=
  s <| cjs_Suspend ::= nil_default false |>
    <| cjs_JobTemplate ::= (λ j, j <| js_Template ::= normalizePodTemplateDefaults |>) |>.

(** ** Readiness *)

Definition deploymentIsReady (d : Deployment) : bool :=
  let expected := default 1 (dp_Replicas d) in
  let st := dp_Status d in
  (dps_ObservedGeneration st =? om_Generation (dp_meta d)) &&
  (dps_UpdatedReplicas st =? expected) && (dps_ReadyReplicas st =? expected) &&
  (dps_AvailableReplicas st =? expected) && (dps_UnavailableReplicas st =? 0).

Definition coreServicesReady (p : SupabaseProject) : bool :=
  let s := sts_Services (prj_Status p) in
  svs_Ready (sv_Auth s) && svs_Ready (sv_Rest s) && svs_Ready (sv_Studio s) &&
  svs_Ready (sv_Meta s) && svs_Ready (sv_Gateway s).

Definition publicationIsApplied (pub : Publication) : bool :=
  (pbt_ObservedGeneration (pb_Status pub) =? om_Generation (pb_meta pub)) &&
  bool_decide (pbt_Applied (pb_Status pub) = Some true).

Definition RoleStatusReconciled : string := "reconciled".

(** [fmt]'s %v of a string slice. *)
Definition format_strings (l : list string) : string := "[" +:+ Join l " " +:+ "]".

Definition powerSyncManagedRolesReady (c : Cluster) : result bool :=
  let reasons role := default [] (cst_CannotReconcile (cl_Status c) !! role) in
  _ ← foldr (λ role rest,
        if bool_decide (reasons role ≠ [])
        then inl (ErrorString ("CloudNativePG cannot reconcile role " +:+ role +:+ ": " +:+
               format_strings (reasons role)))
        else rest) (inr tt) ["powersync_storage"; "powersync_replication"];
  let reconciled : gset string :=
    list_to_set (default [] (cst_ByStatus (cl_Status c) !! RoleStatusReconciled)) in
  mret (bool_decide ("powersync_storage" ∈ reconciled) &&
        bool_decide ("powersync_replication" ∈ reconciled)).

Definition recoveryObjectStoreIdentityChanged (existing desired : ObjectStore) : bool :=
  let e := os_Configuration existing in
  let d := os_Configuration desired in
  bool_decide (bo_EndpointURL e ≠ bo_EndpointURL d) ||
  bool_decide (bo_DestinationPath e ≠ bo_DestinationPath d).

Definition powerSyncStatusNeedsCleanup `{Platform} (p : SupabaseProject) : bool :=
  let st := prj_Status p in
  if negb (deep_equal (sv_PowersyncAPI (sts_Services st)) no_service_status) ||
     negb (deep_equal (sv_PowersyncReplication (sts_Services st)) no_service_status)
  then true
  else bool_decide (FindStatusCondition (sts_Conditions st) ConditionTypeCDCReady ≠ None) ||
       bool_decide (FindStatusCondition (sts_Conditions st) ConditionTypePowersyncReady ≠ None).

(** ** Rollout annotations *)

Definition annotate_template (d : Deployment) (key value : string) : Deployment :=
  d <| dp_Template ::= (λ t, t <| pt_Annotations ::= (λ a, <[key := value]> a) |>) |>.

Definition applyProjectCredentialsHash (d : Deployment) (hash : string) : Deployment :=
  if bool_decide (hash = "") then d else annotate_template d projectCredentialsHashAnnotation hash.

Definition applyPowerSyncConfigHash (d : Deployment) (config syncRules : string) : Deployment :=
  annotate_template d powerSyncConfigHashAnnotation
    (HexEncode (Sum256 (config +:+ byte_string [0] +:+ syncRules))).

Definition cdcScriptHash (cm : ConfigMap) : string :=
  HexEncode (Sum256 (map_get (cm_Data cm) "setup.sh")).

(** ** Lemmas *)

Lemma annotate_template_meta d k v : dp_meta (annotate_template d k v) = dp_meta d.
Proof. done. Qed.
Lemma applyProjectCredentialsHash_meta d h : dp_meta (applyProjectCredentialsHash d h) = dp_meta d.
Proof. unfold applyProjectCredentialsHash. by destruct (bool_decide _). Qed.

Lemma mergeLabels_unchanged m d : (mergeLabels m d).2 = false → (mergeLabels m d).1 = m.
Proof.
  unfold mergeLabels. cbn. case_bool_decide as Hd; [done|]. intros _. rewrite Hd. destruct m; cbn. unfold set; cbn. by rewrite (left_id_L ∅ (∪)).
Qed.

(** Afterwards every desired label reads as desired and the others are kept. *)
Lemma mergeLabels_lookup m d k :
  map_get (om_Labels (mergeLabels m d).1) k = default (map_get (om_Labels m) k) (d !! k).
Proof.
  unfold mergeLabels, map_get. cbn. rewrite lookup_union, map_lookup_filter.
  destruct (d !! k) as [v|]; cbn; [|by destruct (om_Labels m !! k)].
  destruct (decide (default "" (om_Labels m !! k) ≠ v)) as [Hne|He]; cbn.
  - rewrite option_guard_True by done. cbn. by destruct (om_Labels m !! k).
  - rewrite option_guard_False by done. apply dec_stable in He. by destruct (om_Labels m !! k).
Qed.

Lemma mergeLabels_changed m d :
  (mergeLabels m d).2 = false ↔ ∀ k v, d !! k = Some v → map_get (om_Labels m) k = v.
Proof.
  unfold mergeLabels. cbn. rewrite bool_decide_eq_false. split.
  - intros H k v Hk. apply dec_stable in H.
    pose proof (map_filter_empty_not_lookup _ _ k v H) as Hn. cbn in Hn.
    destruct (decide (map_get (om_Labels m) k = v)) as [|Hv]; [done|]. by destruct (Hn Hv).
  - intros H Hne. apply Hne, map_empty. intros k. apply map_lookup_filter_None. right.
    intros v Hk. cbn. rewrite (H k v) by done. naive_solver.
Qed.

Lemma mergeLabels_idemp m d : (mergeLabels (mergeLabels m d).1 d).2 = false.
Proof. apply mergeLabels_changed. intros k v Hk. by rewrite mergeLabels_lookup, Hk. Qed.

Lemma mergeLabels_other m d :
  om_Name (mergeLabels m d).1 = om_Name m ∧ om_Namespace (mergeLabels m d).1 = om_Namespace m ∧
  om_OwnerReferences (mergeLabels m d).1 = om_OwnerReferences m.
Proof. done. Qed.

Section OwnerLemmas.
Context `{Platform}.

Lemma removeSupabaseProjectOwnerReference_key m n :
  meta_key (removeSupabaseProjectOwnerReference m n).1 = meta_key m ∧
  om_Labels (removeSupabaseProjectOwnerReference m n).1 = om_Labels m.
Proof. unfold removeSupabaseProjectOwnerReference. split_cases. Qed.

Lemma removeSupabaseProjectOwnerReference_unchanged m n :
  (removeSupabaseProjectOwnerReference m n).2 = false →
  (removeSupabaseProjectOwnerReference m n).1 = m.
Proof. unfold removeSupabaseProjectOwnerReference. split_cases. Qed.

Lemma filter_not_existsb {A} (f : A → bool) l :
  existsb f l = false → List.filter (λ x, negb (f x)) l = l.
Proof. induction l as [|x l IH]; cbn; [done|]. destruct (f x); cbn; [done|]. intros ?. by rewrite IH. Qed.

Lemma removeSupabaseProjectOwnerReference_owners m projectName :
  projectName ≠ "" →
  om_OwnerReferences (removeSupabaseProjectOwnerReference m projectName).1 =
    List.filter (λ o, negb (owned_by_project projectName o)) (om_OwnerReferences m).
Proof.
  intros Hn. unfold removeSupabaseProjectOwnerReference. rewrite bool_decide_eq_false_2 by done.
  destruct (existsb _ _) eqn:E; [done|]. by rewrite (filter_not_existsb _ _ E).
Qed.
Lemma removeSupabaseProjectOwnerReference_disowned m projectName o :
  projectName ≠ "" →
  o ∈ om_OwnerReferences (removeSupabaseProjectOwnerReference m projectName).1 →
  owned_by_project projectName o = false.
Proof.
  intros Hn. rewrite removeSupabaseProjectOwnerReference_owners by done.
  intros Ho. apply list_elem_of_In, List.filter_In in Ho as [_ Ho]. by bools.
Qed.

(** The owner repair removes exactly the references to this API group's
    SupabaseProject of the given name, whatever their UID or version, keeps
    every other reference in order, and reports a change exactly when it
    removed one. *)
Theorem removeSupabaseProjectOwnerReference_spec m projectName :
  projectName ≠ "" →
  let '(m', changed) := removeSupabaseProjectOwnerReference m projectName in
  om_OwnerReferences m' =
    List.filter (λ o, negb (owned_by_project projectName o)) (om_OwnerReferences m) ∧
  (changed = true ↔ ∃ o, o ∈ om_OwnerReferences m ∧ owned_by_project projectName o = true) ∧
  (∀ o, o ∈ om_OwnerReferences m' → owned_by_project projectName o = false) ∧
  m' <| om_OwnerReferences := om_OwnerReferences m |> = m.
Proof.
  intros Hn. pose proof (removeSupabaseProjectOwnerReference_owners m projectName Hn) as Ho.
  pose proof (λ o, removeSupabaseProjectOwnerReference_disowned m projectName o Hn) as Hd.
  revert Ho Hd. unfold removeSupabaseProjectOwnerReference.
  rewrite bool_decide_eq_false_2 by done.
  destruct (existsb _ _) eqn:E; cbn [fst]; intros Ho Hd.
  - apply existsb_exists in E as (o & Hin & Hp). split_and!; [done| |done|by destruct m].
    split; [|done]. intros _. exists o. split; [|done]. by apply list_elem_of_In.
  - split_and!; [done| |done|by destruct m].
    split; [done|]. intros (o & Hin & Hp). by rewrite Hd in Hp.
Qed.
End OwnerLemmas.

(** *** Defaulting is idempotent *)

Lemma zero_default_idemp d x : zero_default d (zero_default d x) = zero_default d x.
Proof. unfold zero_default. destruct (x =? 0) eqn:E; [|by rewrite E]. by destruct (d =? 0). Qed.
Lemma empty_default_idemp d s : empty_default d (empty_default d s) = empty_default d s.
Proof. unfold empty_default. repeat case_bool_decide; congruence. Qed.
Lemma nil_default_idemp {A} (d : A) o : nil_default d (nil_default d o) = nil_default d o.
Proof. by destruct o. Qed.
Lemma fmap_idemp {A} (f : A → A) (l : list A) : (∀ x, f (f x) = f x) → f <$> (f <$> l) = f <$> l.
Proof. intros Hf. rewrite <- list_fmap_compose. apply list_fmap_ext. intros _ x _. apply Hf. Qed.
Lemma option_fmap_idemp {A} (f : A → A) (o : option A) :
  (∀ x, f (f x) = f x) → f <$> (f <$> o) = f <$> o.
Proof. intros Hf. destruct o; cbn; by rewrite ?Hf. Qed.

(** A record update by idempotent field functions, field by field; [cbv]
    evaluates the inner update once. *)
Ltac idemp_fields r :=
  destruct r;
  cbv beta iota delta -[zero_default empty_default nil_default fmap option_fmap list_fmap
    default_port normalizeProbeDefaults normalizeContainerDefaults normalizeVolumeDefaults
    default_mode normalize_pod_spec normalizePodTemplateDefaults gmap_empty];
  f_equal;
  auto using zero_default_idemp, empty_default_idemp, nil_default_idemp, fmap_idemp,
    option_fmap_idemp.

Lemma default_scheme_idemp h : default_scheme (default_scheme h) = default_scheme h.
Proof. unfold default_scheme. idemp_fields h. Qed.

Lemma normalizeProbeDefaults_idemp p :
  normalizeProbeDefaults (normalizeProbeDefaults p) = normalizeProbeDefaults p.
Proof. pose proof default_scheme_idemp. unfold normalizeProbeDefaults. idemp_fields p. Qed.

Lemma default_port_idemp x : default_port (default_port x) = default_port x.
Proof. unfold default_port. idemp_fields x. Qed.
Lemma default_mode_idemp x : default_mode (default_mode x) = default_mode x.
Proof. unfold default_mode. idemp_fields x. Qed.

Lemma normalizeContainerDefaults_idemp c :
  normalizeContainerDefaults (normalizeContainerDefaults c) = normalizeContainerDefaults c.
Proof.
  pose proof normalizeProbeDefaults_idemp. pose proof default_port_idemp.
  unfold normalizeContainerDefaults. idemp_fields c.
Qed.

Lemma normalizeVolumeDefaults_idemp v :
  normalizeVolumeDefaults (normalizeVolumeDefaults v) = normalizeVolumeDefaults v.
Proof. pose proof default_mode_idemp. unfold normalizeVolumeDefaults. idemp_fields v. Qed.

Lemma normalize_pod_spec_idemp s : normalize_pod_spec (normalize_pod_spec s) = normalize_pod_spec s.
Proof.
  pose proof normalizeContainerDefaults_idemp. pose proof normalizeVolumeDefaults_idemp.
  unfold normalize_pod_spec. idemp_fields s.
Qed.

(** Defaulting a defaulted pod template changes nothing, so a stored template
    the API server has defaulted compares equal to the desired one. *)
Lemma normalizePodTemplateDefaults_idemp t :
  normalizePodTemplateDefaults (normalizePodTemplateDefaults t) = normalizePodTemplateDefaults t.
Proof.
  pose proof normalize_pod_spec_idemp. unfold normalizePodTemplateDefaults. idemp_fields t.
Qed.

Lemma normalizeCronJobDefaults_idemp s :
  normalizeCronJobDefaults (normalizeCronJobDefaults s) = normalizeCronJobDefaults s.
Proof.
  pose proof normalizePodTemplateDefaults_idemp as Hp.
  assert (Hj : ∀ j : JobSpec, j <| js_Template ::= normalizePodTemplateDefaults |>
      <| js_Template ::= normalizePodTemplateDefaults |> =
    j <| js_Template ::= normalizePodTemplateDefaults |>) by (intros j; idemp_fields j).
  destruct s as [? ? ? ? ? su j]. unfold normalizeCronJobDefaults.
  cbv beta iota delta [set cjs_Suspend cjs_JobTemplate]. f_equal;
    [apply nil_default_idemp | apply Hj].
Qed.
