(* ===== verification/ClusterSync.v ===== *)
(** * The database cluster
    (reconcileClusterMutableFields and the bootstrap guards of
    src/internal/controller/supabaseproject_controller.go)

    How the controller edits an existing CNPG Cluster towards the desired one,
    and how it recognises a change of the creation-time bootstrap.  Functions
    that mutate their argument return it on error paths too. *)

From S2P Require Import Prelude KubeTypes Types Platform Effects Common Cnpg ObjectSync.

(** ** Bootstrap immutability *)

Definition recoveryBootstrap (b : option BootstrapConfiguration) : option BootstrapRecovery :=
  b ≫= bc_Recovery.

Definition recoverySourceName (recovery : option BootstrapRecovery) : string :=
  match recovery with None => "" | Some r => br_Source r end.

Definition recoveryExternalCluster (clusters : list ExternalCluster) (sourceName : string)
    : option ExternalCluster :=
  if bool_decide (sourceName = "") then None
  else List.find (λ c, bool_decide (ec_Name c = sourceName)) clusters.

Record recoveryExternalClusterIdentityFields := {
  rid_Name : string; rid_PluginName : string; rid_BarmanObjectName : string;
  rid_ServerName : string }.
#[export] Instance rid_eq : EqDecision recoveryExternalClusterIdentityFields.
Proof. solve_decision. Defined.

Definition recoveryExternalClusterIdentity (source : option ExternalCluster)
    : recoveryExternalClusterIdentityFields :=
  match source with
  | None => {| rid_Name := ""; rid_PluginName := ""; rid_BarmanObjectName := "";
               rid_ServerName := "" |}
  | Some s =>
      match ec_PluginConfiguration s with
      | Some plugin =>
          {| rid_Name := ec_Name s; rid_PluginName := pc_Name plugin;
             rid_BarmanObjectName := map_get (pc_Parameters plugin) "barmanObjectName";
             rid_ServerName := map_get (pc_Parameters plugin) "serverName" |}
      | None => {| rid_Name := ec_Name s; rid_PluginName := ""; rid_BarmanObjectName := "";
                   rid_ServerName := "" |}
      end
  end.

(** The owned fields of two initdb bootstraps differ. *)
Definition initdb_changed (e d : BootstrapInitDB) : bool :=
  bool_decide (ib_Database e ≠ ib_Database d) || bool_decide (ib_Owner e ≠ ib_Owner d) ||
  negb (deep_equal (ib_Secret e) (ib_Secret d)) ||
  negb (deep_equal (ib_PostInitApplicationSQLRefs e) (ib_PostInitApplicationSQLRefs d)).

Definition is_Some_b {A} (o : option A) : bool := match o with Some _ => true | None => false end.

(** Both clusters are present at every call. *)
Definition recoveryBootstrapIntentChanged (existing desired : Cluster) : bool :=
  let e := cl_Spec existing in
  let d := cl_Spec desired in
  let existingRecovery := recoveryBootstrap (cs_Bootstrap e) in
  let desiredRecovery := recoveryBootstrap (cs_Bootstrap d) in
  if xorb (is_Some_b existingRecovery) (is_Some_b desiredRecovery) then true
  else if match cs_Bootstrap e ≫= bc_InitDB, cs_Bootstrap d ≫= bc_InitDB with
          | Some ei, Some di => initdb_changed ei di
          | _, _ => false
          end then true
  else if match existingRecovery, desiredRecovery with
          | Some er, Some dr => negb (deep_equal er dr)
          | _, _ => false
          end then true
  else
    let existingSource :=
      recoveryExternalCluster (cs_ExternalClusters e) (recoverySourceName existingRecovery) in
    let desiredSource :=
      recoveryExternalCluster (cs_ExternalClusters d) (recoverySourceName desiredRecovery) in
    if xorb (is_Some_b existingSource) (is_Some_b desiredSource) then true
    else is_Some_b existingSource &&
         negb (bool_decide (recoveryExternalClusterIdentity existingSource =
                            recoveryExternalClusterIdentity desiredSource)).

Definition reconcileErrReason (err : error) : string :=
  if Contains (Error err) "storage shrink" then "StorageShrink" else "InvalidDatabaseConfiguration".

(** ** Mutable fields *)

Section Mutable.
Context `{Platform}.

(** [if desired != nil && !DeepEqual(existing, desired)]. *)
Definition set_optional {A} `{DeepEqual (option A)} (existing desired : option A)
    : option A * bool :=
  match desired with
  | Some _ => if deep_equal existing desired then (existing, false) else (desired, true)
  | None => (existing, false)
  end.

(** The size part of [reconcileStorage]: whether to write the new size. *)
Definition storage_size_changed (existing desired : StorageConfiguration) : result bool :=
  if bool_decide (st_Size desired = "") then inr false
  else
    match ParseQuantity (st_Size desired) with
    | inl err => inl (WrapError ("storage size " +:+ Quote (st_Size desired) +:+
                        " is invalid: ") err)
    | inr desiredQuantity =>
        _ ← (if bool_decide (st_Size existing = "") then inr tt
             else match ParseQuantity (st_Size existing) with
                  | inl err => inl (WrapError "existing storage size is invalid: " err)
                  | inr existingQuantity =>
                      match QuantityCmp desiredQuantity existingQuantity with
                      | Lt => inl (ErrorString ("storage shrink from " +:+ st_Size existing +:+
                                " to " +:+ st_Size desired +:+ " is not supported"))
                      | _ => inr tt
                      end
                  end);
        mret (bool_decide (st_Size existing ≠ st_Size desired))
    end.

(** The storage afterwards, and whether it changed or the error. *)
Definition reconcileStorage (existing desired : StorageConfiguration)
    : StorageConfiguration * result bool :=
  match storage_size_changed existing desired with
  | inl err => (existing, inl err)
  | inr sizeChanged =>
      let existing := if sizeChanged then existing <| st_Size := st_Size desired |> else existing in
      let '(class, c1) := set_optional (st_StorageClass existing) (st_StorageClass desired) in
      let '(resize, c2) :=
        set_optional (st_ResizeInUseVolumes existing) (st_ResizeInUseVolumes desired) in
      let '(pvc, c3) :=
        set_optional (st_PersistentVolumeClaimTemplate existing)
          (st_PersistentVolumeClaimTemplate desired) in
      ({| st_Size := st_Size existing; st_StorageClass := class;
          st_ResizeInUseVolumes := resize; st_PersistentVolumeClaimTemplate := pvc |},
       inr (sizeChanged || c1 || c2 || c3))
  end.

(** The retained plugins with the barman plugin replaced, and the flags
    [found] and [changed] of the loop. *)
Fixpoint barman_loop (existing : list PluginConfiguration)
    (desiredPlugin : option PluginConfiguration) : list PluginConfiguration * bool * bool :=
  match existing with
  | [] => ([], false, false)
  | plugin :: rest =>
      let '(result, found, changed) := barman_loop rest desiredPlugin in
      if negb (bool_decide (pc_Name plugin = BarmanCloudPluginName))
      then (plugin :: result, found, changed)
      else match desiredPlugin with
           | None => (result, found, true)
           | Some d => (d :: result, true, negb (deep_equal plugin d) || changed)
           end
  end.

Definition reconcileBarmanPlugin (existing desired : list PluginConfiguration)
    : list PluginConfiguration * bool :=
  let desiredPlugin :=
    List.find (λ p, bool_decide (pc_Name p = BarmanCloudPluginName)) desired in
  let '(result, found, changed) := barman_loop existing desiredPlugin in
  match desiredPlugin with
  | Some d => if found then (result, changed) else (result ++ [d], true)
  | None => (result, changed)
  end.

(** [if cond { write; changed = true }] on the spec and the flag. *)
Definition update_if (cond : ClusterSpec → bool) (write : ClusterSpec → ClusterSpec)
    (st : ClusterSpec * bool) : ClusterSpec * bool :=
  if cond st.1 then (write st.1, true) else st.

Definition set_postgres (f : PostgresConfiguration → PostgresConfiguration)
    : ClusterSpec → ClusterSpec := λ s, s <| cs_PostgresConfiguration ::= f |>.

Definition update_instances (d : ClusterSpec) := update_if
  (λ s, negb (cs_Instances s =? cs_Instances d))
  (λ s, s <| cs_Instances := cs_Instances d |>).
Definition update_image (d : ClusterSpec) := update_if
  (λ s, bool_decide (cs_ImageName d ≠ "") && bool_decide (cs_ImageName s ≠ cs_ImageName d))
  (λ s, s <| cs_ImageName := cs_ImageName d |>).
Definition update_resources (d : ClusterSpec) := update_if
  (λ s, negb (deep_equal (cs_Resources s) (cs_Resources d)))
  (λ s, s <| cs_Resources := cs_Resources d |>).
Definition update_superuser (d : ClusterSpec) := update_if
  (λ s, negb (deep_equal (cs_EnableSuperuserAccess s) (cs_EnableSuperuserAccess d)) &&
        is_Some_b (cs_EnableSuperuserAccess d))
  (λ s, s <| cs_EnableSuperuserAccess := cs_EnableSuperuserAccess d |>).
Definition update_parameters (d : ClusterSpec) := update_if
  (λ s, negb (deep_equal (pg_Parameters (cs_PostgresConfiguration s))
                (pg_Parameters (cs_PostgresConfiguration d))))
  (set_postgres (λ pg, pg <| pg_Parameters := pg_Parameters (cs_PostgresConfiguration d) |>)).
Definition update_hba (d : ClusterSpec) := update_if
  (λ s, negb (deep_equal (pg_PgHBA (cs_PostgresConfiguration s))
                (pg_PgHBA (cs_PostgresConfiguration d))))
  (set_postgres (λ pg, pg <| pg_PgHBA := pg_PgHBA (cs_PostgresConfiguration d) |>)).
Definition update_libraries (d : ClusterSpec) := update_if
  (λ s, negb (deep_equal (pg_AdditionalLibraries (cs_PostgresConfiguration s))
                (pg_AdditionalLibraries (cs_PostgresConfiguration d))))
  (set_postgres (λ pg,
     pg <| pg_AdditionalLibraries := pg_AdditionalLibraries (cs_PostgresConfiguration d) |>)).
Definition update_affinity (d : ClusterSpec) := update_if
  (λ s, negb (deep_equal (af_EnablePodAntiAffinity (cs_Affinity s))
                (af_EnablePodAntiAffinity (cs_Affinity d))))
  (λ s, s <| cs_Affinity ::= (λ a,
     a <| af_EnablePodAntiAffinity := af_EnablePodAntiAffinity (cs_Affinity d) |>) |>).

(** A nil [Managed] section is first replaced by an empty one, which does
    not count as a change. *)
Definition update_managed (d : ClusterSpec) (st : ClusterSpec * bool) : ClusterSpec * bool :=
  match cs_Managed d with
  | None => st
  | Some dm =>
      let em := default {| mg_Roles := []; mg_other := ∅ |} (cs_Managed st.1) in
      if deep_equal (mg_Roles em) (mg_Roles dm)
      then (st.1 <| cs_Managed := Some em |>, st.2)
      else (st.1 <| cs_Managed := Some (em <| mg_Roles := mg_Roles dm |>) |>, true)
  end.

Definition update_plugins (d : ClusterSpec) (st : ClusterSpec * bool) : ClusterSpec * bool :=
  let '(plugins, pluginsChanged) := reconcileBarmanPlugin (cs_Plugins st.1) (cs_Plugins d) in
  if pluginsChanged then (st.1 <| cs_Plugins := plugins |>, true) else st.

(** The spec afterwards, and whether it changed or the error. *)
Definition reconcileClusterMutableFields (existing desired : ClusterSpec)
    : ClusterSpec * result bool :=
  let '(storage, r) :=
    reconcileStorage (cs_StorageConfiguration existing) (cs_StorageConfiguration desired) in
  let existing := existing <| cs_StorageConfiguration := storage |> in
  match r with
  | inl err => (existing, inl err)
  | inr storageChanged =>
      let st := (existing, storageChanged) in
      let st := update_instances desired st in
      let st := update_image desired st in
      let st := update_resources desired st in
      let st := update_superuser desired st in
      let st := update_parameters desired st in
      let st := update_hba desired st in
      let st := update_libraries desired st in
      let st := update_affinity desired st in
      let st := update_managed desired st in
      let st := update_plugins desired st in
      (st.1, inr st.2)
  end.
End Mutable.

(** ** Effect of the mutable-field updates, field by field *)

Section MutableLemmas.
Context `{Platform}.

(** [v], or [new] where [c] asks for it. *)
Definition pick {A} (c : bool) (new v : A) : A := if c then new else v.

Lemma update_if_flag cond write st :
  (update_if cond write st).2 = cond st.1 || st.2.
Proof. unfold update_if. by destruct (cond st.1). Qed.

Definition image_differs (d s : string) : bool := bool_decide (d ≠ "") && bool_decide (s ≠ d).
Definition superuser_differs (d s : option bool) : bool :=
  negb (deep_equal s d) && is_Some_b d.

Definition sync_postgres (d p : PostgresConfiguration) : PostgresConfiguration :=
  {| pg_Parameters := pick (negb (deep_equal (pg_Parameters p) (pg_Parameters d)))
                        (pg_Parameters d) (pg_Parameters p);
     pg_PgHBA := pick (negb (deep_equal (pg_PgHBA p) (pg_PgHBA d))) (pg_PgHBA d) (pg_PgHBA p);
     pg_AdditionalLibraries :=
       pick (negb (deep_equal (pg_AdditionalLibraries p) (pg_AdditionalLibraries d)))
         (pg_AdditionalLibraries d) (pg_AdditionalLibraries p);
     pg_other := pg_other p |}.
Definition postgres_differs (d p : PostgresConfiguration) : bool :=
  negb (deep_equal (pg_Parameters p) (pg_Parameters d)) ||
  negb (deep_equal (pg_PgHBA p) (pg_PgHBA d)) ||
  negb (deep_equal (pg_AdditionalLibraries p) (pg_AdditionalLibraries d)).
Definition sync_affinity (d a : AffinityConfiguration) : AffinityConfiguration :=
  {| af_EnablePodAntiAffinity :=
       pick (negb (deep_equal (af_EnablePodAntiAffinity a) (af_EnablePodAntiAffinity d)))
         (af_EnablePodAntiAffinity d) (af_EnablePodAntiAffinity a);
     af_other := af_other a |}.
Definition managed_or_empty (m : option ManagedConfiguration) : ManagedConfiguration :=
  default {| mg_Roles := []; mg_other := ∅ |} m.
Definition sync_managed (d m : option ManagedConfiguration) : option ManagedConfiguration :=
  match d with
  | None => m
  | Some dm => let em := managed_or_empty m in
      Some {| mg_Roles := pick (negb (deep_equal (mg_Roles em) (mg_Roles dm)))
                            (mg_Roles dm) (mg_Roles em);
              mg_other := mg_other em |}
  end.
Definition managed_differs (d m : option ManagedConfiguration) : bool :=
  match d with
  | None => false
  | Some dm => negb (deep_equal (mg_Roles (managed_or_empty m)) (mg_Roles dm))
  end.

(** The spec after a successful reconciliation with storage [st]. *)
Definition synced (e d : ClusterSpec) (st : StorageConfiguration) : ClusterSpec :=
  {| cs_Instances := cs_Instances d;
     cs_ImageName := pick (image_differs (cs_ImageName d) (cs_ImageName e))
                       (cs_ImageName d) (cs_ImageName e);
     cs_EnableSuperuserAccess :=
       pick (superuser_differs (cs_EnableSuperuserAccess d) (cs_EnableSuperuserAccess e))
         (cs_EnableSuperuserAccess d) (cs_EnableSuperuserAccess e);
     cs_Bootstrap := cs_Bootstrap e;
     cs_PostgresConfiguration :=
       sync_postgres (cs_PostgresConfiguration d) (cs_PostgresConfiguration e);
     cs_StorageConfiguration := st;
     cs_Managed := sync_managed (cs_Managed d) (cs_Managed e);
     cs_Resources := pick (negb (deep_equal (cs_Resources e) (cs_Resources d)))
                       (cs_Resources d) (cs_Resources e);
     cs_Affinity := sync_affinity (cs_Affinity d) (cs_Affinity e);
     cs_Plugins := pick (reconcileBarmanPlugin (cs_Plugins e) (cs_Plugins d)).2
                     (reconcileBarmanPlugin (cs_Plugins e) (cs_Plugins d)).1 (cs_Plugins e);
     cs_ExternalClusters := cs_ExternalClusters e; cs_other := cs_other e |}.

(** Some owned field outside storage differs. *)
Definition differs (e d : ClusterSpec) : bool :=
  (reconcileBarmanPlugin (cs_Plugins e) (cs_Plugins d)).2 ||
  managed_differs (cs_Managed d) (cs_Managed e) ||
  negb (deep_equal (af_EnablePodAntiAffinity (cs_Affinity e))
          (af_EnablePodAntiAffinity (cs_Affinity d))) ||
  postgres_differs (cs_PostgresConfiguration d) (cs_PostgresConfiguration e) ||
  superuser_differs (cs_EnableSuperuserAccess d) (cs_EnableSuperuserAccess e) ||
  negb (deep_equal (cs_Resources e) (cs_Resources d)) ||
  image_differs (cs_ImageName d) (cs_ImageName e) ||
  negb (cs_Instances e =? cs_Instances d).

(** Each update writes one field, where its condition holds. *)
Ltac field_step s :=
  unfold update_if, set_postgres, image_differs, superuser_differs, set; cbn [fst snd]; cbv beta;
  match goal with |- (if ?c then _ else _) = (_, _) => destruct c eqn:? end;
  cbn [pick orb]; [done | by destruct s].

Lemma step_instances s b d : update_instances d (s, b) =
  (s <| cs_Instances := cs_Instances d |>, negb (cs_Instances s =? cs_Instances d) || b).
Proof.
  unfold update_instances, update_if. cbn [fst snd].
  destruct (Z.eqb_spec (cs_Instances s) (cs_Instances d)) as [E|]; [|done].
  rewrite <- E. by destruct s.
Qed.
Lemma step_image s b d : update_image d (s, b) =
  (s <| cs_ImageName ::= (λ v, pick (image_differs (cs_ImageName d) v) (cs_ImageName d) v) |>,
   image_differs (cs_ImageName d) (cs_ImageName s) || b).
Proof. unfold update_image. field_step s. Qed.
Lemma step_resources s b d : update_resources d (s, b) =
  (s <| cs_Resources ::= (λ v, pick (negb (deep_equal v (cs_Resources d))) (cs_Resources d) v) |>,
   negb (deep_equal (cs_Resources s) (cs_Resources d)) || b).
Proof. unfold update_resources. field_step s. Qed.
Lemma step_superuser s b d : update_superuser d (s, b) =
  (s <| cs_EnableSuperuserAccess ::= (λ v, pick (superuser_differs (cs_EnableSuperuserAccess d) v)
       (cs_EnableSuperuserAccess d) v) |>,
   superuser_differs (cs_EnableSuperuserAccess d) (cs_EnableSuperuserAccess s) || b).
Proof. unfold update_superuser. field_step s. Qed.
Lemma step_postgres s b d :
  update_libraries d (update_hba d (update_parameters d (s, b))) =
  (s <| cs_PostgresConfiguration ::= sync_postgres (cs_PostgresConfiguration d) |>,
   postgres_differs (cs_PostgresConfiguration d) (cs_PostgresConfiguration s) || b).
Proof.
  unfold update_parameters, update_hba, update_libraries, update_if, set_postgres, set,
    sync_postgres, postgres_differs.
  destruct s as [? ? ? ? [pa hb li ot] ? ? ? ? ? ? ?].
  generalize (cs_PostgresConfiguration d) as dp. intros dp. cbn -[deep_equal].
  destruct (deep_equal pa _) eqn:?; cbn -[deep_equal]; destruct (deep_equal hb _) eqn:?;
    cbn -[deep_equal]; destruct (deep_equal li _) eqn:?; cbn -[deep_equal]; done.
Qed.
Lemma step_affinity s b d : update_affinity d (s, b) =
  (s <| cs_Affinity ::= sync_affinity (cs_Affinity d) |>,
   negb (deep_equal (af_EnablePodAntiAffinity (cs_Affinity s))
           (af_EnablePodAntiAffinity (cs_Affinity d))) || b).
Proof.
  unfold update_affinity, update_if, set, sync_affinity. cbn [fst snd].
  destruct (negb _) eqn:?; [done|]. by destruct s as [? ? ? ? ? ? ? ? [] ? ? ?].
Qed.
Lemma step_managed s b d : update_managed d (s, b) =
  (s <| cs_Managed ::= sync_managed (cs_Managed d) |>,
   managed_differs (cs_Managed d) (cs_Managed s) || b).
Proof.
  unfold update_managed, sync_managed, managed_differs, managed_or_empty, set. cbn [fst snd].
  destruct (cs_Managed d) as [dm|]; [|by destruct s].
  destruct (deep_equal _ _); cbn; [|done]. by destruct (default _ _).
Qed.
Lemma step_plugins s b d : update_plugins d (s, b) =
  (s <| cs_Plugins ::= (λ v, pick (reconcileBarmanPlugin v (cs_Plugins d)).2
                               (reconcileBarmanPlugin v (cs_Plugins d)).1 v) |>,
   (reconcileBarmanPlugin (cs_Plugins s) (cs_Plugins d)).2 || b).
Proof.
  unfold update_plugins, set. cbn [fst snd].
  destruct (reconcileBarmanPlugin _ _) as [pl []]; cbn [fst snd pick orb]; [done|by destruct s].
Qed.

(** The update of the mutable fields in closed form: every owned field, and
    no other. *)
Lemma reconcileClusterMutableFields_synced e d :
  reconcileClusterMutableFields e d =
  let '(storage, r) :=
    reconcileStorage (cs_StorageConfiguration e) (cs_StorageConfiguration d) in
  match r with
  | inl err => (e <| cs_StorageConfiguration := storage |>, inl err)
  | inr c => (synced e d storage, inr (differs e d || c))
  end.
Proof.
  unfold reconcileClusterMutableFields.
  destruct (reconcileStorage _ _) as [st [err|c]]; [done|]. cbv zeta.
  rewrite step_instances, step_image, step_resources, step_superuser, step_postgres,
    step_affinity, step_managed, step_plugins.
  unfold synced, differs. rewrite !orb_assoc.
  destruct e as [e1 e2 e3 e4 e5 e6 e7 e8 e9 e10 e11 e12].
  destruct d as [d1 d2 d3 d4 d5 d6 d7 d8 d9 d10 d11 d12].
  cbv beta iota zeta delta [set const fst snd cs_Instances cs_ImageName
    cs_EnableSuperuserAccess cs_Bootstrap cs_PostgresConfiguration cs_StorageConfiguration
    cs_Managed cs_Resources cs_Affinity cs_Plugins cs_ExternalClusters cs_other].
  reflexivity.
Qed.
End MutableLemmas.

(** ** Storage *)

Section StorageLemmas.
Context `{PlatformLaws}.

Lemma set_optional_stable {A} `{DeepEqual (option A)} (e d : option A) :
  (∀ x : option A, deep_equal x x = true) →
  set_optional (set_optional e d).1 d = ((set_optional e d).1, false).
Proof.
  intros Hr. unfold set_optional. destruct d as [d|]; [|done].
  destruct (deep_equal e (Some d)) eqn:E; cbn; by rewrite ?E, ?Hr.
Qed.

Lemma eq_deep_equal_true {A} `{EqDecision A} (x : A) : eq_deep_equal x x = true.
Proof. by apply bool_decide_eq_true_2. Qed.

(** The size check in closed form. *)
Lemma storage_size_changed_inr e d c :
  storage_size_changed e d = inr c →
  c = bool_decide (st_Size d ≠ "") && bool_decide (st_Size e ≠ st_Size d) ∧
  (st_Size d ≠ "" → ∃ qd, ParseQuantity (st_Size d) = inr qd ∧
     (st_Size e ≠ "" → ∃ qe, ParseQuantity (st_Size e) = inr qe ∧ QuantityCmp qd qe ≠ Lt)).
Proof.
  unfold storage_size_changed. destruct (decide (st_Size d = "")) as [E|E].
  { rewrite bool_decide_eq_true_2, bool_decide_eq_false_2 by auto. intros [= <-]. done. }
  rewrite bool_decide_eq_false_2, (bool_decide_eq_true_2 (_ ≠ "")) by done.
  destruct (ParseQuantity (st_Size d)) as [err|qd]; [done|].
  destruct (decide (st_Size e = "")) as [E'|E'].
  - rewrite (bool_decide_eq_true_2 (st_Size e = "")) by done. intros [= <-]. naive_solver.
  - rewrite (bool_decide_eq_false_2 (st_Size e = "")) by done.
    destruct (ParseQuantity (st_Size e)) as [err|qe]; [done|].
    destruct (QuantityCmp qd qe) eqn:Eq; cbn; intros [= <-]; (split; [done|]); intros _;
      exists qd; (split; [done|]); intros _; exists qe; (split; [done|congruence]).
Qed.

(** Once the desired size is stored, the check passes without a change. *)
Lemma storage_size_stable e d c s' :
  storage_size_changed e d = inr c →
  st_Size s' = st_Size (if c then e <| st_Size := st_Size d |> else e) →
  storage_size_changed s' d = inr false.
Proof.
  intros Hc Hs. apply storage_size_changed_inr in Hc as [-> Hq].
  unfold storage_size_changed. destruct (decide (st_Size d = "")) as [E|E].
  { by rewrite bool_decide_eq_true_2. }
  rewrite bool_decide_eq_false_2 by done. destruct (Hq E) as (qd & Hqd & _). rewrite Hqd.
  assert (Hsd : st_Size s' = st_Size d).
  { rewrite Hs, (bool_decide_eq_true_2 (_ ≠ "")) by done. cbn.
    destruct (decide (st_Size e = st_Size d)) as [He|He].
    - by rewrite bool_decide_eq_false_2 by auto.
    - by rewrite bool_decide_eq_true_2. }
  rewrite Hsd, (bool_decide_eq_false_2 (st_Size d = "")) by done. rewrite Hqd.
  rewrite QuantityCmp_refl. cbn. by rewrite bool_decide_eq_false_2 by auto.
Qed.

Lemma reconcileStorage_stable e d s c :
  reconcileStorage e d = (s, inr c) → reconcileStorage s d = (s, inr false).
Proof.
  unfold reconcileStorage at 1. destruct (storage_size_changed e d) as [|sc] eqn:Es; [done|].
  set (e1 := if sc then _ else e).
  destruct (set_optional (st_StorageClass e1) _) as [v1 c1] eqn:E1.
  destruct (set_optional (st_ResizeInUseVolumes e1) _) as [v2 c2] eqn:E2.
  destruct (set_optional (st_PersistentVolumeClaimTemplate e1) _) as [v3 c3] eqn:E3.
  intros [= <- _]. unfold reconcileStorage.
  rewrite (storage_size_stable e d sc) by done.
  cbn [st_StorageClass st_ResizeInUseVolumes st_PersistentVolumeClaimTemplate st_Size].
  pose proof (set_optional_stable (st_StorageClass e1) (st_StorageClass d)) as H1.
  pose proof (set_optional_stable (st_ResizeInUseVolumes e1) (st_ResizeInUseVolumes d)) as H2.
  pose proof (set_optional_stable (st_PersistentVolumeClaimTemplate e1)
                (st_PersistentVolumeClaimTemplate d)) as H3.
  rewrite E1 in H1; rewrite E2 in H2; rewrite E3 in H3; cbn [fst] in *.
  rewrite H3 by apply deep_equal_refl. by rewrite H1, H2 by apply eq_deep_equal_true.
Qed.

(** An error leaves the storage as it was. *)
Lemma reconcileStorage_error e d s err : reconcileStorage e d = (s, inl err) → s = e.
Proof.
  unfold reconcileStorage. destruct (storage_size_changed e d) as [|sc]; [by intros [= <- _]|].
  repeat destruct (set_optional _ _); done.
Qed.

Lemma reconcileStorage_size e d s c :
  reconcileStorage e d = (s, inr c) →
  ∃ sc, storage_size_changed e d = inr sc ∧ st_Size s = if sc then st_Size d else st_Size e.
Proof.
  unfold reconcileStorage. destruct (storage_size_changed e d) as [|sc]; [done|].
  repeat destruct (set_optional _ _). intros [= <- _]. exists sc. split; [done|]. by destruct sc.
Qed.
End StorageLemmas.

(** ** The Barman plugin *)

Section BarmanLemmas.
Context `{Platform}.

Definition is_barman (p : PluginConfiguration) : bool :=
  bool_decide (pc_Name p = BarmanCloudPluginName).

Lemma plugin_deep_equal (x y : PluginConfiguration) : deep_equal x y = bool_decide (x = y).
Proof. done. Qed.

Lemma barman_loop_none l :
  barman_loop l None = (List.filter (λ p, negb (is_barman p)) l, false, existsb is_barman l).
Proof.
  induction l as [|p l IH]; cbn; [done|]. rewrite IH.
  change (bool_decide (pc_Name p = BarmanCloudPluginName)) with (is_barman p).
  by destruct (is_barman p).
Qed.
Lemma barman_loop_some l d :
  barman_loop l (Some d) =
  ((λ p, if is_barman p then d else p) <$> l, existsb is_barman l,
   existsb (λ p, is_barman p && negb (bool_decide (p = d))) l).
Proof.
  induction l as [|p l IH]; cbn; [done|]. rewrite IH, plugin_deep_equal.
  change (bool_decide (pc_Name p = BarmanCloudPluginName)) with (is_barman p).
  by destruct (is_barman p).
Qed.

(** The entry of a replaced list. *)
Lemma barman_replaced_stable (l : list PluginConfiguration) d :
  is_barman d = true →
  (λ p, if is_barman p then d else p) <$> ((λ p, if is_barman p then d else p) <$> l) =
  (λ p, if is_barman p then d else p) <$> l.
Proof. intros Hd. apply fmap_idemp. intros p. destruct (is_barman p) eqn:E; by rewrite ?Hd, ?E. Qed.

Lemma existsb_replaced (l : list PluginConfiguration) d :
  is_barman d = true →
  existsb is_barman ((λ p, if is_barman p then d else p) <$> l) = existsb is_barman l ∧
  existsb (λ p, is_barman p && negb (bool_decide (p = d)))
    ((λ p, if is_barman p then d else p) <$> l) = false.
Proof.
  intros Hd. induction l as [|p l [IH1 IH2]]; cbn; [done|]. rewrite IH1, IH2.
  destruct (is_barman p) eqn:E; rewrite ?Hd, ?E; cbn; [|done].
  by rewrite bool_decide_eq_true_2.
Qed.

Lemma filter_twice {A} (f : A → bool) l : List.filter f (List.filter f l) = List.filter f l.
Proof. induction l as [|x l IH]; cbn; [done|]. destruct (f x) eqn:E; cbn; by rewrite ?E, IH. Qed.
Lemma existsb_filter_out {A} (f : A → bool) l : existsb f (List.filter (λ x, negb (f x)) l) = false.
Proof. induction l as [|x l IH]; cbn; [done|]. by destruct (f x) eqn:E; cbn; rewrite ?E. Qed.
Lemma existsb_and_false {A} (f g : A → bool) l :
  existsb f l = false → existsb (λ p, f p && g p) l = false.
Proof. induction l as [|x l IH]; cbn; [done|]. intros Hl; bools. rewrite IH by done. by destruct (f x). Qed.

(** The plugins the cluster ends up with. *)
Definition barman_result (existing : list PluginConfiguration)
    (d : option PluginConfiguration) : list PluginConfiguration :=
  match d with
  | None => List.filter (λ p, negb (is_barman p)) existing
  | Some d =>
      if existsb is_barman existing then (λ p, if is_barman p then d else p) <$> existing
      else existing ++ [d]
  end.

Lemma find_barman (l : list PluginConfiguration) d :
  List.find (λ p, bool_decide (pc_Name p = BarmanCloudPluginName)) l = Some d → is_barman d = true.
Proof. by intros [_ Hd]%List.find_some. Qed.

Lemma fmap_no_barman (l : list PluginConfiguration) d :
  existsb is_barman l = false → (λ p, if is_barman p then d else p) <$> l = l.
Proof.
  induction l as [|p l IH]; cbn; [done|]. intros Hl; bools.
  rewrite IH by done. by match goal with Hp : is_barman p = _ |- _ => rewrite Hp end.
Qed.

Lemma reconcileBarmanPlugin_result e desired :
  (reconcileBarmanPlugin e desired).1 =
  barman_result e (List.find (λ p, bool_decide (pc_Name p = BarmanCloudPluginName)) desired).
Proof.
  unfold reconcileBarmanPlugin, barman_result.
  destruct (List.find _ desired) as [d|]; [rewrite barman_loop_some | by rewrite barman_loop_none].
  destruct (existsb is_barman e) eqn:E; cbn; [done|]. by rewrite fmap_no_barman.
Qed.

Lemma reconcileBarmanPlugin_stable e desired :
  reconcileBarmanPlugin (reconcileBarmanPlugin e desired).1 desired =
  ((reconcileBarmanPlugin e desired).1, false).
Proof.
  rewrite reconcileBarmanPlugin_result. unfold reconcileBarmanPlugin, barman_result.
  destruct (List.find _ desired) as [d|] eqn:Ed.
  - apply find_barman in Ed. rewrite barman_loop_some.
    destruct (existsb is_barman e) eqn:E.
    + destruct (existsb_replaced e d Ed) as [-> ->]. rewrite E. by rewrite barman_replaced_stable.
    + rewrite fmap_app, fmap_no_barman by done. rewrite !existsb_app. cbn. rewrite Ed. cbn.
      rewrite bool_decide_eq_true_2 by done. rewrite existsb_and_false by done.
      by rewrite E.
  - rewrite barman_loop_none, filter_twice. by rewrite existsb_filter_out.
Qed.

Lemma filter_barman_result e d :
  (∀ p, d = Some p → is_barman p = true) →
  List.filter (λ p, negb (is_barman p)) (barman_result e d) =
  List.filter (λ p, negb (is_barman p)) e.
Proof.
  intros Hd. unfold barman_result. destruct d as [d|]; [|apply filter_twice].
  specialize (Hd d eq_refl). destruct (existsb is_barman e).
  - induction e as [|p e IH]; cbn; [done|].
    destruct (is_barman p) eqn:E; rewrite ?Hd, ?E; cbn; [apply IH | by f_equal].
  - rewrite List.filter_app. cbn. rewrite Hd. cbn. by rewrite app_nil_r.
Qed.

Lemma barman_result_elem e d p :
  p ∈ barman_result e d → is_barman p = true → d = Some p.
Proof.
  unfold barman_result. destruct d as [d|].
  - destruct (existsb is_barman e) eqn:E.
    + intros (q & -> & _)%list_elem_of_fmap. destruct (is_barman q) eqn:Eq; congruence.
    + intros [Hp|Hp%list_elem_of_singleton]%elem_of_app Hb; [|by subst].
      rewrite <- not_true_iff_false, existsb_exists in E. destruct E. exists p.
      by rewrite <- list_elem_of_In.
  - intros Hp Hb. apply list_elem_of_In, List.filter_In in Hp as [_ Hp]. by rewrite Hb in Hp.
Qed.

Lemma barman_result_present e p : p ∈ barman_result e (Some p).
Proof.
  unfold barman_result. destruct (existsb is_barman e) eqn:E; [|apply elem_of_app; right; by left].
  apply existsb_exists in E as (q & Hq & Hb). apply list_elem_of_fmap. exists q.
  rewrite Hb. split; [done|]. by apply list_elem_of_In.
Qed.

Lemma reconcileBarmanPlugin_unchanged e desired :
  (reconcileBarmanPlugin e desired).2 = false → (reconcileBarmanPlugin e desired).1 = e.
Proof.
  unfold reconcileBarmanPlugin. destruct (List.find _ desired) as [d|] eqn:Ed.
  - rewrite barman_loop_some. destruct (existsb is_barman e) eqn:E; cbn; [|done].
    clear E Ed. intros Hl. induction e as [|p e IH]; cbn in *; [done|]. bools. f_equal; [|by apply IH].
    destruct (is_barman p); [|done]. cbn in *. bools. congruence.
  - rewrite barman_loop_none. cbn. apply filter_not_existsb.
Qed.
End BarmanLemmas.

(** C23: [reconcileBarmanPlugin] keeps every foreign plugin in place, leaves
    the Barman plugin in exactly the desired state (replaced where it stands,
    appended when missing, removed when no longer desired), says "changed"
    exactly when the list differs, and has nothing to do on its own result. *)
Theorem reconcileBarmanPlugin_spec `{Platform} existing desired plugins changed :
  reconcileBarmanPlugin existing desired = (plugins, changed) →
  let d := List.find is_barman desired in
  List.filter (λ p, negb (is_barman p)) plugins =
    List.filter (λ p, negb (is_barman p)) existing ∧
  (∀ p, p ∈ plugins → is_barman p = true → d = Some p) ∧
  (∀ p, d = Some p → p ∈ plugins) ∧
  (changed = false ↔ plugins = existing) ∧
  reconcileBarmanPlugin plugins desired = (plugins, false).
Proof.
  intros Hr d.
  pose proof (reconcileBarmanPlugin_result existing desired) as Hres.
  pose proof (reconcileBarmanPlugin_stable existing desired) as Hst.
  pose proof (reconcileBarmanPlugin_unchanged existing desired) as Hun.
  rewrite Hr in Hres, Hst, Hun. cbn [fst snd] in *.
  change (List.find _ desired) with d in Hres.
  assert (Hd : ∀ p, d = Some p → is_barman p = true) by (intros p; apply find_barman).
  rewrite Hres. split_and!.
  - by apply filter_barman_result.
  - intros p. apply barman_result_elem.
  - intros p ->. apply barman_result_present.
  - rewrite <- Hres. split; [done|]. intros Heq. rewrite Heq in Hst. congruence.
  - by rewrite <- Hres.
Qed.

(** ** Convergence of the mutable fields *)

Section Convergence.
Context `{PlatformLaws}.

Lemma pick_settled {A} `{DeepEqual A} (v d : A) :
  deep_equal d d = true →
  negb (deep_equal (pick (negb (deep_equal v d)) d v) d) = false.
Proof. intros Hr. unfold pick. destruct (deep_equal v d) eqn:E; cbn; by rewrite ?E, ?Hr. Qed.

Lemma pick_image_settled d v :
  image_differs d (pick (image_differs d v) d v) = false.
Proof.
  unfold pick. destruct (image_differs d v) eqn:E; [|done].
  unfold image_differs. rewrite (bool_decide_eq_false_2 (d ≠ d)) by auto. apply andb_false_r.
Qed.

Lemma pick_superuser_settled d v :
  superuser_differs d (pick (superuser_differs d v) d v) = false.
Proof.
  unfold pick. destruct (superuser_differs d v) eqn:E; [|done].
  unfold superuser_differs. unfold deep_equal, optbool_deq. by rewrite eq_deep_equal_true.
Qed.

Lemma postgres_settled d p : postgres_differs d (sync_postgres d p) = false.
Proof.
  unfold postgres_differs, sync_postgres. cbn [pg_Parameters pg_PgHBA pg_AdditionalLibraries].
  by rewrite !pick_settled by apply eq_deep_equal_true.
Qed.

Lemma managed_settled d m : managed_differs d (sync_managed d m) = false.
Proof.
  unfold managed_differs, sync_managed. destruct d as [dm|]; [|done]. cbn.
  by rewrite pick_settled by apply eq_deep_equal_true.
Qed.

Lemma synced_settled e d st : differs (synced e d st) d = false.
Proof.
  unfold differs, synced. cbn [cs_Instances cs_ImageName cs_EnableSuperuserAccess
    cs_PostgresConfiguration cs_Managed cs_Resources cs_Affinity cs_Plugins].
  rewrite pick_image_settled, pick_superuser_settled, postgres_settled, managed_settled.
  rewrite pick_settled by apply deep_equal_refl.
  unfold sync_affinity. cbn [af_EnablePodAntiAffinity].
  rewrite pick_settled by apply eq_deep_equal_true. rewrite Z.eqb_refl.
  destruct (reconcileBarmanPlugin (cs_Plugins e) _) as [pl []] eqn:E; cbn [pick fst snd].
  - pose proof (reconcileBarmanPlugin_stable (cs_Plugins e) (cs_Plugins d)) as Hs.
    rewrite E in Hs. cbn [fst] in Hs. by rewrite Hs.
  - by rewrite E.
Qed.

Lemma sync_postgres_same d p : postgres_differs d p = false → sync_postgres d p = p.
Proof.
  unfold postgres_differs, sync_postgres. intros Hd. bools. destruct p. cbn in *.
  repeat match goal with Hx : deep_equal ?x ?y = true |- context [deep_equal ?x ?y] =>
    rewrite Hx end. done.
Qed.
Lemma sync_affinity_same d a :
  deep_equal (af_EnablePodAntiAffinity a) (af_EnablePodAntiAffinity d) = true →
  sync_affinity d a = a.
Proof. unfold sync_affinity. intros ->. by destruct a. Qed.
Lemma sync_managed_same d m :
  managed_differs d m = false →
  managed_or_empty (sync_managed d m) = managed_or_empty m ∧ (is_Some m → sync_managed d m = m).
Proof.
  unfold managed_differs, sync_managed. destruct d as [dm|]; [|done].
  intros Hd. bools. rewrite Hd. destruct m as [[]|]; cbn; [done|]. split; [done|]. by intros [].
Qed.

(** Where nothing differs, only a nil [Managed] becomes an empty one. *)
Lemma synced_same e d st :
  differs e d = false →
  e <| cs_StorageConfiguration := st |> =
    (synced e d st) <| cs_Managed := cs_Managed e |> ∧
  managed_or_empty (cs_Managed (synced e d st)) = managed_or_empty (cs_Managed e).
Proof.
  unfold differs. intros Hd. bools. unfold synced. split.
  - rewrite sync_postgres_same, sync_affinity_same by done.
    repeat match goal with
    | Hx : ?b = true |- context [pick (negb ?b)] => rewrite Hx
    | Hx : ?b = false |- context [pick ?b] => rewrite Hx
    | Hx : (_ =? _) = true |- _ => apply Z.eqb_eq in Hx; rewrite <- Hx
    end. by destruct e.
  - cbn [cs_Managed]. by apply sync_managed_same.
Qed.

Lemma sync_managed_idemp d m : sync_managed d (sync_managed d m) = sync_managed d m.
Proof.
  destruct d as [dm|]; [|done]. apply sync_managed_same; [apply managed_settled | done].
Qed.

Lemma synced_idemp e d st : synced (synced e d st) d st = synced e d st.
Proof.
  destruct (synced_same (synced e d st) d st (synced_settled e d st)) as [Heq _].
  transitivity ((synced (synced e d st) d st) <| cs_Managed := cs_Managed (synced e d st) |>).
  - assert (Hm : cs_Managed (synced (synced e d st) d st) = cs_Managed (synced e d st))
      by apply sync_managed_idemp.
    rewrite <- Hm. by destruct (synced (synced e d st) d st).
  - rewrite <- Heq. unfold synced. done.
Qed.

(** Where the storage check reports no change, the storage is the same. *)
Lemma reconcileStorage_same e d s : reconcileStorage e d = (s, inr false) → s = e.
Proof.
  unfold reconcileStorage, set_optional.
  destruct (storage_size_changed e d) as [|[]]; [done| |];
    repeat (case_match; simplify_eq/=; try done); intros [= <-]; by destruct e.
Qed.
End Convergence.

(** C21: reconciling the mutable fields of a stored cluster either fails and
    leaves its spec exactly as it was, or succeeds without ever shrinking the
    volume, without touching the bootstrap, the external clusters or any field
    outside the project's projection, and in a state on which a second
    reconciliation changes nothing; and when it reports no change there was
    nothing to write (only a nil [managed] section is materialised as an empty
    one). *)
Theorem reconcileClusterMutableFields_converges `{PlatformLaws} e d e' r :
  reconcileClusterMutableFields e d = (e', r) →
  match r with
  | inl _ => e' = e
  | inr changed =>
      reconcileClusterMutableFields e' d = (e', inr false) ∧
      cs_Instances e' = cs_Instances d ∧
      cs_Bootstrap e' = cs_Bootstrap e ∧ cs_ExternalClusters e' = cs_ExternalClusters e ∧
      cs_other e' = cs_other e ∧ af_other (cs_Affinity e') = af_other (cs_Affinity e) ∧
      pg_other (cs_PostgresConfiguration e') = pg_other (cs_PostgresConfiguration e) ∧
      (∀ qe qd, st_Size (cs_StorageConfiguration e) ≠ "" → st_Size (cs_StorageConfiguration d) ≠ "" →
         ParseQuantity (st_Size (cs_StorageConfiguration e)) = inr qe →
         ParseQuantity (st_Size (cs_StorageConfiguration d)) = inr qd →
         QuantityCmp qd qe ≠ Lt ∧
         st_Size (cs_StorageConfiguration e') = st_Size (cs_StorageConfiguration d)) ∧
      (changed = false →
         e = e' <| cs_Managed := cs_Managed e |> ∧
         managed_or_empty (cs_Managed e') = managed_or_empty (cs_Managed e))
  end.
Proof.
  rewrite reconcileClusterMutableFields_synced.
  destruct (reconcileStorage _ _) as [st [err|sc]] eqn:Es.
  { intros [= <- <-]. apply reconcileStorage_error in Es as ->. by destruct e. }
  intros [= <- <-]. split_and!; try done.
  - rewrite reconcileClusterMutableFields_synced. cbn [cs_StorageConfiguration synced].
    rewrite (reconcileStorage_stable _ _ _ _ Es), synced_settled. by rewrite synced_idemp.
  - intros qe qd He Hd Hqe Hqd. apply reconcileStorage_size in Es as (c & Hc & Hs).
    apply storage_size_changed_inr in Hc as [-> Hq].
    destruct (Hq Hd) as (qd' & Hqd' & Hqe'). destruct (Hqe' He) as (qe' & Hqe'' & Hcmp).
    assert (qd' = qd) as -> by congruence. assert (qe' = qe) as -> by congruence.
    split; [done|]. cbn [synced cs_StorageConfiguration]. rewrite Hs.
    rewrite (bool_decide_eq_true_2 (_ ≠ "")) by done. cbn.
    destruct (decide (st_Size (cs_StorageConfiguration e) = st_Size (cs_StorageConfiguration d)))
      as [Heq|Hne]; [by rewrite Heq, bool_decide_eq_false_2 by auto |
                     by rewrite bool_decide_eq_true_2].
  - intros [Hdiff Hsc]%orb_false_iff. subst sc. apply reconcileStorage_same in Es as ->.
    destruct (synced_same e d (cs_StorageConfiguration e) Hdiff) as [Heq Hm].
    split; [|done]. rewrite <- Heq. by destruct e.
Qed.

(** ** The bootstrap guard *)

(** The creation-time inputs of two clusters agree. *)
Record same_bootstrap_intent (e d : ClusterSpec) : Prop := {
  sbi_recovery : recoveryBootstrap (cs_Bootstrap e) = recoveryBootstrap (cs_Bootstrap d);
  sbi_initdb : ∀ ei di, cs_Bootstrap e ≫= bc_InitDB = Some ei →
    cs_Bootstrap d ≫= bc_InitDB = Some di →
    ib_Database ei = ib_Database di ∧ ib_Owner ei = ib_Owner di ∧ ib_Secret ei = ib_Secret di ∧
    ib_PostInitApplicationSQLRefs ei = ib_PostInitApplicationSQLRefs di;
  sbi_source : ∀ r, recoveryBootstrap (cs_Bootstrap d) = Some r →
    (λ s, recoveryExternalClusterIdentity (Some s)) <$>
      recoveryExternalCluster (cs_ExternalClusters e) (br_Source r) =
    (λ s, recoveryExternalClusterIdentity (Some s)) <$>
      recoveryExternalCluster (cs_ExternalClusters d) (br_Source r) }.

Lemma initdb_changed_false e d :
  initdb_changed e d = false ↔
  ib_Database e = ib_Database d ∧ ib_Owner e = ib_Owner d ∧ ib_Secret e = ib_Secret d ∧
  ib_PostInitApplicationSQLRefs e = ib_PostInitApplicationSQLRefs d.
Proof.
  unfold initdb_changed, deep_equal, optstring_deq, SqlRefs_deq, eq_deep_equal.
  rewrite !orb_false_iff, !negb_false_iff, !bool_decide_eq_false, !bool_decide_eq_true.
  split; [intros (((? & ?) & ?) & ?) | intros (? & ? & ? & ?)]; split_and!; auto;
    by apply dec_stable.
Qed.

(** The external source named by a recovery, with its identity. *)
Lemma source_unchanged (es ds : option ExternalCluster) :
  (if xorb (is_Some_b es) (is_Some_b ds) then true
   else is_Some_b es && negb (bool_decide (recoveryExternalClusterIdentity es =
                                           recoveryExternalClusterIdentity ds))) = false ↔
  (λ s, recoveryExternalClusterIdentity (Some s)) <$> es =
  (λ s, recoveryExternalClusterIdentity (Some s)) <$> ds.
Proof.
  destruct es as [es|], ds as [ds|]; cbn -[recoveryExternalClusterIdentity]; try done.
  rewrite negb_false_iff, bool_decide_eq_true. split; intros Hx; congruence.
Qed.

(** C22: the bootstrap guard of an existing cluster passes exactly when the
    creation-time inputs agree: same mode (initdb or recovery), same recovery
    section, same owned initdb fields and, for a recovery, the same identity
    (name, plugin, object store, server) of the external source. *)
Theorem recoveryBootstrapIntentChanged_spec existing desired :
  recoveryBootstrapIntentChanged existing desired = false ↔
  same_bootstrap_intent (cl_Spec existing) (cl_Spec desired).
Proof.
  unfold recoveryBootstrapIntentChanged.
  set (e := cl_Spec existing); set (d := cl_Spec desired).
  set (er := recoveryBootstrap (cs_Bootstrap e)); set (dr := recoveryBootstrap (cs_Bootstrap d)).
  assert (Hinit : (match cs_Bootstrap e ≫= bc_InitDB, cs_Bootstrap d ≫= bc_InitDB with
                   | Some ei, Some di => initdb_changed ei di | _, _ => false end = false) ↔
    ∀ ei di, cs_Bootstrap e ≫= bc_InitDB = Some ei → cs_Bootstrap d ≫= bc_InitDB = Some di →
      ib_Database ei = ib_Database di ∧ ib_Owner ei = ib_Owner di ∧ ib_Secret ei = ib_Secret di ∧
      ib_PostInitApplicationSQLRefs ei = ib_PostInitApplicationSQLRefs di).
  { destruct (cs_Bootstrap e ≫= _) as [ei|], (cs_Bootstrap d ≫= _) as [di|]; try naive_solver.
    rewrite initdb_changed_false. naive_solver. }
  assert (Hrec : ∀ x y : BootstrapRecovery, negb (deep_equal x y) = false ↔ x = y).
  { intros x y. rewrite negb_false_iff. apply bool_decide_eq_true. }
  pose proof (source_unchanged) as Hsrc.
  split.
  - intros Hf.
    destruct er as [er'|] eqn:Eer, dr as [dr'|] eqn:Edr; cbn [is_Some_b xorb] in Hf; try done.
    + match type of Hf with (if ?c then _ else _) = _ => destruct c eqn:Ei; [done|] end.
      destruct (negb (deep_equal er' dr')) eqn:Er; [done|]. apply Hrec in Er as ->.
      split; [by fold er dr; congruence | by apply Hinit |].
      intros r Hr. fold dr in Hr. assert (r = dr') as -> by congruence. by apply Hsrc.
    + match type of Hf with (if ?c then _ else _) = _ => destruct c eqn:Ei; [done|] end.
      split; [by fold er dr; congruence | by apply Hinit |].
      intros r Hr. fold dr in Hr. congruence.
  - intros [Hr Hi Hs]. fold er dr in Hr, Hs. rewrite (proj2 Hinit Hi), Hr.
    destruct dr as [dr'|]; cbn [is_Some_b xorb]; [|done].
    rewrite (proj2 (Hrec dr' dr') eq_refl). apply Hsrc, (Hs dr' eq_refl).
Qed.
