(* ===== verification/Store.v ===== *)
(** * Create-or-update helpers (the "helper methods" of
    src/internal/controller/supabaseproject_controller.go)

    How the controller writes each kind of object: adoption guards, owner
    references, the fields it owns, and when it sends no request at all. *)

From S2P Require Import Prelude KubeTypes Types Platform Effects Common Cnpg ObjectSync.

Section Store.
Context `{Platform}.

(** [r.setCondition]; metav1.Now reads the clock. *)
Definition setCondition (conditionType status reason message : string) : M unit :=
  now ← call Now;
  modify_project (λ p,
    let condition :=
      {| cd_Type := conditionType; cd_Status := status;
         cd_ObservedGeneration := om_Generation (prj_meta p);
         cd_LastTransitionTime := now; cd_Reason := reason; cd_Message := message |} in
    p <| prj_Status ::= (λ s, s <| sts_Conditions ::= (λ cs, SetStatusCondition cs condition) |>) |>).

(** A successful status update decodes the stored project into the
    controller's copy. *)
Definition updateProjectStatus : M unit :=
  p ← get_project;
  current ← api_get KProject (meta_key (prj_meta p));
  if deep_equal (prj_Status current) (prj_Status p) then mret tt
  else
    r ← call (StatusUpdate p);
    stored ← lift r;
    put_project stored.

(** [setCondition] then [updateProjectStatus], as on most paths. *)
Definition report (conditionType status reason message : string) : M unit :=
  _ ← setCondition conditionType status reason message;
  updateProjectStatus.

(** [controllerutil.SetControllerReference(project, o, r.Scheme)]. *)
Definition set_owner {k} (o : object k) : M (object k) :=
  p ← get_project;
  refs ← lift (SetControllerReference (prj_meta p) (obj_meta o));
  mret (set_meta ((obj_meta o) <| om_OwnerReferences := refs |>) o).

(** [r.Get]: the object, or [None] when the server says NotFound; another
    error is returned through [wrap]. *)
Definition lookup_object (k : kind) (key : NamespacedName) (wrap : error → error)
    : M (option (object k)) :=
  r ← attempt (api_get k key);
  match r with
  | inr o => mret (Some o)
  | inl err => if IsNotFound err then mret None else throw (wrap err)
  end.

Definition owners_changed {k} (before after : object k) : bool :=
  negb (deep_equal (om_OwnerReferences (obj_meta before)) (om_OwnerReferences (obj_meta after))).

Definition update_ {k} (o : object k) : M unit := _ ← api_update k o; mret tt.

(** ** Secrets: created once, then only their owner is repaired *)

Definition createOrUpdateSecret (secret : Secret) : M unit :=
  secret ← set_owner (k := KSecret) secret;
  existing ← lookup_object KSecret (meta_key (sec_meta secret)) id;
  match existing with
  | None => api_create KSecret secret
  | Some existing =>
      adopted ← set_owner (k := KSecret) existing;
      if owners_changed (k := KSecret) existing adopted then update_ (k := KSecret) adopted
      else mret tt
  end.

(** ** ConfigMaps *)

Definition createOrUpdateConfigMap (configMap : ConfigMap) : M unit :=
  configMap ← set_owner (k := KConfigMap) configMap;
  existing ← lookup_object KConfigMap (meta_key (cm_meta configMap)) id;
  match existing with
  | None => api_create KConfigMap configMap
  | Some existing =>
      p ← get_project;
      if bool_decide (map_get (om_Labels (cm_meta existing)) LabelInstance ≠ prj_Name p)
      then throw (ErrorString ("refusing to adopt ConfigMap " +:+ om_Name (cm_meta existing) +:+
                    " without the project instance label"))
      else
        adopted ← set_owner (k := KConfigMap) existing;
        let ownerChanged := owners_changed (k := KConfigMap) existing adopted in
        let '(m, labelsChanged) := mergeLabels (cm_meta adopted) (om_Labels (cm_meta configMap)) in
        let adopted := adopted <| cm_meta := m |> in
        if deep_equal (cm_Data adopted) (cm_Data configMap) &&
           negb ownerChanged && negb labelsChanged
        then mret tt
        else update_ (k := KConfigMap) (adopted <| cm_Data := cm_Data configMap |>)
  end.

(** ** Deployments *)

(** The deployment is non-nil at every call. *)
Definition createOrUpdateDeployment (deployment : Deployment) : M unit :=
  deployment ← set_owner (k := KDeployment) deployment;
  existing ← lookup_object KDeployment (meta_key (dp_meta deployment)) id;
  match existing with
  | None => api_create KDeployment deployment
  | Some existing =>
      adopted ← set_owner (k := KDeployment) existing;
      let desired := deployment <| dp_Template ::= normalizePodTemplateDefaults |> in
      let actual := adopted <| dp_Template ::= normalizePodTemplateDefaults |> in
      let ownerChanged := owners_changed (k := KDeployment) existing adopted in
      let strategyChanged :=
        bool_decide (dst_Type (dp_Strategy desired) ≠ "") &&
        negb (deep_equal (dp_Strategy actual) (dp_Strategy desired)) in
      if deep_equal (dp_Replicas actual) (dp_Replicas desired) &&
         deep_equal (dp_Template actual) (dp_Template desired) &&
         negb ownerChanged && negb strategyChanged
      then mret tt
      else
        let adopted := adopted <| dp_Replicas := dp_Replicas desired |>
                               <| dp_Template := dp_Template desired |> in
        let adopted :=
          if strategyChanged then adopted <| dp_Strategy := dp_Strategy desired |> else adopted in
        update_ (k := KDeployment) adopted
  end.

(** ** Services *)

Definition createOrUpdateService (service : Service) : M unit :=
  service ← set_owner (k := KService) service;
  existing ← lookup_object KService (meta_key (svc_meta service)) id;
  match existing with
  | None => api_create KService service
  | Some existing =>
      adopted ← set_owner (k := KService) existing;
      if deep_equal (svc_Ports adopted) (svc_Ports service) &&
         deep_equal (svc_Selector adopted) (svc_Selector service) &&
         negb (owners_changed (k := KService) existing adopted)
      then mret tt
      else update_ (k := KService) (adopted <| svc_Ports := svc_Ports service |>
                                            <| svc_Selector := svc_Selector service |>)
  end.

(** ** Durable backup resources: no owner reference *)

Definition object_store_config_changed (current desired : BarmanObjectStoreConfiguration) : bool :=
  negb (deep_equal (bo_BarmanCredentials current) (bo_BarmanCredentials desired)) ||
  bool_decide (bo_EndpointURL current ≠ bo_EndpointURL desired) ||
  bool_decide (bo_DestinationPath current ≠ bo_DestinationPath desired) ||
  (bool_decide (bo_Wal desired ≠ None) && negb (deep_equal (bo_Wal current) (bo_Wal desired))) ||
  (bool_decide (bo_Data desired ≠ None) && negb (deep_equal (bo_Data current) (bo_Data desired))).

Definition createOrUpdateObjectStore (objectStore : option ObjectStore) : M unit :=
  match objectStore with
  | None => mret tt
  | Some objectStore =>
      existing ← lookup_object KObjectStore (meta_key (os_meta objectStore))
                   (WrapError "failed to get ObjectStore: ");
      match existing with
      | None => map_error (api_create KObjectStore objectStore)
                  (WrapError "failed to create ObjectStore: ")
      | Some existing =>
          let projectName := map_get (om_Labels (os_meta objectStore)) LabelInstance in
          let instance := map_get (om_Labels (os_meta existing)) LabelInstance in
          if bool_decide (projectName = "")
          then throw (ErrorString ("ObjectStore " +:+ om_Name (os_meta existing) +:+
                        " has no project instance label"))
          else if bool_decide (instance ≠ projectName)
          then throw (ErrorString ("ObjectStore " +:+ om_Name (os_meta existing) +:+
                        " has instance label " +:+ Quote instance +:+ ", expected " +:+
                        Quote projectName))
          else
            let '(m, changed1) := removeSupabaseProjectOwnerReference (os_meta existing) projectName in
            let '(m, changed2) := mergeLabels m (om_Labels (os_meta objectStore)) in
            let desired := os_Configuration objectStore in
            let current := os_Configuration existing in
            let changed := changed1 || changed2 || object_store_config_changed current desired ||
              bool_decide (os_RetentionPolicy existing ≠ os_RetentionPolicy objectStore) in
            let current := current <| bo_BarmanCredentials := bo_BarmanCredentials desired |>
              <| bo_EndpointURL := bo_EndpointURL desired |>
              <| bo_DestinationPath := bo_DestinationPath desired |> in
            let current :=
              match bo_Wal desired with
              | Some _ => current <| bo_Wal := bo_Wal desired |> | None => current
              end in
            let current :=
              match bo_Data desired with
              | Some _ => current <| bo_Data := bo_Data desired |> | None => current
              end in
            if negb changed then mret tt
            else map_error (update_ (k := KObjectStore)
                   (existing <| os_meta := m |> <| os_Configuration := current |>
                             <| os_RetentionPolicy := os_RetentionPolicy objectStore |>))
                   (WrapError "failed to update ObjectStore: ")
      end
  end.

Definition createOrUpdateScheduledBackup (scheduledBackup : option ScheduledBackup) : M unit :=
  match scheduledBackup with
  | None => mret tt
  | Some sb =>
      existing ← lookup_object KScheduledBackup (meta_key (sb_meta sb))
                   (WrapError "failed to get ScheduledBackup: ");
      match existing with
      | None => map_error (api_create KScheduledBackup sb)
                  (WrapError "failed to create ScheduledBackup: ")
      | Some existing =>
          let projectName := map_get (om_Labels (sb_meta sb)) LabelInstance in
          let instance := map_get (om_Labels (sb_meta existing)) LabelInstance in
          if bool_decide (projectName = "")
          then throw (ErrorString ("ScheduledBackup " +:+ om_Name (sb_meta existing) +:+
                        " has no project instance label"))
          else if bool_decide (instance ≠ projectName)
          then throw (ErrorString ("ScheduledBackup " +:+ om_Name (sb_meta existing) +:+
                        " has instance label " +:+ Quote instance +:+ ", expected " +:+
                        Quote projectName))
          else
            let '(m, changed1) := removeSupabaseProjectOwnerReference (sb_meta existing) projectName in
            let '(m, changed2) := mergeLabels m (om_Labels (sb_meta sb)) in
            let changed := changed1 || changed2 ||
              bool_decide (sb_Schedule existing ≠ sb_Schedule sb) ||
              negb (deep_equal (sb_Cluster existing) (sb_Cluster sb)) ||
              bool_decide (sb_BackupOwnerReference existing ≠ sb_BackupOwnerReference sb) ||
              bool_decide (sb_Method existing ≠ sb_Method sb) ||
              negb (deep_equal (sb_PluginConfiguration existing) (sb_PluginConfiguration sb)) in
            if negb changed then mret tt
            else map_error (update_ (k := KScheduledBackup)
                   (existing <| sb_meta := m |> <| sb_Schedule := sb_Schedule sb |>
                      <| sb_Cluster := sb_Cluster sb |>
                      <| sb_BackupOwnerReference := sb_BackupOwnerReference sb |>
                      <| sb_Method := sb_Method sb |>
                      <| sb_PluginConfiguration := sb_PluginConfiguration sb |>))
                   (WrapError "failed to update ScheduledBackup: ")
      end
  end.

(** ** CronJobs and Jobs *)

Definition createOrUpdateCronJob (cronJob : CronJob) : M unit :=
  cronJob ← set_owner (k := KCronJob) cronJob;
  existing ← lookup_object KCronJob (meta_key (cj_meta cronJob)) id;
  match existing with
  | None => api_create KCronJob cronJob
  | Some existing =>
      adopted ← set_owner (k := KCronJob) existing;
      let desired := normalizeCronJobDefaults (cj_Spec cronJob) in
      let actual := normalizeCronJobDefaults (cj_Spec adopted) in
      let ownerChanged := owners_changed (k := KCronJob) existing adopted in
      let '(m, labelsChanged) := mergeLabels (cj_meta adopted) (om_Labels (cj_meta cronJob)) in
      if deep_equal actual desired && negb ownerChanged && negb labelsChanged
      then mret tt
      else update_ (k := KCronJob) (adopted <| cj_meta := m |> <| cj_Spec := desired |>)
  end.

(** The first terminal condition of a Job, in the order of its conditions. *)
Fixpoint job_verdict (name : string) (conditions : list JobCondition) : result bool :=
  match conditions with
  | [] => inr false
  | c :: rest =>
      if bool_decide (jc_Status c ≠ ConditionTrue) then job_verdict name rest
      else if bool_decide (jc_Type c = "Complete") then inr true
      else if bool_decide (jc_Type c = "Failed")
      then inl (ErrorString ("job " +:+ name +:+ " has failed: " +:+ jc_Message c))
      else job_verdict name rest
  end.

Definition createOrCheckJob (job : Job) (scriptHash : string) : M bool :=
  job ← set_owner (k := KJob) job;
  let job := job <| job_meta ::= (λ m, m <| om_Annotations ::=
               (λ a, <[cdcScriptHashAnnotation := scriptHash]> a) |>) |> in
  let name := om_Name (job_meta job) in
  existing ← lookup_object KJob (meta_key (job_meta job)) id;
  match existing with
  | None => _ ← api_create KJob job; mret false
  | Some existing =>
      p ← get_project;
      if bool_decide (map_get (om_Labels (job_meta existing)) LabelInstance ≠ prj_Name p)
      then throw (ErrorString ("refusing to adopt Job " +:+ om_Name (job_meta existing) +:+
                    " without the project instance label"))
      else
        adopted ← set_owner (k := KJob) existing;
        let ownerChanged := owners_changed (k := KJob) existing adopted in
        let '(m, labelsChanged) := mergeLabels (job_meta adopted) (om_Labels (job_meta job)) in
        let adopted := adopted <| job_meta := m |> in
        let existingHash := map_get (om_Annotations (job_meta adopted)) cdcScriptHashAnnotation in
        if bool_decide (existingHash ≠ scriptHash)
        then
          r ← attempt (api_delete KJob adopted true);
          match r with
          | inl err =>
              if IsNotFound err then mret false
              else throw (WrapError ("failed to delete outdated Job " +:+ name +:+ ": ") err)
          | inr _ => mret false
          end
        else
          checked ← (if ownerChanged || labelsChanged
                     then map_error (api_update KJob adopted)
                            (WrapError "updating CDC permissions Job metadata: ")
                     else mret adopted);
          lift (job_verdict name (job_Conditions checked))
  end.

(** ** Cleanup and readiness *)

(** [client.IgnoreNotFound(r.Delete(ctx, object))]. *)
Definition delete_ignore {k} (o : object k) : M unit :=
  r ← attempt (api_delete k o false);
  match r with
  | inl err => if IsNotFound err then mret tt else throw err
  | inr _ => mret tt
  end.

Definition deletePowerSyncOwnedResource (k : kind) (name : string) : M unit :=
  p ← get_project;
  existing ← lookup_object k {| nn_Namespace := prj_Namespace p; nn_Name := name |} id;
  match existing with
  | None => mret tt
  | Some o => if IsControlledBy (obj_meta o) (prj_meta p) then delete_ignore o else mret tt
  end.

Definition deploymentStatus (desired : Deployment) : M (bool * Z) :=
  existing ← lookup_object KDeployment (meta_key (dp_meta desired)) id;
  match existing with
  | None => mret (false, 0)
  | Some d => mret (deploymentIsReady d, dps_AvailableReplicas (dp_Status d))
  end.
End Store.

(** ** Invariant preservation of the basic steps *)

Section StoreOk.
Context `{Platform} {P : policy} {J : trace → SupabaseProject → Prop}.
Context (HP : permissive P J).

(** [J] does not depend on the status conditions. *)
Definition condition_free : Prop :=
  ∀ h s f, J h s → J h (s <| prj_Status ::= (λ st, st <| sts_Conditions ::= f |>) |>).

Lemma updateProjectStatus_ok : ok P J updateProjectStatus.
Proof using HP.
  destruct HP as [He Hr Hst Hsto]. intros h s Hs. split; [by apply Hr|].
  intros [e|current] _; cbn; [by apply He|].
  destruct (deep_equal _ _); cbn; [by apply He|].
  split; [by apply Hst, He|]. intros [e|stored] Hrel; cbn; [by apply He, He|].
  eapply Hsto; [by apply He, He|done].
Qed.

Context (HC : condition_free).

Lemma setCondition_ok t st r m : ok P J (setCondition t st r m).
Proof using HP HC.
  apply ok_bind; [by apply ok_read|]. intros now. apply ok_modify. intros h s Hs.
  by apply (HC h s).
Qed.

Lemma report_ok t st r m : ok P J (report t st r m).
Proof using HP HC.
  apply ok_bind; [apply setCondition_ok|]. intros _. apply updateProjectStatus_ok.
Qed.

(** After a lookup: absent, or fetched. *)
Lemma ok_lookup {A} k key wrap (f : option (object k) → M A) :
  ok P J (f None) → (∀ o, ok P (with_fetched J key o) (f (Some o))) →
  ok P J (lookup_object k key wrap ≫= f).
Proof using HP.
  intros Hn Hf h s Hs. split; [by apply (permissive_read P J HP)|].
  intros [err|o] _; cbn.
  - destruct (IsNotFound err); cbn; [apply Hn|]; by apply (permissive_extend P J HP).
  - eapply safe_mono; [|apply Hf]; [by intros h' a _ [? _]|].
    split; [by apply (permissive_extend P J HP)|].
    apply elem_of_app. right. by left.
Qed.

Lemma ok_set_owner {A} k (o : object k) (f : object k → M A) :
  (∀ p refs, (∃ h, J h p) → SetControllerReference (prj_meta p) (obj_meta o) = inr refs →
     ok P J (f (set_meta ((obj_meta o) <| om_OwnerReferences := refs |>) o))) →
  ok P J (set_owner o ≫= f).
Proof.
  intros Hf h s Hs. unfold set_owner, mbind, M_bind. cbn.
  destruct (SetControllerReference (prj_meta s) (obj_meta o)) as [e|refs] eqn:E; cbn; [done|].
  apply (Hf s refs); eauto.
Qed.

Lemma update__ok k (o : object k) :
  (∀ h s, J h s → guarantee P h (Update k o)) → ok P J (update_ o).
Proof using HP. intros Hg. apply ok_bind; [by apply ok_update|]. intros ?. apply ok_ret. Qed.
End StoreOk.

Ltac ok_store_step :=
  match goal with
  | |- ok _ _ (match mergeLabels ?m ?d with _ => _ end) =>
      rewrite (surjective_pairing (mergeLabels m d)); cbv beta iota zeta
  | |- ok _ _ (match removeSupabaseProjectOwnerReference ?m ?n with _ => _ end) =>
      rewrite (surjective_pairing (removeSupabaseProjectOwnerReference m n)); cbv beta iota zeta
  | |- ok ?P ?J (mbind _ ?m) =>
      match m with
      | lookup_object ?k ?key ?wrap =>
          apply (@ok_lookup P J ltac:(auto with ok) _ k key wrap); [|intros ?]
      | @set_owner _ ?k ?o => apply (@ok_set_owner _ P J _ k o); intros ? ? ? ?
      end
  | |- ok ?P ?J (@update_ ?k ?o) =>
      apply (@update__ok P J ltac:(auto with ok) k o); intros ? ? ?
  | |- ok ?P ?J (api_create ?k ?o) =>
      apply (@ok_create P J ltac:(auto with ok) k o); intros ? ? ?
  | |- ok ?P ?J (api_update ?k ?o) =>
      apply (@ok_update P J ltac:(auto with ok) k o); intros ? ? ?
  | |- ok ?P ?J (api_delete ?k ?o ?fg) =>
      apply (@ok_delete P J ltac:(auto with ok) k o fg); intros ? ? ?
  end.

#[export] Hint Resolve updateProjectStatus_ok setCondition_ok report_ok : ok.
