(* ===== verification/Defaulting.v ===== *)
(** * What the API server fills in

    Between a write and the next read the API server fills in defaults.  These
    relations state, field by field, what the Kubernetes API reference documents
    of them for the fields the operator's objects have: a field left unset may
    be served with its documented default, every other field as it was written;
    resource quantities may be written in another form.  They are stated
    without the controller's own normalizers (normalizePodTemplateDefaults and
    the functions it calls), whose purpose is to absorb exactly this: the lemmas
    show that a template and any defaulted form of it compare equal, provided
    that the fields the controller does not normalize are set ([complete]). *)

From S2P Require Import Prelude KubeTypes Types Platform Effects Common Cnpg ObjectSync.

(** An unset field may be served with the default. *)
Definition filled {A} (unset default written stored : A) : Prop :=
  stored = written ∨ written = unset ∧ stored = default.

(** ** Probes, ports and volumes *)

Record http_defaulted (w s : HTTPGetAction) : Prop := {
  hgd_path : filled "" "/" (hg_Path w) (hg_Path s);
  hgd_port : hg_Port s = hg_Port w;
  hgd_scheme : filled "" "HTTP" (hg_Scheme w) (hg_Scheme s) }.
Record probe_defaulted (w s : Probe) : Prop := {
  prd_http : option_Forall2 http_defaulted (pr_HTTPGet w) (pr_HTTPGet s);
  prd_exec : pr_Exec s = pr_Exec w;
  prd_delay : pr_InitialDelaySeconds s = pr_InitialDelaySeconds w;
  prd_timeout : filled 0 1 (pr_TimeoutSeconds w) (pr_TimeoutSeconds s);
  prd_period : filled 0 10 (pr_PeriodSeconds w) (pr_PeriodSeconds s);
  prd_success : filled 0 1 (pr_SuccessThreshold w) (pr_SuccessThreshold s);
  prd_failure : filled 0 3 (pr_FailureThreshold w) (pr_FailureThreshold s) }.
Record port_defaulted (w s : ContainerPort) : Prop := {
  cpd_name : cp_Name s = cp_Name w;
  cpd_port : cp_ContainerPort s = cp_ContainerPort w;
  cpd_protocol : filled "" "TCP" (cp_Protocol w) (cp_Protocol s) }.
(** The mode of files is 0644 unless it is set. *)
Record source_defaulted (w s : NamedVolumeSource) : Prop := {
  nvd_name : nv_Name s = nv_Name w;
  nvd_mode : filled None (Some 420) (nv_DefaultMode w) (nv_DefaultMode s) }.
(** A volume without a source is an empty directory. *)
Definition no_source (v : Volume) : Prop :=
  vol_ConfigMap v = None ∧ vol_Secret v = None ∧ vol_DownwardAPI v = None ∧
  vol_Projected v = None ∧ vol_EmptyDir v = false.
Record volume_defaulted (w s : Volume) : Prop := {
  vld_name : vol_Name s = vol_Name w;
  vld_configmap : option_Forall2 source_defaulted (vol_ConfigMap w) (vol_ConfigMap s);
  vld_secret : option_Forall2 source_defaulted (vol_Secret w) (vol_Secret s);
  vld_downward : option_Forall2 source_defaulted (vol_DownwardAPI w) (vol_DownwardAPI s);
  vld_projected : option_Forall2 source_defaulted (vol_Projected w) (vol_Projected s);
  vld_empty : vol_EmptyDir s = vol_EmptyDir w ∨ no_source w ∧ vol_EmptyDir s = true }.

(** ** Containers and pods *)

Section Defaulting.
Context `{Platform}.

(** The pull policy that is filled in depends on the image's tag. *)
Record container_defaulted (w s : Container) : Prop := {
  ctd_same : ct_Name s = ct_Name w ∧ ct_Image s = ct_Image w ∧ ct_Command s = ct_Command w ∧
    ct_Args s = ct_Args w ∧ ct_Env s = ct_Env w ∧ ct_EnvFrom s = ct_EnvFrom w ∧
    ct_PreStop s = ct_PreStop w ∧ ct_VolumeMounts s = ct_VolumeMounts w;
  ctd_pull : ct_ImagePullPolicy s = ct_ImagePullPolicy w ∨
    ct_ImagePullPolicy w = "" ∧ ct_ImagePullPolicy s ∈ ["Always"; "IfNotPresent"];
  ctd_ports : Forall2 port_defaulted (ct_Ports w) (ct_Ports s);
  ctd_liveness : option_Forall2 probe_defaulted (ct_LivenessProbe w) (ct_LivenessProbe s);
  ctd_readiness : option_Forall2 probe_defaulted (ct_ReadinessProbe w) (ct_ReadinessProbe s);
  ctd_startup : option_Forall2 probe_defaulted (ct_StartupProbe w) (ct_StartupProbe s);
  ctd_resources : deep_equal (ct_Resources s) (ct_Resources w) = true;
  ctd_path : filled "" "/dev/termination-log"
    (ct_TerminationMessagePath w) (ct_TerminationMessagePath s);
  ctd_policy : filled "" "File" (ct_TerminationMessagePolicy w) (ct_TerminationMessagePolicy s) }.
Record podspec_defaulted (w s : PodSpec) : Prop := {
  psd_restart : filled "" "Always" (ps_RestartPolicy w) (ps_RestartPolicy s);
  psd_grace : filled None (Some 30)
    (ps_TerminationGracePeriodSeconds w) (ps_TerminationGracePeriodSeconds s);
  psd_dns : filled "" "ClusterFirst" (ps_DNSPolicy w) (ps_DNSPolicy s);
  psd_security : filled None (Some ∅) (ps_SecurityContext w) (ps_SecurityContext s);
  psd_scheduler : filled "" "default-scheduler" (ps_SchedulerName w) (ps_SchedulerName s);
  psd_volumes : Forall2 volume_defaulted (ps_Volumes w) (ps_Volumes s);
  psd_init : Forall2 container_defaulted (ps_InitContainers w) (ps_InitContainers s);
  psd_containers : Forall2 container_defaulted (ps_Containers w) (ps_Containers s);
  psd_pull : ps_ImagePullSecrets s = ps_ImagePullSecrets w;
  psd_other : ps_other s = ps_other w }.
Record template_defaulted (w s : PodTemplateSpec) : Prop := {
  ptd_labels : pt_Labels s = pt_Labels w;
  ptd_annotations : pt_Annotations s = pt_Annotations w;
  ptd_spec : podspec_defaulted (pt_Spec w) (pt_Spec s) }.

(** ** Workloads and Services *)

(** Rolling updates get their parameters; recreation has none. *)
Definition strategy_defaulted (w s : DeploymentStrategy) : Prop :=
  s = w ∨ dst_Type w ∈ [""; "RollingUpdate"] ∧ dst_Type s = "RollingUpdate".
Record deployment_defaulted (w s : Deployment) : Prop := {
  dpd_replicas : filled None (Some 1) (dp_Replicas w) (dp_Replicas s);
  dpd_strategy : strategy_defaulted (dp_Strategy w) (dp_Strategy s);
  dpd_template : template_defaulted (dp_Template w) (dp_Template s) }.
Record cronjob_defaulted (w s : CronJobSpec) : Prop := {
  cjd_same : cjs_Schedule s = cjs_Schedule w ∧
    cjs_StartingDeadlineSeconds s = cjs_StartingDeadlineSeconds w;
  cjd_concurrency : filled "" "Allow" (cjs_ConcurrencyPolicy w) (cjs_ConcurrencyPolicy s);
  cjd_successful : filled None (Some 3)
    (cjs_SuccessfulJobsHistoryLimit w) (cjs_SuccessfulJobsHistoryLimit s);
  cjd_failed : filled None (Some 1) (cjs_FailedJobsHistoryLimit w) (cjs_FailedJobsHistoryLimit s);
  cjd_suspend : filled None (Some false) (cjs_Suspend w) (cjs_Suspend s);
  cjd_job : js_BackoffLimit (cjs_JobTemplate s) = js_BackoffLimit (cjs_JobTemplate w) ∧
    js_TTLSecondsAfterFinished (cjs_JobTemplate s) = js_TTLSecondsAfterFinished (cjs_JobTemplate w) ∧
    js_other (cjs_JobTemplate s) = js_other (cjs_JobTemplate w);
  cjd_template : template_defaulted (js_Template (cjs_JobTemplate w)) (js_Template (cjs_JobTemplate s)) }.
Record service_port_defaulted (w s : ServicePort) : Prop := {
  spd_name : sp_Name s = sp_Name w;
  spd_port : sp_Port s = sp_Port w;
  spd_target : filled 0 (sp_Port w) (sp_TargetPort w) (sp_TargetPort s);
  spd_protocol : filled "" "TCP" (sp_Protocol w) (sp_Protocol s) }.

(** ** Objects that leave nothing open that the controller does not normalize *)

Definition complete_probe (p : Probe) : Prop :=
  ∀ h, pr_HTTPGet p = Some h → hg_Path h ≠ "".
Record complete_container (c : Container) : Prop := {
  cct_pull : ct_ImagePullPolicy c ≠ "";
  cct_liveness : ∀ p, ct_LivenessProbe c = Some p → complete_probe p;
  cct_readiness : ∀ p, ct_ReadinessProbe c = Some p → complete_probe p;
  cct_startup : ∀ p, ct_StartupProbe c = Some p → complete_probe p }.
Record complete_template (t : PodTemplateSpec) : Prop := {
  cpt_volumes : Forall (λ v, ¬ no_source v) (ps_Volumes (pt_Spec t));
  cpt_init : Forall complete_container (ps_InitContainers (pt_Spec t));
  cpt_containers : Forall complete_container (ps_Containers (pt_Spec t)) }.
Record complete_deployment (d : Deployment) : Prop := {
  cdp_replicas : dp_Replicas d ≠ None;
  cdp_strategy : dst_Type (dp_Strategy d) ≠ "RollingUpdate";
  cdp_template : complete_template (dp_Template d) }.
Record complete_cronjob (c : CronJobSpec) : Prop := {
  ccj_concurrency : cjs_ConcurrencyPolicy c ≠ "";
  ccj_successful : cjs_SuccessfulJobsHistoryLimit c ≠ None;
  ccj_failed : cjs_FailedJobsHistoryLimit c ≠ None;
  ccj_template : complete_template (js_Template (cjs_JobTemplate c)) }.
Definition complete_service_port (p : ServicePort) : Prop := sp_TargetPort p ≠ 0 ∧ sp_Protocol p ≠ "".

(** ** The normalizers absorb the defaults *)

Lemma filled_set {A} (u d w s : A) : filled u d w s → w ≠ u → s = w.
Proof. by intros [?|[? _]]. Qed.
Lemma zero_filled d w s : filled 0 d w s → zero_default d s = zero_default d w.
Proof. intros [->|[-> ->]]; [done|]. unfold zero_default. by destruct (d =? 0). Qed.
Lemma empty_filled d w s : filled "" d w s → empty_default d s = empty_default d w.
Proof. intros [->|[-> ->]]; [done|]. unfold empty_default. by destruct (bool_decide _). Qed.
Lemma nil_filled {A} (d : A) w s : filled None (Some d) w s → nil_default d s = nil_default d w.
Proof. by intros [->|[-> ->]]. Qed.
Lemma fmap_defaulted {A B} (R : A → A → Prop) (f : A → B) w s :
  Forall2 R w s → (∀ x y, x ∈ w → R x y → f y = f x) → f <$> s = f <$> w.
Proof.
  intros Hl. induction Hl as [|x y w s Hxy Hl IH]; intros Hf; [done|]. cbn.
  rewrite (Hf x y) by (done || by left). f_equal. apply IH. intros; apply Hf; [by right|done].
Qed.
Lemma option_fmap_defaulted {A B} (R : A → A → Prop) (f : A → B) w s :
  option_Forall2 R w s → (∀ x y, w = Some x → R x y → f y = f x) → f <$> s = f <$> w.
Proof. intros [x y Hxy|] Hf; [|done]. cbn. f_equal. by apply Hf. Qed.

(** Evaluates the record updates of a normalizer on a record [r] and on [r'],
    leaving the fields' defaults as they are. *)
Ltac same_fields w s :=
  destruct w, s; cbn in *; subst;
  cbv beta iota delta -[zero_default empty_default nil_default fmap option_fmap list_fmap
    default_scheme default_port normalizeProbeDefaults normalizeContainerDefaults
    normalizeVolumeDefaults default_mode normalize_pod_spec normalizePodTemplateDefaults
    gmap_empty no_resources];
  f_equal; assumption.

Lemma probe_absorbed w s :
  complete_probe w → probe_defaulted w s → normalizeProbeDefaults s = normalizeProbeDefaults w.
Proof.
  intros Hc [Hh He Hd Ht Hp Hs Hf].
  apply zero_filled in Ht, Hp, Hs, Hf.
  apply (option_fmap_defaulted _ default_scheme) in Hh.
  - clear Hc. unfold normalizeProbeDefaults. same_fields w s.
  - intros x y Hx [Hpath Hport Hscheme]. apply filled_set in Hpath; [|by apply Hc].
    apply empty_filled in Hscheme. clear Hx. unfold default_scheme. same_fields x y.
Qed.
Lemma port_absorbed w s : port_defaulted w s → default_port s = default_port w.
Proof. intros [? ? Hp%empty_filled]. unfold default_port. same_fields w s. Qed.
Lemma source_absorbed w s : source_defaulted w s → default_mode s = default_mode w.
Proof. intros [? Hm%nil_filled]. unfold default_mode, defaultMode. same_fields w s. Qed.
Lemma volume_absorbed w s :
  ¬ no_source w → volume_defaulted w s → normalizeVolumeDefaults s = normalizeVolumeDefaults w.
Proof.
  intros Hc [? L1 L2 L3 L4 [He|[? _]]]; [|done]. clear Hc.
  apply (option_fmap_defaulted _ default_mode) in L1, L2, L3, L4;
    try (intros; by apply source_absorbed).
  unfold normalizeVolumeDefaults. same_fields w s.
Qed.

Lemma probes_absorbed a b :
  (∀ p, a = Some p → complete_probe p) → option_Forall2 probe_defaulted a b →
  normalizeProbeDefaults <$> b = normalizeProbeDefaults <$> a.
Proof.
  intros Ha Hab. eapply option_fmap_defaulted; [exact Hab|]. intros x y Hx.
  apply probe_absorbed. by apply Ha.
Qed.
(** Up to the form of the quantities. *)
Lemma container_absorbed w s :
  complete_container w → container_defaulted w s →
  deep_equal (normalizeContainerDefaults s) (normalizeContainerDefaults w) = true.
Proof.
  intros [Hpull Hl Hr Hs] [(? & ? & ? & ? & ? & ? & ? & ?) [Hp|[? _]] Hports L1 L2 L3 Hres
    Epath Epol]; [|done].
  apply (probes_absorbed _ _ Hl) in L1. apply (probes_absorbed _ _ Hr) in L2.
  apply (probes_absorbed _ _ Hs) in L3. apply empty_filled in Epath, Epol.
  apply (fmap_defaulted _ default_port) in Hports; [|intros; by apply port_absorbed].
  apply andb_true_intro. split; [exact Hres|]. apply bool_decide_eq_true.
  clear Hl Hr Hs Hpull Hres. unfold normalizeContainerDefaults. same_fields w s.
Qed.
Lemma containers_absorbed w s :
  Forall complete_container w → Forall2 container_defaulted w s →
  deep_equal (normalizeContainerDefaults <$> s) (normalizeContainerDefaults <$> w) = true.
Proof.
  intros Hc Hl. induction Hl as [|x y w s Hxy Hl IH]; [done|].
  apply Forall_cons in Hc as [Hx Hc]. apply andb_true_intro.
  split; [by apply container_absorbed|by apply IH].
Qed.
Lemma podspec_absorbed w s :
  Forall (λ v, ¬ no_source v) (ps_Volumes w) → Forall complete_container (ps_InitContainers w) →
  Forall complete_container (ps_Containers w) → podspec_defaulted w s →
  deep_equal (normalize_pod_spec s) (normalize_pod_spec w) = true.
Proof.
  intros Hv Hi Hc [Er Eg Ed Es Esch Hvol Hinit Hcon ? ?].
  apply (containers_absorbed _ _ Hi) in Hinit. apply (containers_absorbed _ _ Hc) in Hcon.
  apply (fmap_defaulted _ normalizeVolumeDefaults) in Hvol.
  2:{ intros x y Hx. apply volume_absorbed. exact (proj1 (Forall_forall _ _) Hv x Hx). }
  apply empty_filled in Er, Ed, Esch. apply nil_filled in Eg, Es. clear Hv Hi Hc.
  apply andb_true_intro. split; [apply andb_true_intro; split; [exact Hinit|exact Hcon]|].
  apply bool_decide_eq_true. clear Hinit Hcon. unfold normalize_pod_spec. same_fields w s.
Qed.
Lemma template_absorbed w s :
  complete_template w → template_defaulted w s →
  deep_equal (normalizePodTemplateDefaults s) (normalizePodTemplateDefaults w) = true.
Proof.
  intros [Hv Hi Hc] [El Ea Hs]. apply (podspec_absorbed _ _ Hv Hi Hc) in Hs.
  apply andb_true_intro. split; [|exact Hs]. apply andb_true_intro.
  split; apply bool_decide_eq_true; [exact El|exact Ea].
Qed.
Lemma cronjob_absorbed w s :
  complete_cronjob w → cronjob_defaulted w s →
  deep_equal (normalizeCronJobDefaults s) (normalizeCronJobDefaults w) = true.
Proof.
  intros [Hc Hs Hf Ht] [[Esc Edl] Ec Es Ef Esu (E1 & E2 & E3) Et].
  apply filled_set in Ec, Es, Ef; try done. apply nil_filled in Esu.
  apply (template_absorbed _ _ Ht) in Et. unfold deep_equal, CronJobSpec_deq.
  repeat (first [exact Et | apply bool_decide_eq_true; assumption | apply andb_true_intro; split]).
Qed.
Lemma service_port_absorbed w s : complete_service_port w → service_port_defaulted w s → s = w.
Proof.
  intros [Ht Hp] [? ? Et%filled_set Ep%filled_set]; try done. destruct w, s; cbn in *; by subst.
Qed.
Lemma service_ports_absorbed w s :
  Forall complete_service_port w → Forall2 service_port_defaulted w s → s = w.
Proof.
  intros Hc Hl. induction Hl as [|x y w s Hxy Hl IH]; [done|].
  apply Forall_cons in Hc as [Hx Hc]. f_equal; [by apply service_port_absorbed|by apply IH].
Qed.

(** ** Normalizing leaves nothing more open *)

Lemma complete_probes_normalized o :
  (∀ p, o = Some p → complete_probe p) →
  ∀ p, normalizeProbeDefaults <$> o = Some p → complete_probe p.
Proof.
  intros Ho p Hp. destruct o as [q|]; [|done]. injection Hp as <-. intros h Hh.
  destruct q as [[g|] ? ? ? ? ? ?]; [|done]. injection Hh as <-. exact (Ho _ eq_refl g eq_refl).
Qed.
Lemma complete_container_normalized c :
  complete_container c → complete_container (normalizeContainerDefaults c).
Proof.
  intros [Hp Hl Hr Hs]. split; [exact Hp|..];
    [exact (complete_probes_normalized _ Hl)|exact (complete_probes_normalized _ Hr)
    |exact (complete_probes_normalized _ Hs)].
Qed.
Lemma no_source_normalized v : no_source (normalizeVolumeDefaults v) → no_source v.
Proof.
  intros (H1 & H2 & H3 & H4 & H5). destruct v as [? c s d r e]; cbn in *.
  split_and!; [by destruct c|by destruct s|by destruct d|by destruct r|done].
Qed.
Lemma complete_template_normalized t :
  complete_template t → complete_template (normalizePodTemplateDefaults t).
Proof.
  intros [Hv Hi Hc]. split; apply Forall_fmap; (eapply Forall_impl; [eassumption|]).
  - intros v Hn Hs. by apply Hn, no_source_normalized.
  - apply complete_container_normalized.
  - apply complete_container_normalized.
Qed.
Lemma complete_cronjob_normalized c :
  complete_cronjob c → complete_cronjob (normalizeCronJobDefaults c).
Proof.
  intros [Hc Hs Hf Ht]. split; [exact Hc|exact Hs|exact Hf|].
  exact (complete_template_normalized _ Ht).
Qed.
(** What was written normalized reads back as what was asked for. *)
Lemma template_settled w s :
  complete_template w → template_defaulted (normalizePodTemplateDefaults w) s →
  deep_equal (normalizePodTemplateDefaults s) (normalizePodTemplateDefaults w) = true.
Proof.
  intros Hw Hs. rewrite <- (normalizePodTemplateDefaults_idemp w).
  by apply template_absorbed; [apply complete_template_normalized|].
Qed.
Lemma cronjob_settled w s :
  complete_cronjob w → cronjob_defaulted (normalizeCronJobDefaults w) s →
  deep_equal (normalizeCronJobDefaults s) (normalizeCronJobDefaults w) = true.
Proof.
  intros Hw Hs. rewrite <- (normalizeCronJobDefaults_idemp w).
  by apply cronjob_absorbed; [apply complete_cronjob_normalized|].
Qed.
Lemma strategy_absorbed w s :
  dst_Type w ≠ "RollingUpdate" → dst_Type w ≠ "" → strategy_defaulted w s → s = w.
Proof.
  intros Hr He [?|[Hin _]]; [done|]. apply elem_of_cons in Hin as [?|Hin]; [done|].
  by apply list_elem_of_singleton in Hin.
Qed.
End Defaulting.
