(* ===== verification/Apply.v ===== *)
(** * The create-or-update contract

    What every create-or-update helper of [Store] promises, as one abstract
    operation [apply]: read the object; create it when the server has none;
    refuse a foreign one; otherwise repair its owner and its managed fields,
    and send nothing when they are already in order.  Each helper is shown
    equivalent to [apply] at its own policy ([helper_refines]); every policy meets
    [ManagedLaws] ([helper_laws]), under which [apply] settles: once it has
    written, a later run over what the server made of it sends no write
    ([apply_settles]).  [Converge] states what follows for the helpers. *)

From S2P Require Import Prelude KubeTypes Types Platform Effects Common Cnpg ObjectSync Store Defaulting.

(** ** Equivalence of programs *)

Inductive peq {A} : prog A → prog A → Prop :=
| peq_ret a : peq (Ret a) (Ret a)
| peq_call r k1 k2 : (∀ v, peq (k1 v) (k2 v)) → peq (Call r k1) (Call r k2).

#[export] Instance peq_refl {A} : Reflexive (@peq A).
Proof. intros p. induction p; by constructor. Qed.
#[export] Hint Resolve peq_refl : core.

Lemma peq_bind {A B} (p q : prog A) (f g : A → prog B) :
  peq p q → (∀ a, peq (f a) (g a)) → peq (prog_bind p f) (prog_bind q g).
Proof. intros Hp Hf. induction Hp; cbn; [done|by constructor]. Qed.

Lemma peq_runs {A} (p q : prog A) : peq p q → ∀ tr a, runs p tr a ↔ runs q tr a.
Proof.
  induction 1 as [a|r k1 k2 Hk IH]; intros tr x; cbn; [done|].
  split; intros (v & tr' & -> & Hr); exists v, tr'; split; try done; by apply IH.
Qed.

(** The same requests, answers and results on every project. *)
Definition meq {A} (m n : M A) : Prop := ∀ p, peq (m p) (n p).
Infix "≡ₘ" := meq (at level 70).

#[export] Instance meq_refl {A} : Reflexive (@meq A).
Proof. by intros m p. Qed.

Lemma meq_bind {A B} (m n : M A) (f g : A → M B) :
  m ≡ₘ n → (∀ a, f a ≡ₘ g a) → (m ≫= f) ≡ₘ (n ≫= g).
Proof. intros Hm Hf p. apply peq_bind; [apply Hm|]. intros [s [e|a]]; [done|apply Hf]. Qed.
#[export] Instance peq_sym {A} : Symmetric (@peq A).
Proof. intros p q. induction 1; by constructor. Qed.
#[export] Instance meq_bind_proper {A B} :
  Proper (pointwise_relation A (@meq B) ==> @meq A ==> @meq B) mbind.
Proof. intros f g Hf m n Hm. by apply meq_bind. Qed.

Lemma map_error_id {A} (m : M A) : map_error m id ≡ₘ m.
Proof.
  intros p. unfold map_error, attempt, mbind, M_bind. induction (m p) as [[s [e|a]]|r k IH]; cbn;
    [done|done|by constructor].
Qed.

(** ** The abstract operation *)

Record managed (k : kind) := {
  (** the project controls the object through an owner reference *)
  mg_owned : bool;
  (** how errors of the three requests are reported *)
  mg_get_error : error → error;
  mg_create_error : error → error;
  mg_update_error : error → error;
  (** [mg_guard project desired existing]: may the object be changed? *)
  mg_guard : SupabaseProject → object k → object k → result unit;
  mg_in_sync : object k → object k → bool;
  mg_merge : object k → object k → object k }.
Arguments mg_owned {k}. Arguments mg_get_error {k}. Arguments mg_create_error {k}.
Arguments mg_update_error {k}. Arguments mg_guard {k}. Arguments mg_in_sync {k}.
Arguments mg_merge {k}.

Section Apply.
Context `{Platform}.

Definition owned_by_set {k} (mg : managed k) (o : object k) : M (object k) :=
  if mg_owned mg then set_owner o else mret o.

Definition apply {k} (mg : managed k) (desired : object k) : M unit :=
  desired ← owned_by_set mg desired;
  existing ← lookup_object k (meta_key (obj_meta desired)) (mg_get_error mg);
  match existing with
  | None => map_error (api_create k desired) (mg_create_error mg)
  | Some existing =>
      p ← get_project;
      _ ← lift (mg_guard mg p desired existing);
      adopted ← owned_by_set mg existing;
      if mg_in_sync mg desired adopted && negb (owners_changed existing adopted) then mret tt
      else map_error (update_ (mg_merge mg desired adopted)) (mg_update_error mg)
  end.

(** What another reader finds where [written] was stored: the API server may
    have defaulted what [same] allows, and fill in the rest of the metadata. *)
Record served {k} (same : object k → object k → Prop) (written stored : object k) : Prop := {
  served_name : om_Name (obj_meta stored) = om_Name (obj_meta written);
  served_namespace : om_Namespace (obj_meta stored) = om_Namespace (obj_meta written);
  served_labels : om_Labels (obj_meta stored) = om_Labels (obj_meta written);
  served_owners : om_OwnerReferences (obj_meta stored) = om_OwnerReferences (obj_meta written);
  served_same : same written stored }.

(** [mg_accepts project desired] is what the caller guarantees of the object it asks
    for. *)
Class ManagedLaws {k} (mg : managed k) (same : object k → object k → Prop)
    (accepts : SupabaseProject → object k → Prop) : Prop := {
  (** a new object is admitted and in order *)
  created_in_sync p d s : accepts p d → served same d s → mg_in_sync mg d s = true;
  created_guard p d s : accepts p d → served same d s → mg_guard mg p d s = inr tt;
  (** merging puts the object in order, and keeps it admitted *)
  merged_in_sync p d e s :
    accepts p d → mg_guard mg p d e = inr tt → served same (mg_merge mg d e) s →
    mg_in_sync mg d s = true;
  merged_guard p d e s :
    accepts p d → mg_guard mg p d e = inr tt → served same (mg_merge mg d e) s →
    mg_guard mg p d s = inr tt;
  merged_meta d e :
    mg_owned mg = true →
    om_Namespace (obj_meta (mg_merge mg d e)) = om_Namespace (obj_meta e) ∧
    om_OwnerReferences (obj_meta (mg_merge mg d e)) = om_OwnerReferences (obj_meta e);
  (** it is the same object, and an object in order only if nothing changes *)
  merged_identity d e :
    obj_key (mg_merge mg d e) = obj_key e ∧
    om_UID (obj_meta (mg_merge mg d e)) = om_UID (obj_meta e);
  merge_noop d e : mg_merge mg d e = e → mg_in_sync mg d e = true;
  (** the guard does not look at the owners *)
  accepts_adopted p d refs :
    mg_owned mg = true → accepts p d → accepts p (set_meta ((obj_meta d) <| om_OwnerReferences := refs |>) d);
  guard_adopted p d e refs :
    mg_guard mg p d e = inr tt →
    mg_guard mg p d (set_meta ((obj_meta e) <| om_OwnerReferences := refs |>) e) = inr tt
}.

(** ** Settling *)

Lemma obj_meta_set {k} m (o : object k) : obj_meta (set_meta m o) = m.
Proof. by destruct k. Qed.
Lemma set_meta_same {k} (o : object k) m :
  m = obj_meta o → set_meta m o = o.
Proof. intros ->. by destruct k, o. Qed.

Context `{!PlatformLaws}.

(** Adopting an object that already carries the project's reference. *)
Definition adopted_by {k} (mg : managed k) (p : SupabaseProject) (m : ObjectMeta) : Prop :=
  mg_owned mg = true → SetControllerReference (prj_meta p) m = inr (om_OwnerReferences m).

Lemma owned_by_set_runs {k} (mg : managed k) (o : object k) p :
  (∃ e, owned_by_set mg o p = Ret (p, inl e)) ∨
  (∃ o', owned_by_set mg o p = Ret (p, inr o') ∧ adopted_by mg p (obj_meta o') ∧
     o' = set_meta ((obj_meta o) <| om_OwnerReferences := om_OwnerReferences (obj_meta o') |>) o ∧
     (mg_owned mg = false → o' = o)).
Proof.
  unfold owned_by_set, adopted_by. destruct (mg_owned mg).
  - unfold set_owner, mbind, M_bind. cbn.
    destruct (SetControllerReference (prj_meta p) (obj_meta o)) as [e|refs] eqn:E; cbn; [eauto|].
    right. eexists. split; [done|]. rewrite !obj_meta_set. cbn. split; [|done].
    intros _. by eapply SetControllerReference_idemp.
  - right. exists o. split; [done|]. split; [done|]. split; [|done]. symmetry.
    apply set_meta_same. by destruct (obj_meta o).
Qed.

Lemma owned_by_set_adopted {k} (mg : managed k) (o : object k) p :
  adopted_by mg p (obj_meta o) → owned_by_set mg o p = Ret (p, inr o).
Proof.
  unfold owned_by_set, adopted_by. destruct (mg_owned mg); [|done]. intros Ha.
  unfold set_owner, mbind, M_bind. cbn. rewrite Ha by done. cbn.
  rewrite set_meta_same; [done|]. by destruct (obj_meta o).
Qed.

Lemma adopted_by_served {k} (mg : managed k) p (m m' : ObjectMeta) :
  om_Namespace m' = om_Namespace m → om_OwnerReferences m' = om_OwnerReferences m →
  adopted_by mg p m → adopted_by mg p m'.
Proof.
  intros Hn Ho Ha Hm. rewrite (SetControllerReference_meta _ m' m), Ho by done. by apply Ha.
Qed.

Lemma owners_unchanged {k} (o : object k) : owners_changed o o = false.
Proof. unfold owners_changed. apply negb_false_iff. by apply bool_decide_eq_true. Qed.

(** An object in order is left alone: one read, no write. *)
Lemma apply_in_sync {k} (mg : managed k) (desired d s : object k) p :
  owned_by_set mg desired p = Ret (p, inr d) →
  mg_guard mg p d s = inr tt → adopted_by mg p (obj_meta s) → mg_in_sync mg d s = true →
  runs (apply mg desired p) [Ev (Get k (meta_key (obj_meta d))) (inr s)] (p, inr tt).
Proof.
  intros Hd Hg Ha Hs. unfold apply, mbind, M_bind. rewrite Hd. cbn.
  eexists _, []. split; [done|]. cbn. rewrite Hg. cbn.
  rewrite owned_by_set_adopted by done. cbn. rewrite Hs.
  by rewrite owners_unchanged.
Qed.

(** The object was sent to the server. *)
Definition written {k} (tr : trace) (o : object k) : Prop :=
  Create k o ∈ ev_req <$> tr ∨ Update k o ∈ ev_req <$> tr.

Lemma Create_inj {k} (o o' : object k) : Create k o = Create k o' → o = o'.
Proof. intros [= Ho]. by apply (Eqdep_dec.inj_pair2_eq_dec _ kind_eq) in Ho. Qed.
Lemma Update_inj {k} (o o' : object k) : Update k o = Update k o' → o = o'.
Proof. intros [= Ho]. by apply (Eqdep_dec.inj_pair2_eq_dec _ kind_eq) in Ho. Qed.

(** The only write of a short history. *)
Lemma written_get {k} key v (o : object k) : ¬ written [Ev (Get k key) v] o.
Proof. intros [Hw|Hw]; apply list_elem_of_singleton in Hw; done. Qed.
Lemma written_created {k} key v (o d : object k) r :
  written [Ev (Get k key) v; Ev (Create k d) r] o → o = d.
Proof.
  intros [Hw|Hw]; cbn in Hw; rewrite !elem_of_cons in Hw;
    destruct Hw as [Hw|[Hw|Hw%not_elem_of_nil]]; try done. by apply Create_inj in Hw.
Qed.
Lemma written_updated {k} key v (o d : object k) r :
  written [Ev (Get k key) v; Ev (Update k d) r] o → o = d.
Proof.
  intros [Hw|Hw]; cbn in Hw; rewrite !elem_of_cons in Hw;
    destruct Hw as [Hw|[Hw|Hw%not_elem_of_nil]]; try done. by apply Update_inj in Hw.
Qed.

(** What a successful run has written: the desired object, or its merge into
    an admitted, adopted one. *)
Lemma apply_written {k} (mg : managed k) (desired o : object k) p tr p' :
  runs (apply mg desired p) tr (p', inr tt) → written tr o →
  ∃ d, owned_by_set mg desired p = Ret (p, inr d) ∧ adopted_by mg p (obj_meta d) ∧
    (∃ refs, d = set_meta ((obj_meta desired) <| om_OwnerReferences := refs |>) desired) ∧
    (mg_owned mg = false → d = desired) ∧
    (o = d ∨
     ∃ e refs, let a := set_meta ((obj_meta e) <| om_OwnerReferences := refs |>) e in
       mg_guard mg p d e = inr tt ∧ adopted_by mg p (obj_meta a) ∧ o = mg_merge mg d a).
Proof.
  unfold apply, mbind, M_bind. intros Hr Hw.
  destruct (owned_by_set_runs mg desired p) as [[e E]|(d & E & Ha & Hd & Hu)];
    rewrite E in Hr; cbn in Hr.
  { by destruct Hr. }
  exists d. split; [done|]. split; [done|]. split; [by eexists|]. split; [done|].
  destruct Hr as ([err|e] & tr' & -> & Hr); cbn in Hr.
  - destruct (IsNotFound err); cbn in Hr; [|by destruct Hr].
    destruct Hr as ([e|] & tr'' & -> & Hr); cbn in Hr; destruct Hr as [-> Hr]; [done|].
    left. by eapply written_created.
  - destruct (mg_guard mg p d e) as [err|[]] eqn:Eg; cbn in Hr; [by destruct Hr|].
    destruct (owned_by_set_runs mg e p) as [[err Ee]|(a & Ee & Haa & Hae & _)];
      rewrite Ee in Hr; cbn in Hr; [by destruct Hr|].
    destruct (mg_in_sync mg d a && negb (owners_changed e a)); cbn in Hr.
    { destruct Hr as [-> _]. by apply written_get in Hw. }
    destruct Hr as ([err|stored] & tr'' & -> & Hr); cbn in Hr; destruct Hr as [-> Hr]; [done|].
    right. exists e, (om_OwnerReferences (obj_meta a)). cbv zeta. rewrite <- Hae.
    split_and!; [done|done|]. by eapply written_updated.
Qed.

(** The contract: what a successful run has written, served again, is left
    alone by a run with the same arguments. *)
Lemma apply_settles {k} (mg : managed k) same accepts `{!ManagedLaws mg same accepts}
    (desired o s : object k) p tr p' :
  accepts p desired → runs (apply mg desired p) tr (p', inr tt) → written tr o → served same o s →
  runs (apply mg desired p) [Ev (Get k (meta_key (obj_meta desired))) (inr s)] (p, inr tt).
Proof.
  intros Hacc Hr Hw Hs.
  destruct (apply_written mg desired o p tr p' Hr Hw) as (d & Hd & Ha & [refs Hrefs] & Hu & Ho).
  assert (meta_key (obj_meta desired) = meta_key (obj_meta d)) as ->
    by (rewrite Hrefs; by rewrite obj_meta_set).
  assert (Haccd : accepts p d).
  { destruct (mg_owned mg) eqn:Eo; [rewrite Hrefs; by apply accepts_adopted|by rewrite Hu]. }
  destruct Ho as [->|(e & erefs & Hg & Haa & ->)].
  - apply apply_in_sync; [done|by eapply created_guard| |by eapply created_in_sync].
    eapply adopted_by_served, Ha; by destruct Hs.
  - set (a := set_meta _ e) in *.
    assert (Hga : mg_guard mg p d a = inr tt) by by apply guard_adopted.
    apply apply_in_sync; [done|by eapply merged_guard| |by eapply merged_in_sync].
    intros Hown. destruct (merged_meta (mg := mg) d a Hown) as [Hns Hown'].
    refine (adopted_by_served mg p (obj_meta a) (obj_meta s) _ _ Haa Hown); destruct Hs; congruence.
Qed.

(** What is sent as an update of an object differs from it. *)
Lemma merge_changes {k} (mg : managed k) same accepts `{!ManagedLaws mg same accepts}
    (d e a : object k) :
  a = set_meta ((obj_meta e) <| om_OwnerReferences := om_OwnerReferences (obj_meta a) |>) e →
  (mg_owned mg = false → a = e) →
  mg_in_sync mg d a && negb (owners_changed e a) = false → mg_merge mg d a ≠ e.
Proof.
  intros Hae Hu Hc E.
  assert (Ha : a = e).
  { destruct (mg_owned mg) eqn:Ho; [|by apply Hu].
    destruct (merged_meta (mg := mg) d a Ho) as [_ Hr]. rewrite E in Hr.
    rewrite Hae, <- Hr. apply set_meta_same. by destruct (obj_meta e). }
  rewrite Ha in *. rewrite owners_unchanged, andb_true_r in Hc.
  by rewrite (merge_noop (mg := mg) d e E) in Hc.
Qed.
End Apply.

(** ** The helpers' policies *)

Section Policies.
Context `{Platform}.

Definition admit_all {k} (_ : SupabaseProject) (_ _ : object k) : result unit := inr tt.

(** Created once; only the owner is repaired later. *)
Definition secret_policy : managed KSecret := {|
  mg_owned := true; mg_get_error := id; mg_create_error := id; mg_update_error := id;
  mg_guard := admit_all; mg_in_sync := λ _ _ : object KSecret, true; mg_merge := λ _ a : object KSecret, a |}.

(** Labels and data; a ConfigMap of another project is refused. *)
Definition configmap_policy : managed KConfigMap := {|
  mg_owned := true; mg_get_error := id; mg_create_error := id; mg_update_error := id;
  mg_guard := λ p (_ e : object KConfigMap),
    guard_err (bool_decide (map_get (om_Labels (cm_meta e)) LabelInstance ≠ prj_Name p))
      (ErrorString ("refusing to adopt ConfigMap " +:+ om_Name (cm_meta e) +:+
         " without the project instance label"));
  mg_in_sync := λ d a : object KConfigMap,
    deep_equal (cm_Data a) (cm_Data d) && negb (mergeLabels (cm_meta a) (om_Labels (cm_meta d))).2;
  mg_merge := λ d a : object KConfigMap,
    a <| cm_meta := (mergeLabels (cm_meta a) (om_Labels (cm_meta d))).1 |>
      <| cm_Data := cm_Data d |> |}.

Definition strategy_differs (d a : Deployment) : bool :=
  bool_decide (dst_Type (dp_Strategy d) ≠ "") && negb (deep_equal (dp_Strategy a) (dp_Strategy d)).

(** Replicas, the defaulted pod template, and the strategy where one is asked
    for. *)
Definition deployment_policy : managed KDeployment := {|
  mg_owned := true; mg_get_error := id; mg_create_error := id; mg_update_error := id;
  mg_guard := admit_all;
  mg_in_sync := λ d a : object KDeployment,
    deep_equal (dp_Replicas a) (dp_Replicas d) &&
    deep_equal (normalizePodTemplateDefaults (dp_Template a))
      (normalizePodTemplateDefaults (dp_Template d)) && negb (strategy_differs d a);
  mg_merge := λ d a : object KDeployment,
    let m := a <| dp_Replicas := dp_Replicas d |>
               <| dp_Template := normalizePodTemplateDefaults (dp_Template d) |> in
    if strategy_differs d a then m <| dp_Strategy := dp_Strategy d |> else m |}.

(** Ports and selector. *)
Definition service_policy : managed KService := {|
  mg_owned := true; mg_get_error := id; mg_create_error := id; mg_update_error := id;
  mg_guard := admit_all;
  mg_in_sync := λ d a : object KService,
    deep_equal (svc_Ports a) (svc_Ports d) && deep_equal (svc_Selector a) (svc_Selector d);
  mg_merge := λ d a : object KService, a <| svc_Ports := svc_Ports d |> <| svc_Selector := svc_Selector d |> |}.

(** Labels and the defaulted spec. *)
Definition cronjob_policy : managed KCronJob := {|
  mg_owned := true; mg_get_error := id; mg_create_error := id; mg_update_error := id;
  mg_guard := admit_all;
  mg_in_sync := λ d a : object KCronJob,
    deep_equal (normalizeCronJobDefaults (cj_Spec a)) (normalizeCronJobDefaults (cj_Spec d)) &&
    negb (mergeLabels (cj_meta a) (om_Labels (cj_meta d))).2;
  mg_merge := λ d a : object KCronJob,
    a <| cj_meta := (mergeLabels (cj_meta a) (om_Labels (cj_meta d))).1 |>
      <| cj_Spec := normalizeCronJobDefaults (cj_Spec d) |> |}.

(** Durable resources carry the project's label and no owner of ours. *)
Definition durable_guard (what : string) (desired existing : ObjectMeta) : result unit :=
  let projectName := map_get (om_Labels desired) LabelInstance in
  let instance := map_get (om_Labels existing) LabelInstance in
  _ ← guard_err (bool_decide (projectName = ""))
        (ErrorString (what +:+ " " +:+ om_Name existing +:+ " has no project instance label"));
  guard_err (bool_decide (instance ≠ projectName))
    (ErrorString (what +:+ " " +:+ om_Name existing +:+ " has instance label " +:+
       Quote instance +:+ ", expected " +:+ Quote projectName)).
Definition durable_meta (desired existing : ObjectMeta) : ObjectMeta * bool :=
  let '(m, changed1) := removeSupabaseProjectOwnerReference existing
                          (map_get (om_Labels desired) LabelInstance) in
  let '(m, changed2) := mergeLabels m (om_Labels desired) in
  (m, changed1 || changed2).

Definition merge_config (desired current : BarmanObjectStoreConfiguration) :=
  let current := current <| bo_BarmanCredentials := bo_BarmanCredentials desired |>
    <| bo_EndpointURL := bo_EndpointURL desired |>
    <| bo_DestinationPath := bo_DestinationPath desired |> in
  let current := match bo_Wal desired with
                 | Some _ => current <| bo_Wal := bo_Wal desired |> | None => current end in
  match bo_Data desired with
  | Some _ => current <| bo_Data := bo_Data desired |> | None => current end.

Definition objectstore_policy : managed KObjectStore := {|
  mg_owned := false;
  mg_get_error := WrapError "failed to get ObjectStore: ";
  mg_create_error := WrapError "failed to create ObjectStore: ";
  mg_update_error := WrapError "failed to update ObjectStore: ";
  mg_guard := λ _ (d e : object KObjectStore), durable_guard "ObjectStore" (os_meta d) (os_meta e);
  mg_in_sync := λ d a : object KObjectStore,
    negb ((durable_meta (os_meta d) (os_meta a)).2 ||
          object_store_config_changed (os_Configuration a) (os_Configuration d) ||
          bool_decide (os_RetentionPolicy a ≠ os_RetentionPolicy d));
  mg_merge := λ d a : object KObjectStore,
    a <| os_meta := (durable_meta (os_meta d) (os_meta a)).1 |>
      <| os_Configuration := merge_config (os_Configuration d) (os_Configuration a) |>
      <| os_RetentionPolicy := os_RetentionPolicy d |> |}.

Definition scheduledbackup_policy : managed KScheduledBackup := {|
  mg_owned := false;
  mg_get_error := WrapError "failed to get ScheduledBackup: ";
  mg_create_error := WrapError "failed to create ScheduledBackup: ";
  mg_update_error := WrapError "failed to update ScheduledBackup: ";
  mg_guard := λ _ (d e : object KScheduledBackup), durable_guard "ScheduledBackup" (sb_meta d) (sb_meta e);
  mg_in_sync := λ d a : object KScheduledBackup,
    negb ((durable_meta (sb_meta d) (sb_meta a)).2 ||
          bool_decide (sb_Schedule a ≠ sb_Schedule d) ||
          negb (deep_equal (sb_Cluster a) (sb_Cluster d)) ||
          bool_decide (sb_BackupOwnerReference a ≠ sb_BackupOwnerReference d) ||
          bool_decide (sb_Method a ≠ sb_Method d) ||
          negb (deep_equal (sb_PluginConfiguration a) (sb_PluginConfiguration d)));
  mg_merge := λ d a : object KScheduledBackup,
    a <| sb_meta := (durable_meta (sb_meta d) (sb_meta a)).1 |>
      <| sb_Schedule := sb_Schedule d |> <| sb_Cluster := sb_Cluster d |>
      <| sb_BackupOwnerReference := sb_BackupOwnerReference d |>
      <| sb_Method := sb_Method d |> <| sb_PluginConfiguration := sb_PluginConfiguration d |> |}.

(** ** The helpers as one family *)

Inductive helper :=
| HSecret | HConfigMap | HDeployment | HService | HCronJob | HObjectStore | HScheduledBackup.
Definition hkind (h : helper) : kind :=
  match h with
  | HSecret => KSecret | HConfigMap => KConfigMap | HDeployment => KDeployment
  | HService => KService | HCronJob => KCronJob | HObjectStore => KObjectStore
  | HScheduledBackup => KScheduledBackup
  end.
Definition createOrUpdate (h : helper) : object (hkind h) → M unit :=
  match h with
  | HSecret => createOrUpdateSecret
  | HConfigMap => createOrUpdateConfigMap
  | HDeployment => createOrUpdateDeployment
  | HService => createOrUpdateService
  | HCronJob => createOrUpdateCronJob
  | HObjectStore => λ o, createOrUpdateObjectStore (Some o)
  | HScheduledBackup => λ o, createOrUpdateScheduledBackup (Some o)
  end.
Definition policy_of (h : helper) : managed (hkind h) :=
  match h with
  | HSecret => secret_policy | HConfigMap => configmap_policy
  | HDeployment => deployment_policy | HService => service_policy
  | HCronJob => cronjob_policy | HObjectStore => objectstore_policy
  | HScheduledBackup => scheduledbackup_policy
  end.
End Policies.

(** ** Refinement *)

Section Refinement.
Context `{Platform}.

(** The abstract guard against the code's. *)
Lemma meq_admitted {A} (m n : M A) :
  m ≡ₘ n → m ≡ₘ (p ← get_project; _ ← lift (inr tt); n).
Proof. intros Hm p. apply Hm. Qed.
Lemma meq_guarded {A} (c : SupabaseProject → bool) (e : SupabaseProject → error) (m n : M A) :
  m ≡ₘ n →
  (p ← get_project; if c p then throw (e p) else m) ≡ₘ
  (p ← get_project; _ ← lift (guard_err (c p) (e p)); n).
Proof.
  intros Hm p. unfold guard_err, mbind, M_bind. cbn.
  destruct (c p); cbn; [apply peq_ret|apply Hm].
Qed.
Lemma meq_written {A} (m : M A) : m ≡ₘ map_error m id.
Proof. intros p. symmetry. apply map_error_id. Qed.

Lemma meq_ret_bind {A B} (m : M B) (a : A) (f : A → M B) : m ≡ₘ f a → m ≡ₘ (mret a ≫= f).
Proof. intros Hm p. apply Hm. Qed.

(** The two checks on a durable resource. *)
Lemma meq_durable {A} what (d e : ObjectMeta) (m : M A) (n : M A) :
  m ≡ₘ n →
  (if bool_decide (map_get (om_Labels d) LabelInstance = "")
   then throw (ErrorString (what +:+ " " +:+ om_Name e +:+ " has no project instance label"))
   else if bool_decide (map_get (om_Labels e) LabelInstance ≠ map_get (om_Labels d) LabelInstance)
   then throw (ErrorString (what +:+ " " +:+ om_Name e +:+ " has instance label " +:+
     Quote (map_get (om_Labels e) LabelInstance) +:+ ", expected " +:+
     Quote (map_get (om_Labels d) LabelInstance)))
   else m) ≡ₘ (p ← get_project; _ ← lift (durable_guard what d e); n).
Proof.
  intros Hm p. unfold durable_guard, guard_err, mbind, M_bind. cbn.
  do 2 (case_bool_decide; cbn; [apply peq_ret|]). apply Hm.
Qed.

(** One step of both programs. *)
Ltac meq_step :=
  match goal with
  | |- ?m ≡ₘ ?m => reflexivity
  | |- _ ≡ₘ (get_project ≫= λ p, lift (inr tt) ≫= _) => apply meq_admitted
  | |- _ ≡ₘ (mret _ ≫= _) => apply meq_ret_bind
  | |- (get_project ≫= _) ≡ₘ (get_project ≫= _) => apply meq_guarded
  | |- _ ≡ₘ map_error _ id => apply meq_written
  | |- (_ ≫= _) ≡ₘ (_ ≫= _) => apply meq_bind; [reflexivity|intros ?]
  | |- (match ?x with Some _ => _ | None => _ end) ≡ₘ _ => destruct x
  end.
Tactic Notation "meq_walk" reference(pol) :=
  unfold apply, owned_by_set, pol, admit_all;
  cbn [mg_owned mg_get_error mg_create_error mg_update_error mg_guard mg_in_sync mg_merge];
  repeat meq_step.

Lemma meq_decide {k} (b1 b2 : bool) (o1 o2 : object k) :
  b1 = b2 → o1 = o2 →
  (if b1 then mret (M := M) tt else update_ o1) ≡ₘ (if b2 then mret tt else map_error (update_ o2) id).
Proof. intros <- <-. destruct b1; [reflexivity|apply meq_written]. Qed.

(** Both sides decide by the same tests, in another order. *)
Ltac meq_flags :=
  repeat match goal with
  | |- context [@owners_changed ?k ?x ?y] => destruct (@owners_changed k x y)
  | |- context [mergeLabels ?x ?y] => destruct (mergeLabels x y) as [? []]
  | |- context [@deep_equal ?A ?I ?x ?y] => destruct (@deep_equal A I x y)
  end; cbn [andb orb negb fst snd]; first [reflexivity | apply meq_written].

Lemma secret_refines d : createOrUpdateSecret d ≡ₘ apply secret_policy d.
Proof. unfold createOrUpdateSecret. meq_walk secret_policy. meq_flags. Qed.
Lemma configmap_refines d : createOrUpdateConfigMap d ≡ₘ apply configmap_policy d.
Proof.
  unfold createOrUpdateConfigMap. meq_walk configmap_policy.
  match goal with |- context [mergeLabels ?x ?y] => destruct (mergeLabels x y) as [m []] end;
    change (cm_Data (a0 <| cm_meta := m |>)) with (cm_Data a0); meq_flags.
Qed.
Lemma service_refines d : createOrUpdateService d ≡ₘ apply service_policy d.
Proof. unfold createOrUpdateService. meq_walk service_policy. meq_flags. Qed.
Lemma cronjob_refines d : createOrUpdateCronJob d ≡ₘ apply cronjob_policy d.
Proof. unfold createOrUpdateCronJob. meq_walk cronjob_policy. meq_flags. Qed.
Lemma deployment_refines d : createOrUpdateDeployment d ≡ₘ apply deployment_policy d.
Proof.
  unfold createOrUpdateDeployment. meq_walk deployment_policy.
  apply meq_decide; [|done]. unfold strategy_differs. rewrite <- !andb_assoc.
  do 2 f_equal. apply andb_comm.
Qed.

Lemma objectstore_refines d : createOrUpdateObjectStore (Some d) ≡ₘ apply objectstore_policy d.
Proof.
  unfold createOrUpdateObjectStore. meq_walk objectstore_policy.
  apply (meq_durable "ObjectStore"). meq_walk objectstore_policy.
  rewrite owners_unchanged, andb_true_r. unfold durable_meta, merge_config.
  destruct (removeSupabaseProjectOwnerReference _ _) as [m c1].
  destruct (mergeLabels m _) as [m' c2]. reflexivity.
Qed.
Lemma scheduledbackup_refines d :
  createOrUpdateScheduledBackup (Some d) ≡ₘ apply scheduledbackup_policy d.
Proof.
  unfold createOrUpdateScheduledBackup. meq_walk scheduledbackup_policy.
  apply (meq_durable "ScheduledBackup"). meq_walk scheduledbackup_policy.
  rewrite owners_unchanged, andb_true_r. unfold durable_meta.
  destruct (removeSupabaseProjectOwnerReference _ _) as [m c1].
  destruct (mergeLabels m _) as [m' c2]. reflexivity.
Qed.

Lemma helper_refines h desired : createOrUpdate h desired ≡ₘ apply (policy_of h) desired.
Proof.
  destruct h; [apply secret_refines|apply configmap_refines|apply deployment_refines|
    apply service_refines|apply cronjob_refines|apply objectstore_refines|
    apply scheduledbackup_refines].
Qed.
End Refinement.

(** ** The policies are lawful *)

(** What may differ between an object sent and the object served, by kind: the
    API server fills in the documented defaults of [Defaulting] in Deployments,
    CronJobs and Service ports; a store's section that was left out may be
    served in any form. *)
Definition kept {A} (o s : option A) : Prop := o ≠ None → s = o.
Definition unchanged `{Platform} (h : helper) : object (hkind h) → object (hkind h) → Prop :=
  match h with
  | HSecret => λ _ _ : Secret, True
  | HConfigMap => λ o s : ConfigMap, cm_Data s = cm_Data o
  | HDeployment => λ o s : Deployment, deployment_defaulted o s
  | HService => λ o s : Service,
      Forall2 service_port_defaulted (svc_Ports o) (svc_Ports s) ∧ svc_Selector s = svc_Selector o
  | HCronJob => λ o s : CronJob, cronjob_defaulted (cj_Spec o) (cj_Spec s)
  | HObjectStore => λ o s : ObjectStore,
      let c := os_Configuration o in
      let d := os_Configuration s in
      bo_BarmanCredentials d = bo_BarmanCredentials c ∧ bo_EndpointURL d = bo_EndpointURL c ∧
      bo_DestinationPath d = bo_DestinationPath c ∧ kept (bo_Wal c) (bo_Wal d) ∧
      kept (bo_Data c) (bo_Data d) ∧ os_RetentionPolicy s = os_RetentionPolicy o
  | HScheduledBackup => λ o s : ScheduledBackup,
      sb_Schedule s = sb_Schedule o ∧ sb_Cluster s = sb_Cluster o ∧
      sb_BackupOwnerReference s = sb_BackupOwnerReference o ∧ sb_Method s = sb_Method o ∧
      sb_PluginConfiguration s = sb_PluginConfiguration o
  end.

(** What the builders guarantee of the objects they ask for. *)
Definition durable_request (m : ObjectMeta) : Prop :=
  map_get (om_Labels m) LabelInstance ≠ "" ∧ om_OwnerReferences m = [].
Definition acceptable (h : helper) (p : SupabaseProject) : object (hkind h) → Prop :=
  match h with
  | HSecret => λ _ : Secret, True
  | HConfigMap => λ d : ConfigMap, map_get (om_Labels (cm_meta d)) LabelInstance = prj_Name p
  | HDeployment => λ d : Deployment, complete_deployment d
  | HService => λ d : Service, Forall complete_service_port (svc_Ports d)
  | HCronJob => λ d : CronJob, complete_cronjob (cj_Spec d)
  | HObjectStore => λ d : ObjectStore, durable_request (os_meta d)
  | HScheduledBackup => λ d : ScheduledBackup, durable_request (sb_meta d)
  end.

(** Types compared by plain equality. *)
#[local] Hint Extern 5 (DeepEqualLaws _) => exact eq_deep_equal_laws : typeclass_instances.

(** Labels that were merged need no second merge. *)
Lemma mergeLabels_settled m m' s d :
  om_Labels s = om_Labels (mergeLabels m d).1 → m' = s → (mergeLabels m' d).2 = false.
Proof.
  intros Hs ->. apply mergeLabels_changed. intros k v Hk. unfold map_get. rewrite Hs.
  fold (map_get (om_Labels (mergeLabels m d).1) k). by rewrite mergeLabels_lookup, Hk.
Qed.
Lemma labels_differ m d : om_Labels (mergeLabels m d).1 = om_Labels m → (mergeLabels m d).2 = false.
Proof. intros E. by eapply mergeLabels_settled. Qed.
Lemma mergeLabels_read m d s k :
  om_Labels s = om_Labels (mergeLabels m d).1 →
  map_get (om_Labels s) k = default (map_get (om_Labels m) k) (d !! k).
Proof. intros Hs. rewrite <- mergeLabels_lookup. unfold map_get. by rewrite Hs. Qed.
Lemma mergeLabels_same m d : om_Labels m = d → (mergeLabels m d).2 = false.
Proof. intros <-. apply mergeLabels_changed. intros k v Hk. unfold map_get. by rewrite Hk. Qed.

Section DurableLaws.
Context `{Platform}.

Lemma remove_owner_labels m n :
  om_Labels (removeSupabaseProjectOwnerReference m n).1 = om_Labels m.
Proof. apply removeSupabaseProjectOwnerReference_key. Qed.
Lemma remove_owner_settled m s n :
  om_OwnerReferences s = om_OwnerReferences (removeSupabaseProjectOwnerReference m n).1 →
  (removeSupabaseProjectOwnerReference s n).2 = false.
Proof.
  intros Hs. unfold removeSupabaseProjectOwnerReference. case_bool_decide as Hn; [done|].
  destruct (existsb (owned_by_project n) (om_OwnerReferences s)) eqn:E; [|done].
  apply existsb_exists in E as (o & Ho & Hown).
  rewrite Hs in Ho. apply list_elem_of_In in Ho.
  by rewrite (removeSupabaseProjectOwnerReference_disowned m n o) in Hown.
Qed.

Lemma removal_differs m n :
  om_OwnerReferences (removeSupabaseProjectOwnerReference m n).1 = om_OwnerReferences m →
  (removeSupabaseProjectOwnerReference m n).2 = false.
Proof. intros E. by eapply remove_owner_settled. Qed.

Lemma durable_meta_unfold d m :
  durable_meta d m =
  let r := removeSupabaseProjectOwnerReference m (map_get (om_Labels d) LabelInstance) in
  let l := mergeLabels r.1 (om_Labels d) in (l.1, r.2 || l.2).
Proof.
  unfold durable_meta. destruct (removeSupabaseProjectOwnerReference _ _) as [m1 c1]. cbn [fst snd].
  by destruct (mergeLabels _ _).
Qed.

Lemma durable_meta_created d s :
  om_OwnerReferences d = [] → om_OwnerReferences s = om_OwnerReferences d →
  om_Labels s = om_Labels d → (durable_meta d s).2 = false.
Proof.
  intros Hd Ho Hl. rewrite durable_meta_unfold. cbn [snd].
  rewrite mergeLabels_same by by rewrite remove_owner_labels.
  rewrite orb_false_r. unfold removeSupabaseProjectOwnerReference.
  case_bool_decide; [done|]. by rewrite Ho, Hd.
Qed.
Lemma durable_meta_merged d e s :
  om_OwnerReferences s = om_OwnerReferences (durable_meta d e).1 →
  om_Labels s = om_Labels (durable_meta d e).1 → (durable_meta d s).2 = false.
Proof.
  rewrite !durable_meta_unfold. cbn [fst snd]. intros Ho Hl.
  rewrite (remove_owner_settled e) by by rewrite Ho.
  eapply mergeLabels_settled; [|done]. by rewrite remove_owner_labels.
Qed.

Lemma durable_guard_created what d s :
  durable_request d → om_Labels s = om_Labels d → durable_guard what d s = inr tt.
Proof.
  intros [Hi _] Hl. unfold durable_guard. rewrite Hl, !bool_decide_eq_false_2 by auto. done.
Qed.
Lemma durable_guard_merged what d e s :
  durable_guard what d e = inr tt → om_Labels s = om_Labels (durable_meta d e).1 →
  durable_guard what d s = inr tt.
Proof.
  rewrite durable_meta_unfold. cbn [fst]. unfold durable_guard. intros Hg Hl.
  apply result_bind_inr in Hg as ([] & H1%guard_err_inr & H2%guard_err_inr). bools.
  apply dec_stable in H2.
  assert (map_get (om_Labels s) LabelInstance = map_get (om_Labels d) LabelInstance) as ->.
  { rewrite (mergeLabels_read _ _ _ _ Hl), remove_owner_labels, H2. unfold map_get.
    by destruct (om_Labels d !! LabelInstance). }
  by rewrite !bool_decide_eq_false_2 by auto.
Qed.
End DurableLaws.

Section PolicyLaws.
Context `{Platform} `{!PlatformLaws}.

Lemma durable_meta_identity d m :
  meta_key (durable_meta d m).1 = meta_key m ∧ om_UID (durable_meta d m).1 = om_UID m.
Proof.
  rewrite durable_meta_unfold. cbn [fst]. unfold removeSupabaseProjectOwnerReference.
  case_bool_decide; [done|]. by destruct (existsb _ _).
Qed.
Lemma durable_meta_noop d m : (durable_meta d m).1 = m → (durable_meta d m).2 = false.
Proof.
  intros E. apply (durable_meta_merged d m m); by rewrite E.
Qed.

#[export] Instance secret_laws : ManagedLaws secret_policy (unchanged HSecret) (acceptable HSecret).
Proof. by split. Qed.

Lemma configmap_in_sync (d a : ConfigMap) :
  cm_Data a = cm_Data d → (mergeLabels (cm_meta a) (om_Labels (cm_meta d))).2 = false →
  mg_in_sync configmap_policy d a = true.
Proof. intros Ed El. cbn [configmap_policy mg_in_sync]. by rewrite Ed, El, deep_equal_refl. Qed.
Lemma configmap_guarded p (d e : ConfigMap) :
  map_get (om_Labels (cm_meta e)) LabelInstance = prj_Name p ↔ mg_guard configmap_policy p d e = inr tt.
Proof.
  cbn. rewrite guard_err_inr, bool_decide_eq_false. split; [by intros -> []|apply dec_stable].
Qed.
#[export] Instance configmap_laws :
  ManagedLaws configmap_policy (unchanged HConfigMap) (acceptable HConfigMap).
Proof.
  split; cbn [configmap_policy mg_merge acceptable unchanged]; try done.
  - intros p d s _ [_ _ Hl _ Hd]. apply configmap_in_sync; [done|by apply mergeLabels_same].
  - intros p d s Ha [_ _ Hl _ _]. apply configmap_guarded. rewrite <- Ha. by f_equal.
  - intros p d e s _ _ [_ _ Hl _ Hd]. apply configmap_in_sync; [done|].
    by eapply (mergeLabels_settled (cm_meta e)).
  - intros p d e s Ha He%configmap_guarded [_ _ Hl _ _]. apply configmap_guarded.
    etransitivity; [exact (mergeLabels_read (cm_meta e) _ _ _ Hl)|]. rewrite He, <- Ha.
    unfold map_get. by destruct (om_Labels (cm_meta d) !! _).
  - intros d e E. apply configmap_in_sync; [by apply (f_equal cm_Data) in E|].
    apply labels_differ. by apply (f_equal (om_Labels ∘ cm_meta)) in E.
Qed.

Lemma strategy_differs_false d a :
  strategy_differs d a = false ↔ (dst_Type (dp_Strategy d) ≠ "" → dp_Strategy a = dp_Strategy d).
Proof.
  unfold strategy_differs. rewrite andb_false_iff, negb_false_iff, bool_decide_eq_false.
  unfold deep_equal, Strategy_deq, eq_deep_equal. rewrite bool_decide_eq_true.
  destruct (decide (dst_Type (dp_Strategy d) ≠ "")); naive_solver.
Qed.
Lemma deployment_in_order (d s : Deployment) :
  dp_Replicas s = dp_Replicas d →
  deep_equal (normalizePodTemplateDefaults (dp_Template s))
    (normalizePodTemplateDefaults (dp_Template d)) = true →
  (dst_Type (dp_Strategy d) ≠ "" → dp_Strategy s = dp_Strategy d) →
  mg_in_sync deployment_policy d s = true.
Proof.
  intros Hr Ht Hs. cbn. rewrite Hr, Ht, (proj2 (strategy_differs_false d s)) by done.
  by rewrite deep_equal_refl.
Qed.
(** The fields of a merged Deployment. *)
Lemma deployment_merged (d e : Deployment) :
  let m : Deployment := mg_merge deployment_policy d e in
  dp_Replicas m = dp_Replicas d ∧ dp_Template m = normalizePodTemplateDefaults (dp_Template d) ∧
  (dst_Type (dp_Strategy d) ≠ "" → dp_Strategy m = dp_Strategy d) ∧
  dp_meta m = dp_meta e ∧ dp_Selector m = dp_Selector e ∧ dp_other m = dp_other e ∧
  dp_Status m = dp_Status e.
Proof.
  cbn. destruct (strategy_differs d e) eqn:E; [done|]. split_and!; try done.
  by apply strategy_differs_false.
Qed.
#[export] Instance deployment_laws :
  ManagedLaws deployment_policy (unchanged HDeployment) (acceptable HDeployment).
Proof.
  split; try done; cbn [acceptable unchanged].
  - intros _ d s [Hr Hst Ht] [_ _ _ _ [Dr Ds Dt]]. apply deployment_in_order.
    + by apply filled_set in Dr.
    + by apply template_absorbed.
    + intros He. by apply strategy_absorbed.
  - intros _ d e s [Hr Hst Ht] _ [_ _ _ _ [Dr Ds Dt]].
    destruct (deployment_merged d e) as (Er & Et & Es & _).
    rewrite Er in Dr. rewrite Et in Dt. apply deployment_in_order.
    + by apply filled_set in Dr.
    + by apply template_settled.
    + intros He. rewrite Es in Ds by done. by apply strategy_absorbed.
  - intros d e _. destruct (deployment_merged d e) as (_ & _ & _ & Hm & _).
    cbn [obj_meta]. by rewrite Hm.
  - intros d e. destruct (deployment_merged d e) as (_ & _ & _ & Hm & _).
    unfold obj_key. cbn [obj_meta]. by rewrite Hm.
  - intros d e E. destruct (deployment_merged d e) as (Er & Et & Es & _). rewrite E in *.
    apply deployment_in_order; [done| |done]. rewrite Et, normalizePodTemplateDefaults_idemp.
    apply deep_equal_refl.
  - intros p d refs _ [Hr Hs Ht]. by split.
Qed.

Lemma service_in_sync (d s : Service) :
  svc_Ports s = svc_Ports d → svc_Selector s = svc_Selector d → mg_in_sync service_policy d s = true.
Proof. intros Ep Es. cbn. by rewrite Ep, Es, !deep_equal_refl. Qed.
#[export] Instance service_laws :
  ManagedLaws service_policy (unchanged HService) (acceptable HService).
Proof.
  split; try done; cbn [acceptable unchanged].
  - intros _ d s Ha [_ _ _ _ [Dp Ds]]. apply service_in_sync; [by apply service_ports_absorbed|done].
  - intros _ d e s Ha _ [_ _ _ _ [Dp Ds]].
    apply service_in_sync; [by apply service_ports_absorbed|done].
  - intros d e E. apply service_in_sync;
      [by apply (f_equal svc_Ports) in E|by apply (f_equal svc_Selector) in E].
Qed.

Lemma cronjob_in_sync (d s : CronJob) :
  deep_equal (normalizeCronJobDefaults (cj_Spec s)) (normalizeCronJobDefaults (cj_Spec d)) = true →
  (mergeLabels (cj_meta s) (om_Labels (cj_meta d))).2 = false → mg_in_sync cronjob_policy d s = true.
Proof. intros Es El. cbn [cronjob_policy mg_in_sync]. by rewrite Es, El. Qed.
#[export] Instance cronjob_laws :
  ManagedLaws cronjob_policy (unchanged HCronJob) (acceptable HCronJob).
Proof.
  split; try done; cbn [acceptable unchanged].
  - intros _ d s Ha [_ _ Hl _ Hs].
    apply cronjob_in_sync; [by apply cronjob_absorbed|by apply mergeLabels_same].
  - intros _ d e s Ha _ [_ _ Hl _ Hs].
    apply cronjob_in_sync; [by apply cronjob_settled|by eapply (mergeLabels_settled (cj_meta e))].
  - intros d e E. apply cronjob_in_sync.
    + apply (f_equal cj_Spec) in E. cbn in E. rewrite <- E, normalizeCronJobDefaults_idemp.
      apply deep_equal_refl.
    + apply labels_differ. by apply (f_equal (om_Labels ∘ cj_meta)) in E.
Qed.

(** A store is in order when its metadata are and every section that is asked
    for is as asked. *)
Lemma objectstore_in_sync (d s : ObjectStore) :
  (durable_meta (os_meta d) (os_meta s)).2 = false →
  bo_BarmanCredentials (os_Configuration s) = bo_BarmanCredentials (os_Configuration d) →
  bo_EndpointURL (os_Configuration s) = bo_EndpointURL (os_Configuration d) →
  bo_DestinationPath (os_Configuration s) = bo_DestinationPath (os_Configuration d) →
  kept (bo_Wal (os_Configuration d)) (bo_Wal (os_Configuration s)) →
  kept (bo_Data (os_Configuration d)) (bo_Data (os_Configuration s)) →
  os_RetentionPolicy s = os_RetentionPolicy d → mg_in_sync objectstore_policy d s = true.
Proof.
  intros Hm Hc Hu Hp Hw Hd Hr. cbn [objectstore_policy mg_in_sync]. rewrite Hm, Hr.
  unfold object_store_config_changed. rewrite Hc, Hu, Hp, deep_equal_refl.
  rewrite !bool_decide_eq_false_2 by auto. apply negb_true_iff. cbn [orb negb].
  rewrite (bool_decide_eq_false_2 (os_RetentionPolicy d ≠ _)), orb_false_r, orb_false_iff by auto.
  split; case_bool_decide as Hx; try done; cbn [andb];
    [rewrite (Hw Hx)|rewrite (Hd Hx)]; by rewrite deep_equal_refl.
Qed.
Lemma merge_config_spec d c :
  bo_BarmanCredentials (merge_config d c) = bo_BarmanCredentials d ∧
  bo_EndpointURL (merge_config d c) = bo_EndpointURL d ∧
  bo_DestinationPath (merge_config d c) = bo_DestinationPath d ∧
  bo_Wal (merge_config d c) = match bo_Wal d with Some w => Some w | None => bo_Wal c end ∧
  bo_Data (merge_config d c) = match bo_Data d with Some w => Some w | None => bo_Data c end ∧
  bo_other (merge_config d c) = bo_other c.
Proof. unfold merge_config. destruct (bo_Wal d) eqn:E, (bo_Data d) eqn:E'; cbn; by rewrite ?E, ?E'. Qed.
#[export] Instance objectstore_laws :
  ManagedLaws objectstore_policy (unchanged HObjectStore) (acceptable HObjectStore).
Proof.
  split; try done; cbn [acceptable unchanged].
  - intros p d s [Hi Ho] [_ _ Hl Hor (Dc & Du & Dp & Dw & Dd & Dr)].
    apply objectstore_in_sync; try done. by apply durable_meta_created.
  - intros p d s Ha [_ _ Hl _ _]. by apply durable_guard_created.
  - intros p d e s _ _ [_ _ Hl Hor (Dc & Du & Dp & Dw & Dd & Dr)].
    assert (Em : os_Configuration (mg_merge objectstore_policy d e : ObjectStore) =
      merge_config (os_Configuration d) (os_Configuration e)) by done. rewrite Em in *.
    destruct (merge_config_spec (os_Configuration d) (os_Configuration e)) as (Ec & Eu & Ep & Ew & Ed & _).
    apply objectstore_in_sync; try (etransitivity; [eassumption|assumption]); try done.
    + by apply (durable_meta_merged (os_meta d) (os_meta e)).
    + intros Hw. unfold kept in Dw. rewrite Ew in Dw.
      destruct (bo_Wal (os_Configuration d)); [by apply Dw|done].
    + intros Hw. unfold kept in Dd. rewrite Ed in Dd.
      destruct (bo_Data (os_Configuration d)); [by apply Dd|done].
  - intros p d e s _ Hg [_ _ Hl _ _]. exact (durable_guard_merged _ (os_meta d) (os_meta e) _ Hg Hl).
  - intros d e. apply durable_meta_identity.
  - intros d e E.
    destruct (merge_config_spec (os_Configuration d) (os_Configuration e)) as (Ec & Eu & Ep & Ew & Ed & _).
    pose proof (f_equal os_Configuration E) as Ecf. cbn [objectstore_policy mg_merge] in Ecf. cbn in Ecf.
    rewrite Ecf in Ec, Eu, Ep, Ew, Ed.
    apply objectstore_in_sync; try done.
    + apply durable_meta_noop. by apply (f_equal os_meta) in E.
    + intros Hw. rewrite Ew. by destruct (bo_Wal (os_Configuration d)).
    + intros Hw. rewrite Ed. by destruct (bo_Data (os_Configuration d)).
    + by apply (f_equal os_RetentionPolicy) in E.
Qed.

Lemma scheduledbackup_in_sync (d s : ScheduledBackup) :
  (durable_meta (sb_meta d) (sb_meta s)).2 = false → unchanged HScheduledBackup d s →
  mg_in_sync scheduledbackup_policy d s = true.
Proof.
  intros Hm (E1 & E2 & E3 & E4 & E5). cbn [scheduledbackup_policy mg_in_sync].
  rewrite Hm, E1, E2, E3, E4, E5, !bool_decide_eq_false_2 by auto. by repeat rewrite deep_equal_refl.
Qed.
#[export] Instance scheduledbackup_laws :
  ManagedLaws scheduledbackup_policy (unchanged HScheduledBackup) (acceptable HScheduledBackup).
Proof.
  split; try done; cbn [acceptable].
  - intros p d s [Hi Ho] [_ _ Hl Hor Hs]. apply scheduledbackup_in_sync; [|done].
    by apply durable_meta_created.
  - intros p d s Ha [_ _ Hl _ _]. by apply durable_guard_created.
  - intros p d e s _ _ [_ _ Hl Hor Hs]. apply scheduledbackup_in_sync; [|done].
    by apply (durable_meta_merged (sb_meta d) (sb_meta e)).
  - intros p d e s _ Hg [_ _ Hl _ _]. exact (durable_guard_merged _ (sb_meta d) (sb_meta e) _ Hg Hl).
  - intros d e. apply durable_meta_identity.
  - intros d e E. apply scheduledbackup_in_sync; [apply durable_meta_noop; by apply (f_equal sb_meta) in E|].
    cbn. rewrite <- E. done.
Qed.

Lemma helper_laws h : ManagedLaws (policy_of h) (unchanged h) (acceptable h).
Proof. destruct h; exact _. Qed.
End PolicyLaws.
