(* ===== verification/Provisioning.v ===== *)
(** * Provisioning phases (the first phases of Reconcile,
    src/internal/controller/supabaseproject_controller.go)

    Repair of durable metadata, the project's credentials and the generated
    Secrets, the bootstrap guard, and the ConfigMaps of the init SQL and the
    public keys. *)

From S2P Require Import Prelude KubeTypes Types Platform Effects Common ConfigMaps Cnpg Encoding Sha256 Crypto Secrets ObjectSync ClusterSync Store.

(** [ctrl.Result]: [Some d] asks for a requeue after [d] seconds. *)
Definition Result : Type := option Z.
Definition RequeueDelay : Z := 10.

(** [if result, err := m; err != nil || result.RequeueAfter > 0 { return }]. *)
Definition or_requeue (m : M Result) (continue : M Result) : M Result :=
  r ← m;
  match r with
  | Some _ => mret r
  | None => continue
  end.

Definition set_phase (phase : string) : M unit := modify_status (λ s, s <| sts_Phase := phase |>).

(** A name in the project's namespace. *)
Definition in_namespace (p : SupabaseProject) (name : string) : NamespacedName :=
  {| nn_Namespace := prj_Namespace p; nn_Name := name |}.

Definition secret_names (p : SupabaseProject) : SecretNamesStatus := sts_SecretNames (prj_Status p).

Section Provisioning.
Context `{Platform} `{CryptoLib}.

(** ** Phase 0: durable metadata *)

(** [key.String()]. *)
Definition key_string (k : NamespacedName) : string := nn_Namespace k +:+ "/" +:+ nn_Name k.

(** One iteration of the loop over the durable resources. *)
Definition protect_durable (k : kind) (name : string) : M unit :=
  p ← get_project;
  let key := in_namespace p name in
  existing ← lookup_object k key
    (WrapError ("getting durable resource " +:+ key_string key +:+ ": "));
  match existing with
  | None => mret tt
  | Some o =>
      if bool_decide (map_get (om_Labels (obj_meta o)) LabelInstance ≠ prj_Name p)
      then mret tt
      else
        let '(m, changed) := removeSupabaseProjectOwnerReference (obj_meta o) (prj_Name p) in
        if negb changed then mret tt
        else map_error (update_ (set_meta m o))
               (WrapError ("removing SupabaseProject owner from durable resource " +:+
                  key_string key +:+ ": "))
  end.

Definition reconcileDurableMetadataProtection : M unit :=
  p ← get_project;
  for_each [(KCluster, ClusterName p); (KObjectStore, ObjectStoreName p);
            (KObjectStore, RecoveryObjectStoreName p);
            (KScheduledBackup, ScheduledBackupName p)]
    (λ durable, protect_durable durable.1 durable.2).

(** ** Phase 1: credentials and implementation secrets *)

Definition failEmailHookSecret (reason : string) (reconcileErr : error) : M unit :=
  _ ← report ConditionTypeSecretsReady ConditionFalse reason (Error reconcileErr);
  throw reconcileErr.

Definition reconcileEmailHookSecret : M unit :=
  p ← get_project;
  if match as_EmailHook (sps_Auth (prj_Spec p)) with
     | Some hook => negb (eh_Enabled hook) | None => true
     end
  then
    if bool_decide (sn_EmailHook (secret_names p) = "") then mret tt
    else
      _ ← modify_status (λ s, s <| sts_SecretNames ::= (λ n, n <| sn_EmailHook := "" |>) |>);
      updateProjectStatus
  else
    let name := EmailHookSecretName p in
    r ← attempt (api_get KSecret (in_namespace p name));
    _ ← match r with
        | inl err =>
            if negb (IsNotFound err) then failEmailHookSecret "EmailHookSecretUnavailable" err
            else
              g ← attempt (GenerateEmailHookSecret p);
              match g with
              | inl err => failEmailHookSecret "EmailHookSecretGenerationFailed" err
              | inr (generated, _) =>
                  catch (createOrUpdateSecret generated)
                    (failEmailHookSecret "EmailHookSecretCreateFailed")
              end
        | inr existing =>
            match ValidateEmailHookSecret (Some existing) with
            | inl err => failEmailHookSecret "InvalidEmailHookSecret" err
            | inr _ => mret tt
            end
        end;
    _ ← modify_status (λ s, s <| sts_SecretNames ::= (λ n, n <| sn_EmailHook := name |>) |>);
    report ConditionTypeSecretsReady ConditionTrue "SecretsReady"
      "All secrets, including the email hook secret, are ready".

Definition reconcilePowersyncAPITokenSecret : M unit :=
  p ← get_project;
  let name := PowersyncAPITokenSecretName p in
  existing ← lookup_object KSecret (in_namespace p name)
    (WrapError ("getting PowerSync API token Secret " +:+ Quote name +:+ ": "));
  match existing with
  | None =>
      generated ← GeneratePowersyncAPITokenSecret p;
      map_error (createOrUpdateSecret generated)
        (WrapError ("creating PowerSync API token Secret " +:+ Quote name +:+ ": "))
  | Some existing =>
      _ ← map_error (lift (ValidatePowersyncAPITokenSecret (Some existing)))
            (WrapError ("validating PowerSync API token Secret " +:+ Quote name +:+ ": "));
      let placeholder :=
        {| sec_meta := new_meta name (prj_Namespace p) ∅ ∅; sec_Data := ∅;
           sec_StringData := ∅; sec_Type := "" |} in
      map_error (createOrUpdateSecret placeholder)
        (WrapError ("adopting PowerSync API token Secret " +:+ Quote name +:+ ": "))
  end.

(** Whether every Secret exists; stops at the first that does not. *)
Fixpoint all_exist (names : list string) : M bool :=
  match names with
  | [] => mret true
  | name :: names =>
      p ← get_project;
      existing ← lookup_object KSecret (in_namespace p name) id;
      match existing with
      | None => mret false
      | Some _ => all_exist names
      end
  end.

(** The secret names with the PowerSync entries filled in. *)
Definition reconcilePowersyncSecrets (names : SecretNamesStatus) : M SecretNamesStatus :=
  p ← get_project;
  let '(storagePwdName, replPwdName) := PowersyncSecretNames p in
  allExist ← all_exist [storagePwdName; replPwdName];
  _ ← (if allExist : bool then mret tt
       else
         psSecrets ← on_error (GeneratePowersyncSecrets p) (λ err,
           report ConditionTypeSecretsReady ConditionFalse "PowersyncSecretsFailed" (Error err));
         for_each psSecrets (λ secret,
           on_error (createOrUpdateSecret secret) (λ err,
             report ConditionTypeSecretsReady ConditionFalse "CreateFailed" (Error err))));
  _ ← reconcilePowersyncAPITokenSecret;
  mret (names <| sn_PowersyncStoragePassword := storagePwdName |>
              <| sn_PowersyncReplicationPassword := replPwdName |>).

Definition reconcileImplementationSecrets : M unit :=
  p ← get_project;
  '(generated, names) ← GenerateSecrets p;
  _ ← for_each generated createOrUpdateSecret;
  p ← get_project;
  names ← match sps_Powersync (prj_Spec p) with
          | Some _ => reconcilePowersyncSecrets names
          | None => mret names
          end;
  _ ← reconcileEmailHookSecret;
  p ← get_project;
  modify_status (λ s,
    s <| sts_SecretNames := names <| sn_EmailHook := sn_EmailHook (secret_names p) |> |>).

Definition failReconcileSecrets {A} (reason message : string) (reconcileErr : error) : M A :=
  _ ← setCondition ConditionTypeSecretsReady ConditionFalse reason message;
  _ ← report ConditionTypeReady ConditionFalse "SecretsNotReady"
        "Project credentials and implementation secrets are not ready";
  throw reconcileErr.

(** The two token checks of the validation each read the clock. *)
Definition validate_credentials (secret : Secret) : M ProjectCredentials :=
  now1 ← call Now;
  now2 ← call Now;
  lift (ValidateProjectCredentials now1 now2 (Some secret)).

Definition reconcileSecrets : M ProjectCredentials :=
  p ← get_project;
  _ ← when (bool_decide (sts_Phase (prj_Status p) = PhasePending)) (set_phase PhaseProvisioning);
  let name := sps_ProjectCredentialsSecret (prj_Spec p) in
  if bool_decide (name = "")
  then
    let err := ErrorString ("project credential field " +:+ Quote "projectCredentialsSecret" +:+
                 ": Secret reference is required") in
    failReconcileSecrets "CredentialsReferenceMissing" (Error err) err
  else
    external ← catch (api_get KSecret (in_namespace p name)) (λ err,
      let message :=
        if negb (IsNotFound err)
        then "project credential Secret " +:+ Quote name +:+ " could not be read"
        else "project credential Secret " +:+ Quote name +:+ " is unavailable" in
      failReconcileSecrets "CredentialsSecretUnavailable" message
        (ErrorString ("project credential Secret " +:+ Quote name +:+ " unavailable")));
    credentials ← catch (validate_credentials external) (λ err,
      failReconcileSecrets "InvalidProjectCredentials" (Error err) err);
    _ ← catch reconcileImplementationSecrets (λ err,
      failReconcileSecrets "ImplementationSecretFailed" (Error err) err);
    _ ← report ConditionTypeSecretsReady ConditionTrue "CredentialsValidated"
          "Project credentials and implementation secrets are ready";
    mret credentials.

Definition validateRecoveryBootstrapIntent : M unit :=
  p ← get_project;
  let desired := BuildCluster p (secret_names p) in
  existing ← lookup_object KCluster (meta_key (cl_meta desired))
    (WrapError "getting CNPG cluster for recovery validation: ");
  match existing with
  | None => mret tt
  | Some existing =>
      if recoveryBootstrapIntentChanged existing desired
      then throw (ErrorString
             "CNPG recovery bootstrap configuration is immutable after cluster creation")
      else
        match BuildRecoveryObjectStore p with
        | None => mret tt
        | Some desiredStore =>
            currentStore ← lookup_object KObjectStore (meta_key (os_meta desiredStore))
              (WrapError "getting recovery source ObjectStore for validation: ");
            match currentStore with
            | Some currentStore =>
                if recoveryObjectStoreIdentityChanged currentStore desiredStore
                then throw (ErrorString
                  "CNPG recovery source ObjectStore configuration is immutable after cluster creation")
                else mret tt
            | None => mret tt
            end
        end
  end.

(** ** Phase 2: generated ConfigMaps *)

Definition reconcileInitSQL : M unit :=
  p ← get_project; createOrUpdateConfigMap (BuildInitSQLConfigMap p).

Definition reconcileJWKSConfigMap (jwks : string) : M unit :=
  p ← get_project;
  on_error (createOrUpdateConfigMap (BuildJWKSConfigMap p jwks)) (λ err,
    report ConditionTypeSecretsReady ConditionFalse "JWKSConfigMapFailed" (Error err)).
End Provisioning.
