(* ===== verification/Database.v ===== *)
(** * Database phases (phases 2.5 to 4 of Reconcile,
    src/internal/controller/supabaseproject_controller.go)

    Backup and recovery infrastructure, the CNPG cluster and the wait for its
    instances. *)

From S2P Require Import Prelude KubeTypes Types Platform Effects Common ConfigMaps Cnpg Encoding Sha256 Crypto Secrets ObjectSync ClusterSync Store Provisioning.

Section Database.
Context `{Platform}.

(** ** Phase 2.5: backup and recovery *)

Definition validateS3Secret (namespace secretName : string) : M unit :=
  secret ← catch (api_get KSecret {| nn_Namespace := namespace; nn_Name := secretName |})
    (λ err,
      if IsNotFound err
      then throw (ErrorString ("S3 credentials secret " +:+ secretName +:+ " not found"))
      else throw (WrapError ("failed to get S3 credentials secret " +:+ secretName +:+ ": ") err));
  lift (foldr (λ key rest,
      match sec_Data secret !! key with
      | None => inl (ErrorString ("S3 credentials secret " +:+ secretName +:+
                       " missing required key: " +:+ key))
      | Some _ => rest
      end) (inr tt) [DefaultAccessKeyIDKey; DefaultSecretAccessKeyKey]).

Definition failBackup (reason : string) (err : error) : M unit :=
  _ ← report ConditionTypeBackupReady ConditionFalse reason (Error err); throw err.
Definition failRecovery (reason : string) (err : error) : M unit :=
  _ ← report ConditionTypeRecoveryReady ConditionFalse reason (Error err); throw err.

(** Delete a durable object of this project, if there is one; [what] is its
    name in the messages. *)
Definition delete_durable (k : kind) (what name : string) : M unit :=
  p ← get_project;
  existing ← lookup_object k (in_namespace p name)
    (WrapError ("failed to get " +:+ what +:+ ": "));
  match existing with
  | None => mret tt
  | Some o =>
      let instance := map_get (om_Labels (obj_meta o)) LabelInstance in
      if bool_decide (instance ≠ prj_Name p)
      then throw (ErrorString ("refusing to delete " +:+ what +:+ " " +:+ name +:+
                    " with instance label " +:+ Quote instance))
      else
        r ← attempt (api_delete k o false);
        match r with
        | inl err =>
            if IsNotFound err then mret tt
            else throw (WrapError ("failed to delete " +:+ what +:+ ": ") err)
        | inr _ => mret tt
        end
  end.

Definition remove_condition (conditionType : string) : M unit :=
  modify_status (λ s, s <| sts_Conditions ::= (λ cs, RemoveStatusCondition cs conditionType) |>).

Definition cleanupBackupResources : M unit :=
  p ← get_project;
  if bool_decide (FindStatusCondition (sts_Conditions (prj_Status p)) ConditionTypeBackupReady
                  = None)
  then mret tt
  else
    _ ← delete_durable KScheduledBackup "ScheduledBackup" (ScheduledBackupName p);
    _ ← delete_durable KObjectStore "ObjectStore" (ObjectStoreName p);
    _ ← remove_condition ConditionTypeBackupReady;
    updateProjectStatus.

Definition cleanupRecoveryResources : M unit :=
  p ← get_project;
  if bool_decide (FindStatusCondition (sts_Conditions (prj_Status p)) ConditionTypeRecoveryReady
                  = None)
  then mret tt
  else
    _ ← delete_durable KObjectStore "recovery ObjectStore" (RecoveryObjectStoreName p);
    _ ← remove_condition ConditionTypeRecoveryReady;
    updateProjectStatus.

Definition reconcileBackup : M unit :=
  p ← get_project;
  match backup_enabled p with
  | None => cleanupBackupResources
  | Some backup =>
      _ ← catch (validateS3Secret (prj_Namespace p)
                   (s3c_S3CredentialsSecret (bks_S3Config backup)))
            (failBackup "SecretError");
      _ ← catch (createOrUpdateObjectStore (BuildObjectStore p)) (failBackup "ObjectStoreFailed");
      _ ← catch (createOrUpdateScheduledBackup (BuildScheduledBackup p))
            (failBackup "ScheduledBackupFailed");
      report ConditionTypeBackupReady ConditionTrue "BackupConfigured"
        "Backup infrastructure is ready"
  end.

Definition reconcileRecovery : M unit :=
  p ← get_project;
  match recovery_enabled p with
  | None => cleanupRecoveryResources
  | Some recovery =>
      _ ← catch (validateS3Secret (prj_Namespace p)
                   (s3c_S3CredentialsSecret (rcs_S3Config recovery)))
            (failRecovery "SecretError");
      _ ← catch (createOrUpdateObjectStore (BuildRecoveryObjectStore p))
            (failRecovery "ObjectStoreFailed");
      report ConditionTypeRecoveryReady ConditionTrue "RecoveryConfigured"
        "Recovery infrastructure is ready"
  end.

Definition reconcileBackupInfrastructure : M unit := _ ← reconcileBackup; reconcileRecovery.

(** ** Phase 3: the cluster *)

(** Report a rejected database configuration and return its error. *)
Definition fail_database {A} (reason : string) (err : error) : M A :=
  _ ← report ConditionTypeDatabaseReady ConditionFalse reason (Error err); throw err.

(** The part of [reconcileCNPGCluster] on an existing cluster. *)
Definition sync_cluster (existing desired : Cluster) : M Result :=
  p ← get_project;
  let instance := map_get (om_Labels (cl_meta existing)) LabelInstance in
  if bool_decide (instance ≠ prj_Name p)
  then throw (ErrorString ("CNPG Cluster " +:+ om_Name (cl_meta existing) +:+
                " has instance label " +:+ Quote instance +:+ ", expected " +:+
                Quote (prj_Name p)))
  else
    let '(m, changed1) := removeSupabaseProjectOwnerReference (cl_meta existing) (prj_Name p) in
    let '(m, changed2) := mergeLabels m (om_Labels (cl_meta desired)) in
    let existing := existing <| cl_meta := m |> in
    let changed := changed1 || changed2 in
    let update_metadata :=
      when changed (map_error (update_ (k := KCluster) existing)
                      (WrapError "updating CNPG cluster metadata: ")) in
    if recoveryBootstrapIntentChanged existing desired
    then
      _ ← update_metadata;
      fail_database "BootstrapImmutable"
        (ErrorString "CNPG bootstrap configuration is immutable after cluster creation")
    else
      let '(spec, r) := reconcileClusterMutableFields (cl_Spec existing) (cl_Spec desired) in
      match r with
      | inl reconcileErr =>
          (* existing.Spec is restored from the copy taken before *)
          _ ← update_metadata;
          fail_database (reconcileErrReason reconcileErr) reconcileErr
      | inr mutableChanged =>
          if changed || mutableChanged
          then
            _ ← map_error (update_ (k := KCluster) (existing <| cl_Spec := spec |>))
                  (WrapError "updating CNPG cluster: ");
            mret (Some RequeueDelay)
          else mret None
      end.

Definition reconcileCNPGCluster : M Result :=
  p ← get_project;
  let desired := ClusterDefault (BuildCluster p (secret_names p)) in
  existing ← lookup_object KCluster (meta_key (cl_meta desired)) id;
  match existing with
  | None =>
      _ ← on_error (api_create KCluster desired) (λ err,
            report ConditionTypeDatabaseReady ConditionFalse "CreateFailed" (Error err));
      _ ← report ConditionTypeDatabaseReady ConditionFalse "Creating"
            "CNPG Cluster is being created";
      mret (Some RequeueDelay)
  | Some existing => sync_cluster existing desired
  end.

(** ** Phase 4: wait for the instances *)

Definition waitForDatabase : M Result :=
  p ← get_project;
  cluster ← api_get KCluster (in_namespace p (ClusterName p));
  let ready := cst_ReadyInstances (cl_Status cluster) in
  let instances := cs_Instances (cl_Spec cluster) in
  if ready <? instances
  then
    _ ← report ConditionTypeDatabaseReady ConditionFalse "WaitingForInstances"
          ("Waiting for database instances: " +:+ pretty ready +:+ "/" +:+ pretty instances +:+
           " ready");
    mret (Some RequeueDelay)
  else
    _ ← modify_status (λ s, s
          <| sts_Database := {| dbs_Ready := true; dbs_Phase := cst_Phase (cl_Status cluster);
                                dbs_ReadyInstances := int32_of_int ready;
                                dbs_PrimaryHost := cst_CurrentPrimary (cl_Status cluster) |} |>
          <| sts_Endpoints := {| ep_API := "";
                                 ep_Database := ClusterRWServiceName p +:+ ":5432" |} |>);
    _ ← report ConditionTypeDatabaseReady ConditionTrue "Ready" "Database is ready";
    mret None.
End Database.
