(* ===== verification/CoreServices.v ===== *)
(** * Core services phase (phase 5 of Reconcile,
    src/internal/controller/supabaseproject_controller.go)

    Deployment and service of GoTrue, PostgREST, Studio, postgres-meta and the
    Envoy gateway, through the generic [reconcileServiceComponent]. *)

From S2P Require Import Prelude KubeTypes Types Platform Effects Common ConfigMaps Cnpg Encoding Sha256 Crypto Secrets Deployments Services ObjectSync Store Provisioning.

(** [serviceReconcileConfig]: the builders are closures over the project
    pointer, so they take the project as it is when they are called;
    [src_setStatus] writes one entry of [project.Status.Services]. *)
Record serviceReconcileConfig := {
  src_name : string; src_conditionType : string;
  src_buildDeployment : SupabaseProject → Deployment;
  src_buildService : SupabaseProject → Service;
  src_setStatus : ServiceStatus → ServicesStatus → ServicesStatus;
  src_credentialHash : string }.

Definition newServiceReconcileConfig (name conditionType : string)
    (buildDeployment : SupabaseProject → Deployment) (buildService : SupabaseProject → Service)
    (setStatus : ServiceStatus → ServicesStatus → ServicesStatus) : serviceReconcileConfig :=
  {| src_name := name; src_conditionType := conditionType;
     src_buildDeployment := buildDeployment; src_buildService := buildService;
     src_setStatus := setStatus; src_credentialHash := "" |}.

Section CoreServices.
Context `{Platform} `{UrlLib}.

Definition set_service_status (f : ServicesStatus → ServicesStatus) : M unit :=
  modify_status (λ s, s <| sts_Services ::= f |>).

(** The three failure branches of [reconcileServiceComponent]. *)
Definition fail_component {A} (config : serviceReconcileConfig) (reason : string) (err : error)
    : M A :=
  _ ← set_service_status (src_setStatus config no_service_status);
  _ ← report (src_conditionType config) ConditionFalse reason (Error err);
  throw err.

Definition reconcileServiceComponent (config : serviceReconcileConfig) : M unit :=
  p ← get_project;
  let deployment := src_buildDeployment config p in
  let deployment :=
    if bool_decide (src_credentialHash config ≠ "")
    then applyProjectCredentialsHash deployment (src_credentialHash config) else deployment in
  _ ← catch (createOrUpdateDeployment deployment) (fail_component config "DeploymentFailed");
  p ← get_project;
  _ ← catch (createOrUpdateService (src_buildService config p)) (fail_component config "ServiceFailed");
  '(ready, availableReplicas) ← catch (deploymentStatus deployment)
    (fail_component config "DeploymentStatusFailed");
  _ ← set_service_status (src_setStatus config
        {| svs_Ready := ready; svs_AvailableReplicas := availableReplicas |});
  if negb ready
  then setCondition (src_conditionType config) ConditionFalse "DeploymentPending"
         ("Waiting for " +:+ src_name config +:+ " deployment to become ready")
  else setCondition (src_conditionType config) ConditionTrue "Ready"
         (src_name config +:+ " service is running").

(** ** Auth *)

Definition key_required (ref : GoTrueEnvKeySelector) : bool :=
  bool_decide (gk_Optional ref ≠ Some true).

(** Both validators: [kindText] is "secret" or "config map", [has] tells
    whether the fetched object has the key. *)
Definition validateGoTrueEnvKey (k : kind) (kindText : string) (has : object k → string → bool)
    (namespace : string) (ref : GoTrueEnvKeySelector) : M unit :=
  if bool_decide (gk_Name ref = "") || bool_decide (gk_Key ref = "")
  then throw (ErrorString (kindText +:+ " reference must include a name and key"))
  else
    r ← attempt (api_get k {| nn_Namespace := namespace; nn_Name := gk_Name ref |});
    match r with
    | inl err =>
        if negb (key_required ref) && IsNotFound err then mret tt
        else throw (WrapError ("getting " +:+ kindText +:+ " " +:+ Quote (gk_Name ref) +:+ ": ") err)
    | inr o =>
        if negb (has o (gk_Key ref)) && key_required ref
        then throw (ErrorString (kindText +:+ " " +:+ Quote (gk_Name ref) +:+
                      " is missing key " +:+ Quote (gk_Key ref)))
        else mret tt
    end.
Definition validateGoTrueEnvSecretKey : string → GoTrueEnvKeySelector → M unit :=
  validateGoTrueEnvKey KSecret "secret" (λ (s : Secret) key,
    bool_decide (is_Some (sec_Data s !! key)) || bool_decide (is_Some (sec_StringData s !! key))).
Definition validateGoTrueEnvConfigMapKey : string → GoTrueEnvKeySelector → M unit :=
  validateGoTrueEnvKey KConfigMap "config map" (λ (c : ConfigMap) key,
    bool_decide (is_Some (cm_Data c !! key))).

Definition validateGoTrueEnvSources : M unit :=
  p ← get_project;
  for_each (as_GoTrueEnv (sps_Auth (prj_Spec p))) (λ configured,
    let variable := "GoTrue environment variable " +:+ Quote (ge_Name configured) in
    let ambiguous : error :=
      ErrorString (variable +:+ " must select exactly one Secret or ConfigMap key") in
    if IsOperatorOwnedGoTrueEnv (ge_Name configured)
    then throw (ErrorString (variable +:+ " is operator-owned"))
    else
      match ge_Value configured with
      | Some _ => mret tt
      | None =>
          match ge_ValueFrom configured with
          | None => throw ambiguous
          | Some valueFrom =>
              match gv_SecretKeyRef valueFrom, gv_ConfigMapKeyRef valueFrom with
              | Some ref, None =>
                  map_error (validateGoTrueEnvSecretKey (prj_Namespace p) ref)
                    (WrapError (variable +:+ ": "))
              | None, Some ref =>
                  map_error (validateGoTrueEnvConfigMapKey (prj_Namespace p) ref)
                    (WrapError (variable +:+ ": "))
              | _, _ => throw ambiguous
              end
          end
      end).

Definition failAuthGoTrueEnv (reconcileErr : error) : M unit :=
  _ ← set_service_status (λ s, s <| sv_Auth := no_service_status |>);
  _ ← report ConditionTypeAuthReady ConditionFalse "GoTrueEnvSourceInvalid" (Error reconcileErr);
  throw reconcileErr.

Definition buildAuthDeployment : M Deployment :=
  p ← get_project;
  let deployment := BuildAuthDeployment p (secret_names p) in
  match as_EmailHook (sps_Auth (prj_Spec p)) with
  | Some hook =>
      if negb (eh_Enabled hook) then mret deployment
      else
        let secretName :=
          if bool_decide (sn_EmailHook (secret_names p) = "") then EmailHookSecretName p
          else sn_EmailHook (secret_names p) in
        hookSecret ← map_error (api_get KSecret (in_namespace p secretName))
          (WrapError ("getting email hook secret " +:+ secretName +:+ ": "));
        _ ← lift (ValidateEmailHookSecret (Some hookSecret));
        mret (annotate_template deployment emailHookSecretHashAnnotation
                (HexEncode (Sum256 (map_get (sec_Data hookSecret) EmailHookSecretKey))))
  | None => mret deployment
  end.

Definition reconcileAuth (credentialHash : string) : M unit :=
  _ ← catch validateGoTrueEnvSources failAuthGoTrueEnv;
  deployment ← buildAuthDeployment;
  reconcileServiceComponent
    ((newServiceReconcileConfig "Auth" ConditionTypeAuthReady (λ _, deployment) BuildAuthService
       (λ st s, s <| sv_Auth := st |>)) <| src_credentialHash := credentialHash |>).

(** ** The other components *)

Definition reconcileRest (credentialHash : string) : M unit :=
  reconcileServiceComponent
    ((newServiceReconcileConfig "REST" ConditionTypeRestReady
       (λ p, BuildRestDeployment p (secret_names p)) BuildRestService
       (λ st s, s <| sv_Rest := st |>)) <| src_credentialHash := credentialHash |>).

Definition reconcileStudio (credentialHash : string) : M unit :=
  reconcileServiceComponent
    ((newServiceReconcileConfig "Studio" ConditionTypeStudioReady
       (λ p, BuildStudioDeployment p (secret_names p)) BuildStudioService
       (λ st s, s <| sv_Studio := st |>)) <| src_credentialHash := credentialHash |>).

Definition reconcileMeta : M unit :=
  reconcileServiceComponent
    (newServiceReconcileConfig "Meta" ConditionTypeMetaReady
       (λ p, BuildMetaDeployment p (secret_names p)) BuildMetaService
       (λ st s, s <| sv_Meta := st |>)).

Definition reconcileGateway (credentialHash : string) : M unit :=
  p ← get_project;
  _ ← catch (createOrUpdateConfigMap (BuildEnvoyConfigMap p)) (λ err,
        _ ← set_service_status (λ s, s <| sv_Gateway := no_service_status |>);
        _ ← report ConditionTypeGatewayReady ConditionFalse "ConfigMapFailed" (Error err);
        throw err);
  _ ← reconcileServiceComponent
        ((newServiceReconcileConfig "Gateway" ConditionTypeGatewayReady BuildGatewayDeployment
           BuildGatewayService (λ st s, s <| sv_Gateway := st |>))
           <| src_credentialHash := credentialHash |>);
  p ← get_project;
  modify_status (λ s,
    s <| sts_Endpoints ::= (λ e, e <| ep_API := GatewayName p +:+ ":8000" |>) |>).

(** ** The phase *)

(** A failure to persist the status is logged, not returned. *)
Definition failCoreServices (reconcileErr : error) : M unit :=
  _ ← set_phase PhaseProvisioning;
  _ ← setCondition ConditionTypeReady ConditionFalse "CoreServicesFailed"
        ("Core service reconciliation failed: " +:+ Error reconcileErr);
  _ ← attempt updateProjectStatus;
  throw reconcileErr.

Definition reconcileServices (credentials : ProjectCredentials) : M unit :=
  let credentialHash := pc_PodTemplateHash credentials in
  _ ← catch (reconcileAuth credentialHash) failCoreServices;
  _ ← catch (reconcileRest credentialHash) failCoreServices;
  _ ← catch (reconcileStudio credentialHash) failCoreServices;
  _ ← catch reconcileMeta failCoreServices;
  _ ← catch (reconcileGateway credentialHash) failCoreServices;
  p ← get_project;
  when (negb (coreServicesReady p))
    (_ ← set_phase PhaseProvisioning;
     report ConditionTypeReady ConditionFalse "CoreServicesPending"
       "Waiting for all core service deployments to become ready").
End CoreServices.
