(* ===== verification/PowerSync.v ===== *)
(** * PowerSync phase (phase 6 of Reconcile,
    src/internal/controller/supabaseproject_controller.go)

    Sync rules, managed roles, the publication, the CDC permission job, the
    PowerSync workloads, and their removal when PowerSync is disabled. *)

From S2P Require Import Prelude KubeTypes Types Platform Effects Common ConfigMaps Cnpg Encoding Sha256 Crypto Secrets Deployments Services ObjectSync Store Provisioning.

Section PowerSync.
Context `{Platform} `{UrlLib}.

(** [project.Spec.Powersync], dereferenced. *)
Definition powersync_spec : M PowersyncSpec :=
  p ← get_project; deref (sps_Powersync (prj_Spec p)).

(** ** Sync rules *)

Definition loadAndValidatePowerSyncRules : M string :=
  p ← get_project;
  ps ← powersync_spec;
  let ref := sr_ConfigMapRef (pss_SyncRules ps) in
  rules ← (if bool_decide (ref ≠ "")
           then
             configMap ← map_error (api_get KConfigMap (in_namespace p ref))
               (WrapError ("getting PowerSync sync rules ConfigMap " +:+ ref +:+ ": "));
             let content := map_get (cm_Data configMap) "sync_rules.yaml" in
             if bool_decide (content = "")
             then throw (ErrorString ("PowerSync sync rules ConfigMap " +:+ ref +:+
                           " must contain non-empty sync_rules.yaml"))
             else mret content
           else mret (sr_Inline (pss_SyncRules ps)));
  match UnmarshalSyncRules rules with
  | inl err => throw (WrapError "parsing PowerSync sync_rules.yaml: " err)
  | inr (edition, hasStreams) =>
      if negb (edition =? 3)
      then throw (ErrorString "PowerSync sync_rules.yaml requires config.edition: 3")
      else if negb hasStreams
      then throw (ErrorString "PowerSync sync_rules.yaml requires streams")
      else mret rules
  end.

Definition reconcilePowerSyncRulesValidation : M string :=
  on_error loadAndValidatePowerSyncRules (λ err,
    report ConditionTypePowersyncReady ConditionFalse "InvalidSyncRules" (Error err)).

(** ** Managed roles *)

Definition waitForPowerSyncManagedRoles : M Result :=
  p ← get_project;
  cluster ← api_get KCluster (in_namespace p (ClusterName p));
  ready ← on_error (lift (powerSyncManagedRolesReady cluster)) (λ err,
    report ConditionTypeCDCReady ConditionFalse "ManagedRolesFailed" (Error err));
  if negb ready
  then
    _ ← report ConditionTypeCDCReady ConditionFalse "ManagedRolesPending"
          "Waiting for CloudNativePG to reconcile PowerSync roles";
    mret (Some RequeueDelay)
  else mret None.

(** ** Publication *)

Definition publication_pending (message : string) : M Result :=
  _ ← report ConditionTypeCDCReady ConditionFalse "PublicationPending" message;
  mret (Some RequeueDelay).

Definition reconcilePowerSyncPublication : M Result :=
  p ← get_project;
  desired ← lift (BuildPowerSyncPublication p);
  existing ← lookup_object KPublication (meta_key (pb_meta desired)) id;
  match existing with
  | None =>
      owned ← set_owner (k := KPublication) desired;
      _ ← api_create KPublication owned;
      publication_pending "Waiting for the PowerSync publication"
  | Some existing =>
      if bool_decide (map_get (om_Labels (pb_meta existing)) LabelInstance ≠ prj_Name p)
      then throw (ErrorString ("refusing to adopt publication " +:+
                    om_Name (pb_meta existing) +:+ " without the project instance label"))
      else
        let specChanged := negb (deep_equal (pb_Spec desired) (pb_Spec existing)) in
        let updated := if specChanged then existing <| pb_Spec := pb_Spec desired |> else existing in
        let '(m, labelsChanged) := mergeLabels (pb_meta updated) (om_Labels (pb_meta desired)) in
        let updated := updated <| pb_meta := m |> in
        adopted ← set_owner (k := KPublication) updated;
        if specChanged || labelsChanged || owners_changed (k := KPublication) updated adopted
        then
          _ ← map_error (update_ (k := KPublication) adopted)
                (WrapError "updating PowerSync publication: ");
          mret (Some RequeueDelay)
        else if negb (publicationIsApplied adopted)
        then publication_pending
               (let message := pbt_Message (pb_Status adopted) in
                if bool_decide (message ≠ "") then message
                else "Waiting for the PowerSync publication")
        else mret None
  end.

(** ** CDC permissions *)

Definition reconcileCDCPermissions : M Result :=
  p ← get_project;
  configMap ← lift (BuildCDCMigrationsConfigMap p);
  _ ← on_error (createOrUpdateConfigMap configMap) (λ err,
        report ConditionTypeCDCReady ConditionFalse "ConfigMapFailed" (Error err));
  let scriptHash := cdcScriptHash configMap in
  p ← get_project;
  completed ← on_error (createOrCheckJob (BuildCDCPermissionsJob p (secret_names p)) scriptHash)
    (λ err, report ConditionTypeCDCReady ConditionFalse "JobFailed" (Error err));
  if negb completed
  then
    _ ← report ConditionTypeCDCReady ConditionFalse "JobRunning"
          "CDC permissions Job is still running";
    mret (Some RequeueDelay)
  else
    _ ← setCondition ConditionTypeCDCReady ConditionTrue "CDCPermissionsApplied"
          "CDC permissions applied successfully";
    mret None.

(** ** Workloads *)

Definition powersync_failed (reason : string) (err : error) : M unit :=
  report ConditionTypePowersyncReady ConditionFalse reason (Error err).

Definition cleanupPowerSyncCompact : M unit :=
  p ← get_project;
  deletePowerSyncOwnedResource KCronJob (PowersyncCompactCronJobName p).

Definition reconcilePowersync (syncRulesContent : string) : M Result :=
  p ← get_project;
  ps ← powersync_spec;
  let psConfig := BuildPowersyncConfigMap p in
  let config := map_get (cm_Data psConfig) PowersyncConfigKey in
  _ ← on_error (createOrUpdateConfigMap psConfig) (powersync_failed "ConfigMapFailed");
  _ ← match BuildPowersyncSyncRulesConfigMap p ps with
      | Some syncRulesConfigMap =>
          on_error (createOrUpdateConfigMap syncRulesConfigMap)
            (powersync_failed "SyncRulesConfigMapFailed")
      | None => mret tt
      end;
  let apiDeployment :=
    applyPowerSyncConfigHash (BuildPowersyncAPIDeployment p ps (secret_names p)) config
      syncRulesContent in
  _ ← on_error (createOrUpdateDeployment apiDeployment) (powersync_failed "APIDeploymentFailed");
  _ ← on_error (createOrUpdateService (BuildPowersyncAPIService p))
        (powersync_failed "APIServiceFailed");
  let replDeployment :=
    applyPowerSyncConfigHash (BuildPowersyncReplicationDeployment p ps (secret_names p)) config
      syncRulesContent in
  _ ← on_error (createOrUpdateDeployment replDeployment)
        (powersync_failed "ReplicationDeploymentFailed");
  _ ← match BuildPowersyncCompactCronJob p ps (secret_names p) with
      | Some compactCronJob =>
          on_error (createOrUpdateCronJob compactCronJob) (powersync_failed "CronJobFailed")
      | None => cleanupPowerSyncCompact
      end;
  '(apiReady, apiAvailable) ← deploymentStatus apiDeployment;
  '(replicationReady, replicationAvailable) ← deploymentStatus replDeployment;
  _ ← modify_status (λ s, s <| sts_Services ::= (λ sv, sv
        <| sv_PowersyncAPI :=
             {| svs_Ready := apiReady; svs_AvailableReplicas := apiAvailable |} |>
        <| sv_PowersyncReplication :=
             {| svs_Ready := replicationReady;
                svs_AvailableReplicas := replicationAvailable |} |>) |>);
  if negb apiReady || negb replicationReady
  then
    _ ← report ConditionTypePowersyncReady ConditionFalse "DeploymentsPending"
          "Waiting for PowerSync deployments to become ready";
    mret (Some RequeueDelay)
  else
    _ ← setCondition ConditionTypePowersyncReady ConditionTrue "Ready"
          "Powersync service is running";
    mret None.

(** ** Removal *)

Definition powersync_resources (p : SupabaseProject) : list (kind * string) :=
  [(KDeployment, PowersyncAPIDeploymentName p);
   (KDeployment, PowersyncReplicationDeploymentName p);
   (KService, prj_Name p +:+ "-powersync-api");
   (KConfigMap, PowersyncConfigMapName p);
   (KConfigMap, PowersyncSyncRulesConfigMapName p);
   (KConfigMap, CDCConfigMapName p);
   (KJob, CDCJobName p);
   (KCronJob, PowersyncCompactCronJobName p);
   (KPublication, prj_Name p +:+ "-powersync")].

Definition cleanupPowerSync : M unit :=
  p ← get_project;
  _ ← for_each (powersync_resources p) (λ r, deletePowerSyncOwnedResource r.1 r.2);
  p ← get_project;
  if negb (powerSyncStatusNeedsCleanup p) then mret tt
  else
    _ ← modify_status (λ s, s
          <| sts_Services ::= (λ sv, sv <| sv_PowersyncAPI := no_service_status |>
                                        <| sv_PowersyncReplication := no_service_status |>) |>
          <| sts_Conditions ::= (λ cs, RemoveStatusCondition cs ConditionTypeCDCReady) |>
          <| sts_Conditions ::= (λ cs, RemoveStatusCondition cs ConditionTypePowersyncReady) |>);
    updateProjectStatus.
End PowerSync.
