(* ===== verification/Reconciler.v ===== *)
(** * The reconciler
    ([Reconcile], the watch mappings and [SetupWithManager] of
    src/internal/controller/supabaseproject_controller.go) *)

From S2P Require Import Prelude KubeTypes Types Platform Effects Common ConfigMaps Cnpg Encoding Sha256 Crypto Secrets Deployments Services ObjectSync ClusterSync Store Provisioning Database CoreServices PowerSync.

Section Reconciler.
Context `{Platform} `{CryptoLib} `{UrlLib}.

(** Phase 6, on the PowerSync section as it is then. *)
Definition reconcilePowerSyncPhase (finish : M Result) : M Result :=
  p ← get_project;
  match sps_Powersync (prj_Spec p) with
  | Some _ =>
      syncRules ← reconcilePowerSyncRulesValidation;
      or_requeue waitForPowerSyncManagedRoles (
      or_requeue reconcilePowerSyncPublication (
      or_requeue reconcileCDCPermissions (
      or_requeue (reconcilePowersync syncRules) finish)))
  | None =>
      _ ← cleanupPowerSync;
      finish
  end.

(** The aggregate status written when every phase has passed. *)
Definition complete : M Result :=
  p ← get_project;
  _ ← modify_status (λ s, s <| sts_Phase := PhaseRunning |>
                            <| sts_ObservedGeneration := om_Generation (prj_meta p) |>);
  _ ← report ConditionTypeReady ConditionTrue "AllComponentsReady"
        "All Supabase components are running";
  mret None.

(** Phases 5 and 6. *)
Definition reconcileWorkloads (credentials : ProjectCredentials) : M Result :=
  _ ← reconcileServices credentials;
  p ← get_project;
  if negb (coreServicesReady p) then mret (Some RequeueDelay)
  else reconcilePowerSyncPhase complete.

(** [Reconcile] on a fetched project. *)
Definition reconcileProject : M Result :=
  p ← get_project;
  _ ← when (bool_decide (sts_Phase (prj_Status p) = "")) (set_phase PhasePending);
  _ ← reconcileDurableMetadataProtection;
  credentials ← reconcileSecrets;
  _ ← on_error validateRecoveryBootstrapIntent (λ err,
        report ConditionTypeDatabaseReady ConditionFalse "BootstrapImmutable" (Error err));
  _ ← reconcileInitSQL;
  _ ← reconcileJWKSConfigMap (pc_PublicJWKS credentials);
  _ ← reconcileBackupInfrastructure;
  or_requeue reconcileCNPGCluster (
  or_requeue waitForDatabase (
  reconcileWorkloads credentials)).

(** [Reconcile]: a project that no longer exists is ignored. *)
Definition Reconcile (key : NamespacedName) : prog (result Result) :=
  Call (Get KProject key) (λ r : result SupabaseProject,
    match r with
    | inl err => if IsNotFound err then Ret (inr None) else Ret (inl err)
    | inr project => prog_bind (reconcileProject project) (λ o, Ret o.2)
    end).

(** ** Watches *)

Definition project_key (p : SupabaseProject) : NamespacedName := meta_key (prj_meta p).

(** A failed list is logged and yields no request. *)
Definition mapPowerSyncConfigMapToProjects (object : ObjectMeta) : prog (list NamespacedName) :=
  Call (ListProjects (om_Namespace object)) (λ r : result (list SupabaseProject),
    match r with
    | inl _ => Ret []
    | inr items =>
        Ret (project_key <$> List.filter (λ p,
          match sps_Powersync (prj_Spec p) with
          | Some ps => bool_decide (sr_ConfigMapRef (pss_SyncRules ps) = om_Name object)
          | None => false
          end) items)
    end).

Definition mapProjectCredentialsSecretToProjects (object : ObjectMeta)
    : prog (list NamespacedName) :=
  Call (ListProjects (om_Namespace object)) (λ r : result (list SupabaseProject),
    match r with
    | inl _ => Ret []
    | inr items =>
        Ret (project_key <$> List.filter (λ p,
          bool_decide (sps_ProjectCredentialsSecret (prj_Spec p) = om_Name object)) items)
    end).

(** The deterministic names of the durable resources of a project, by kind. *)
Definition durable_belongs (k : kind) (name : string) (p : SupabaseProject) : bool :=
  match k with
  | KCluster => bool_decide (name = ClusterName p)
  | KScheduledBackup => bool_decide (name = ScheduledBackupName p)
  | KObjectStore =>
      bool_decide (name = ObjectStoreName p) || bool_decide (name = RecoveryObjectStoreName p)
  | _ => false
  end.

Definition mapDurableResourceToProject (k : kind) (object : object k)
    : prog (list NamespacedName) :=
  let m := obj_meta object in
  let instance := map_get (om_Labels m) LabelInstance in
  if bool_decide (instance = "") then Ret []
  else
    let key := {| nn_Namespace := om_Namespace m; nn_Name := instance |} in
    Call (Get KProject key) (λ r : result SupabaseProject,
      match r with
      | inl _ => Ret []
      | inr project => if durable_belongs k (om_Name m) project then Ret [key] else Ret []
      end).
End Reconciler.

(** ** Registration with controller-runtime *)

(** What the builder of [SetupWithManager] records for a kind of object, each
    [EnqueueRequestsFromMapFunc] by its mapping. *)
Inductive registration (k : kind) : Type :=
| For (generationChanged : bool)
| Owns
| Watches (map : object k → prog (list NamespacedName)).
Arguments For {k}. Arguments Owns {k}. Arguments Watches {k}.

Definition SetupWithManager (k : kind) : list (registration k) :=
  match k with
  | KProject => [For true]
  | KSecret => [Owns; Watches (k := KSecret) (λ o, mapProjectCredentialsSecretToProjects (sec_meta o))]
  | KConfigMap => [Owns; Watches (k := KConfigMap) (λ o, mapPowerSyncConfigMapToProjects (cm_meta o))]
  | KService => [Owns]
  | KDeployment => [Owns]
  | KJob => [Owns]
  | KCronJob => [Owns]
  | KPublication => [Owns]
  | KCluster => [Watches (mapDurableResourceToProject KCluster)]
  | KScheduledBackup => [Watches (mapDurableResourceToProject KScheduledBackup)]
  | KObjectStore => [Watches (mapDurableResourceToProject KObjectStore)]
  end.
