(* ===== verification/OperatorProcess.v ===== *)
(** * The operator process (src/cmd/main.go)

    What [main] does before the first reconciliation: it registers the API
    types, reads the command line with package flag, configures the metrics and
    webhook servers, and sets the manager up step by step.  The steps are calls
    of third-party code, each answered by its error; flags that imported
    libraries register (zap's and the kubeconfig) are a parameter. *)

From S2P Require Import Prelude KubeTypes Types Platform Effects Common Crypto Reconciler.
From Stdlib Require Import Ascii.

(** ** The command line *)

(** The variables the flags are bound to. *)
Record flags := {
  metricsAddr : string; metricsCertPath : string; metricsCertName : string;
  metricsCertKey : string; webhookCertPath : string; webhookCertName : string;
  webhookCertKey : string; enableLeaderElection : bool; probeAddr : string;
  secureMetrics : bool; enableHTTP2 : bool }.

Definition default_flags : flags := {|
  metricsAddr := "0"; metricsCertPath := ""; metricsCertName := "tls.crt";
  metricsCertKey := "tls.key"; webhookCertPath := ""; webhookCertName := "tls.crt";
  webhookCertKey := "tls.key"; enableLeaderElection := false; probeAddr := ":8081";
  secureMetrics := true; enableHTTP2 := false |}.

(** [flag.StringVar], [flag.BoolVar], and a flag of a library, of which only
    matters whether it is boolean. *)
Inductive flag_var :=
| StringVar (set : string → flags → flags)
| BoolVar (set : bool → flags → flags)
| LibraryVar (boolean : bool).

Definition formal : list (string * flag_var) := [
  ("metrics-bind-address", StringVar (λ v f, f <| metricsAddr := v |>));
  ("health-probe-bind-address", StringVar (λ v f, f <| probeAddr := v |>));
  ("leader-elect", BoolVar (λ v f, f <| enableLeaderElection := v |>));
  ("metrics-secure", BoolVar (λ v f, f <| secureMetrics := v |>));
  ("webhook-cert-path", StringVar (λ v f, f <| webhookCertPath := v |>));
  ("webhook-cert-name", StringVar (λ v f, f <| webhookCertName := v |>));
  ("webhook-cert-key", StringVar (λ v f, f <| webhookCertKey := v |>));
  ("metrics-cert-path", StringVar (λ v f, f <| metricsCertPath := v |>));
  ("metrics-cert-name", StringVar (λ v f, f <| metricsCertName := v |>));
  ("metrics-cert-key", StringVar (λ v f, f <| metricsCertKey := v |>));
  ("enable-http2", BoolVar (λ v f, f <| enableHTTP2 := v |>))].

(** *** Package flag *)

(** One argument: not a flag, the terminator "--", a syntax error, or a flag
    with the value behind its first equals sign. *)
Inductive argument :=
| Positional | Terminator | BadSyntax | Flag (name : string) (value : option string).

Fixpoint cut (s : string) : string * option string :=
  match s with
  | EmptyString => (EmptyString, None)
  | String c s =>
      if bool_decide (c = "="%char) then (EmptyString, Some s)
      else let '(name, value) := cut s in (String c name, value)
  end.

Definition read_name (name : string) : argument :=
  match name with
  | EmptyString => BadSyntax
  | String c rest =>
      if bool_decide (c = "-"%char) || bool_decide (c = "="%char) then BadSyntax
      else let '(rest, value) := cut rest in Flag (String c rest) value
  end.
Definition read_argument (s : string) : argument :=
  match s with
  | String m (String c rest) =>
      if negb (bool_decide (m = "-"%char)) then Positional
      else if negb (bool_decide (c = "-"%char)) then read_name (String c rest)
      else if bool_decide (rest = "") then Terminator else read_name rest
  | _ => Positional
  end.

(** strconv.ParseBool. *)
Definition ParseBool (s : string) : option bool :=
  if bool_decide (s ∈ ["1"; "t"; "T"; "TRUE"; "true"; "True"]) then Some true
  else if bool_decide (s ∈ ["0"; "f"; "F"; "FALSE"; "false"; "False"]) then Some false
  else None.

Class FlagLib := {
  (** the flags of libraries, and whether they are boolean *)
  library_flag : string → option bool;
  (** whether the flag accepts the value *)
  library_set : string → string → bool
}.

Inductive parsed := Parsed (f : flags) | UsageError | HelpRequested.

Section CommandLine.
Context `{FlagLib}.

Definition lookup_flag (name : string) : option flag_var :=
  match List.find (λ v, bool_decide (v.1 = name)) formal with
  | Some v => Some v.2
  | None => LibraryVar <$> library_flag name
  end.
Definition is_bool_flag (v : flag_var) : bool :=
  match v with StringVar _ => false | BoolVar _ => true | LibraryVar boolean => boolean end.
Definition set_flag (name : string) (v : flag_var) (value : string) (f : flags) : option flags :=
  match v with
  | StringVar set => Some (set value f)
  | BoolVar set => (λ b, set b f) <$> ParseBool value
  | LibraryVar _ => if library_set name value then Some f else None
  end.

(** [flag.Parse]: a boolean flag takes no argument after it; parsing stops at
    the first positional argument. *)
Fixpoint Parse (args : list string) (f : flags) : parsed :=
  match args with
  | [] => Parsed f
  | s :: args =>
      match read_argument s with
      | Positional | Terminator => Parsed f
      | BadSyntax => UsageError
      | Flag name value =>
          match lookup_flag name with
          | None =>
              if bool_decide (name = "help") || bool_decide (name = "h") then HelpRequested
              else UsageError
          | Some v =>
              if is_bool_flag v
              then match set_flag name v (default "true" value) f with
                   | Some f => Parse args f
                   | None => UsageError
                   end
              else match value, args with
                   | Some value, args =>
                       match set_flag name v value f with
                       | Some f => Parse args f
                       | None => UsageError
                       end
                   | None, value :: args =>
                       match set_flag name v value f with
                       | Some f => Parse args f
                       | None => UsageError
                       end
                   | None, [] => UsageError
                   end
          end
      end
  end.
End CommandLine.

(** ** The servers *)

(** [tls.Config], as far as it is configured here. *)
Record TLSConfig := { tls_NextProtos : list string; tls_other : gmap string string }.
Record webhook_Options := {
  wh_TLSOpts : list (TLSConfig → TLSConfig);
  wh_CertDir : string; wh_CertName : string; wh_KeyName : string }.
(** [ms_FilterProvider]: filters.WithAuthenticationAndAuthorization, or none. *)
Record metricsserver_Options := {
  ms_BindAddress : string; ms_SecureServing : bool; ms_TLSOpts : list (TLSConfig → TLSConfig);
  ms_FilterProvider : bool; ms_CertDir : string; ms_CertName : string; ms_KeyName : string }.
Record manager_Options := {
  mo_Scheme : list string; mo_Metrics : metricsserver_Options; mo_WebhookServer : webhook_Options;
  mo_HealthProbeBindAddress : string; mo_LeaderElection : bool; mo_LeaderElectionID : string }.

Definition disableHTTP2 (c : TLSConfig) : TLSConfig := c <| tls_NextProtos := ["http/1.1"] |>.
Definition tlsOpts (f : flags) : list (TLSConfig → TLSConfig) :=
  if negb (enableHTTP2 f) then [disableHTTP2] else [].

Definition webhookServerOptions (f : flags) : webhook_Options :=
  let o := {| wh_TLSOpts := tlsOpts f; wh_CertDir := ""; wh_CertName := ""; wh_KeyName := "" |} in
  if bool_decide (webhookCertPath f ≠ "")
  then o <| wh_CertDir := webhookCertPath f |> <| wh_CertName := webhookCertName f |>
         <| wh_KeyName := webhookCertKey f |>
  else o.

Definition metricsServerOptions (f : flags) : metricsserver_Options :=
  let o := {| ms_BindAddress := metricsAddr f; ms_SecureServing := secureMetrics f;
              ms_TLSOpts := tlsOpts f; ms_FilterProvider := false; ms_CertDir := "";
              ms_CertName := ""; ms_KeyName := "" |} in
  let o := if secureMetrics f then o <| ms_FilterProvider := true |> else o in
  if bool_decide (metricsCertPath f ≠ "")
  then o <| ms_CertDir := metricsCertPath f |> <| ms_CertName := metricsCertName f |>
         <| ms_KeyName := metricsCertKey f |>
  else o.

(** The APIs that [init] registers with the scheme. *)
Definition scheme : list string := ["clientgo"; "supabasev1alpha1"; "cnpgv1"; "barmancloudv1"].
Definition manager_options (f : flags) : manager_Options := {|
  mo_Scheme := scheme; mo_Metrics := metricsServerOptions f; mo_WebhookServer := webhookServerOptions f;
  mo_HealthProbeBindAddress := probeAddr f; mo_LeaderElection := enableLeaderElection f;
  mo_LeaderElectionID := "0839bb90.guion.dev" |}.

(** ** The start-up sequence *)

Inductive setup :=
| AddToScheme (api : string)                                  (* init *)
| GetConfigOrDie
| NewManager (o : manager_Options)
| Controller (watched : ∀ k, list (registration k))           (* SetupWithManager *)
| AddHealthzCheck (name : string)
| AddReadyzCheck (name : string)
| Start.

(** The process ends with a status, or takes a step that answers its error. *)
Inductive startup :=
| Exit (status : Z)
| Attempt (s : setup) (k : option error → startup).

(** [if err := s; err != nil { os.Exit(status) }], [status] being 2 for a panic. *)
Definition or_exit (status : Z) (s : setup) (next : startup) : startup :=
  Attempt s (λ err, match err with Some _ => Exit status | None => next end).

Definition start_manager (f : flags) : startup :=
  or_exit 1 GetConfigOrDie (
  or_exit 1 (NewManager (manager_options f)) (
  or_exit 1 (Controller SetupWithManager) (
  or_exit 1 (AddHealthzCheck "healthz") (
  or_exit 1 (AddReadyzCheck "readyz") (
  or_exit 1 Start (Exit 0)))))).

(** package flag exits with 0 after printing the help, with 2 on an error. *)
Definition operator_main `{FlagLib} (args : list string) : startup :=
  match Parse args default_flags with
  | Parsed f => start_manager f
  | UsageError => Exit 2
  | HelpRequested => Exit 0
  end.

Definition init (next : startup) : startup :=
  foldr (λ api, or_exit 2 (AddToScheme api)) next scheme.
Definition operator `{FlagLib} (args : list string) : startup := init (operator_main args).

(** The args of the container in src/config/manager/manager.yaml and in the
    Helm chart. *)
Definition no_library : FlagLib := {| library_flag _ := None; library_set _ _ := true |}.
Example deployed_args :
  @Parse no_library ["--leader-elect"; "--health-probe-bind-address=:8081"] default_flags =
    Parsed (default_flags <| enableLeaderElection := true |>).
Proof. by vm_compute. Qed.
Example parse_cases :
  @Parse no_library ["-metrics-secure=F"; "-metrics-bind-address"; ":8080"; "--"; "-x"] default_flags =
    Parsed (default_flags <| secureMetrics := false |> <| metricsAddr := ":8080" |>) ∧
  @Parse no_library ["-leader-elect"; "false"] default_flags =
    Parsed (default_flags <| enableLeaderElection := true |>) ∧
  @Parse no_library ["--metrics-secure=maybe"] default_flags = UsageError ∧
  @Parse no_library ["--metrics-cert-path"] default_flags = UsageError ∧
  @Parse no_library ["-=x"] default_flags = UsageError ∧
  @Parse no_library ["-h"] default_flags = HelpRequested.
Proof. by vm_compute. Qed.

(** ** Lemmas on the command line *)

(** Every setting can be given: the flags written out are read back. *)
Definition format_bool (b : bool) : string := if b then "true" else "false".
Definition render (f : flags) : list string := [
  "--metrics-bind-address=" +:+ metricsAddr f; "--health-probe-bind-address=" +:+ probeAddr f;
  "--leader-elect=" +:+ format_bool (enableLeaderElection f);
  "--metrics-secure=" +:+ format_bool (secureMetrics f);
  "--webhook-cert-path=" +:+ webhookCertPath f; "--webhook-cert-name=" +:+ webhookCertName f;
  "--webhook-cert-key=" +:+ webhookCertKey f; "--metrics-cert-path=" +:+ metricsCertPath f;
  "--metrics-cert-name=" +:+ metricsCertName f; "--metrics-cert-key=" +:+ metricsCertKey f;
  "--enable-http2=" +:+ format_bool (enableHTTP2 f)].
Lemma Parse_render `{FlagLib} f g : Parse (render f) g = Parsed f.
Proof. by destruct f as [? ? ? ? ? ? ? [] ? [] []]. Qed.

(** The command line gives the flag. *)
Definition given (args : list string) (name : string) : Prop :=
  ∃ s value, s ∈ args ∧ read_argument s = Flag name value.

(** A setting that only the flag [name] writes. *)
Definition only_by `{FlagLib} {A} (name : string) (π : flags → A) : Prop :=
  ∀ n v value f f', n ≠ name → lookup_flag n = Some v → set_flag n v value f = Some f' → π f' = π f.

Lemma given_cons s args name : given args name → given (s :: args) name.
Proof. intros (s' & v & Hs & Hr). exists s', v. split; [by right|done]. Qed.

Lemma Parse_keeps `{FlagLib} {A} (π : flags → A) name args f f' :
  only_by name π → Parse args f = Parsed f' → π f' = π f ∨ given args name.
Proof.
  intros Hπ. revert f. induction args as [args IH] using (induction_ltof1 _ length).
  intros f. destruct args as [|s args]; cbn [Parse]; [intros Hp; simplify_eq; by left|].
  destruct (read_argument s) as [| | |n value] eqn:Hs; try (intros Hp; simplify_eq; by left).
  destruct (decide (n = name)) as [->|Hn].
  { intros _. right. exists s, value. split; [by left|done]. }
  destruct (lookup_flag n) as [v|] eqn:Hv; [|by destruct (_ || _)].
  destruct (is_bool_flag v); [|destruct value as [value|]; [|destruct args as [|value args]; [done|]]].
  all: destruct (set_flag _ _ _ _) as [g|] eqn:Hg; [|done]; intros Hp;
    apply (Hπ _ _ _ _ _ Hn Hv) in Hg; destruct (IH args ltac:(unfold ltof; simpl; lia) g Hp) as [Heq|Hgiven];
    [left; congruence|right; auto using given_cons].
Qed.

Ltac only_by_solve :=
  intros n v value f f' Hn Hv Hs; unfold lookup_flag in Hv;
  destruct (List.find _ _) as [p|] eqn:Hf; [|by destruct (library_flag n); simplify_eq/=;
    destruct (library_set _ _); simplify_eq/=];
  apply List.find_some in Hf as [Hin Heq%bool_decide_eq_true];
  repeat (destruct Hin as [<-|Hin]; [simplify_eq/=; try (destruct (ParseBool value)); by simplify_eq/=|]);
  by destruct Hin.
Lemma http2_only_by `{FlagLib} : only_by "enable-http2" enableHTTP2.
Proof. only_by_solve. Qed.
Lemma secure_only_by `{FlagLib} : only_by "metrics-secure" secureMetrics.
Proof. only_by_solve. Qed.

(** ** Start-ups *)

(** The start-up takes the steps of [log], each with the error it answered, and
    ends with [status]. *)
Fixpoint performs (p : startup) (log : list (setup * option error)) (status : Z) : Prop :=
  match p, log with
  | Exit s, [] => s = status
  | Attempt s k, (s', err) :: log => s' = s ∧ performs (k err) log status
  | _, _ => False
  end.

(** The configuration a server ends up with. *)
Definition apply_tls (opts : list (TLSConfig → TLSConfig)) (c : TLSConfig) : TLSConfig :=
  foldl (λ c opt, opt c) c opts.

(** What has to be done before the manager is started. *)
Definition setup_steps (f : flags) : list setup :=
  (AddToScheme <$> scheme) ++
  [GetConfigOrDie; NewManager (manager_options f); Controller SetupWithManager;
   AddHealthzCheck "healthz"; AddReadyzCheck "readyz"].

(** Whatever the steps answer, the start-up ends. *)
Lemma performs_total p (answer : setup → option error) :
  ∃ log status, performs p log status ∧ Forall (λ e, e.2 = answer e.1) log.
Proof.
  induction p as [status|s k IH]; [by exists [], status|].
  destruct (IH (answer s)) as (log & status & Hp & Hl).
  exists ((s, answer s) :: log), status. split; [done|by constructor].
Qed.

Lemma tlsOpts_http1 f c :
  enableHTTP2 f = false → tls_NextProtos (apply_tls (tlsOpts f) c) = ["http/1.1"].
Proof. intros Hf. unfold tlsOpts. by rewrite Hf. Qed.
Lemma metrics_tls f : ms_TLSOpts (metricsServerOptions f) = tlsOpts f.
Proof. unfold metricsServerOptions. by destruct (secureMetrics f), (bool_decide _). Qed.
Lemma webhook_tls f : wh_TLSOpts (webhookServerOptions f) = tlsOpts f.
Proof. unfold webhookServerOptions. by destruct (bool_decide _). Qed.
Lemma metrics_filtered f :
  ms_SecureServing (metricsServerOptions f) = secureMetrics f ∧
  ms_FilterProvider (metricsServerOptions f) = secureMetrics f.
Proof. unfold metricsServerOptions. by destruct (secureMetrics f), (bool_decide _). Qed.

(** A sequence of steps stops at the first failure. *)
Lemma performs_sequence (l : list (Z * setup)) z log status :
  performs (foldr (λ p, or_exit p.1 p.2) (Exit z) l) log status →
  (log = (λ p, (p.2, None)) <$> l ∧ status = z) ∨
  ∃ done p rest err, l = done ++ p :: rest ∧ status = p.1 ∧
    log = ((λ p, (p.2, None)) <$> done) ++ [(p.2, Some err)].
Proof.
  revert log. induction l as [|p l IH]; intros [|[s err] log] Hp; simpl in Hp; try done; [by left|].
  destruct Hp as [-> Hp], err as [err|].
  - right. destruct log; [|done]. by exists [], p, l, err.
  - apply IH in Hp as [[-> ->]|(? & q & r & err & -> & -> & ->)]; [by left|right].
    by eexists (p :: _), q, r, err.
Qed.
Lemma performs_at (l : list (Z * setup)) z log status i s err :
  performs (foldr (λ p, or_exit p.1 p.2) (Exit z) l) log status → log !! i = Some (s, err) →
  ∃ st, l !! i = Some (st, s) ∧ take i log = (λ p, (p.2, None)) <$> take i l ∧
    (err ≠ None → S i = length log ∧ status = st) ∧ (err = None → S i = length l → status = z).
Proof.
  revert log i. induction l as [|p l IH]; intros [|[s' err'] log] [|i] Hp Hi; simpl in Hp, Hi; try done;
    destruct Hp as [-> Hp]; simplify_eq.
  - exists p.1. destruct p, err as [err|]; simpl; [by destruct log|].
    split_and!; [done..|]. intros _ [= Hl]. destruct l, log; simpl in Hp; try done; by subst.
  - destruct err' as [?|]; [by destruct log|]. destruct (IH _ _ Hp Hi) as (st & Hs & Ht & He & Hz).
    exists st. simpl. split_and!; [done|by rewrite Ht|naive_solver..].
Qed.
Lemma performs_status (l : list (Z * setup)) z log status :
  performs (foldr (λ p, or_exit p.1 p.2) (Exit z) l) log status →
  status ∈ l.*1 ∨ status = z ∧ log = (λ p, (p.2, None)) <$> l.
Proof.
  intros [[-> ->]|(d & p & r & err & -> & -> & _)]%performs_sequence; [by right|left].
  rewrite fmap_app. set_solver.
Qed.

(** The steps of the process with the status each failure ends it with, and
    the status at the end. *)
Definition operator_steps `{FlagLib} (args : list string) : list (Z * setup) * Z :=
  let registered := (λ api, (2, AddToScheme api)) <$> scheme in
  match Parse args default_flags with
  | Parsed f => (registered ++ ((1,.) <$> drop 4 (setup_steps f) ++ [Start]), 0)
  | UsageError => (registered, 2)
  | HelpRequested => (registered, 0)
  end.
Lemma operator_sequence `{FlagLib} args :
  operator args = foldr (λ p, or_exit p.1 p.2) (Exit (operator_steps args).2) (operator_steps args).1.
Proof. unfold operator, operator_main, operator_steps. by destruct (Parse args default_flags). Qed.

Lemma operator_steps_status `{FlagLib} args : Forall (λ p, p.1 ≠ 0) (operator_steps args).1.
Proof. unfold operator_steps. destruct (Parse _ _); repeat (constructor; [discriminate|]); constructor. Qed.
Ltac lookup_cases i Hi :=
  repeat (first [discriminate Hi | destruct i as [|i];
    [first [discriminate Hi | injection Hi; intros; subst; eexists; repeat split; reflexivity]|]]).
Lemma operator_steps_start `{FlagLib} args i st :
  (operator_steps args).1 !! i = Some (st, Start) →
  ∃ f, Parse args default_flags = Parsed f ∧ (take i (operator_steps args).1).*2 = setup_steps f ∧
    S i = length (operator_steps args).1 ∧ (operator_steps args).2 = 0.
Proof.
  unfold operator_steps. destruct (Parse _ _) as [f| |]; intros Hi; lookup_cases i Hi.
Qed.
Lemma operator_steps_manager `{FlagLib} args i st o :
  (operator_steps args).1 !! i = Some (st, NewManager o) →
  ∃ f, Parse args default_flags = Parsed f ∧ o = manager_options f.
Proof.
  unfold operator_steps. destruct (Parse _ _) as [f| |]; intros Hi; lookup_cases i Hi.
Qed.
Lemma operator_steps_success `{FlagLib} args :
  (operator_steps args).2 = 0 →
  let log := (λ p, (p.2, None)) <$> (operator_steps args).1 in
  Parse args default_flags = HelpRequested ∧ log = (λ api, (AddToScheme api, @None error)) <$> scheme ∨
  (Start, None) ∈ log.
Proof.
  unfold operator_steps. destruct (Parse _ _); [right|done|by left]. do 9 right. by left.
Qed.
Lemma manager_options_safe `{FlagLib} args f :
  Parse args default_flags = Parsed f →
  (¬ given args "enable-http2" → enableHTTP2 f = false) ∧
  (¬ given args "metrics-secure" → secureMetrics f = true).
Proof.
  intros Hf. split; intros Hno.
  - by destruct (Parse_keeps enableHTTP2 "enable-http2" _ _ _ http2_only_by Hf).
  - by destruct (Parse_keeps secureMetrics "metrics-secure" _ _ _ secure_only_by Hf).
Qed.

(** C40: The start-up of the operator process is fail-stop and safe by default.
    A step that fails is the last one and the process exits with a non-zero
    status; the manager runs only when the command line was read and every
    earlier step succeeded, in the order of [setup_steps]: API registration,
    manager with the parsed options, the reconciler with its watches, and both
    probes.  Whatever else the command line says, unless it names
    enable-http2, both servers negotiate HTTP/1.1 only, and unless it names
    metrics-secure, the metrics server is encrypted and filtered by
    authentication and authorization, which are never one without the other.
    The status is 0 exactly when the help was requested and no registration
    failed, or the manager stopped without error. *)
Theorem operator_startup `{FlagLib} args log status :
  performs (operator args) log status →
  (∀ i s err, log !! i = Some (s, Some err) → S i = length log ∧ status ≠ 0) ∧
  (∀ i err, log !! i = Some (Start, err) → ∃ f,
    Parse args default_flags = Parsed f ∧ take i log = (λ s, (s, None)) <$> setup_steps f) ∧
  (∀ i o err, log !! i = Some (NewManager o, err) →
    (¬ given args "enable-http2" → ∀ c,
      tls_NextProtos (apply_tls (ms_TLSOpts (mo_Metrics o)) c) = ["http/1.1"] ∧
      tls_NextProtos (apply_tls (wh_TLSOpts (mo_WebhookServer o)) c) = ["http/1.1"]) ∧
    (¬ given args "metrics-secure" → ms_SecureServing (mo_Metrics o) = true) ∧
    ms_FilterProvider (mo_Metrics o) = ms_SecureServing (mo_Metrics o)) ∧
  (status = 0 ↔
    Parse args default_flags = HelpRequested ∧ log = (λ api, (AddToScheme api, None)) <$> scheme ∨
    (Start, None) ∈ log).
Proof.
  rewrite operator_sequence. intros Hp. pose proof (operator_steps_status args) as Hnz.
  rewrite Forall_lookup in Hnz. split_and!.
  - intros i s err Hi. destruct (performs_at _ _ _ _ _ _ _ Hp Hi) as (st & Hs & _ & [Hl ->] & _); [done|].
    split; [done|]. by apply (Hnz i (st, s)).
  - intros i err Hi. destruct (performs_at _ _ _ _ _ _ _ Hp Hi) as (st & Hs & -> & _).
    destruct (operator_steps_start _ _ _ Hs) as (f & Hf & Hl & _). exists f.
    by rewrite <-Hl, <-list_fmap_compose.
  - intros i o err Hi. destruct (performs_at _ _ _ _ _ _ _ Hp Hi) as (st & Hs & _).
    destruct (operator_steps_manager _ _ _ _ Hs) as (f & Hf & ->). simpl.
    destruct (manager_options_safe _ _ Hf) as [Hhttp Hsecure], (metrics_filtered f) as [-> ->].
    rewrite metrics_tls, webhook_tls. split_and!; [|done..].
    intros Hno c. split; apply tlsOpts_http1; auto.
  - split.
    + intros ->. destruct (performs_status _ _ _ _ Hp) as [Hin|[Hz ->]].
      * apply list_elem_of_fmap in Hin as (p & Hz & [i Hi]%list_elem_of_lookup). by destruct (Hnz _ _ Hi).
      * by apply operator_steps_success.
    + intros [[Hh ->]|[i Hi]%list_elem_of_lookup].
      * unfold operator_steps in Hp. rewrite Hh in Hp. simpl in Hp.
        by destruct Hp as (_ & _ & _ & _ & Hp).
      * destruct (performs_at _ _ _ _ _ _ _ Hp Hi) as (st & Hs & _ & _ & Hz).
        destruct (operator_steps_start _ _ _ Hs) as (f & _ & _ & Hl & <-). auto.
Qed.

(** The manager of the deployed arguments starts and loses its lease. *)
Definition deployed : list string := ["--leader-elect"; "--health-probe-bind-address=:8081"].
Definition deployed_log : list (setup * option error) :=
  ((λ s, (s, None)) <$> setup_steps (default_flags <| enableLeaderElection := true |>)) ++
  [(Start, Some (ErrorString "leader election lost"))].
Lemma operator_startup_witness :
  performs (@operator no_library deployed) deployed_log 1 ∧
  ¬ given deployed "enable-http2" ∧ ¬ given deployed "metrics-secure" ∧
  ((∀ i s err, deployed_log !! i = Some (s, Some err) → S i = length deployed_log ∧ (1 : Z) ≠ 0) ∧
   ∃ o, deployed_log !! 5%nat = Some (NewManager o, None) ∧ ms_FilterProvider (mo_Metrics o) = true ∧
     ms_SecureServing (mo_Metrics o) = true ∧ mo_LeaderElection o = true).
Proof.
  assert (Hp : performs (@operator no_library deployed) deployed_log 1) by repeat split.
  assert (Hno : ∀ name, name ≠ "leader-elect" → name ≠ "health-probe-bind-address" → ¬ given deployed name).
  { intros name H1 H2 (s & v & Hs & Hr). repeat (apply elem_of_cons in Hs as [->|Hs]); [..|by inversion Hs].
    all: vm_compute in Hr; congruence. }
  pose proof (@operator_startup no_library deployed deployed_log 1 Hp) as (Hfail & _ & Hman & _).
  split_and!; [done|by apply Hno..|done|].
  exists (manager_options (default_flags <| enableLeaderElection := true |>)).
  assert (Hi : deployed_log !! 5%nat =
    Some (NewManager (manager_options (default_flags <| enableLeaderElection := true |>)), None)) by reflexivity.
  destruct (Hman _ _ _ Hi) as (_ & Hsecure & Hfilter).
  specialize (Hsecure (Hno "metrics-secure" ltac:(discriminate) ltac:(discriminate))).
  split_and!; [done|by rewrite Hfilter|done|done].
Defined.
