(* ===== verification/ErrorFlow.v ===== *)
(** * No failed request is lost

    A compositional argument that the controller never swallows an error of
    the API server: a function that returns without error has seen no failed
    request, except a NotFound it asked for ([tolerated]).  [honest] is the
    property of one function, [never] says that a function always returns an
    error; the database [honest] collects one lemma per controller function. *)

From S2P Require Import Prelude KubeTypes Types Platform Effects Common ConfigMaps Cnpg Encoding Sha256 Crypto Secrets Deployments Services ObjectSync ClusterSync Store Provisioning Database CoreServices PowerSync Reconciler.

(** The answer is not an error, or it is NotFound for a read or a deletion. *)
Definition tolerated (e : event) : bool :=
  match e with
  | Ev (Get k _) r => match r with inl err => IsNotFound err | inr _ => true end
  | Ev (Create k _) r => match r with Some _ => false | None => true end
  | Ev (Update k _) r => match r with inl _ => false | inr _ => true end
  | Ev (Delete k _ _) r => match r with Some err => IsNotFound err | None => true end
  | Ev (StatusUpdate _) r => match r with inl _ => false | inr _ => true end
  | Ev (ListProjects _) r => match r with inl _ => false | inr _ => true end
  | Ev Now _ => true
  | Ev (RandRead _) r => match r with inl _ => false | inr _ => true end
  end.
Definition clean (tr : trace) : Prop := Forall (λ e, tolerated e = true) tr.

Definition honest {A} (m : M A) : Prop :=
  ∀ p tr p' a, runs (m p) tr (p', inr a) → clean tr.
(** An error that says NotFound comes from a tolerated answer. *)
Definition not_found_clean {A} (m : M A) : Prop :=
  ∀ p tr p' e, runs (m p) tr (p', inl e) → IsNotFound e = true → clean tr.
Definition never {A} (m : M A) : Prop := ∀ p tr p' a, ¬ runs (m p) tr (p', inr a).

Create HintDb honest.
#[export] Hint Constants Opaque : honest.

(** ** Inversion of runs *)

Lemma runs_bind_inv {A B} (m : M A) (f : A → M B) p tr p' r :
  runs ((m ≫= f) p) tr (p', r) →
  (∃ e, r = inl e ∧ runs (m p) tr (p', inl e)) ∨
  (∃ tr1 tr2 p1 a, tr = tr1 ++ tr2 ∧ runs (m p) tr1 (p1, inr a) ∧ runs (f a p1) tr2 (p', r)).
Proof.
  intros (tr1 & tr2 & [p1 [e|a]] & -> & H1 & H2)%runs_bind.
  - left. destruct H2 as [-> [= -> ->]]. rewrite app_nil_r. eauto.
  - right. exists tr1, tr2, p1, a. eauto.
Qed.
Lemma runs_attempt_inv {A} (m : M A) p tr p' r :
  runs (attempt m p) tr (p', inr r) → runs (m p) tr (p', r).
Proof.
  intros (tr1 & tr2 & [p1 r1] & -> & H1 & H2)%runs_bind.
  destruct H2 as [-> [= -> ->]]. by rewrite app_nil_r.
Qed.

Lemma clean_nil : clean [].
Proof. constructor. Qed.
Lemma clean_app tr1 tr2 : clean tr1 → clean tr2 → clean (tr1 ++ tr2).
Proof. intros. by apply Forall_app. Qed.

(** ** Rules *)

Section Rules.

Lemma honest_ret {A} (a : A) : honest (mret a).
Proof. intros p tr p' b [-> _]. apply clean_nil. Qed.
Lemma honest_throw {A} e : honest (throw (A := A) e).
Proof. intros p tr p' b [-> _]. apply clean_nil. Qed.
Lemma honest_lift {A} (r : result A) : honest (lift r).
Proof. intros p tr p' b [-> _]. apply clean_nil. Qed.
Lemma honest_get_project : honest get_project.
Proof. intros p tr p' b [-> _]. apply clean_nil. Qed.
Lemma honest_put q : honest (put_project q).
Proof. intros p tr p' b [-> _]. apply clean_nil. Qed.
Lemma honest_modify f : honest (modify_project f).
Proof. intros p tr p' b [-> _]. apply clean_nil. Qed.
Lemma honest_modify_status f : honest (modify_status f).
Proof. apply honest_modify. Qed.
Lemma honest_deref {A} (o : option A) : honest (deref o).
Proof. destruct o; [apply honest_ret|apply honest_throw]. Qed.

Lemma honest_bind {A B} (m : M A) (f : A → M B) :
  honest m → (∀ a, honest (f a)) → honest (m ≫= f).
Proof.
  intros Hm Hf p tr p' b Hr.
  destruct (runs_bind_inv _ _ _ _ _ _ Hr) as [(e & [=] & _)|(tr1 & tr2 & p1 & a & -> & H1 & H2)].
  apply clean_app; [by eapply Hm|by eapply Hf].
Qed.
Lemma honest_never {A} (m : M A) : never m → honest m.
Proof. intros Hm p tr p' a Hr. by destruct (Hm p tr p' a). Qed.

Lemma never_throw {A} e : never (throw (A := A) e).
Proof. by intros p tr p' a [_ [=]]. Qed.
Lemma never_then {A B} (m : M A) (f : A → M B) : (∀ a, never (f a)) → never (m ≫= f).
Proof.
  intros Hf p tr p' b Hr.
  destruct (runs_bind_inv _ _ _ _ _ _ Hr) as [(e & [=] & _)|(tr1 & tr2 & p1 & a & -> & H1 & H2)].
  by eapply Hf.
Qed.

Lemma never_first {A B} (m : M A) (f : A → M B) : never m → never (m ≫= f).
Proof.
  intros Hm p tr p' b Hr.
  destruct (runs_bind_inv _ _ _ _ _ _ Hr) as [(e & [=] & _)|(tr1 & tr2 & p1 & a & -> & H1 & H2)].
  by eapply Hm.
Qed.

(** A step whose error is examined: success continues, and a branch that can
    still succeed is only taken on an error from tolerated answers. *)
Lemma honest_attempt {A B} (m : M A) (f : result A → M B) :
  honest m → not_found_clean m → (∀ a, honest (f (inr a))) →
  (∀ e, if IsNotFound e then honest (f (inl e)) else never (f (inl e))) →
  honest (attempt m ≫= f).
Proof.
  intros Hm Hn Hf He p tr p' b Hr.
  destruct (runs_bind_inv _ _ _ _ _ _ Hr) as [(e & [=] & _)|(tr1 & tr2 & p1 & r & -> & H1 & H2)].
  apply runs_attempt_inv in H1. destruct r as [e|a].
  - specialize (He e). destruct (IsNotFound e) eqn:E; [|by destruct (He _ _ _ _ H2)].
    apply clean_app; [by eapply Hn|by eapply He].
  - apply clean_app; [by eapply Hm|by eapply Hf].
Qed.
(** A step after whose error nothing succeeds. *)
Lemma honest_attempt_never {A B} (m : M A) (f : result A → M B) :
  honest m → (∀ a, honest (f (inr a))) → (∀ e, never (f (inl e))) →
  honest (attempt m ≫= f).
Proof.
  intros Hm Hf He p tr p' b Hr.
  destruct (runs_bind_inv _ _ _ _ _ _ Hr) as [(e & [=] & _)|(tr1 & tr2 & p1 & r & -> & H1 & H2)].
  apply runs_attempt_inv in H1. destruct r as [e|a]; [by destruct (He e _ _ _ _ H2)|].
  apply clean_app; [by eapply Hm|by eapply Hf].
Qed.

Lemma honest_on_error {A} (m : M A) h : honest m → honest (on_error m h).
Proof.
  intros Hm. apply honest_attempt_never; [done|intros a; apply honest_ret|].
  intros e. apply never_then. intros _. apply never_throw.
Qed.
Lemma honest_map_error {A} (m : M A) f : honest m → honest (map_error m f).
Proof.
  intros Hm. apply honest_attempt_never; [done|intros a; apply honest_ret|].
  intros e. apply never_throw.
Qed.
Lemma honest_catch {A} (m : M A) f : honest m → (∀ e, never (f e)) → honest (catch m f).
Proof. intros Hm Hf. by apply honest_attempt_never; [|intros a; apply honest_ret|]. Qed.
Lemma honest_when b m : honest m → honest (when b m).
Proof. intros Hm. destruct b; [done|apply honest_ret]. Qed.
Lemma honest_for_each {A} (l : list A) f : (∀ x, honest (f x)) → honest (for_each l f).
Proof.
  intros Hf. induction l as [|x l IH]; [apply honest_ret|].
  apply honest_bind; [apply Hf|by intros _].
Qed.

(** A raw answer: where it is not tolerated, the continuation must fail. *)
Lemma honest_call {B} r (f : response r → M B) :
  (∀ v, if tolerated (Ev r v) then honest (f v) else never (f v)) → honest (call r ≫= f).
Proof.
  intros Hf p tr p' b Hr.
  destruct (runs_bind_inv _ _ _ _ _ _ Hr) as [(e & [=] & (? & ? & _ & ? & [=]))|
    (tr1 & tr2 & p1 & v & -> & H1 & H2)].
  destruct H1 as (v' & tr' & -> & -> & [= -> ->]). specialize (Hf v').
  destruct (tolerated (Ev r v')) eqn:E; [|by destruct (Hf _ _ _ _ H2)].
  constructor; [done|by eapply Hf].
Qed.
Lemma honest_now : honest (call Now).
Proof. intros p tr p' b (v & tr' & -> & -> & _). by constructor. Qed.

Lemma never_lift_inl {A B} (e : error) (f : A → M B) : never (lift (inl e) ≫= f).
Proof.
  intros p tr p' b Hr.
  destruct (runs_bind_inv _ _ _ _ _ _ Hr) as [(e' & [=] & _)|(? & ? & ? & ? & _ & [_ [=]] & _)].
Qed.

(** A pure computation on a failed answer. *)
Lemma never_map_error {A B} (r : result A) e g (f : A → M B) :
  r = inl e → never (map_error (lift r) g ≫= f).
Proof.
  intros -> p tr p' b Hr.
  destruct (runs_bind_inv _ _ _ _ _ _ Hr) as [(e' & [=] & _)|(? & ? & ? & ? & _ & [_ [=]] & _)].
Qed.

Lemma honest_api_get k key : honest (api_get k key).
Proof. apply honest_call. intros [e|o]; cbn; [|apply honest_lift].
  destruct (IsNotFound e); [apply honest_lift|apply never_throw]. Qed.
Lemma not_found_api_get k key : not_found_clean (api_get k key).
Proof.
  intros p tr p' e Hr He. destruct Hr as ([e'|o] & tr' & -> & [-> [= -> ->]]).
  constructor; [done|constructor].
Qed.
Lemma honest_api_create k o : honest (api_create k o).
Proof. apply honest_call. intros [e|]; cbn; [apply never_throw|apply honest_ret]. Qed.
Lemma honest_api_update k o : honest (api_update k o).
Proof. apply honest_call. intros [e|]; cbn; [apply never_throw|apply honest_lift]. Qed.
Lemma honest_api_delete k o fg : honest (api_delete k o fg).
Proof. apply honest_call. intros [e|]; cbn; [|apply honest_ret].
  destruct (IsNotFound e); [apply honest_throw|apply never_throw]. Qed.
Lemma not_found_api_delete k o fg : not_found_clean (api_delete k o fg).
Proof.
  intros p tr p' e Hr He. destruct Hr as ([e'|] & tr' & -> & [-> [= -> ->]]).
  constructor; [done|constructor].
Qed.
End Rules.

#[export] Hint Resolve honest_ret honest_throw honest_lift honest_get_project honest_put
  honest_modify honest_modify_status honest_deref honest_now honest_api_get not_found_api_get
  honest_api_create honest_api_update honest_api_delete not_found_api_delete never_throw : honest.
#[export] Hint Extern 1 (honest (api_get _ _)) =>
  match goal with |- honest (api_get ?k ?key) => exact (honest_api_get k key) end : honest.
#[export] Hint Extern 1 (not_found_clean (api_get _ _)) =>
  match goal with |- not_found_clean (api_get ?k ?key) => exact (not_found_api_get k key) end : honest.
#[export] Hint Extern 1 (honest (api_update _ _)) =>
  match goal with |- honest (api_update ?k ?o) => exact (honest_api_update k o) end : honest.

(** ** The controller *)

(** Functions that always return an error. *)
Ltac never_auto := repeat match goal with
  | |- never (throw _) => apply never_throw
  | |- never (lift (inl _) ≫= _) => apply never_lift_inl
  | |- never (map_error (lift _) _ ≫= _) => eapply never_map_error; reflexivity
  | |- never (_ ≫= _) =>
      first [ apply never_first; solve [cbn [negb]; auto with honest] | apply never_then; intros ? ]
  | |- never (match ?x with _ => _ end) => destruct x
  end.
(** Walk through a function. *)
Ltac honest_step :=
  match goal with
  | |- honest (call Now ≫= _) => apply honest_bind; [apply honest_now|intros ?]
  | |- honest (call _ ≫= _) =>
      apply honest_call; intros [?|?]; cbn [tolerated]
  | |- honest (attempt _ ≫= _) =>
      apply honest_attempt; [solve [auto with honest]|solve [auto with honest]|intros ?|intros ?;
        match goal with |- if IsNotFound ?e then _ else _ => destruct (IsNotFound e) eqn:? end]
  | |- honest (attempt _ ≫= _) =>
      apply honest_attempt_never; [solve [auto with honest]|intros ?|intros ?]
  | |- honest (_ ≫= _) => apply honest_bind; [|intros ?]
  | |- honest (catch _ _) => apply honest_catch; [|intros ?; solve [never_auto; auto with honest]]
  | |- honest (on_error _ _) => apply honest_on_error
  | |- honest (map_error _ _) => apply honest_map_error
  | |- honest (when _ _) => apply honest_when
  | |- honest (for_each _ _) => apply honest_for_each; intros ?
  | |- honest (match ?x with _ => _ end) => destruct x eqn:?
  | |- never _ => solve [never_auto; auto with honest]
  | |- honest _ => apply honest_never; solve [auto with honest]
  end.
Ltac honest_auto := repeat first [solve [auto with honest] | honest_step].

Section Helpers.
Context `{Platform}.

Lemma setCondition_honest t s r m : honest (setCondition t s r m).
Proof. unfold setCondition. honest_auto. Qed.
Hint Resolve setCondition_honest : honest.
Lemma updateProjectStatus_honest : honest updateProjectStatus.
Proof. unfold updateProjectStatus. honest_auto. Qed.
Hint Resolve updateProjectStatus_honest : honest.
Lemma report_honest t s r m : honest (report t s r m).
Proof. unfold report. honest_auto. Qed.
Lemma set_owner_honest {k} (o : object k) : honest (set_owner o).
Proof. unfold set_owner. honest_auto. Qed.
Lemma lookup_object_honest k key wrap : honest (lookup_object k key wrap).
Proof. unfold lookup_object. honest_auto; rewrite Heqb; auto with honest. Qed.

Hint Resolve report_honest : honest.
Hint Extern 1 (honest (set_owner _)) =>
  match goal with |- honest (@set_owner _ ?k ?o) => exact (@set_owner_honest k o) end : honest.
Hint Extern 1 (honest (lookup_object _ _ _)) =>
  match goal with |- honest (lookup_object ?k ?key ?wrap) =>
    exact (lookup_object_honest k key wrap) end : honest.
Lemma update__honest {k} (o : object k) : honest (update_ o).
Proof. unfold update_. honest_auto. Qed.
Hint Extern 1 (honest (update_ _)) =>
  match goal with |- honest (@update_ ?k ?o) => exact (@update__honest k o) end : honest.

Lemma createOrUpdateSecret_honest s : honest (createOrUpdateSecret s).
Proof. unfold createOrUpdateSecret. honest_auto. Qed.
Lemma createOrUpdateConfigMap_honest c : honest (createOrUpdateConfigMap c).
Proof. unfold createOrUpdateConfigMap. honest_auto. Qed.
Lemma createOrUpdateDeployment_honest d : honest (createOrUpdateDeployment d).
Proof. unfold createOrUpdateDeployment. honest_auto. Qed.
Lemma createOrUpdateService_honest s : honest (createOrUpdateService s).
Proof. unfold createOrUpdateService. honest_auto. Qed.
Lemma createOrUpdateObjectStore_honest o : honest (createOrUpdateObjectStore o).
Proof. unfold createOrUpdateObjectStore. honest_auto. Qed.
Lemma createOrUpdateScheduledBackup_honest o : honest (createOrUpdateScheduledBackup o).
Proof. unfold createOrUpdateScheduledBackup. honest_auto. Qed.
Lemma createOrUpdateCronJob_honest c : honest (createOrUpdateCronJob c).
Proof. unfold createOrUpdateCronJob. honest_auto. Qed.
Lemma createOrCheckJob_honest j h : honest (createOrCheckJob j h).
Proof. unfold createOrCheckJob. honest_auto. Qed.
Lemma delete_ignore_honest {k} (o : object k) : honest (delete_ignore o).
Proof. unfold delete_ignore. honest_auto. Qed.
Hint Resolve delete_ignore_honest : honest.
Lemma deletePowerSyncOwnedResource_honest k n : honest (deletePowerSyncOwnedResource k n).
Proof. unfold deletePowerSyncOwnedResource. honest_auto. Qed.
Lemma deploymentStatus_honest d : honest (deploymentStatus d).
Proof. unfold deploymentStatus. honest_auto. Qed.
End Helpers.

#[export] Hint Resolve setCondition_honest updateProjectStatus_honest report_honest
  createOrUpdateSecret_honest createOrUpdateConfigMap_honest createOrUpdateDeployment_honest
  createOrUpdateService_honest createOrUpdateObjectStore_honest
  createOrUpdateScheduledBackup_honest createOrUpdateCronJob_honest createOrCheckJob_honest
  delete_ignore_honest deletePowerSyncOwnedResource_honest deploymentStatus_honest : honest.
#[export] Hint Extern 1 (honest (set_owner _)) =>
  match goal with |- honest (@set_owner _ ?k ?o) => exact (@set_owner_honest _ k o) end : honest.
#[export] Hint Extern 1 (honest (lookup_object _ _ _)) =>
  match goal with |- honest (lookup_object ?k ?key ?wrap) =>
    exact (lookup_object_honest k key wrap) end : honest.
#[export] Hint Extern 1 (honest (update_ _)) =>
  match goal with |- honest (@update_ ?k ?o) => exact (@update__honest k o) end : honest.

Section Phases.
Context `{Platform} `{CryptoLib} `{UrlLib}.

(** Phases 0 to 2. *)

Lemma set_phase_honest phase : honest (set_phase phase).
Proof. apply honest_modify_status. Qed.
Hint Resolve set_phase_honest : honest.
Lemma protect_durable_honest k n : honest (protect_durable k n).
Proof. unfold protect_durable. honest_auto. Qed.
Hint Resolve protect_durable_honest : honest.
Lemma reconcileDurableMetadataProtection_honest : honest reconcileDurableMetadataProtection.
Proof. unfold reconcileDurableMetadataProtection. honest_auto. Qed.

Lemma GenerateEmailHookSecret_honest p : honest (GenerateEmailHookSecret p).
Proof. unfold GenerateEmailHookSecret. honest_auto. Qed.
Lemma GenerateGoTrueFallbackSecret_honest p : honest (GenerateGoTrueFallbackSecret p).
Proof. unfold GenerateGoTrueFallbackSecret. honest_auto. Qed.
Lemma generateRoleSecret_honest p a b : honest (generateRoleSecret p a b).
Proof. unfold generateRoleSecret. honest_auto. Qed.
Hint Resolve GenerateEmailHookSecret_honest GenerateGoTrueFallbackSecret_honest
  generateRoleSecret_honest : honest.
Lemma GenerateSecrets_honest p : honest (GenerateSecrets p).
Proof. unfold GenerateSecrets. honest_auto. Qed.
Lemma GeneratePowersyncSecrets_honest p : honest (GeneratePowersyncSecrets p).
Proof. unfold GeneratePowersyncSecrets. honest_auto. Qed.
Lemma GeneratePowersyncAPITokenSecret_honest p : honest (GeneratePowersyncAPITokenSecret p).
Proof. unfold GeneratePowersyncAPITokenSecret. honest_auto. Qed.
Hint Resolve GenerateSecrets_honest GeneratePowersyncSecrets_honest
  GeneratePowersyncAPITokenSecret_honest : honest.

Lemma failEmailHookSecret_never r e : never (failEmailHookSecret r e).
Proof. unfold failEmailHookSecret. never_auto. Qed.
Lemma failReconcileSecrets_never {A} r m e : never (failReconcileSecrets (A := A) r m e).
Proof. unfold failReconcileSecrets. never_auto. Qed.
Hint Resolve failEmailHookSecret_never failReconcileSecrets_never : honest.

Lemma reconcileEmailHookSecret_honest : honest reconcileEmailHookSecret.
Proof. unfold reconcileEmailHookSecret. honest_auto. Qed.
Lemma reconcilePowersyncAPITokenSecret_honest : honest reconcilePowersyncAPITokenSecret.
Proof. unfold reconcilePowersyncAPITokenSecret. honest_auto. Qed.
Lemma all_exist_honest names : honest (all_exist names).
Proof. induction names as [|n names IH]; cbn [all_exist]; honest_auto. Qed.
Hint Resolve reconcileEmailHookSecret_honest reconcilePowersyncAPITokenSecret_honest
  all_exist_honest : honest.
Lemma reconcilePowersyncSecrets_honest names : honest (reconcilePowersyncSecrets names).
Proof. unfold reconcilePowersyncSecrets. honest_auto. Qed.
Hint Resolve reconcilePowersyncSecrets_honest : honest.
Lemma reconcileImplementationSecrets_honest : honest reconcileImplementationSecrets.
Proof. unfold reconcileImplementationSecrets. honest_auto. Qed.
Lemma validate_credentials_honest s : honest (validate_credentials s).
Proof. unfold validate_credentials. honest_auto. Qed.
Hint Resolve reconcileImplementationSecrets_honest validate_credentials_honest : honest.
Lemma reconcileSecrets_honest : honest reconcileSecrets.
Proof. unfold reconcileSecrets. honest_auto. Qed.
Lemma validateRecoveryBootstrapIntent_honest : honest validateRecoveryBootstrapIntent.
Proof. unfold validateRecoveryBootstrapIntent. honest_auto. Qed.
Lemma reconcileInitSQL_honest : honest reconcileInitSQL.
Proof. unfold reconcileInitSQL. honest_auto. Qed.
Lemma reconcileJWKSConfigMap_honest j : honest (reconcileJWKSConfigMap j).
Proof. unfold reconcileJWKSConfigMap. honest_auto. Qed.

(** Phases 2.5 to 4. *)

Lemma validateS3Secret_honest ns n : honest (validateS3Secret ns n).
Proof. unfold validateS3Secret. honest_auto. Qed.
Lemma failBackup_never r e : never (failBackup r e).
Proof. unfold failBackup. never_auto. Qed.
Lemma failRecovery_never r e : never (failRecovery r e).
Proof. unfold failRecovery. never_auto. Qed.
Lemma fail_database_never {A} r e : never (fail_database (A := A) r e).
Proof. unfold fail_database. never_auto. Qed.
Lemma remove_condition_honest t : honest (remove_condition t).
Proof. apply honest_modify_status. Qed.
Lemma delete_durable_honest k w n : honest (delete_durable k w n).
Proof. unfold delete_durable. honest_auto. Qed.
Hint Resolve validateS3Secret_honest failBackup_never failRecovery_never fail_database_never
  remove_condition_honest delete_durable_honest : honest.
Lemma cleanupBackupResources_honest : honest cleanupBackupResources.
Proof. unfold cleanupBackupResources. honest_auto. Qed.
Lemma cleanupRecoveryResources_honest : honest cleanupRecoveryResources.
Proof. unfold cleanupRecoveryResources. honest_auto. Qed.
Hint Resolve cleanupBackupResources_honest cleanupRecoveryResources_honest : honest.
Lemma reconcileBackupInfrastructure_honest : honest reconcileBackupInfrastructure.
Proof.
  unfold reconcileBackupInfrastructure, reconcileBackup, reconcileRecovery. honest_auto.
Qed.
Lemma sync_cluster_honest e d : honest (sync_cluster e d).
Proof. unfold sync_cluster. honest_auto. Qed.
Hint Resolve sync_cluster_honest : honest.
Lemma reconcileCNPGCluster_honest : honest reconcileCNPGCluster.
Proof. unfold reconcileCNPGCluster. honest_auto. Qed.
Lemma waitForDatabase_honest : honest waitForDatabase.
Proof. unfold waitForDatabase. honest_auto. Qed.

(** Phase 5. *)

Lemma set_service_status_honest f : honest (set_service_status f).
Proof. apply honest_modify_status. Qed.
Lemma fail_component_never {A} c r e : never (fail_component (A := A) c r e).
Proof. unfold fail_component. never_auto. Qed.
Lemma failAuthGoTrueEnv_never e : never (failAuthGoTrueEnv e).
Proof. unfold failAuthGoTrueEnv. never_auto. Qed.
Lemma failCoreServices_never e : never (failCoreServices e).
Proof. unfold failCoreServices. never_auto. Qed.
Hint Resolve set_service_status_honest fail_component_never failAuthGoTrueEnv_never
  failCoreServices_never : honest.
Lemma reconcileServiceComponent_honest c : honest (reconcileServiceComponent c).
Proof. unfold reconcileServiceComponent. honest_auto. Qed.
Hint Resolve reconcileServiceComponent_honest : honest.
Lemma validateGoTrueEnvKey_honest k t h ns ref : honest (validateGoTrueEnvKey k t h ns ref).
Proof.
  unfold validateGoTrueEnvKey. honest_auto. rewrite andb_false_r. apply never_throw.
Qed.
Hint Resolve validateGoTrueEnvKey_honest : honest.
Lemma validateGoTrueEnvSources_honest : honest validateGoTrueEnvSources.
Proof.
  unfold validateGoTrueEnvSources, validateGoTrueEnvSecretKey, validateGoTrueEnvConfigMapKey.
  honest_auto.
Qed.
Lemma buildAuthDeployment_honest : honest buildAuthDeployment.
Proof. unfold buildAuthDeployment. honest_auto. Qed.
Hint Resolve validateGoTrueEnvSources_honest buildAuthDeployment_honest : honest.
Lemma reconcileAuth_honest h : honest (reconcileAuth h).
Proof. unfold reconcileAuth. honest_auto. Qed.
Lemma reconcileRest_honest h : honest (reconcileRest h).
Proof. unfold reconcileRest. honest_auto. Qed.
Lemma reconcileStudio_honest h : honest (reconcileStudio h).
Proof. unfold reconcileStudio. honest_auto. Qed.
Lemma reconcileMeta_honest : honest reconcileMeta.
Proof. unfold reconcileMeta. honest_auto. Qed.
Lemma reconcileGateway_honest h : honest (reconcileGateway h).
Proof. unfold reconcileGateway. honest_auto. Qed.
Hint Resolve reconcileAuth_honest reconcileRest_honest reconcileStudio_honest
  reconcileMeta_honest reconcileGateway_honest : honest.
Lemma reconcileServices_honest c : honest (reconcileServices c).
Proof. unfold reconcileServices. honest_auto. Qed.

(** Phase 6. *)

Lemma powersync_spec_honest : honest powersync_spec.
Proof. unfold powersync_spec. honest_auto. Qed.
Hint Resolve powersync_spec_honest : honest.
Lemma loadAndValidatePowerSyncRules_honest : honest loadAndValidatePowerSyncRules.
Proof. unfold loadAndValidatePowerSyncRules. honest_auto. Qed.
Hint Resolve loadAndValidatePowerSyncRules_honest : honest.
Lemma reconcilePowerSyncRulesValidation_honest : honest reconcilePowerSyncRulesValidation.
Proof. unfold reconcilePowerSyncRulesValidation. honest_auto. Qed.
Lemma waitForPowerSyncManagedRoles_honest : honest waitForPowerSyncManagedRoles.
Proof. unfold waitForPowerSyncManagedRoles. honest_auto. Qed.
Lemma publication_pending_honest m : honest (publication_pending m).
Proof. unfold publication_pending. honest_auto. Qed.
Hint Resolve publication_pending_honest : honest.
Lemma reconcilePowerSyncPublication_honest : honest reconcilePowerSyncPublication.
Proof. unfold reconcilePowerSyncPublication. honest_auto. Qed.
Lemma reconcileCDCPermissions_honest : honest reconcileCDCPermissions.
Proof. unfold reconcileCDCPermissions. honest_auto. Qed.
Lemma powersync_failed_honest r e : honest (powersync_failed r e).
Proof. unfold powersync_failed. honest_auto. Qed.
Lemma cleanupPowerSyncCompact_honest : honest cleanupPowerSyncCompact.
Proof. unfold cleanupPowerSyncCompact. honest_auto. Qed.
Hint Resolve powersync_failed_honest cleanupPowerSyncCompact_honest : honest.
Lemma reconcilePowersync_honest r : honest (reconcilePowersync r).
Proof. unfold reconcilePowersync. honest_auto. Qed.
Lemma cleanupPowerSync_honest : honest cleanupPowerSync.
Proof. unfold cleanupPowerSync. honest_auto. Qed.

Hint Resolve reconcileDurableMetadataProtection_honest reconcileSecrets_honest
  validateRecoveryBootstrapIntent_honest reconcileInitSQL_honest reconcileJWKSConfigMap_honest
  reconcileBackupInfrastructure_honest reconcileCNPGCluster_honest waitForDatabase_honest
  reconcileServices_honest reconcilePowerSyncRulesValidation_honest
  waitForPowerSyncManagedRoles_honest reconcilePowerSyncPublication_honest
  reconcileCDCPermissions_honest reconcilePowersync_honest cleanupPowerSync_honest : honest.

Lemma or_requeue_honest m k : honest m → honest k → honest (or_requeue m k).
Proof. intros Hm Hk. unfold or_requeue. honest_auto. Qed.
Hint Resolve or_requeue_honest : honest.
Lemma complete_honest : honest complete.
Proof. unfold complete. honest_auto. Qed.
Hint Resolve complete_honest : honest.
Lemma reconcilePowerSyncPhase_honest k : honest k → honest (reconcilePowerSyncPhase k).
Proof. intros Hk. unfold reconcilePowerSyncPhase. honest_auto; auto 10 with honest. Qed.
Lemma reconcileWorkloads_honest c : honest (reconcileWorkloads c).
Proof.
  unfold reconcileWorkloads. honest_auto. apply reconcilePowerSyncPhase_honest, complete_honest.
Qed.
Hint Resolve reconcileWorkloads_honest : honest.
Lemma reconcileProject_honest : honest reconcileProject.
Proof. unfold reconcileProject. honest_auto. Qed.
End Phases.

(** C7: no failed request is lost.  A reconciliation that returns without an
    error (finished or asking for a requeue) has seen no failing answer at
    all, in any of its phases, from the API server or the random source,
    except NotFound for a read or a deletion; every other failure makes
    Reconcile return an error, so that it is retried. *)
Theorem Reconcile_reports_failures `{Platform} `{CryptoLib} `{UrlLib} key tr result :
  runs (Reconcile key) tr (inr result) → clean tr.
Proof.
  intros ([e|project] & tr' & -> & Hr); cbn in Hr.
  - destruct (IsNotFound e) eqn:E; [|by destruct Hr].
    destruct Hr as [-> _]. by repeat constructor.
  - apply runs_bind in Hr as (tr1 & tr2 & [p r] & -> & Hr & [-> Hout]). cbn in Hout. subst r.
    rewrite app_nil_r. constructor; [done|]. by eapply reconcileProject_honest.
Qed.
