(* ===== verification/Safety.v ===== *)
(** * What the reconciler may write

    [write_ok] is the discipline every request of a reconciliation obeys,
    whatever the server answers: durable resources are never owned, adopted
    without their label or deleted with the cluster, generated secrets are
    never overwritten, and only objects read as this project's are changed or
    removed. *)

From S2P Require Import Prelude KubeTypes Types Platform Effects Common ConfigMaps Cnpg Encoding Sha256 Crypto Secrets Deployments Services ObjectSync ClusterSync Store Provisioning Database CoreServices PowerSync Reconciler.

(** ** The discipline *)

Definition durable (k : kind) : bool :=
  match k with KCluster | KObjectStore | KScheduledBackup => true | _ => false end.

Definition instance_of {k} (o : object k) : string :=
  map_get (om_Labels (obj_meta o)) LabelInstance.

Section Discipline.
Context `{Platform} (owner : ObjectMeta).

(** The names of a project's children, after its own. *)
Definition suffixes (k : kind) : list string :=
  match k with
  | KSecret =>
      [GoTrueFallbackSecretNameSuffix; "-supabase-admin-password"; "-authenticator-password";
       "-auth-admin-password"; "-email-hook"; "-powersync-storage-password";
       "-powersync-replication-password"; PowersyncAPITokenSecretNameSuffix]
  | KConfigMap =>
      ["-init-sql"; "-auth-jwks"; "-envoy-config"; "-powersync-config"; "-powersync-sync-rules";
       "-cdc-migrations"]
  | KService => ["-auth"; "-rest"; "-studio"; "-meta"; "-api-gw"; "-powersync-api"]
  | KDeployment =>
      ["-auth"; "-rest"; "-studio"; "-meta"; "-api-gw"; "-powersync-api";
       "-powersync-replication"]
  | KJob => ["-cdc-permissions"]
  | KCronJob => ["-powersync-compact"]
  | KCluster => ["-pg"]
  | KScheduledBackup => ["-backup"]
  | KObjectStore => ["-backup"; "-recovery"]
  | KPublication => ["-powersync"]
  | KProject => []
  end.
(** A name that is the project's with a suffix of the kind. *)
Definition child_name (k : kind) (name : string) : Prop :=
  ∃ suffix, suffix ∈ suffixes k ∧ name = om_Name owner +:+ suffix.
Definition child (k : kind) (key : NamespacedName) : Prop :=
  nn_Namespace key = om_Namespace owner ∧ child_name k (nn_Name key).

(** No owner reference to the project. *)
Definition disowned (refs : list OwnerReference) : Prop :=
  ∀ r, r ∈ refs → owned_by_project (om_Name owner) r = false.

(** Controlled by the project, through a reference that names it. *)
Definition claimed (m : ObjectMeta) : Prop :=
  IsControlledBy m owner = true ∧
  ∃ r, r ∈ om_OwnerReferences m ∧ or_Controller r = Some true ∧
       owned_by_project (om_Name owner) r = true.

Definition create_ok {k} (o : object k) : Prop :=
  child k (obj_key o) ∧
  if durable k then om_OwnerReferences (obj_meta o) = [] ∧ instance_of o = om_Name owner
  else claimed (obj_meta o).

(** [old] is what the server returned, [new] what is sent. *)
Definition update_ok (k : kind) : object k → object k → Prop :=
  match k with
  | KCluster => λ old new, instance_of (k := KCluster) old = om_Name owner ∧
      instance_of (k := KCluster) new = om_Name owner ∧
      disowned (om_OwnerReferences (cl_meta new)) ∧
      cs_Bootstrap (cl_Spec new) = cs_Bootstrap (cl_Spec old) ∧
      cs_ExternalClusters (cl_Spec new) = cs_ExternalClusters (cl_Spec old)
  | KObjectStore => λ old new, instance_of (k := KObjectStore) old = om_Name owner ∧
      instance_of (k := KObjectStore) new = om_Name owner ∧ disowned (om_OwnerReferences (os_meta new))
  | KScheduledBackup => λ old new, instance_of (k := KScheduledBackup) old = om_Name owner ∧
      instance_of (k := KScheduledBackup) new = om_Name owner ∧ disowned (om_OwnerReferences (sb_meta new))
  | KSecret => λ old new, sec_Data new = sec_Data old ∧ sec_StringData new = sec_StringData old ∧
      sec_Type new = sec_Type old ∧ om_Labels (sec_meta new) = om_Labels (sec_meta old) ∧
      claimed (sec_meta new)
  | KConfigMap => λ old new, instance_of (k := KConfigMap) old = om_Name owner ∧
      claimed (cm_meta new)
  | KJob => λ old new, instance_of (k := KJob) old = om_Name owner ∧
      claimed (job_meta new)
  | KPublication => λ old new, instance_of (k := KPublication) old = om_Name owner ∧
      claimed (pb_meta new)
  | KDeployment => λ old new, claimed (dp_meta new)
  | KService => λ old new, claimed (svc_meta new) ∧
      svc_ClusterIP new = svc_ClusterIP old
  | KCronJob => λ old new, claimed (cj_meta new)
  | KProject => λ _ _, False
  end.

Definition delete_ok (k : kind) (o : object k) : Prop :=
  match k with
  | KObjectStore | KScheduledBackup => instance_of o = om_Name owner
  | KJob => instance_of o = om_Name owner ∨ IsControlledBy (obj_meta o) owner = true
  | KDeployment | KService | KConfigMap | KCronJob | KPublication =>
      IsControlledBy (obj_meta o) owner = true
  | KCluster | KSecret | KProject => False
  end.

Definition write_ok (h : trace) (r : request) : Prop :=
  match r with
  | Create k o => create_ok o
  | Update k new => ∃ key old,
      child k key ∧ fetched h key old ∧ obj_key new = obj_key old ∧ update_ok k old new
  | Delete k o _ => ∃ key old,
      child k key ∧ fetched h key old ∧ obj_key o = obj_key old ∧ delete_ok k old
  | StatusUpdate p => prj_meta p = owner
  | Get _ _ | ListProjects _ | Now | RandRead _ => True
  end.

(** The server stores the status it is sent: the metadata it returns is that
    of the project. *)
Definition keeps_meta (r : request) (v : response r) : Prop :=
  match r return response r → Prop with
  | StatusUpdate p => λ v, match v with inr p' => prj_meta p' = prj_meta p | inl _ => True end
  | _ => λ _, True
  end v.

Definition discipline : policy := {| rely := keeps_meta; guarantee := write_ok |}.

(** The project keeps its metadata throughout. *)
Definition same_meta : trace → SupabaseProject → Prop := λ _ s, prj_meta s = owner.

Lemma same_meta_permissive : permissive discipline same_meta.
Proof.
  split; cbn; try done.
  - by intros h [] ?.
  - intros h s s' Hs Hrel. unfold same_meta in *. congruence.
Qed.
Lemma same_meta_condition_free : condition_free (J := same_meta).
Proof. by intros h s f Hs. Qed.
Lemma with_fetched_condition_free J key {k} (o : object k) :
  condition_free (J := J) → condition_free (J := with_fetched J key o).
Proof. intros HJ h s f [? ?]. split; [by apply HJ | done]. Qed.
End Discipline.
#[export] Hint Resolve same_meta_permissive same_meta_condition_free
  with_fetched_condition_free : ok.

(** [J] fixes the project's metadata. *)
Definition knows_meta (owner : ObjectMeta) (J : trace → SupabaseProject → Prop) : Prop :=
  ∀ h s, J h s → prj_meta s = owner.
Lemma same_meta_knows owner : knows_meta owner (same_meta owner).
Proof. by intros h s Hs. Qed.
Lemma with_fetched_knows owner J key {k} (o : object k) :
  knows_meta owner J → knows_meta owner (with_fetched J key o).
Proof. intros HJ h s [? _]. by eapply HJ. Qed.
#[export] Hint Resolve same_meta_knows with_fetched_knows : ok.

(** A policy that allows whatever the discipline allows. *)
Definition allows_discipline `{Platform} (owner : ObjectMeta) (P : policy) : Prop :=
  ∀ h r, write_ok owner h r → guarantee P h r.
(** [J] does not depend on the status. *)
Definition status_free (J : trace → SupabaseProject → Prop) : Prop :=
  ∀ h s f, J h s → J h (s <| prj_Status ::= f |>).
Lemma status_condition_free J : status_free J → condition_free (J := J).
Proof. intros HJ h s f. apply HJ. Qed.
#[export] Hint Resolve status_condition_free : ok.

(** ** The helpers obey it *)

Lemma claims `{PlatformLaws} owner p m refs m' :
  prj_meta p = owner → SetControllerReference (prj_meta p) m = inr refs →
  om_OwnerReferences m' = refs → claimed owner m'.
Proof.
  intros <- Hr Hm. split.
  - rewrite <- (SetControllerReference_controls _ _ _ Hr). by apply IsControlledBy_refs.
  - destruct (SetControllerReference_names _ _ _ Hr) as (r & Hin & Hc & Hk & Hn & Hg).
    exists r. rewrite Hm. split_and!; try done. unfold owned_by_project.
    rewrite Hg. by rewrite Hk, Hn, !bool_decide_eq_true_2.
Qed.

Lemma instance_label owner p m :
  prj_meta p = owner →
  bool_decide (map_get (om_Labels m) LabelInstance ≠ prj_Name p) = false →
  map_get (om_Labels m) LabelInstance = om_Name owner.
Proof. intros <- Hb. bools. by apply dec_stable. Qed.

Lemma project_child owner p k name :
  child_name owner k name → prj_meta p = owner → child owner k (in_namespace p name).
Proof. intros Hn <-. by split. Qed.
Lemma suffix_child_name owner p k s name :
  prj_meta p = owner → s ∈ suffixes k → name = prj_Name p +:+ s → child_name owner k name.
Proof. intros <- Hs ->. by exists s. Qed.
Lemma suffix_child owner p k s key :
  prj_meta p = owner → s ∈ suffixes k → key = in_namespace p (prj_Name p +:+ s) →
  child owner k key.
Proof. intros Hp Hs ->. apply project_child; [by eapply suffix_child_name|done]. Qed.
(** A suffix of the list, a key and a name made of the project's and a suffix. *)
Ltac is_suffix := by apply (bool_decide_unpack _); vm_compute.
Ltac suffix_child :=
  match goal with
  | Hp : prj_meta ?p = _ |- child _ _ _ =>
      eapply (suffix_child _ p); [exact Hp| |reflexivity]; first [assumption|is_suffix]
  | Hp : prj_meta ?p = _ |- child_name _ _ _ =>
      eapply (suffix_child_name _ p); [exact Hp| |reflexivity]; first [assumption|is_suffix]
  end.

Section Helpers.
Context `{PlatformLaws} {owner : ObjectMeta} {P : policy}
  {J : trace → SupabaseProject → Prop}.
Context (Hname : om_Name owner ≠ "") (HG : allows_discipline owner P).
Context (HP : permissive P J) (HC : condition_free (J := J))
  (HM : knows_meta owner J).

Abbreviation ok' m := (ok P J m).

(** Learn the metadata of every project read so far. *)
Ltac learn := repeat match goal with
  | Hx : ∃ h, ?K h ?p |- _ =>
      let E := fresh "Hmeta" in
      assert (E : prj_meta p = owner)
        by (destruct Hx as [? Hx]; unfold with_fetched in Hx;
            repeat (destruct Hx as [Hx ?]); by eapply HM);
      clear Hx
  end.
(** The owner was set on the object written; labels do not matter. *)
Ltac by_owner := match goal with
  | Hr : SetControllerReference (prj_meta ?p) ?m = inr ?refs |- claimed _ _ =>
      by apply (claims owner p m refs _ ltac:(assumption) Hr)
  end.
(** A new object owned by the project. *)
Ltac creates := ok_store_step; apply HG; learn; split; [assumption | cbn [durable]; by_owner].
(** An update of what was fetched. *)
Ltac updates o := match goal with
  | Hx : with_fetched _ ?key o ?h _ |- _ =>
      learn; apply HG; exists key, o; split; [assumption|]; split; [apply Hx|]; split; [done|];
      cbn [update_ok]
  end.
(** The adoption guard passed. *)
Ltac by_label := match goal with
  | Hl : bool_decide (map_get (om_Labels ?m) LabelInstance ≠ prj_Name ?p) = false |- _ =>
      exact (instance_label owner p m ltac:(assumption) Hl)
  end.

Lemma createOrUpdateSecret_ok secret :
  child owner KSecret (meta_key (sec_meta secret)) → ok' (createOrUpdateSecret secret).
Proof using All.
  intros Hns. unfold createOrUpdateSecret. ok_store_step. ok_store_step.
  - creates.
  - ok_store_step. destruct (owners_changed _ _); [|auto with ok].
    ok_store_step. updates o. split_and!; try done. by_owner.
Qed.

Lemma createOrUpdateConfigMap_ok cm :
  child owner KConfigMap (meta_key (cm_meta cm)) → ok' (createOrUpdateConfigMap cm).
Proof using All.
  intros Hns. unfold createOrUpdateConfigMap. do 2 ok_store_step; [creates|].
  ok_step. case_match eqn:Hl; [auto with ok|]. do 2 ok_store_step.
  case_match; [auto with ok|]. ok_store_step. updates o. split; [by_label|by_owner].
Qed.

Lemma createOrUpdateDeployment_ok d :
  child owner KDeployment (meta_key (dp_meta d)) → ok' (createOrUpdateDeployment d).
Proof using All.
  intros Hns. unfold createOrUpdateDeployment. do 2 ok_store_step; [creates|].
  ok_store_step. case_match; [auto with ok|]. cbv zeta. ok_store_step. 
  case_match; updates o; by_owner.
Qed.

Lemma createOrUpdateService_ok svc :
  child owner KService (meta_key (svc_meta svc)) → ok' (createOrUpdateService svc).
Proof using All.
  intros Hns. unfold createOrUpdateService. do 2 ok_store_step; [creates|].
  ok_store_step. case_match; [auto with ok|]. ok_store_step. updates o. split; [by_owner|done].
Qed.

Lemma createOrUpdateCronJob_ok cj :
  child owner KCronJob (meta_key (cj_meta cj)) → ok' (createOrUpdateCronJob cj).
Proof using All.
  intros Hns. unfold createOrUpdateCronJob. do 2 ok_store_step; [creates|].
  ok_store_step. cbv zeta. ok_store_step. case_match; [auto with ok|]. ok_store_step.
  updates o. by_owner.
Qed.

(** What a durable object written by the operator looks like. *)
Definition fresh_durable {k} (o : object k) : Prop :=
  child owner k (obj_key o) ∧ om_OwnerReferences (obj_meta o) = [] ∧ instance_of o = om_Name owner.

Lemma disowned_remove m refs d :
  refs = om_OwnerReferences (mergeLabels (removeSupabaseProjectOwnerReference m (om_Name owner)).1
           d).1 →
  disowned owner refs.
Proof using Hname.
  intros ->. destruct (mergeLabels_other (removeSupabaseProjectOwnerReference m
    (om_Name owner)).1 d) as (_ & _ & ->).
  intros r. by apply removeSupabaseProjectOwnerReference_disowned.
Qed.

Lemma merged_instance m d :
  map_get (om_Labels m) LabelInstance = om_Name owner → map_get d LabelInstance = om_Name owner →
  map_get (om_Labels (mergeLabels (removeSupabaseProjectOwnerReference m (om_Name owner)).1 d).1)
    LabelInstance = om_Name owner.
Proof.
  intros Hm Hd. destruct (removeSupabaseProjectOwnerReference_key m (om_Name owner)) as [_ Hl].
  rewrite mergeLabels_lookup, Hl, Hm. unfold map_get in Hd. by destruct (d !! LabelInstance).
Qed.

Lemma createOrUpdateObjectStore_ok so :
  (∀ o, so = Some o → fresh_durable (k := KObjectStore) o) → ok' (createOrUpdateObjectStore so).
Proof using All.
  intros Hso. unfold createOrUpdateObjectStore. destruct so as [d|]; [|auto with ok].
  destruct (Hso d eq_refl) as (Hns & Href & Hinst). ok_store_step.
  { ok_step. ok_store_step. apply HG. by split. }
  cbv zeta. change (map_get (om_Labels (os_meta d)) LabelInstance) with
    (instance_of (k := KObjectStore) d).
  rewrite Hinst, bool_decide_eq_false_2 by done.
  case_match eqn:Hl; [auto with ok|]. do 2 ok_store_step. case_match; [auto with ok|].
  ok_step. ok_store_step. apply HG.
  match goal with Hx : with_fetched _ ?key ?o _ _ |- _ =>
    exists key, o; split; [exact Hns|]; split; [apply Hx|] end.
  apply bool_decide_eq_false in Hl. apply dec_stable in Hl. split; [|split_and!].
  - unfold obj_key. cbn. destruct (removeSupabaseProjectOwnerReference_key (os_meta o)
      (om_Name owner)) as [<- _]. done.
  - exact Hl.
  - exact (merged_instance (os_meta o) (om_Labels (os_meta d)) Hl Hinst).
  - by eapply disowned_remove.
Qed.

Lemma createOrUpdateScheduledBackup_ok so :
  (∀ o, so = Some o → fresh_durable (k := KScheduledBackup) o) →
  ok' (createOrUpdateScheduledBackup so).
Proof using All.
  intros Hso. unfold createOrUpdateScheduledBackup. destruct so as [d|]; [|auto with ok].
  destruct (Hso d eq_refl) as (Hns & Href & Hinst). ok_store_step.
  { ok_step. ok_store_step. apply HG. by split. }
  cbv zeta. change (map_get (om_Labels (sb_meta d)) LabelInstance) with
    (instance_of (k := KScheduledBackup) d).
  rewrite Hinst, bool_decide_eq_false_2 by done.
  case_match eqn:Hl; [auto with ok|]. do 2 ok_store_step. case_match; [auto with ok|].
  ok_step. ok_store_step. apply HG.
  match goal with Hx : with_fetched _ ?key ?o _ _ |- _ =>
    exists key, o; split; [exact Hns|]; split; [apply Hx|] end.
  apply bool_decide_eq_false in Hl. apply dec_stable in Hl. split; [|split_and!].
  - unfold obj_key. cbn. destruct (removeSupabaseProjectOwnerReference_key (sb_meta o)
      (om_Name owner)) as [<- _]. done.
  - exact Hl.
  - exact (merged_instance (sb_meta o) (om_Labels (sb_meta d)) Hl Hinst).
  - by eapply disowned_remove.
Qed.

Lemma createOrCheckJob_ok j hash :
  child owner KJob (meta_key (job_meta j)) → ok' (createOrCheckJob j hash).
Proof using All.
  intros Hns. unfold createOrCheckJob. ok_store_step. cbv zeta. ok_store_step.
  { ok_step; [|auto with ok]. creates. }
  ok_step. case_match eqn:Hl; [auto with ok|]. ok_store_step. cbv zeta. ok_store_step.
  case_match.
  - ok_step; [|split_cases; auto with ok]. ok_step. ok_store_step.
    match goal with Hx : with_fetched _ ?key ?o _ _ |- _ =>
      learn; apply HG; exists key, o; split; [assumption|]; split; [apply Hx|]; split; [done|] end.
    left. by_label.
  - ok_step; [|auto with ok]. case_match; [|auto with ok]. ok_step. ok_store_step.
    updates o. split; [by_label|by_owner].
Qed.

Lemma delete_durable_ok k what name :
  k = KObjectStore ∨ k = KScheduledBackup → child_name owner k name →
  ok' (delete_durable k what name).
Proof using All.
  intros Hk Hn. unfold delete_durable. ok_step. ok_store_step; [auto with ok|].
  cbv zeta. case_match eqn:Hl; [auto with ok|]. ok_step; [|split_cases; auto with ok].
  ok_step. ok_store_step. apply HG. learn.
  match goal with Hx : with_fetched _ ?key ?o _ _ |- _ =>
      exists key, o; split; [by apply project_child|]; split; [apply Hx|]; split; [done|] end.
  destruct Hk as [-> | ->]; cbn [delete_ok]; by_label.
Qed.

Lemma deletePowerSyncOwnedResource_ok k name :
  k ∈ [KDeployment; KService; KConfigMap; KJob; KCronJob; KPublication] → child_name owner k name →
  ok' (deletePowerSyncOwnedResource k name).
Proof using All.
  intros Hk Hn. unfold deletePowerSyncOwnedResource. ok_step. ok_store_step; [auto with ok|].
  case_match eqn:Hc; [|auto with ok]. unfold delete_ignore.
  ok_step; [|split_cases; auto with ok]. ok_step. ok_store_step. apply HG. learn.
  match goal with Hx : with_fetched _ ?key ?o _ _ |- _ =>
      exists key, o; split; [by apply project_child|]; split; [apply Hx|]; split; [done|] end.
  rewrite <- Hmeta. 
  repeat (apply elem_of_cons in Hk as [->|Hk]; [by first [done | right]|]). set_solver.
Qed.

Lemma deploymentStatus_ok d : ok' (deploymentStatus d).
Proof using All. unfold deploymentStatus. ok_store_step; auto with ok. Qed.

Lemma protect_durable_ok k name :
  durable k = true → child_name owner k name → ok' (protect_durable k name).
Proof using All.
  intros Hk Hn. unfold protect_durable. ok_step. cbv zeta. ok_store_step; [auto with ok|].
  case_match eqn:Hl; [auto with ok|]. ok_store_step. case_match; [auto with ok|].
  ok_step. ok_store_step. apply HG. learn.
  match goal with Hx : with_fetched _ ?key ?o _ _ |- _ =>
    exists key, o; split; [by apply project_child|]; split; [apply Hx|] end.
  change (prj_Name p) with (om_Name (prj_meta p)) in *. rewrite Hmeta in *.
  pose proof (removeSupabaseProjectOwnerReference_key (obj_meta o) (om_Name owner)) as [Hkey Hlab].
  pose proof (λ r, removeSupabaseProjectOwnerReference_disowned (obj_meta o) (om_Name owner) r
    Hname) as Hdis.
  apply bool_decide_eq_false in Hl. apply dec_stable in Hl.
  split; [by destruct k|].
  destruct k; try done; split_and!; try done; try (intros r; by apply Hdis);
    unfold instance_of; cbn in *; by rewrite Hlab.
Qed.
End Helpers.
