(* ===== verification/Frame.v ===== *)
(** * A walk over the controller

    One pass over every controller function for a policy and an invariant of
    the status lifecycle: which kinds of object and which names a function
    writes ([may]), and how it moves the phase and the conditions ([Frame]).
    [Order] instantiates it with the writes each phase may make, [Lifecycle]
    with the invariant of the project's status. *)

From S2P Require Import Prelude KubeTypes Types Platform Effects Common ConfigMaps Cnpg Encoding Sha256 Crypto Secrets Deployments Services ObjectSync ClusterSync Store Provisioning Database CoreServices PowerSync Reconciler Safety.
From Stdlib Require Import Ascii.

(** ** Conditions *)

(** A reason of a metav1.Condition: letters, digits, '_', ',' and ':', the
    first a letter, the last not a separator. *)
Definition is_letter (c : ascii) : bool :=
  let n := Z.of_nat (nat_of_ascii c) in
  ((65 <=? n) && (n <=? 90)) || ((97 <=? n) && (n <=? 122)).
Definition is_word (c : ascii) : bool :=
  let n := Z.of_nat (nat_of_ascii c) in
  is_letter c || ((48 <=? n) && (n <=? 57)) || (n =? 95).
Definition is_reason_char (c : ascii) : bool :=
  let n := Z.of_nat (nat_of_ascii c) in is_word c || (n =? 44) || (n =? 58).
Fixpoint reason_rest (s : string) : bool :=
  match s with
  | EmptyString => true
  | String c EmptyString => is_word c
  | String c s => is_reason_char c && reason_rest s
  end.
Definition reason_ok (s : string) : bool :=
  match s with
  | String c s => is_letter c && reason_rest s
  | EmptyString => false
  end.

Definition condition_types : list string :=
  [ConditionTypeReady; ConditionTypeSecretsReady; ConditionTypeDatabaseReady;
   ConditionTypeAuthReady; ConditionTypeRestReady; ConditionTypeStudioReady;
   ConditionTypeMetaReady; ConditionTypeGatewayReady; ConditionTypeBackupReady;
   ConditionTypeRecoveryReady; ConditionTypeCDCReady; ConditionTypePowersyncReady].

(** Type, status and reason of a condition the controller may set. *)
Definition condition_ok (type status reason : string) : bool :=
  bool_decide (type ∈ condition_types) &&
  bool_decide (status ∈ [ConditionTrue; ConditionFalse]) && reason_ok reason.

(** ** What the walk needs *)

Section Requirements.
Context `{Platform}.

(** The project after [setCondition], at a time of the clock. *)
Definition with_condition (p : SupabaseProject) (type status reason message : string) (now : Z)
    : SupabaseProject :=
  p <| prj_Status ::= (λ s, s <| sts_Conditions ::= (λ cs, SetStatusCondition cs
    {| cd_Type := type; cd_Status := status; cd_ObservedGeneration := om_Generation (prj_meta p);
       cd_LastTransitionTime := now; cd_Reason := reason; cd_Message := message |}) |>) |>.
Definition with_phase (phase : string) (p : SupabaseProject) : SupabaseProject :=
  p <| prj_Status ::= (λ s, s <| sts_Phase := phase |>) |>.
(** A change of the status that touches neither the phase nor the conditions. *)
Definition lifecycle_free (f : SupabaseProjectStatus → SupabaseProjectStatus) : Prop :=
  ∀ s, sts_Phase (f s) = sts_Phase s ∧ sts_Conditions (f s) = sts_Conditions s.

Record Frame (P : policy) (J : trace → SupabaseProject → Prop) : Prop := {
  fr_permissive : permissive P J;
  (** the server answers with the object asked for *)
  fr_named k key (o : object k) : rely P (Get k key) (inr o) → obj_key o = key;
  fr_delete h s k (o : object k) fg : J h s → guarantee P h (Delete k o fg);
  fr_status h s f : lifecycle_free f → J h s → J h (s <| prj_Status ::= f |>);
  (** Ready is only ever set true by [complete] *)
  fr_condition h s t st r m now :
    condition_ok t st r = true → (t = ConditionTypeReady → st = ConditionFalse) →
    J h s → J h (with_condition s t st r m now);
  fr_remove h s t :
    t ≠ ConditionTypeReady → J h s →
    J h (s <| prj_Status ::= (λ st, st <| sts_Conditions ::= (λ cs, RemoveStatusCondition cs t) |>) |>);
  fr_begin h s : J h s → sts_Phase (prj_Status s) = "" → J h (with_phase PhasePending s);
  fr_provision h s :
    J h s → sts_Phase (prj_Status s) = PhasePending → J h (with_phase PhaseProvisioning s);
  fr_demote h s r m now :
    reason_ok r = true → J h s →
    J h (with_condition (with_phase PhaseProvisioning s) ConditionTypeReady ConditionFalse r m now);
  fr_complete h s generation r m now :
    reason_ok r = true → J h s →
    J h (with_condition (s <| prj_Status ::= (λ st, st <| sts_Phase := PhaseRunning |>
            <| sts_ObservedGeneration := generation |>) |>)
           ConditionTypeReady ConditionTrue r m now) }.

(** The policy allows writing the object of this name. *)
Definition may (P : policy) (J : trace → SupabaseProject → Prop) (k : kind) (key : NamespacedName)
    : Prop :=
  ∀ h s (o : object k), J h s → obj_key o = key →
    guarantee P h (Create k o) ∧ guarantee P h (Update k o).
End Requirements.

(** ** Helpers *)

Section Helpers.
Context `{Platform} {P : policy} {J : trace → SupabaseProject → Prop} (HF : Frame P J).

Abbreviation ok' m := (ok P J m).
Abbreviation may' k key := (may P J k key).

Lemma frame_permissive : permissive P J.
Proof using HF. apply HF. Qed.
#[local] Hint Resolve frame_permissive : ok.

Lemma ok_lookup_key {A} k key wrap (f : option (object k) → M A) :
  ok' (f None) → (∀ o, obj_key o = key → ok' (f (Some o))) → ok' (lookup_object k key wrap ≫= f).
Proof using HF.
  intros Hn Hf h s Hs. pose proof frame_permissive as HP.
  split; [by apply (permissive_read P J HP)|]. intros [err|o] Hrel; cbn.
  - destruct (IsNotFound err); cbn; [apply Hn|]; by apply (permissive_extend P J HP).
  - apply Hf; [by eapply fr_named|]. by apply (permissive_extend P J HP).
Qed.
Lemma lookup_frame k key wrap : ok' (lookup_object k key wrap).
Proof using HF. unfold lookup_object. ok_auto. Qed.

Lemma setCondition_frame t st r m :
  condition_ok t st r = true → (t = ConditionTypeReady → st = ConditionFalse) →
  ok' (setCondition t st r m).
Proof using HF.
  intros Hc Hr h s Hs. pose proof frame_permissive as HP.
  split; [by apply (permissive_read P J HP)|]. intros now _. cbn.
  apply (fr_condition P J HF _ s t st r m now Hc Hr). by apply (permissive_extend P J HP).
Qed.
Lemma report_frame t st r m :
  condition_ok t st r = true → (t = ConditionTypeReady → st = ConditionFalse) →
  ok' (report t st r m).
Proof using HF.
  intros. apply ok_bind; [by apply setCondition_frame|]. intros _.
  by apply updateProjectStatus_ok, frame_permissive.
Qed.
Lemma modify_status_frame f : lifecycle_free f → ok' (modify_status f).
Proof using HF. intros Hf. apply ok_modify. intros h s. by apply (fr_status P J HF). Qed.
Lemma remove_condition_frame t : t ≠ ConditionTypeReady → ok' (remove_condition t).
Proof using HF. intros Ht. apply ok_modify. intros h s. by apply (fr_remove P J HF). Qed.

(** A write of an object under a permitted key. *)
Lemma create_frame k (o : object k) : may' k (obj_key o) → ok' (api_create k o).
Proof using HF. intros Hm. apply ok_create; [auto with ok|]. intros h s Hs. by eapply Hm. Qed.
Lemma update_frame k (o : object k) : may' k (obj_key o) → ok' (api_update k o).
Proof using HF. intros Hm. apply ok_update; [auto with ok|]. intros h s Hs. by eapply Hm. Qed.
Lemma update__frame k (o : object k) : may' k (obj_key o) → ok' (update_ o).
Proof using HF. intros Hm. apply update__ok; [auto with ok|]. intros h s Hs. by eapply Hm. Qed.
Lemma delete_frame k (o : object k) fg : ok' (api_delete k o fg).
Proof using HF. apply ok_delete; [auto with ok|]. intros h s Hs. by apply (fr_delete P J HF _ s). Qed.

Lemma set_owner_frame {k} (o : object k) {A} (f : object k → M A) :
  (∀ o', obj_key o' = obj_key o → ok' (f o')) → ok' (set_owner o ≫= f).
Proof using HF.
  intros Hf. apply ok_set_owner. intros p refs _ _. apply Hf. unfold obj_key.
  by destruct k.
Qed.
End Helpers.

(** Keys survive the changes to the metadata. *)
Lemma merged_key m d : meta_key (mergeLabels m d).1 = meta_key m.
Proof. unfold meta_key. by destruct (mergeLabels_other m d) as (-> & -> & _). Qed.
Lemma removed_key `{Platform} m n : meta_key (removeSupabaseProjectOwnerReference m n).1 = meta_key m.
Proof. apply removeSupabaseProjectOwnerReference_key. Qed.

(** One step: reads, writes under a permitted key, pure branches. *)
Ltac frame_store_step :=
  match goal with
  | |- ok _ _ (match mergeLabels ?m ?d with _ => _ end) =>
      rewrite (surjective_pairing (mergeLabels m d)); cbv beta iota zeta
  | |- ok _ _ (match removeSupabaseProjectOwnerReference ?m ?n with _ => _ end) =>
      rewrite (surjective_pairing (removeSupabaseProjectOwnerReference m n)); cbv beta iota zeta
  | HF : Frame ?P ?J |- ok ?P ?J (mbind _ ?m) =>
      match m with
      | lookup_object ?k ?key ?wrap =>
          apply (@ok_lookup_key _ P J HF _ k key wrap); [|intros ? ?]
      | @set_owner _ ?k ?o => apply (@set_owner_frame _ P J HF k o); intros ? ?
      end
  | HF : Frame ?P ?J |- ok ?P ?J (@update_ ?k ?o) => apply (@update__frame _ P J HF k o)
  | HF : Frame ?P ?J |- ok ?P ?J (api_create ?k ?o) => apply (@create_frame _ P J HF k o)
  | HF : Frame ?P ?J |- ok ?P ?J (api_update ?k ?o) => apply (@update_frame _ P J HF k o)
  | HF : Frame ?P ?J |- ok ?P ?J (api_delete ?k ?o ?fg) => apply (@delete_frame _ P J HF k o fg)
  | |- ok _ _ _ => ok_step
  end.
(** The key of what is written is the key asked for. *)
Ltac same_key :=
  match goal with
  | Hm : may _ _ ?k _ |- may _ _ ?k ?key =>
      match type of Hm with may _ _ _ ?key' => let E := fresh in enough (E : key = key') by (rewrite E; exact Hm) end
  end;
  unfold obj_key in *; cbn [obj_meta] in *;
  cbn -[meta_key mergeLabels removeSupabaseProjectOwnerReference];
  repeat match goal with |- context [if ?b then _ else _] => destruct b end;
  cbn -[meta_key mergeLabels removeSupabaseProjectOwnerReference];
  rewrite ?merged_key, ?removed_key; first [congruence | unfold meta_key in *; cbn in *; congruence].
Ltac frame_store := repeat first [solve [auto with ok] | frame_store_step]; try same_key.

Section Store.
Context `{Platform} {P : policy} {J : trace → SupabaseProject → Prop} (HF : Frame P J).
Abbreviation ok' m := (ok P J m).
Abbreviation may' k key := (may P J k key).
#[local] Hint Resolve frame_permissive : ok.

Lemma createOrUpdateSecret_frame s : may' KSecret (meta_key (sec_meta s)) → ok' (createOrUpdateSecret s).
Proof using HF. intros Hm. unfold createOrUpdateSecret. frame_store. Qed.
Lemma createOrUpdateConfigMap_frame c :
  may' KConfigMap (meta_key (cm_meta c)) → ok' (createOrUpdateConfigMap c).
Proof using HF. intros Hm. unfold createOrUpdateConfigMap. frame_store. Qed.
Lemma createOrUpdateDeployment_frame d :
  may' KDeployment (meta_key (dp_meta d)) → ok' (createOrUpdateDeployment d).
Proof using HF. intros Hm. unfold createOrUpdateDeployment. frame_store. Qed.
Lemma createOrUpdateService_frame s :
  may' KService (meta_key (svc_meta s)) → ok' (createOrUpdateService s).
Proof using HF. intros Hm. unfold createOrUpdateService. frame_store. Qed.
Lemma createOrUpdateCronJob_frame c :
  may' KCronJob (meta_key (cj_meta c)) → ok' (createOrUpdateCronJob c).
Proof using HF. intros Hm. unfold createOrUpdateCronJob. frame_store. Qed.
Lemma createOrUpdateObjectStore_frame o :
  (∀ d, o = Some d → may' KObjectStore (meta_key (os_meta d))) → ok' (createOrUpdateObjectStore o).
Proof using HF.
  intros Hm. unfold createOrUpdateObjectStore. destruct o as [d|]; [|auto with ok].
  specialize (Hm d eq_refl). frame_store.
Qed.
Lemma createOrUpdateScheduledBackup_frame o :
  (∀ d, o = Some d → may' KScheduledBackup (meta_key (sb_meta d))) →
  ok' (createOrUpdateScheduledBackup o).
Proof using HF.
  intros Hm. unfold createOrUpdateScheduledBackup. destruct o as [d|]; [|auto with ok].
  specialize (Hm d eq_refl). frame_store.
Qed.
Lemma createOrCheckJob_frame j hash :
  may' KJob (meta_key (job_meta j)) → ok' (createOrCheckJob j hash).
Proof using HF. intros Hm. unfold createOrCheckJob. frame_store. Qed.
Lemma delete_ignore_frame k (o : object k) : ok' (delete_ignore o).
Proof using HF. unfold delete_ignore. frame_store. Qed.
Lemma deletePowerSyncOwnedResource_frame k name : ok' (deletePowerSyncOwnedResource k name).
Proof using HF. unfold deletePowerSyncOwnedResource, delete_ignore. frame_store. Qed.
Lemma deploymentStatus_frame d : ok' (deploymentStatus d).
Proof using HF. unfold deploymentStatus. frame_store. Qed.
Lemma delete_durable_frame k what name : ok' (delete_durable k what name).
Proof using HF. unfold delete_durable. frame_store. Qed.
End Store.

(** ** Phases *)

#[export] Hint Extern 1 (permissive _ _) => eapply frame_permissive; eassumption : ok.
Create HintDb frame.
#[export] Hint Resolve createOrUpdateSecret_frame createOrUpdateConfigMap_frame
  createOrUpdateDeployment_frame createOrUpdateService_frame createOrUpdateCronJob_frame
  createOrUpdateObjectStore_frame createOrUpdateScheduledBackup_frame createOrCheckJob_frame
  deletePowerSyncOwnedResource_frame deploymentStatus_frame delete_durable_frame
  modify_status_frame : frame.

Lemma condition_ok_intro t st r :
  bool_decide (t ∈ condition_types) = true → bool_decide (st ∈ [ConditionTrue; ConditionFalse]) = true →
  reason_ok r = true → condition_ok t st r = true.
Proof. unfold condition_ok. by intros -> -> ->. Qed.

(** The conditions set and the statuses changed along the walk. *)
Ltac frame_side :=
  match goal with
  | |- condition_ok _ _ _ = true =>
      first [ reflexivity
            | apply condition_ok_intro; first [assumption | reflexivity] ]
  | |- reason_ok _ = true => first [assumption | reflexivity]
  | |- _ = ConditionTypeReady → _ => first [by intros | by intros ?; exfalso]
  | |- lifecycle_free _ => by intros ?
  | |- _ ≠ ConditionTypeReady => done
  | Hb : ∀ k key, _ = true → may _ _ k key |- may _ _ _ _ => by apply Hb
  end.
Ltac frame_leaf :=
  first [ solve [auto with ok]
        | match goal with
          | |- ok _ _ (setCondition _ _ _ _) => apply setCondition_frame; [assumption|frame_side..]
          | |- ok _ _ (report _ _ _ _) => apply report_frame; [assumption|frame_side..]
          | |- ok _ _ (modify_status _) => apply modify_status_frame; [assumption|frame_side]
          | |- ok _ _ (remove_condition _) => apply remove_condition_frame; [assumption|frame_side]
          | |- ok _ _ (lookup_object ?k ?key ?w) => apply (@lookup_frame _ _ _ ltac:(assumption) k key w)
          end
        | solve [eauto 3 with frame] ].
Ltac frame_auto := repeat first [frame_leaf | frame_store_step]; try frame_side.

(** Phases 0 to 4 write Secrets, ConfigMaps and durable resources. *)
Definition base_kind (k : kind) : bool :=
  match k with
  | KSecret | KConfigMap | KCluster | KObjectStore | KScheduledBackup => true
  | _ => false
  end.

Section Base.
Context `{Platform} `{CryptoLib} {P : policy} {J : trace → SupabaseProject → Prop}.
Context (HF : Frame P J) (Hbase : ∀ k key, base_kind k = true → may P J k key).
Abbreviation ok' m := (ok P J m).
#[local] Hint Extern 2 (may _ _ _ _) => by apply Hbase : frame.

(** The two changes of phase at the start. *)
Lemma ok_get_when {B} c phase (rest : SupabaseProject → M B) :
  (∀ h s, J h s → sts_Phase (prj_Status s) = c → J h (with_phase phase s)) →
  (∀ p, ok' (rest p)) →
  ok' (p ← get_project;
       _ ← when (bool_decide (sts_Phase (prj_Status p) = c)) (set_phase phase); rest p).
Proof using Type.
  intros Hphase Hrest h s Hs. unfold when, mbind, M_bind. cbn.
  case_bool_decide; cbn; apply Hrest; [by apply (Hphase h s)|done].
Qed.

Lemma protect_durable_frame k name : base_kind k = true → ok' (protect_durable k name).
Proof using All.
  intros Hk. unfold protect_durable. frame_auto.
Qed.
Lemma reconcileDurableMetadataProtection_frame : ok' reconcileDurableMetadataProtection.
Proof using All.
  unfold reconcileDurableMetadataProtection. frame_auto.
  match goal with Hx : ?x ∈ _ |- _ => rename Hx into Hd end.
  apply protect_durable_frame.
  repeat (apply elem_of_cons in Hd as [->|Hd]; [done|]). by apply not_elem_of_nil in Hd.
Qed.

Lemma generateRoleSecret_frame p s u : ok' (generateRoleSecret p s u).
Proof using All. unfold generateRoleSecret. frame_auto. Qed.
Lemma GenerateEmailHookSecret_frame p : ok' (GenerateEmailHookSecret p).
Proof using All. unfold GenerateEmailHookSecret. frame_auto. Qed.
Lemma GenerateGoTrueFallbackSecret_frame p : ok' (GenerateGoTrueFallbackSecret p).
Proof using All. unfold GenerateGoTrueFallbackSecret. frame_auto. Qed.
Lemma GeneratePowersyncAPITokenSecret_frame p : ok' (GeneratePowersyncAPITokenSecret p).
Proof using All. unfold GeneratePowersyncAPITokenSecret. frame_auto. Qed.
#[local] Hint Resolve generateRoleSecret_frame GenerateEmailHookSecret_frame
  GenerateGoTrueFallbackSecret_frame GeneratePowersyncAPITokenSecret_frame : ok.
Lemma GenerateSecrets_frame p : ok' (GenerateSecrets p).
Proof using All. unfold GenerateSecrets. frame_auto. Qed.
Lemma GeneratePowersyncSecrets_frame p : ok' (GeneratePowersyncSecrets p).
Proof using All. unfold GeneratePowersyncSecrets. frame_auto. Qed.
#[local] Hint Resolve GenerateSecrets_frame GeneratePowersyncSecrets_frame : ok.

Lemma failEmailHookSecret_frame reason err :
  reason_ok reason = true → ok' (failEmailHookSecret reason err).
Proof using All. intros Hr. unfold failEmailHookSecret. frame_auto. Qed.
Lemma failReconcileSecrets_frame {A} reason message err :
  reason_ok reason = true → ok' (failReconcileSecrets (A := A) reason message err).
Proof using All. intros Hr. unfold failReconcileSecrets. frame_auto. Qed.
#[local] Hint Extern 1 (ok _ _ (failEmailHookSecret _ _)) =>
  by apply failEmailHookSecret_frame : ok.
#[local] Hint Extern 1 (ok _ _ (failReconcileSecrets _ _ _)) =>
  by apply failReconcileSecrets_frame : ok.

Lemma reconcileEmailHookSecret_frame : ok' reconcileEmailHookSecret.
Proof using All. unfold reconcileEmailHookSecret. frame_auto. Qed.
Lemma reconcilePowersyncAPITokenSecret_frame : ok' reconcilePowersyncAPITokenSecret.
Proof using All. unfold reconcilePowersyncAPITokenSecret. frame_auto. Qed.
Lemma all_exist_frame names : ok' (all_exist names).
Proof using All. induction names as [|n names IH]; cbn [all_exist]; frame_auto. Qed.
#[local] Hint Resolve reconcileEmailHookSecret_frame reconcilePowersyncAPITokenSecret_frame
  all_exist_frame : ok.
Lemma reconcilePowersyncSecrets_frame names : ok' (reconcilePowersyncSecrets names).
Proof using All. unfold reconcilePowersyncSecrets. frame_auto. Qed.
#[local] Hint Resolve reconcilePowersyncSecrets_frame : ok.
Lemma reconcileImplementationSecrets_frame : ok' reconcileImplementationSecrets.
Proof using All. unfold reconcileImplementationSecrets. frame_auto. Qed.
#[local] Hint Resolve reconcileImplementationSecrets_frame : ok.
Lemma reconcileSecrets_frame : ok' reconcileSecrets.
Proof using All.
  unfold reconcileSecrets. apply ok_get_when; [by apply (fr_provision P J HF)|]. intros p.
  unfold validate_credentials. frame_auto.
Qed.
Lemma validateRecoveryBootstrapIntent_frame : ok' validateRecoveryBootstrapIntent.
Proof using All. unfold validateRecoveryBootstrapIntent. frame_auto. Qed.
Lemma reconcileInitSQL_frame : ok' reconcileInitSQL.
Proof using All. unfold reconcileInitSQL. frame_auto. Qed.
Lemma reconcileJWKSConfigMap_frame jwks : ok' (reconcileJWKSConfigMap jwks).
Proof using All. unfold reconcileJWKSConfigMap. frame_auto. Qed.

Lemma validateS3Secret_frame ns name : ok' (validateS3Secret ns name).
Proof using All. unfold validateS3Secret. frame_auto. Qed.
Lemma failBackup_frame r e : reason_ok r = true → ok' (failBackup r e).
Proof using All. intros Hr. unfold failBackup. frame_auto. Qed.
Lemma failRecovery_frame r e : reason_ok r = true → ok' (failRecovery r e).
Proof using All. intros Hr. unfold failRecovery. frame_auto. Qed.
Lemma fail_database_frame {A} r e : reason_ok r = true → ok' (fail_database (A := A) r e).
Proof using All. intros Hr. unfold fail_database. frame_auto. Qed.
#[local] Hint Extern 1 (ok _ _ (failBackup _ _)) => by apply failBackup_frame : ok.
#[local] Hint Extern 1 (ok _ _ (failRecovery _ _)) => by apply failRecovery_frame : ok.
#[local] Hint Resolve validateS3Secret_frame : ok.
Lemma reconcileBackupInfrastructure_frame : ok' reconcileBackupInfrastructure.
Proof using All.
  unfold reconcileBackupInfrastructure, reconcileBackup, reconcileRecovery,
    cleanupBackupResources, cleanupRecoveryResources. frame_auto.
  all: eauto 4 with frame.
Qed.

Lemma reconcileErrReason_ok e : reason_ok (reconcileErrReason e) = true.
Proof. unfold reconcileErrReason. by destruct (Contains _ _). Qed.
Lemma sync_cluster_frame existing desired : ok' (sync_cluster existing desired).
Proof using All.
  pose proof reconcileErrReason_ok. unfold sync_cluster. frame_auto.
  all: by first [apply Hbase | apply fail_database_frame].
Qed.
#[local] Hint Resolve sync_cluster_frame : ok.
Lemma reconcileCNPGCluster_frame : ok' reconcileCNPGCluster.
Proof using All. unfold reconcileCNPGCluster. frame_auto. Qed.
Lemma waitForDatabase_frame : ok' waitForDatabase.
Proof using All. unfold waitForDatabase. frame_auto. Qed.
End Base.

(** ** Core services *)

(** The names of the core components after the project's. *)
Definition core_suffixes : list string := ["-auth"; "-rest"; "-studio"; "-meta"; "-api-gw"].

Section Core.
Context `{Platform} `{UrlLib} {P : policy} {J : trace → SupabaseProject → Prop}.
Context (HF : Frame P J) (Hconfig : ∀ key, may P J KConfigMap key).
Context (Hcore : ∀ p suffix, suffix ∈ core_suffixes →
  let key := in_namespace p (prj_Name p +:+ suffix) in
  may P J KDeployment key ∧ may P J KService key).
Abbreviation ok' m := (ok P J m).

Lemma set_service_status_frame f : ok' (set_service_status f).
Proof using HF. apply modify_status_frame; [done|]. by intros s. Qed.
#[local] Hint Resolve set_service_status_frame : ok.

(** A component of the project: its condition, and the keys it writes. *)
Definition component_frame (config : serviceReconcileConfig) : Prop :=
  src_conditionType config ∈ condition_types ∧ src_conditionType config ≠ ConditionTypeReady ∧
  (∀ p, may P J KDeployment (meta_key (dp_meta (src_buildDeployment config p)))) ∧
  (∀ p, may P J KService (meta_key (svc_meta (src_buildService config p)))).

Lemma component_condition config st r m (f : string → string → string → string → M unit) :
  component_frame config → st ∈ [ConditionTrue; ConditionFalse] → reason_ok r = true →
  (∀ t st r m, condition_ok t st r = true → (t = ConditionTypeReady → st = ConditionFalse) →
     ok' (f t st r m)) →
  ok' (f (src_conditionType config) st r m).
Proof using Type.
  intros (Ht & Hne & _) Hst Hr Hf. apply Hf; [|done].
  apply condition_ok_intro; [by apply bool_decide_eq_true_2..|done].
Qed.

Lemma fail_component_frame {A} config r e :
  component_frame config → reason_ok r = true → ok' (fail_component (A := A) config r e).
Proof using All.
  intros Hc Hr. unfold fail_component. frame_auto.
  apply component_condition; [done|set_solver|done|]. intros. by apply report_frame.
Qed.
#[local] Hint Extern 1 (ok _ _ (fail_component _ _ _)) => by apply fail_component_frame : ok.

Lemma reconcileServiceComponent_frame config :
  component_frame config → ok' (reconcileServiceComponent config).
Proof using All.
  intros Hc. pose proof Hc as (_ & _ & Hd & Hs). unfold reconcileServiceComponent.
  frame_auto.
  - apply createOrUpdateDeployment_frame; [done|].
    destruct (bool_decide _); [rewrite applyProjectCredentialsHash_meta|]; apply Hd.
  - apply component_condition; [done|set_solver|done|]. intros. by apply setCondition_frame.
  - apply component_condition; [done|set_solver|done|]. intros. by apply setCondition_frame.
Qed.

Lemma validateGoTrueEnvSources_frame : ok' validateGoTrueEnvSources.
Proof using All.
  unfold validateGoTrueEnvSources, validateGoTrueEnvSecretKey, validateGoTrueEnvConfigMapKey,
    validateGoTrueEnvKey. frame_auto.
Qed.
Lemma buildAuthDeployment_key :
  returns P J buildAuthDeployment
    (λ d, ∃ p, meta_key (dp_meta d) = in_namespace p (prj_Name p +:+ "-auth")).
Proof using HF.
  unfold buildAuthDeployment. apply returns_bind_get. intros p _. cbv zeta.
  returns_auto; by exists p.
Qed.
#[local] Hint Resolve validateGoTrueEnvSources_frame : ok.
#[local] Hint Resolve buildAuthDeployment_key : returns.

(** The component of this suffix. *)
Ltac component suffix :=
  split; [cbn; set_solver|]; split; [done|];
  split; intros q; destruct (Hcore q suffix ltac:(unfold core_suffixes; set_solver)) as [? ?]; assumption.

Lemma reconcileAuth_frame hash : ok' (reconcileAuth hash).
Proof using All.
  unfold reconcileAuth, failAuthGoTrueEnv. apply ok_bind; [frame_auto|]. intros _.
  eapply ok_bind_returns; [apply buildAuthDeployment_key|]. intros d [p Hd].
  apply reconcileServiceComponent_frame.
  split; [cbn; set_solver|]. split; [done|].
  assert (Hauth : "-auth" ∈ core_suffixes) by (unfold core_suffixes; set_solver).
  split; intros q; [|by apply (Hcore q "-auth")].
  cbn. rewrite Hd. by apply (Hcore p "-auth").
Qed.
Lemma reconcileRest_frame hash : ok' (reconcileRest hash).
Proof using All. apply reconcileServiceComponent_frame. component "-rest". Qed.
Lemma reconcileStudio_frame hash : ok' (reconcileStudio hash).
Proof using All. apply reconcileServiceComponent_frame. component "-studio". Qed.
Lemma reconcileMeta_frame : ok' reconcileMeta.
Proof using All. apply reconcileServiceComponent_frame. component "-meta". Qed.
Lemma reconcileGateway_frame hash : ok' (reconcileGateway hash).
Proof using All.
  unfold reconcileGateway. frame_auto.
  apply reconcileServiceComponent_frame. component "-api-gw".
Qed.
#[local] Hint Resolve reconcileAuth_frame reconcileRest_frame reconcileStudio_frame
  reconcileMeta_frame reconcileGateway_frame : ok.

(** Ready goes false whenever the phase goes back to Provisioning. *)
Lemma ok_demote {B} r m (rest : M B) :
  reason_ok r = true → ok' rest →
  ok' (_ ← set_phase PhaseProvisioning; _ ← setCondition ConditionTypeReady ConditionFalse r m; rest).
Proof using HF.
  intros Hr Hrest h s Hs. pose proof (frame_permissive HF) as HP.
  unfold mbind, M_bind. cbn. split; [by apply (permissive_read P J HP)|]. intros now _. cbn.
  apply Hrest. apply (fr_demote P J HF _ s r m now Hr). by apply (permissive_extend P J HP).
Qed.

Lemma failCoreServices_frame e : ok' (failCoreServices e).
Proof using All. unfold failCoreServices. apply ok_demote; [done|]. frame_auto. Qed.
Lemma demote_report_frame b r m :
  reason_ok r = true →
  ok' (when b (_ ← set_phase PhaseProvisioning; report ConditionTypeReady ConditionFalse r m)).
Proof using HF.
  intros Hr. apply ok_when. unfold report. apply ok_demote; [done|].
  by apply updateProjectStatus_ok, frame_permissive.
Qed.
#[local] Hint Extern 1 (ok _ _ (when _ _)) => by apply demote_report_frame : ok.
#[local] Hint Resolve failCoreServices_frame : ok.
Lemma reconcileServices_frame credentials : ok' (reconcileServices credentials).
Proof using All.
  unfold reconcileServices. frame_auto.
Qed.
End Core.

(** ** PowerSync *)

Section PowerSync.
Context `{Platform} `{UrlLib} {P : policy} {J : trace → SupabaseProject → Prop}.
Context (HF : Frame P J).
Abbreviation ok' m := (ok P J m).

Lemma powersync_spec_frame : ok' powersync_spec.
Proof using HF. unfold powersync_spec. frame_auto. Qed.
#[local] Hint Resolve powersync_spec_frame : ok.
Lemma reconcilePowerSyncRulesValidation_frame : ok' reconcilePowerSyncRulesValidation.
Proof using HF.
  unfold reconcilePowerSyncRulesValidation, loadAndValidatePowerSyncRules. frame_auto.
Qed.
Lemma waitForPowerSyncManagedRoles_frame : ok' waitForPowerSyncManagedRoles.
Proof using HF. unfold waitForPowerSyncManagedRoles. frame_auto. Qed.

Lemma reconcilePowerSyncPublication_frame :
  (∀ key, may P J KPublication key) → ok' reconcilePowerSyncPublication.
Proof using HF.
  intros Hp. unfold reconcilePowerSyncPublication, publication_pending. frame_auto; apply Hp.
Qed.
Lemma reconcileCDCPermissions_frame :
  (∀ key, may P J KConfigMap key) → (∀ key, may P J KJob key) → ok' reconcileCDCPermissions.
Proof using HF. intros Hc Hj. unfold reconcileCDCPermissions. frame_auto. Qed.

Lemma powersync_failed_frame r e : reason_ok r = true → ok' (powersync_failed r e).
Proof using HF. intros Hr. unfold powersync_failed. frame_auto. Qed.
#[local] Hint Extern 1 (ok _ _ (powersync_failed _ _)) => by apply powersync_failed_frame : ok.
Lemma reconcilePowersync_frame content :
  (∀ k key, k ∈ [KConfigMap; KDeployment; KService; KCronJob] → may P J k key) →
  ok' (reconcilePowersync content).
Proof using HF.
  intros Hm. unfold reconcilePowersync, cleanupPowerSyncCompact.
  assert (∀ key, may P J KConfigMap key) by (intros; apply Hm; set_solver).
  assert (∀ key, may P J KDeployment key) by (intros; apply Hm; set_solver).
  assert (∀ key, may P J KService key) by (intros; apply Hm; set_solver).
  assert (∀ key, may P J KCronJob key) by (intros; apply Hm; set_solver).
  frame_auto.
Qed.
Lemma cleanupPowerSync_frame : ok' cleanupPowerSync.
Proof using HF.
  unfold cleanupPowerSync. frame_auto. apply ok_modify. intros h s Hs.
  assert (Hf : lifecycle_free (λ st, st <| sts_Services ::= (λ sv, sv
    <| sv_PowersyncAPI := no_service_status |> <| sv_PowersyncReplication := no_service_status |>) |>))
    by by intros st.
  pose proof (fr_remove P J HF h _ ConditionTypePowersyncReady ltac:(done)
    (fr_remove P J HF h _ ConditionTypeCDCReady ltac:(done) (fr_status P J HF h s _ Hf Hs))) as Hr.
  exact Hr.
Qed.

Lemma complete_frame : ok' complete.
Proof using HF.
  unfold complete, report. intros h s Hs. pose proof (frame_permissive HF) as HP.
  unfold mbind at 1 2 3, M_bind at 1 2 3. cbn. split; [by apply (permissive_read P J HP)|].
  intros now _. cbn. apply safe_bind. eapply safe_mono; [|apply (updateProjectStatus_ok HP)].
  - by intros h' [s' [e|a]] _.
  - apply (fr_complete P J HF); [done|]. by apply (permissive_extend P J HP).
Qed.
End PowerSync.

#[export] Hint Resolve reconcileDurableMetadataProtection_frame reconcileSecrets_frame
  validateRecoveryBootstrapIntent_frame reconcileInitSQL_frame reconcileJWKSConfigMap_frame
  reconcileBackupInfrastructure_frame reconcileCNPGCluster_frame waitForDatabase_frame
  reconcileServices_frame reconcilePowerSyncRulesValidation_frame
  waitForPowerSyncManagedRoles_frame reconcilePowerSyncPublication_frame
  reconcileCDCPermissions_frame reconcilePowersync_frame cleanupPowerSync_frame
  complete_frame : frame.
