(* ===== verification/Discipline.v ===== *)
(** * The write discipline of a reconciliation

    Every function of the controller obeys [write_ok], phase by phase, up to
    the whole of [reconcileProject]. *)

From S2P Require Import Prelude KubeTypes Types Platform Effects Common ConfigMaps Cnpg Encoding Sha256 Crypto Secrets Deployments Services ObjectSync ClusterSync Store Provisioning Database CoreServices PowerSync Reconciler Safety.

Section Phases.
Context `{PlatformLaws} `{CryptoLib} `{UrlLib} {owner : ObjectMeta} {P : policy}
  {J : trace → SupabaseProject → Prop}.
Context (Hname : om_Name owner ≠ "") (HG : allows_discipline owner P).
Context (HP : permissive P J) (HS : status_free J) (HM : knows_meta owner J).

Abbreviation ok' m := (ok P J m).

#[local] Hint Resolve createOrUpdateSecret_ok createOrUpdateConfigMap_ok
  createOrUpdateDeployment_ok createOrUpdateService_ok createOrUpdateCronJob_ok
  createOrCheckJob_ok deploymentStatus_ok : ok.

Lemma modify_status_ok f : ok' (modify_status f).
Proof using HS. apply ok_modify. intros h s. apply HS. Qed.
Lemma set_phase_ok f : ok' (set_phase f).
Proof using All. apply modify_status_ok. Qed.
#[local] Hint Resolve modify_status_ok set_phase_ok : ok.

(** A project read by the controller carries the owner's metadata. *)
Lemma read_meta p : (∃ h : trace, J h p) → prj_meta p = owner.
Proof using HM. intros [h Hp]. by eapply HM. Qed.
Lemma read_namespace p : (∃ h : trace, J h p) → prj_Namespace p = om_Namespace owner.
Proof using All. intros Hp. unfold prj_Namespace. by rewrite (read_meta p Hp). Qed.
Lemma read_name p : (∃ h : trace, J h p) → prj_Name p = om_Name owner.
Proof using All. intros Hp. unfold prj_Name. by rewrite (read_meta p Hp). Qed.
#[local] Hint Resolve read_namespace read_name : ok.

(** A lookup whose object is only inspected. *)
Lemma lookup_object_ok k key wrap : ok' (lookup_object k key wrap).
Proof using All. unfold lookup_object. ok_auto. Qed.
#[local] Hint Extern 1 (ok _ _ (lookup_object _ _ _)) => apply lookup_object_ok : ok.

(** ** Provisioning *)

Definition own_secret (s : Secret) : Prop := child owner KSecret (meta_key (sec_meta s)).

(** The key of what is written. *)
Ltac own_key :=
  cbn beta in *; unfold own_secret;
  first [ assumption
        | match goal with
          | HF : Forall own_secret ?l, Hx : ?x ∈ ?l |- _ =>
              exact (proj1 (Forall_forall own_secret l) HF x Hx)
          | Hp : ∃ h : trace, J h ?p |- _ => pose proof (read_meta p Hp); suffix_child
          end ].
#[local] Hint Extern 2 (child _ _ _) => own_key : ok.
#[local] Hint Extern 2 (child_name _ _ _) => own_key : ok.

Lemma reconcileDurableMetadataProtection_ok : ok' reconcileDurableMetadataProtection.
Proof using All.
  unfold reconcileDurableMetadataProtection. ok_step. ok_step.
  match goal with Hx : ?d ∈ ?l |- _ =>
    assert (Hall : Forall (λ d, durable d.1 = true ∧ child_name owner d.1 d.2) l)
      by (repeat constructor; own_key);
    apply (proj1 (Forall_forall _ _) Hall) in Hx as [??] end.
  eapply protect_durable_ok; eauto with ok.
Qed.

Lemma generateRoleSecret_returns p suffix username :
  (∃ h : trace, J h p) → "-" +:+ suffix +:+ "-password" ∈ suffixes KSecret →
  returns P J (generateRoleSecret p suffix username) (λ o, own_secret o.1).
Proof using All. intros Hp Hs. unfold generateRoleSecret. returns_auto. own_key. Qed.
Lemma GenerateGoTrueFallbackSecret_returns p :
  (∃ h : trace, J h p) →
  returns P J (GenerateGoTrueFallbackSecret p) (λ o, own_secret o.1).
Proof using All. intros Hp. unfold GenerateGoTrueFallbackSecret. returns_auto. own_key. Qed.
Lemma GenerateEmailHookSecret_returns p :
  (∃ h : trace, J h p) →
  returns P J (GenerateEmailHookSecret p) (λ o, own_secret o.1).
Proof using All. intros Hp. unfold GenerateEmailHookSecret. returns_auto. own_key. Qed.
Lemma GeneratePowersyncAPITokenSecret_returns p :
  (∃ h : trace, J h p) →
  returns P J (GeneratePowersyncAPITokenSecret p) own_secret.
Proof using All. intros Hp. unfold GeneratePowersyncAPITokenSecret. returns_auto. own_key. Qed.
#[local] Hint Extern 2 (_ ∈ suffixes _) => is_suffix : ok.
#[local] Hint Resolve generateRoleSecret_returns GenerateGoTrueFallbackSecret_returns
  GenerateEmailHookSecret_returns GeneratePowersyncAPITokenSecret_returns : returns.

Lemma GenerateSecrets_returns p :
  (∃ h : trace, J h p) →
  returns P J (GenerateSecrets p) (λ o, Forall own_secret o.1).
Proof using All. intros Hp. unfold GenerateSecrets. returns_auto. by repeat apply List.Forall_cons. Qed.
Lemma GeneratePowersyncSecrets_returns p :
  (∃ h : trace, J h p) →
  returns P J (GeneratePowersyncSecrets p) (Forall own_secret).
Proof using All. intros Hp. unfold GeneratePowersyncSecrets. returns_auto. by repeat apply List.Forall_cons. Qed.
#[local] Hint Resolve GenerateSecrets_returns GeneratePowersyncSecrets_returns : returns.

Lemma reconcileEmailHookSecret_ok : ok' reconcileEmailHookSecret.
Proof using All. unfold reconcileEmailHookSecret, failEmailHookSecret. ok_auto. Qed.

Lemma reconcilePowersyncAPITokenSecret_ok : ok' reconcilePowersyncAPITokenSecret.
Proof using All. unfold reconcilePowersyncAPITokenSecret. ok_auto. Qed.

Lemma all_exist_ok names : ok' (all_exist names).
Proof using All. induction names as [|n names IH]; cbn [all_exist]; ok_auto. Qed.
#[local] Hint Resolve reconcileEmailHookSecret_ok reconcilePowersyncAPITokenSecret_ok
  all_exist_ok : ok.

Lemma reconcilePowersyncSecrets_ok names : ok' (reconcilePowersyncSecrets names).
Proof using All.
  unfold reconcilePowersyncSecrets. ok_step. destruct (PowersyncSecretNames p). ok_auto.
Qed.
#[local] Hint Resolve reconcilePowersyncSecrets_ok : ok.

Lemma reconcileImplementationSecrets_ok : ok' reconcileImplementationSecrets.
Proof using All. unfold reconcileImplementationSecrets. ok_auto. Qed.
#[local] Hint Resolve reconcileImplementationSecrets_ok : ok.

Lemma reconcileSecrets_ok : ok' reconcileSecrets.
Proof using All.
  unfold reconcileSecrets, failReconcileSecrets, validate_credentials. ok_auto.
Qed.
Lemma validateRecoveryBootstrapIntent_ok : ok' validateRecoveryBootstrapIntent.
Proof using All. unfold validateRecoveryBootstrapIntent. ok_auto. Qed.
Lemma reconcileInitSQL_ok : ok' reconcileInitSQL.
Proof using All. unfold reconcileInitSQL. ok_auto. Qed.
Lemma reconcileJWKSConfigMap_ok jwks : ok' (reconcileJWKSConfigMap jwks).
Proof using All. unfold reconcileJWKSConfigMap. ok_auto. Qed.

(** ** Database *)

Lemma BuildObjectStore_fresh p o :
  (∃ h : trace, J h p) → BuildObjectStore p = Some o → fresh_durable (owner := owner) (k := KObjectStore) o.
Proof using All.
  intros Hp. unfold BuildObjectStore. destruct (backup_enabled p); [|done]. intros [= <-].
  split_and!; [own_key|done|by apply read_name].
Qed.
Lemma BuildRecoveryObjectStore_fresh p o :
  (∃ h : trace, J h p) → BuildRecoveryObjectStore p = Some o →
  fresh_durable (owner := owner) (k := KObjectStore) o.
Proof using All.
  intros Hp. unfold BuildRecoveryObjectStore. destruct (recovery_enabled p); [|done].
  intros [= <-]. split_and!; [own_key|done|by apply read_name].
Qed.
Lemma BuildScheduledBackup_fresh p o :
  (∃ h : trace, J h p) → BuildScheduledBackup p = Some o →
  fresh_durable (owner := owner) (k := KScheduledBackup) o.
Proof using All.
  intros Hp. unfold BuildScheduledBackup. destruct (backup_enabled p); [|done].
  intros [= <-]. split_and!; [own_key|done|by apply read_name].
Qed.
Lemma BuildCluster_fresh p sn :
  (∃ h : trace, J h p) →
  fresh_durable (owner := owner) (k := KCluster) (ClusterDefault (BuildCluster p sn)).
Proof using All.
  intros Hp. unfold fresh_durable, instance_of, obj_key. cbn [obj_meta]. rewrite ClusterDefault_meta.
  split_and!; [own_key|done|by apply read_name].
Qed.
#[local] Hint Resolve createOrUpdateObjectStore_ok createOrUpdateScheduledBackup_ok
  BuildObjectStore_fresh BuildRecoveryObjectStore_fresh BuildScheduledBackup_fresh : ok.

Lemma validateS3Secret_ok ns name : ok' (validateS3Secret ns name).
Proof using All. unfold validateS3Secret. ok_auto. Qed.
Lemma delete_object_store_ok what name :
  child_name owner KObjectStore name → ok' (delete_durable KObjectStore what name).
Proof using All. intros Hn. eapply delete_durable_ok; eauto with ok. Qed.
Lemma delete_scheduled_backup_ok what name :
  child_name owner KScheduledBackup name → ok' (delete_durable KScheduledBackup what name).
Proof using All. intros Hn. eapply delete_durable_ok; eauto with ok. Qed.
#[local] Hint Resolve validateS3Secret_ok delete_object_store_ok delete_scheduled_backup_ok : ok.

Lemma reconcileBackupInfrastructure_ok : ok' reconcileBackupInfrastructure.
Proof using All.
  unfold reconcileBackupInfrastructure, reconcileBackup, reconcileRecovery,
    cleanupBackupResources, cleanupRecoveryResources, remove_condition, failBackup, failRecovery.
  ok_auto. all: eauto 6 with ok.
Qed.
(** ** Cluster *)

(** The metadata written back to an existing cluster. *)
Lemma cluster_update_ok key existing (d : gmap string string) spec :
  map_get (om_Labels (cl_meta existing)) LabelInstance = om_Name owner →
  map_get d LabelInstance = om_Name owner →
  cs_Bootstrap spec = cs_Bootstrap (cl_Spec existing) →
  cs_ExternalClusters spec = cs_ExternalClusters (cl_Spec existing) →
  let m := (mergeLabels (removeSupabaseProjectOwnerReference (cl_meta existing)
              (om_Name owner)).1 d).1 in
  ∀ h, child owner KCluster key → fetched (k := KCluster) h key existing →
    write_ok owner h (Update KCluster (existing <| cl_meta := m |> <| cl_Spec := spec |>)).
Proof using Hname.
  intros Hl Hd Hb He m h Hk Hf. exists key, existing. split; [done|]. split; [done|]. split; [|split_and!; try done].
  - unfold obj_key. cbn. destruct (removeSupabaseProjectOwnerReference_key (cl_meta existing)
      (om_Name owner)) as [<- _]. done.
  - exact (merged_instance (cl_meta existing) d Hl Hd).
  - by eapply disowned_remove.
Qed.

Lemma sync_cluster_ok key existing desired :
  child owner KCluster key → instance_of (k := KCluster) desired = om_Name owner →
  ok P (with_fetched J (k := KCluster) key existing) (sync_cluster existing desired).
Proof using All.
  intros Hkey Hinst.
  unfold sync_cluster, fail_database. ok_step.
  assert (Hmeta : prj_meta p = owner) by (by destruct H3 as (h & [Hp _]); eapply HM).
  cbv zeta. case_match eqn:Hl; [auto with ok|]. change (prj_Name p) with (om_Name (prj_meta p)) in *.
  rewrite Hmeta in *. apply bool_decide_eq_false in Hl. apply dec_stable in Hl.
  do 2 ok_store_step.
  assert (Hup : ∀ c w, ok P (with_fetched J (k := KCluster) key existing)
    (when c (map_error (update_ (k := KCluster) (existing <| cl_meta :=
       (mergeLabels (removeSupabaseProjectOwnerReference (cl_meta existing) (om_Name owner)).1
          (om_Labels (cl_meta desired))).1 |>)) w))).
  { intros c w. do 2 ok_step. ok_store_step.
    match goal with Hx : with_fetched _ _ _ _ _ |- _ => destruct Hx as [_ Hx];
      pose proof (cluster_update_ok key existing (om_Labels (cl_meta desired)) (cl_Spec existing)
        Hl Hinst eq_refl eq_refl _ Hkey Hx) as Hok end.
    apply HG. by destruct existing. }
  assert (Hrep : ∀ t st r m, ok P (with_fetched J (k := KCluster) key existing)
    (report t st r m)).
  { intros. apply report_ok; [by apply permissive_with_fetched|].
    by apply with_fetched_condition_free, status_condition_free. }
  ok_step; [ok_step; [apply Hup | ok_step; auto with ok]|].
  destruct (reconcileClusterMutableFields _ _) as [spec r] eqn:Hr.
  destruct r as [e|c]; [ok_step; [apply Hup | ok_step; auto with ok]|].
  ok_step; [|auto with ok]. ok_step; [|auto with ok]. ok_step. ok_store_step.
  match goal with Hx : with_fetched _ _ _ _ _ |- _ => destruct Hx as [_ Hx] end.
  apply HG, (cluster_update_ok key); try done.
  all: rewrite reconcileClusterMutableFields_synced in Hr.
  all: destruct (reconcileStorage _ _) as [st [?|?]]; simplify_eq; done.
Qed.

Lemma reconcileCNPGCluster_ok : ok' reconcileCNPGCluster.
Proof using All.
  unfold reconcileCNPGCluster. ok_step. cbv zeta. ok_store_step.
  - ok_step; [|ok_auto]. ok_step; [|ok_auto]. ok_store_step.
    apply HG. apply (BuildCluster_fresh p (secret_names p)) in H3 as (? & ? & ?). by split.
  - destruct (BuildCluster_fresh p (secret_names p) ltac:(assumption)) as (? & ? & ?).
    by apply sync_cluster_ok.
Qed.

Lemma waitForDatabase_ok : ok' waitForDatabase.
Proof using All. unfold waitForDatabase. ok_auto. Qed.
#[local] Hint Resolve reconcileDurableMetadataProtection_ok reconcileSecrets_ok
  validateRecoveryBootstrapIntent_ok reconcileInitSQL_ok reconcileJWKSConfigMap_ok
  reconcileBackupInfrastructure_ok reconcileCNPGCluster_ok waitForDatabase_ok : ok.

(** ** Core services *)

(** The builders of a component name their objects after the project. *)
Definition local_builders (config : serviceReconcileConfig) : Prop :=
  ∀ p, (∃ h : trace, J h p) →
    child owner KDeployment (meta_key (dp_meta (src_buildDeployment config p))) ∧
    child owner KService (meta_key (svc_meta (src_buildService config p))).

Lemma reconcileServiceComponent_ok config :
  local_builders config → ok' (reconcileServiceComponent config).
Proof using All.
  intros Hb. unfold reconcileServiceComponent, fail_component, set_service_status.
  ok_step. cbv zeta. 
  destruct (Hb p ltac:(assumption)) as [Hd _].
  set (d := if bool_decide _ then _ else _).
  assert (child owner KDeployment (meta_key (dp_meta d))).
  { subst d. destruct (bool_decide _); [by rewrite applyProjectCredentialsHash_meta|done]. }
  ok_step; [ok_auto|]. ok_step.
  match goal with Hx : ∃ h : trace, J h ?q |- ok' (catch (createOrUpdateService _) _ ≫= _) =>
    destruct (Hb q Hx) as [_ Hs] end.
  ok_auto.
Qed.

Lemma validateGoTrueEnvSources_ok : ok' validateGoTrueEnvSources.
Proof using All.
  unfold validateGoTrueEnvSources, validateGoTrueEnvSecretKey, validateGoTrueEnvConfigMapKey,
    validateGoTrueEnvKey. ok_auto.
Qed.
(** The email-hook annotation goes to the pod template. *)
Lemma buildAuthDeployment_returns :
  returns P J buildAuthDeployment
    (λ d, meta_key (dp_meta d) =
      {| nn_Namespace := om_Namespace owner; nn_Name := om_Name owner +:+ "-auth" |}).
Proof using All.
  unfold buildAuthDeployment. apply returns_bind_get. intros p Hp. cbv zeta.
  apply read_meta in Hp as <-. returns_auto; done.
Qed.
#[local] Hint Resolve validateGoTrueEnvSources_ok reconcileServiceComponent_ok : ok.
#[local] Hint Resolve buildAuthDeployment_returns : returns.

Lemma reconcileAuth_ok hash : ok' (reconcileAuth hash).
Proof using All.
  unfold reconcileAuth, failAuthGoTrueEnv, set_service_status. ok_auto.
  apply reconcileServiceComponent_ok. intros p Hp. split; [|own_key].
  cbn beta in *. match goal with Hd : meta_key (dp_meta ?d) = _ |- _ =>
    change (child owner KDeployment (meta_key (dp_meta d))); rewrite Hd end.
  split; [done|]. exists "-auth". split; [is_suffix|done].
Qed.
Ltac local_component :=
  apply reconcileServiceComponent_ok; intros ? ?; split; own_key.
Lemma reconcileRest_ok hash : ok' (reconcileRest hash).
Proof using All. local_component. Qed.
Lemma reconcileStudio_ok hash : ok' (reconcileStudio hash).
Proof using All. local_component. Qed.
Lemma reconcileMeta_ok : ok' reconcileMeta.
Proof using All. local_component. Qed.
Lemma reconcileGateway_ok hash : ok' (reconcileGateway hash).
Proof using All.
  unfold reconcileGateway, set_service_status. ok_auto. local_component.
Qed.
#[local] Hint Resolve reconcileAuth_ok reconcileRest_ok reconcileStudio_ok reconcileMeta_ok
  reconcileGateway_ok : ok.

Lemma reconcileServices_ok credentials : ok' (reconcileServices credentials).
Proof using All. unfold reconcileServices, failCoreServices. ok_auto. Qed.
#[local] Hint Resolve reconcileServices_ok : ok.

(** ** PowerSync *)

Lemma reconcilePowerSyncRulesValidation_ok : ok' reconcilePowerSyncRulesValidation.
Proof using All.
  unfold reconcilePowerSyncRulesValidation, loadAndValidatePowerSyncRules, powersync_spec.
  ok_auto.
Qed.
Lemma waitForPowerSyncManagedRoles_ok : ok' waitForPowerSyncManagedRoles.
Proof using All. unfold waitForPowerSyncManagedRoles. ok_auto. Qed.

Lemma reconcilePowerSyncPublication_ok : ok' reconcilePowerSyncPublication.
Proof using All.
  unfold reconcilePowerSyncPublication, publication_pending. ok_step. ok_step.
  match goal with Hx : BuildPowerSyncPublication _ = inr ?d |- _ => rename d into desired;
    assert (child owner KPublication (meta_key (pb_meta desired)))
      by (unfold BuildPowerSyncPublication in Hx; destruct (EffectivePublicationSchemas p);
          [done|injection Hx as <-; own_key]) end.
  ok_store_step.
  - ok_store_step. ok_step; [|ok_auto]. ok_store_step. apply HG. split; [done|]. cbn [durable].
    match goal with Hr : SetControllerReference (prj_meta ?q) _ = inr _, Hq : _ |- _ =>
      by apply (claims owner q _ _ _ (read_meta q Hq) Hr) end.
  - case_match eqn:Hl; [auto with ok|]. cbv zeta. 
    set (updated := if negb _ then _ else (o : Publication)).
    assert (Hupd : pb_meta updated = pb_meta o) by (subst updated; by destruct (negb _)).
    clearbody updated. ok_store_step. ok_store_step.
    assert (Hrep : ∀ t st r m, ok P (with_fetched J (k := KPublication) (meta_key (pb_meta desired)) o)
      (report t st r m)).
    { intros. apply report_ok; [by apply permissive_with_fetched|].
      by apply with_fetched_condition_free, status_condition_free. }
    match goal with Hr : SetControllerReference (prj_meta ?q) _ = inr _,
        Hq : ∃ h : trace, with_fetched _ _ _ h ?q |- _ =>
      destruct Hq as [? [Hq _]];
      pose proof (λ m', claims owner q _ _ m' (HM _ _ Hq) Hr) as Hclaims end.
    ok_step; [|ok_step; [ok_step; auto with ok|auto with ok]].
    ok_step; [|auto with ok]. ok_step. ok_store_step.
    match goal with Hx : with_fetched _ _ _ _ _ |- _ => destruct Hx as [_ Hx] end.
    apply HG. eexists _, o. split; [eassumption|]. split; [eassumption|]. split; [|split; [|by apply Hclaims]].
    + unfold obj_key, meta_key. cbn. by rewrite Hupd.
    + exact (instance_label owner p (pb_meta o) (read_meta p ltac:(assumption)) Hl).
Qed.
#[local] Hint Resolve reconcilePowerSyncRulesValidation_ok waitForPowerSyncManagedRoles_ok
  reconcilePowerSyncPublication_ok : ok.

Lemma BuildCDCMigrationsConfigMap_child p cm :
  (∃ h : trace, J h p) → BuildCDCMigrationsConfigMap p = inr cm →
  child owner KConfigMap (meta_key (cm_meta cm)).
Proof using All.
  intros Hp. unfold BuildCDCMigrationsConfigMap. destruct (buildCDCSetupScript p); [done|].
  intros [= <-]. own_key.
Qed.
Lemma BuildPowersyncSyncRulesConfigMap_child p ps cm :
  (∃ h : trace, J h p) → BuildPowersyncSyncRulesConfigMap p ps = Some cm →
  child owner KConfigMap (meta_key (cm_meta cm)).
Proof using All.
  intros Hp. unfold BuildPowersyncSyncRulesConfigMap. do 2 (case_match; [done|]).
  intros [= <-]. own_key.
Qed.
Lemma BuildPowersyncCompactCronJob_child p ps sn cj :
  (∃ h : trace, J h p) → BuildPowersyncCompactCronJob p ps sn = Some cj →
  child owner KCronJob (meta_key (cj_meta cj)).
Proof using All.
  intros Hp. unfold BuildPowersyncCompactCronJob. case_match; [done|].
  intros [= <-]. own_key.
Qed.
#[local] Hint Resolve BuildCDCMigrationsConfigMap_child
  BuildPowersyncSyncRulesConfigMap_child BuildPowersyncCompactCronJob_child : ok.

Lemma reconcileCDCPermissions_ok : ok' reconcileCDCPermissions.
Proof using All. unfold reconcileCDCPermissions. ok_auto. Qed.

Lemma deletePowerSync_ok k name :
  k ∈ [KDeployment; KService; KConfigMap; KJob; KCronJob; KPublication] →
  child_name owner k name → ok' (deletePowerSyncOwnedResource k name).
Proof using All. intros Hk Hn. eapply deletePowerSyncOwnedResource_ok; eauto with ok. Qed.

Lemma reconcilePowersync_ok content : ok' (reconcilePowersync content).
Proof using All.
  unfold reconcilePowersync, powersync_spec, powersync_failed, cleanupPowerSyncCompact.
  ok_auto. apply deletePowerSync_ok; [set_solver|own_key].
Qed.

Lemma cleanupPowerSync_ok : ok' cleanupPowerSync.
Proof using All.
  unfold cleanupPowerSync. ok_auto.
  assert (Hall : Forall (λ r, r.1 ∈ [KDeployment; KService; KConfigMap; KJob; KCronJob;
    KPublication] ∧ child_name owner r.1 r.2) (powersync_resources p))
    by (repeat constructor; cbn [fst snd]; first [set_solver | own_key]).
  match goal with Hx : _ ∈ powersync_resources _ |- _ =>
    apply (proj1 (Forall_forall _ _) Hall) in Hx as [??]; by apply deletePowerSync_ok end.
Qed.
#[local] Hint Resolve reconcileCDCPermissions_ok reconcilePowersync_ok cleanupPowerSync_ok : ok.

(** ** The whole reconciliation *)

Lemma reconcileProject_ok : ok' reconcileProject.
Proof using All.
  unfold reconcileProject, or_requeue, reconcileWorkloads, reconcilePowerSyncPhase, complete,
    or_requeue.
  ok_auto.
Qed.
End Phases.

(** C1: the write discipline.  Whatever the server answers (it only has to
    store the metadata it is sent), every request of a reconciliation of a
    named project
    - creates only children of the project (in its namespace, named by its name
      and one of the suffixes of the kind), controlled by the project through
      a reference that names it, or, for the durable Cluster, ObjectStore and
      ScheduledBackup, without any owner and with the project's instance label;
    - updates only an object the server returned earlier in the same
      reconciliation for the key of a child; never the data of a Secret, the
      bootstrap section of a Cluster, an adopted ConfigMap, Job, Publication
      or durable object of another instance; it claims what it owns and leaves
      durable objects with their label and without owner references to the
      project;
    - deletes only an object it fetched as a child that the project controls or that
      carries its instance label, and never a Cluster or a Secret;
    - writes the status of the project itself. *)
Theorem reconcileProject_discipline `{PlatformLaws} `{CryptoLib} `{UrlLib} project tr p r :
  prj_Name project ≠ "" →
  runs (reconcileProject project) tr (p, r) →
  relies (discipline (prj_meta project)) tr →
  (∀ tr1 e tr2, tr = tr1 ++ e :: tr2 → write_ok (prj_meta project) tr1 (ev_req e)) ∧
  prj_meta p = prj_meta project.
Proof.
  intros Hname Hruns Hrely.
  pose proof (reconcileProject_ok (P := discipline (prj_meta project))
    (J := same_meta (prj_meta project)) Hname (λ h r Hw, Hw)
    (same_meta_permissive _) (λ h s f Hs, Hs) (same_meta_knows _) [] project eq_refl) as Hs.
  by apply (safe_sound _ _ _ _ _ _ Hs Hruns Hrely).
Qed.
