(* ===== verification/Gate.v ===== *)
(** * The credential gate

    Until the project's credential Secret has been fetched and validated in
    the current reconciliation, no child resource is created, changed or
    deleted: only owner references of durable objects may be repaired. *)

From S2P Require Import Prelude KubeTypes Types Platform Effects Common ConfigMaps Cnpg Encoding Sha256 Crypto Secrets Deployments Services ObjectSync ClusterSync Store Provisioning Database CoreServices PowerSync Reconciler Safety.

Section Gate.
Context `{Platform} `{CryptoLib} `{UrlLib} (project : SupabaseProject).

(** The history holds a successful validation of the project's bundle. *)
Definition credentials_validated (h : trace) : Prop :=
  ∃ secret now1 now2 creds,
    Ev (Get KSecret (in_namespace project (sps_ProjectCredentialsSecret (prj_Spec project))))
       (inr secret) ∈ h ∧
    Ev Now now1 ∈ h ∧ Ev Now now2 ∈ h ∧
    ValidateProjectCredentials now1 now2 (Some secret) = inr creds.

(** [new] is a durable object the server returned, less its owner references
    to the project. *)
Definition owner_repair (h : trace) (k : kind) (new : object k) : Prop :=
  durable k = true ∧
  ∃ key old, fetched h key old ∧ instance_of old = prj_Name project ∧
    new = set_meta (removeSupabaseProjectOwnerReference (obj_meta old) (prj_Name project)).1 old.

Definition gated (h : trace) (r : request) : Prop :=
  match r with
  | Get _ _ | ListProjects _ | Now | RandRead _ | StatusUpdate _ => True
  | Update k new => owner_repair h k new ∨ credentials_validated h
  | Create _ _ | Delete _ _ _ => credentials_validated h
  end.

(** The server's copy of the project keeps its metadata and its spec. *)
Definition keeps_spec (r : request) (v : response r) : Prop :=
  match r return response r → Prop with
  | StatusUpdate p => λ v,
      match v with
      | inr p' => prj_meta p' = prj_meta p ∧ prj_Spec p' = prj_Spec p
      | inl _ => True
      end
  | _ => λ _, True
  end v.

Definition gate : policy := {| rely := keeps_spec; guarantee := gated |}.

Definition same_spec : trace → SupabaseProject → Prop := λ _ s,
  prj_meta s = prj_meta project ∧ prj_Spec s = prj_Spec project.

Abbreviation ok' m := (ok gate same_spec m).

Lemma same_spec_permissive : permissive gate same_spec.
Proof.
  split; try done.
  - by intros h [] ?.
  - intros h s s' [Hm Hs] [Hm' Hs']. split; congruence.
Qed.
Lemma same_spec_condition_free : condition_free (J := same_spec).
Proof. by intros h s f [??]. Qed.
#[local] Hint Resolve same_spec_permissive same_spec_condition_free : ok.

Lemma set_phase_gate phase : ok' (set_phase phase).
Proof. apply ok_modify. by intros h s [??]. Qed.
#[local] Hint Resolve set_phase_gate : ok.

Lemma protect_durable_gate k name : durable k = true → ok' (protect_durable k name).
Proof.
  intros Hk. unfold protect_durable. ok_step. cbv zeta. ok_store_step; [auto with ok|].
  match goal with Hp : ∃ h : trace, same_spec h ?q |- _ => destruct Hp as (? & Hm & _) end.
  case_match eqn:Hl; [auto with ok|]. ok_store_step. case_match; [auto with ok|].
  ok_step. ok_store_step. left. split; [done|].
  match goal with Hx : with_fetched _ ?key o _ _ |- _ => exists key, o; destruct Hx as [_ Hx] end.
  apply bool_decide_eq_false in Hl. apply dec_stable in Hl.
  unfold instance_of, prj_Name in *. rewrite Hm in *. by split_and!.
Qed.

Lemma reconcileDurableMetadataProtection_gate : ok' reconcileDurableMetadataProtection.
Proof.
  unfold reconcileDurableMetadataProtection. do 2 ok_step. apply protect_durable_gate.
  assert (Hall : Forall (λ d, durable d.1 = true) [(KCluster, ClusterName p);
    (KObjectStore, ObjectStoreName p); (KObjectStore, RecoveryObjectStoreName p);
    (KScheduledBackup, ScheduledBackupName p)]) by repeat constructor.
  by eapply (proj1 (Forall_forall _ _) Hall).
Qed.

Lemma failReconcileSecrets_gate {A} reason message err :
  ok' (failReconcileSecrets (A := A) reason message err).
Proof. unfold failReconcileSecrets. ok_auto. Qed.
#[local] Hint Resolve reconcileDurableMetadataProtection_gate failReconcileSecrets_gate : ok.

(** Past the gate everything is allowed. *)
Lemma validated_extend h h' : credentials_validated h → credentials_validated (h ++ h').
Proof.
  intros (secret & now1 & now2 & creds & ? & ? & ? & ?). exists secret, now1, now2, creds.
  split_and!; try done; apply elem_of_app; by left.
Qed.
Lemma past_gate {A} (p : prog A) h :
  credentials_validated h → safe gate p h (λ h' _, credentials_validated h').
Proof.
  apply safe_closed; [apply validated_extend|]. intros h' [] Hv; cbn; auto.
Qed.

(** Failure handlers return no credentials. *)
Lemma failReconcileSecrets_fails {A} reason message err :
  triple gate same_spec (failReconcileSecrets (A := A) reason message err)
    (λ h s r, match r with inl _ => same_spec h s | inr _ => False end).
Proof.
  unfold failReconcileSecrets.
  do 2 (apply triple_ok_bind; [auto with ok|done|intros _]). by apply triple_throw.
Qed.

Abbreviation key := (in_namespace project (sps_ProjectCredentialsSecret (prj_Spec project))).
Definition bundle_fetched (secret : Secret) : trace → SupabaseProject → Prop := λ h s,
  same_spec h s ∧ Ev (Get KSecret key) (inr secret) ∈ h.

(** The bundle is the object the project's reference names. *)
Lemma fetch_bundle (f : error → M Secret) :
  (∀ e, triple gate same_spec (f e)
     (λ h s r, match r with inl _ => same_spec h s | inr _ => False end)) →
  triple gate same_spec (catch (api_get KSecret key) f) (λ h s r,
    match r with inr secret => bundle_fetched secret h s | inl _ => True end).
Proof.
  intros Hf. apply (triple_catch _ _ _ (λ _, same_spec)).
  - intros h s Hs. split; [done|]. intros [e|secret] _; cbn; [done|].
    split; [done|]. apply elem_of_app. right. by left.
  - intros e. eapply triple_conseq; [apply Hf|done|]. by intros h s [?|?].
Qed.

(** A bundle that validates opens the gate. *)
Lemma validate_bundle secret (f : error → M ProjectCredentials) :
  (∀ e, triple gate same_spec (f e)
     (λ h s r, match r with inl _ => same_spec h s | inr _ => False end)) →
  triple gate (bundle_fetched secret) (catch (validate_credentials secret) f) (λ h s r,
    match r with inr _ => credentials_validated h | inl _ => True end).
Proof.
  intros Hf. apply (triple_catch _ _ _ (λ _, same_spec)).
  - intros h s [Hs Hin]. split; [done|]. intros now1 _. split; [done|]. intros now2 _.
    cbn -[ValidateProjectCredentials].
    destruct (ValidateProjectCredentials now1 now2 (Some secret)) as [e|creds] eqn:E; [done|].
    exists secret, now1, now2, creds. rewrite !elem_of_app, !list_elem_of_singleton. auto 10.
  - intros e. eapply triple_conseq; [apply Hf|done|]. by intros h s [?|?].
Qed.

(** [reconcileSecrets] returns credentials only past the gate. *)
Lemma reconcileSecrets_gate :
  triple gate same_spec reconcileSecrets (λ h _ r,
    match r with inr _ => credentials_validated h | inl _ => True end).
Proof.
  unfold reconcileSecrets. apply triple_bind_get. intros p [h0 [Hm Hs]].
  apply triple_ok_bind; [ok_auto|done|intros _]. cbv zeta. unfold in_namespace, prj_Namespace.
  rewrite Hm, Hs. case_match.
  { eapply triple_conseq; [apply failReconcileSecrets_fails|done|]. by intros h s [?|?]. }
  eapply (triple_bind _ _ _ bundle_fetched).
  { eapply triple_conseq; [apply fetch_bundle|done|].
    - intros e. apply failReconcileSecrets_fails.
    - by intros h s [?|?]. }
  intros secret. eapply (triple_bind _ _ _ (λ _ h _, credentials_validated h)).
  { eapply triple_conseq; [apply validate_bundle|done|].
    - intros e. apply failReconcileSecrets_fails.
    - by intros h s [?|?]. }
  intros creds h s Hv. eapply safe_mono; [|by apply past_gate]. by intros h' [? [?|?]] _ ?.
Qed.

Lemma reconcileProject_gate :
  triple gate same_spec reconcileProject (λ _ _ _, True).
Proof.
  unfold reconcileProject. apply triple_bind_get. intros p _.
  do 2 (apply triple_ok_bind; [ok_auto|done|intros _]).
  eapply (triple_bind _ _ _ (λ _ h _, credentials_validated h)).
  { eapply triple_conseq; [apply reconcileSecrets_gate|done|]. by intros h s [?|?]. }
  intros creds h s Hv. eapply safe_mono; [|by apply past_gate]. done.
Qed.
End Gate.

(** C2: the credential gate.  In every reconciliation, a request that creates
    or deletes a child resource, or updates one in any way other than taking
    the project's owner reference off a durable object it has just read, comes
    after the project's credential Secret was fetched and accepted by
    [ValidateProjectCredentials] in that same reconciliation. *)
Theorem reconcileProject_credential_gate `{Platform} `{CryptoLib} `{UrlLib} project tr o :
  runs (reconcileProject project) tr o →
  relies (gate project) tr →
  ∀ tr1 e tr2, tr = tr1 ++ e :: tr2 → gated project tr1 (ev_req e).
Proof.
  intros Hruns Hrely.
  by apply (safe_sound _ _ _ _ _ _ (reconcileProject_gate project [] project (conj eq_refl eq_refl))
              Hruns Hrely).
Qed.
