(* ===== verification/Readiness.v ===== *)
(** * What a project reported as Running means

    A reconciliation that ends without error and without a requeue has seen,
    in its own answers from the server, every component ready. *)

From S2P Require Import Prelude KubeTypes Types Platform Effects Common ConfigMaps Cnpg Encoding Sha256 Crypto Secrets Deployments Services ObjectSync ClusterSync Store Provisioning Database CoreServices PowerSync Reconciler Safety Discipline Gate.

(** The server stores the status it is sent, and nobody else edits the project
    meanwhile. *)
Definition stores_status (r : request) (v : response r) : Prop :=
  match r return response r → Prop with
  | StatusUpdate p => λ v, match v with inr p' => p' = p | inl _ => True end
  | _ => λ _, True
  end v.
Definition observer : policy := {| rely := stores_status; guarantee := λ _ _, True |}.

(** ** An observer's triples *)

Section Observer.
Implicit Types Pre : trace → SupabaseProject → Prop.

Lemma observer_safe {A} (p : prog A) h : safe observer p h (λ _ _, True).
Proof. revert h. induction p as [a|r k IH]; cbn; auto. Qed.
Lemma observer_any {A} Pre (m : M A) Post :
  (∀ h s r, Post h s r) → triple observer Pre m Post.
Proof. intros HPost h s _. eapply safe_mono; [|apply observer_safe]. auto. Qed.
Lemma observer_then {A B} Pre (m : M A) (f : A → M B) Post :
  (∀ h s e, Post h s (inl e)) → (∀ a, triple observer (λ _ _, True) (f a) Post) →
  triple observer Pre (m ≫= f) Post.
Proof.
  intros He Hf. eapply (triple_bind _ _ _ (λ _ _ _, True)); [|apply Hf].
  apply observer_any. by intros h s [e|a].
Qed.

(** The part of a function after which only success matters. *)
Definition establishes {A} Pre (m : M A) (Q : A → trace → SupabaseProject → Prop) : Prop :=
  triple observer Pre m (λ h s r, match r with inr a => Q a h s | inl _ => True end).
(** A failure handler: it returns no value. *)
Definition fails {A} (m : M A) : Prop :=
  ∀ Pre, establishes Pre m (λ _ _ _, False).

Lemma fails_throw {A} e : fails (throw (A := A) e).
Proof. intros Pre. by apply triple_throw. Qed.
Lemma fails_then {A B} (m : M A) (f : A → M B) : (∀ a, fails (f a)) → fails (m ≫= f).
Proof. intros Hf Pre. apply observer_then; [done|]. intros a. apply Hf. Qed.

Lemma establishes_bind {A B} Pre (m : M A) (f : A → M B) Mid Q :
  establishes Pre m Mid → (∀ a, establishes (Mid a) (f a) Q) → establishes Pre (m ≫= f) Q.
Proof.
  intros Hm Hf. eapply (triple_bind _ _ _ Mid); [|apply Hf].
  eapply triple_conseq; [apply Hm|done|]. by intros h s [e|a].
Qed.
Lemma establishes_ok {A B} J (m : M A) (f : A → M B) Q :
  ok observer J m → (∀ a, establishes J (f a) Q) → establishes J (m ≫= f) Q.
Proof.
  intros Hm Hf. apply triple_ok_bind; [done|done|]. apply Hf.
Qed.
Lemma establishes_get {B} J (f : SupabaseProject → M B) Q :
  (∀ p, (∃ h, J h p) → establishes J (f p) Q) → establishes J (get_project ≫= f) Q.
Proof. apply triple_bind_get. Qed.
(** The state itself is known after a read. *)
Lemma establishes_read {B} Pre (f : SupabaseProject → M B) Q :
  (∀ p, establishes (λ h s, Pre h s ∧ s = p) (f p) Q) → establishes Pre (get_project ≫= f) Q.
Proof. intros Hf h s Hs. by apply (Hf s h s). Qed.
Lemma establishes_ret {A} Pre (a : A) (Q : A → trace → SupabaseProject → Prop) :
  (∀ h s, Pre h s → Q a h s) → establishes Pre (mret a) Q.
Proof. intros HQ h s. apply HQ. Qed.
Lemma establishes_conseq {A} Pre Pre' (m : M A) Q Q' :
  establishes Pre' m Q' → (∀ h s, Pre h s → Pre' h s) → (∀ a h s, Q' a h s → Q a h s) →
  establishes Pre m Q.
Proof. intros Hm H1 H2. eapply triple_conseq; [apply Hm|done|]. intros h s [e|a]; auto. Qed.
Lemma establishes_pure {A} Pre (φ : Prop) (m : M A) Q :
  (φ → establishes Pre m Q) → establishes (λ h s, Pre h s ∧ φ) m Q.
Proof. intros Hm h s [Hs Hφ]. by apply Hm. Qed.
Lemma establishes_of_ok {A} J (m : M A) : ok observer J m → establishes J m (λ _, J).
Proof. intros Hm. eapply triple_conseq; [apply Hm|done|]. by intros h s [e|a]. Qed.
Lemma establishes_of_returns {A} J (m : M A) Q :
  returns observer J m Q → establishes J m (λ a h s, J h s ∧ Q a).
Proof. intros Hm. eapply triple_conseq; [apply Hm|done|]. by intros h s [e|a]. Qed.
Lemma establishes_catch {A} Pre (m : M A) f Q :
  establishes Pre m Q → (∀ e, fails (f e)) → establishes Pre (catch m f) Q.
Proof.
  intros Hm Hf. apply (triple_catch _ _ _ (λ _ _ _, True)).
  - eapply triple_conseq; [apply Hm|done|]. by intros h s [e|a].
  - intros e. eapply triple_conseq; [apply (Hf e (λ _ _, True))|done|]. by intros h s [?|?].
Qed.
Lemma establishes_on_error {A} Pre (m : M A) f Q :
  establishes Pre m Q → establishes Pre (on_error m f) Q.
Proof.
  intros Hm. apply (triple_on_error _ _ _ (λ _ _ _, True)).
  - eapply triple_conseq; [apply Hm|done|]. by intros h s [e|a].
  - intros e. apply observer_any. by intros h s [?|?].
Qed.
Lemma establishes_map_error {A} Pre (m : M A) f Q :
  establishes Pre m Q → establishes Pre (map_error m f) Q.
Proof.
  intros Hm. apply triple_map_error. eapply triple_conseq; [apply Hm|done|]. by intros h s [e|a].
Qed.
Lemma establishes_lift {A} Pre (r : result A) (Q : A → trace → SupabaseProject → Prop) :
  (∀ a h s, r = inr a → Pre h s → Q a h s) → establishes Pre (lift r) Q.
Proof. intros HQ h s Hs. destruct r; [done|by apply HQ]. Qed.
Lemma establishes_api_get {k} Pre key (Q : object k → trace → SupabaseProject → Prop) :
  (∀ o h s, Pre h s → Q o (h ++ [Ev (Get k key) (inr o)]) s) →
  establishes Pre (api_get k key) Q.
Proof. intros HQ h s Hs. split; [done|]. intros [e|o] _; cbn; [done|]. by apply HQ. Qed.
Lemma establishes_lookup {k} Pre key wrap (Q : option (object k) → trace → SupabaseProject → Prop) :
  (∀ e h s, Pre h s → Q None (h ++ [Ev (Get k key) (inl e)]) s) →
  (∀ o h s, Pre h s → Q (Some o) (h ++ [Ev (Get k key) (inr o)]) s) →
  establishes Pre (lookup_object k key wrap) Q.
Proof.
  intros HN HS h s Hs. split; [done|]. intros [e|o] _; cbn; [|by apply HS].
  destruct (IsNotFound e); cbn; [by apply HN|done].
Qed.
(** The object with the project's controller reference, if it may have one. *)
Lemma establishes_set_owner `{Platform} {A} {k} Pre (o : object k) (f : object k → M A) Q :
  (∀ refs, establishes Pre (f (set_meta ((obj_meta o) <| om_OwnerReferences := refs |>) o)) Q) →
  establishes Pre (set_owner o ≫= f) Q.
Proof.
  intros Hf h s Hs. unfold set_owner, mbind, M_bind. cbn.
  destruct (SetControllerReference (prj_meta s) (obj_meta o)) as [e|refs]; cbn; [done|].
  by apply (Hf refs h s).
Qed.
(** Nothing to show of a program that ends in a known value or in an error. *)
Lemma establishes_throw {A} Pre e Q : establishes Pre (throw (A := A) e) Q.
Proof. by intros h s Hs. Qed.
End Observer.


(** ** Evidence in the history *)

(** The server answered a Get of [key] with an object that satisfies [φ]. *)
Definition seen (k : kind) (key : NamespacedName) (φ : object k → Prop) (h : trace) : Prop :=
  ∃ o, Ev (Get k key) (inr o) ∈ h ∧ φ o.
Definition growing (E : trace → Prop) : Prop := ∀ h h', E h → E (h ++ h').

Lemma growing_seen k key φ : growing (seen k key φ).
Proof. intros h h' (o & Ho & Hφ). exists o. split; [|done]. apply elem_of_app. by left. Qed.
Lemma growing_and E F : growing E → growing F → growing (λ h, E h ∧ F h).
Proof. intros HE HF h h' [??]. split; [by apply HE | by apply HF]. Qed.
Lemma growing_True : growing (λ _, True).
Proof. done. Qed.
Lemma seen_last k key (φ : object k → Prop) o h : φ o → seen k key φ (h ++ [Ev (Get k key) (inr o)]).
Proof. intros Hφ. exists o. split; [|done]. apply elem_of_app. right. by left. Qed.
#[export] Hint Resolve growing_seen growing_and growing_True : ok.

Section Evidence.
Context `{Platform} (project : SupabaseProject).

Definition deployment_ready (name : string) : trace → Prop :=
  seen KDeployment (in_namespace project name) (λ d, deploymentIsReady d = true).
Definition database_ready : trace → Prop :=
  seen KCluster (in_namespace project (ClusterName project))
    (λ c, cs_Instances (cl_Spec c) ≤ cst_ReadyInstances (cl_Status c)).
Definition core_deployments : list string :=
  [AuthDeploymentName project; RestDeploymentName project; StudioDeploymentName project;
   MetaDeploymentName project; GatewayName project].
Definition core_ready (h : trace) : Prop := Forall (λ name, deployment_ready name h) core_deployments.

(** The roles CloudNativePG reconciled. *)
Definition roles_ready : trace → Prop :=
  seen KCluster (in_namespace project (ClusterName project))
    (λ c, powerSyncManagedRolesReady c = inr true).
(** The declared publication is applied. *)
Definition publication_ready (h : trace) : Prop :=
  ∃ desired, BuildPowerSyncPublication project = inr desired ∧
    seen KPublication (meta_key (pb_meta desired))
      (λ pub, pb_Spec pub = pb_Spec desired ∧ publicationIsApplied pub = true) h.
(** The job runs the script of that hash and has completed, as it was fetched
    or as an update of its metadata returned it. *)
Definition job_complete (name hash : string) (h : trace) : Prop :=
  seen KJob (in_namespace project name) (λ job,
    map_get (om_Annotations (job_meta job)) cdcScriptHashAnnotation = hash ∧
    ∃ checked, job_verdict name (job_Conditions checked) = inr true ∧
      (job_Conditions checked = job_Conditions job ∨
       ∃ sent, Ev (Update KJob sent) (inr checked) ∈ h)) h.
(** The permission job for the current script. *)
Definition permissions_ready (h : trace) : Prop :=
  ∃ cm, BuildCDCMigrationsConfigMap project = inr cm ∧
    job_complete (CDCJobName project) (cdcScriptHash cm) h.
Definition powersync_ready (h : trace) : Prop :=
  roles_ready h ∧ publication_ready h ∧ permissions_ready h ∧
  deployment_ready (PowersyncAPIDeploymentName project) h ∧
  deployment_ready (PowersyncReplicationDeploymentName project) h.

Lemma growing_core : growing core_ready.
Proof. intros h h' Hc. eapply Forall_impl; [apply Hc|]. intros n. apply growing_seen. Qed.

Lemma growing_job name hash : growing (job_complete name hash).
Proof.
  intros h h' (job & Hj & Hh & checked & Hv & Hc). exists job.
  split; [apply elem_of_app; by left|]. split; [done|]. exists checked. split; [done|].
  destruct Hc as [?|[sent Hs]]; [by left|]. right. exists sent. apply elem_of_app. by left.
Qed.

Lemma growing_publication : growing publication_ready.
Proof. intros h h' (d & Hd & Hs). exists d. split; [done|by apply growing_seen]. Qed.
Lemma growing_permissions : growing permissions_ready.
Proof. intros h h' (cm & Hcm & Hj). exists cm. split; [done|by apply growing_job]. Qed.

(** What the reconciler knows of the project and of the cluster. *)
Definition knowing (E : trace → Prop) : trace → SupabaseProject → Prop := λ h s,
  same_spec project h s ∧ E h.

Lemma knowing_permissive E : growing E → permissive observer (knowing E).
Proof.
  intros HE. split; try done.
  - intros h h' s [Hs HEh]. split; [done|by apply HE].
  - intros h s s' Hs ->. done.
Qed.
Lemma knowing_status_free E : status_free (knowing E).
Proof. by intros h s f [[??]?]. Qed.
Lemma knowing_meta E : knows_meta (prj_meta project) (knowing E).
Proof. by intros h s [[??]?]. Qed.
Lemma observer_allows : allows_discipline (prj_meta project) observer.
Proof. done. Qed.
End Evidence.
#[export] Hint Resolve growing_core growing_job growing_publication growing_permissions knowing_permissive knowing_status_free knowing_meta
  observer_allows : ok.

(** ** Core services *)

Section Core.
Context `{PlatformLaws} `{CryptoLib} `{UrlLib} (project : SupabaseProject) (E : trace → Prop).
Context (Hname : om_Name (prj_meta project) ≠ "") (HE : growing E).

(** A component: its entry of the status, and its deployment. *)
Abbreviation component := ((ServicesStatus → ServiceStatus) * string)%type.

(** A component that the status says is ready was seen ready. *)
Definition settled (cs : list component) : trace → SupabaseProject → Prop := λ h s,
  knowing project E h s ∧
  Forall (λ c, svs_Ready (c.1 (sts_Services (prj_Status s))) = true →
               deployment_ready project c.2 h) cs.

Lemma settled_permissive cs : permissive observer (settled cs).
Proof using HE.
  destruct (knowing_permissive project E HE) as [He Hr Hs Hst]. split; try done.
  - intros h h' s [Hk Hf]. split; [by apply He|].
    eapply Forall_impl; [apply Hf|]. intros c Hc Hready. by apply growing_seen, Hc.
  - intros h s s' Hs' ->. done.
Qed.
Lemma settled_condition_free cs : condition_free (J := settled cs).
Proof. intros h s f [Hk Hf]. split; [by apply knowing_status_free|done]. Qed.
Lemma settled_meta cs : knows_meta (prj_meta project) (settled cs).
Proof. by intros h s [[[??]?]?]. Qed.
#[local] Hint Resolve settled_permissive settled_condition_free settled_meta : ok.

Lemma fail_component_fails {A} config reason err :
  fails (fail_component (A := A) config reason err).
Proof. unfold fail_component. do 2 (apply fails_then; intros ?). apply fails_throw. Qed.

(** [deploymentStatus] reports ready only what it saw ready. *)
Lemma deploymentStatus_seen cs d name :
  meta_key (dp_meta d) = in_namespace project name →
  establishes (settled cs) (deploymentStatus d) (λ o h s,
    settled cs h s ∧ (o.1 = true → deployment_ready project name h)).
Proof using HE.
  intros Hkey. unfold deploymentStatus. rewrite Hkey.
  eapply (establishes_bind _ _ _ (λ o h s, settled cs h s ∧
    (∀ d, o = Some d → deploymentIsReady d = true → deployment_ready project name h))).
  - apply (establishes_lookup (k := KDeployment)); intros o h s Hs; split; try done.
    1, 2: by apply (permissive_extend _ _ (settled_permissive cs)).
    intros d' [= ->] Hd'. by apply seen_last.
  - intros [d'|]; apply establishes_ret; intros h s [Hs Ho]; split; try done. by apply Ho.
Qed.

(** A component writes its own entry of the status, and no other. *)
Record component_of (config : serviceReconcileConfig) (c : component) : Prop := {
  component_get : ∀ st s, c.1 (src_setStatus config st s) = st;
  component_deployment : ∀ p, prj_meta p = prj_meta project →
    meta_key (dp_meta (src_buildDeployment config p)) = in_namespace project c.2;
  component_name : child_name (prj_meta project) KDeployment c.2;
  component_service : ∀ p, prj_meta p = prj_meta project →
    child (prj_meta project) KService (meta_key (svc_meta (src_buildService config p))) }.
Definition leaves (config : serviceReconcileConfig) (c : component) : Prop :=
  ∀ st s, c.1 (src_setStatus config st s) = c.1 s.

Lemma reconcileServiceComponent_settles config c cs :
  component_of config c → Forall (leaves config) cs →
  establishes (settled cs) (reconcileServiceComponent config) (λ _, settled (c :: cs)).
Proof using All.
  intros [Hget Hdep Hcname Hsvc] Hleaves. unfold reconcileServiceComponent.
  apply establishes_get. intros p Hp. cbv zeta.
  assert (Hmeta : prj_meta p = prj_meta project)
    by (destruct Hp as [h Hp]; exact (settled_meta _ _ _ Hp)).
  match goal with |- context [createOrUpdateDeployment ?x] => set (d := x) end.
  assert (Hkey : meta_key (dp_meta d) = in_namespace project c.2).
  { subst d. rewrite <- (Hdep p Hmeta).
    destruct (bool_decide _); [by rewrite applyProjectCredentialsHash_meta|done]. }
  clearbody d. eapply establishes_bind.
  { apply establishes_catch; [|intros e; apply fail_component_fails].
    apply establishes_of_ok.
    eapply createOrUpdateDeployment_ok; eauto with ok.
    rewrite Hkey. by apply project_child. }
  intros ?. cbv beta. apply establishes_get. intros q [h Hq]. apply settled_meta in Hq.
  eapply establishes_bind.
  { apply establishes_catch; [|intros e; apply fail_component_fails].
    apply establishes_of_ok. eapply createOrUpdateService_ok; eauto with ok. }
  intros ?. cbv beta. eapply establishes_bind.
  { apply establishes_catch; [|intros e; apply fail_component_fails].
    by apply deploymentStatus_seen. }
  intros [ready available]. cbn [fst].
  eapply (establishes_bind _ _ _ (λ _, settled (c :: cs))).
  - apply triple_modify. intros h' s [[Hk Hf] Hready]. split; [by apply knowing_status_free|].
    cbn. constructor; [by rewrite Hget|]. 
    rewrite Forall_forall in Hf, Hleaves |- *. intros c' Hc'. rewrite (Hleaves c' Hc').
    by apply Hf.
  - intros _. destruct (negb ready); apply establishes_of_ok; eauto with ok.
Qed.

(** Names and namespaces only depend on the metadata. *)
Ltac settle_meta :=
  let p := fresh in let Hp := fresh in
  intros p Hp; unfold in_namespace, prj_Namespace, RestDeploymentName, StudioDeploymentName,
    MetaDeploymentName, GatewayName, prj_Name; rewrite <- Hp; reflexivity.
Ltac settle_name := pose proof (eq_refl (prj_meta project)); cbn [snd]; suffix_child.
Ltac settle_service := let p := fresh in let Hp := fresh in intros p Hp; suffix_child.
Ltac settle :=
  apply reconcileServiceComponent_settles;
  [split; [done|settle_meta|settle_name|settle_service]|by repeat constructor].

Lemma reconcileAuth_settles hash :
  establishes (knowing project E) (reconcileAuth hash)
    (λ _, settled [(sv_Auth, AuthDeploymentName project)]).
Proof using All.
  unfold reconcileAuth. eapply establishes_bind.
  { apply establishes_catch; [apply establishes_of_ok; eapply validateGoTrueEnvSources_ok;
      eauto with ok|].
    intros e. unfold failAuthGoTrueEnv. do 2 (apply fails_then; intros ?). apply fails_throw. }
  intros ?. cbv beta. eapply establishes_bind.
  { apply establishes_of_returns. eapply buildAuthDeployment_returns; eauto with ok. }
  intros d. apply establishes_pure. intros Hd.
  apply (establishes_conseq _ (settled []) _ _ (λ _, settled [(sv_Auth, AuthDeploymentName project)])); [|by split|done].
  apply reconcileServiceComponent_settles; [split; [done|done|settle_name|settle_service]|done].
Qed.

(** The five components, in the order they are reconciled. *)
Definition core_components : list component :=
  [(sv_Gateway, GatewayName project); (sv_Meta, MetaDeploymentName project);
   (sv_Studio, StudioDeploymentName project); (sv_Rest, RestDeploymentName project);
   (sv_Auth, AuthDeploymentName project)].

Lemma reconcileRest_settles hash :
  establishes (settled (drop 4 core_components)) (reconcileRest hash)
    (λ _, settled (drop 3 core_components)).
Proof using All. settle. Qed.
Lemma reconcileStudio_settles hash :
  establishes (settled (drop 3 core_components)) (reconcileStudio hash)
    (λ _, settled (drop 2 core_components)).
Proof using All. settle. Qed.
Lemma reconcileMeta_settles :
  establishes (settled (drop 2 core_components)) reconcileMeta
    (λ _, settled (drop 1 core_components)).
Proof using All. settle. Qed.
Lemma reconcileGateway_settles hash :
  establishes (settled (drop 1 core_components)) (reconcileGateway hash)
    (λ _, settled core_components).
Proof using All.
  unfold reconcileGateway. apply establishes_get. intros p [h0 Hp]. eapply establishes_bind.
  { apply establishes_catch.
    - apply establishes_of_ok. eapply createOrUpdateConfigMap_ok; eauto with ok.
      apply settled_meta in Hp. suffix_child.
    - intros e. do 2 (apply fails_then; intros ?). apply fails_throw. }
  intros ?. cbv beta.
  eapply (establishes_bind _ _ _ (λ _, settled core_components)); [settle|].
  intros _. apply establishes_get. intros q _. apply triple_modify.
  intros h s [Hk Hf]. split; [by apply knowing_status_free|done].
Qed.

Lemma failCoreServices_fails e : fails (failCoreServices e).
Proof. unfold failCoreServices. do 3 (apply fails_then; intros ?). apply fails_throw. Qed.

(** The next component of the phase. *)
Ltac next lem := eapply establishes_bind;
  [apply establishes_catch; [apply lem|intros e; apply failCoreServices_fails]
  |intros ?; cbv beta].

Lemma reconcileServices_settles credentials :
  establishes (knowing project E) (reconcileServices credentials)
    (λ _, settled core_components).
Proof using All.
  unfold reconcileServices. cbv zeta.
  next reconcileAuth_settles. next reconcileRest_settles. next reconcileStudio_settles.
  next reconcileMeta_settles. next reconcileGateway_settles.
  apply establishes_get. intros p _. destruct (negb _); [|by apply establishes_ret].
  eapply (establishes_bind _ _ _ (λ _, settled core_components)).
  - apply triple_modify. intros h s [Hk Hf]. split; [by apply knowing_status_free|done].
  - intros _. apply establishes_of_ok. eauto with ok.
Qed.

(** The aggregate check after the phase. *)
Lemma settled_core_ready h s :
  settled core_components h s → coreServicesReady s = true → core_ready project h.
Proof.
  intros [_ Hf] Hr. unfold coreServicesReady in Hr. bools. unfold core_components in Hf.
  repeat match goal with
  | Hf : Forall _ (_ :: _) |- _ => apply Forall_cons in Hf as [? Hf]
  end.
  unfold core_ready, core_deployments. rewrite !Forall_cons. split_and!; auto.
Qed.
End Core.

(** ** Database and PowerSync *)

Section Phases.
Context `{PlatformLaws} `{CryptoLib} `{UrlLib} (project : SupabaseProject) (E : trace → Prop).
Context (Hname : om_Name (prj_meta project) ≠ "") (HE : growing E).

Abbreviation J := (knowing project E).
(** A phase that passes, without a requeue, has seen [F]. *)
Definition passes (m : M Result) (F : trace → Prop) : Prop :=
  establishes J m (λ r h s, r = None → knowing project (λ h, E h ∧ F h) h s).

Lemma requeue_passes (m : M unit) F : passes (_ ← m; mret (Some RequeueDelay)) F.
Proof. apply observer_then; [done|]. intros _. by apply establishes_ret. Qed.

Lemma J_extend h h' s : J h s → J (h ++ h') s.
Proof using HE. apply (permissive_extend _ _ (knowing_permissive project E HE)). Qed.

Lemma waitForDatabase_passes : passes waitForDatabase (database_ready project).
Proof using All.
  unfold passes, waitForDatabase. apply establishes_get. intros p [h0 [[Hm _] _]].
  unfold ClusterName, in_namespace, prj_Namespace, prj_Name. rewrite Hm.
  eapply (establishes_bind _ _ _ (λ c h s, J h s ∧
    (cs_Instances (cl_Spec c) ≤ cst_ReadyInstances (cl_Status c) → database_ready project h))).
  { apply (establishes_api_get (k := KCluster)). intros c h s Hs.
    split; [by apply J_extend|]. intros Hc. by apply seen_last. }
  intros c. cbv zeta. destruct (_ <? _) eqn:Hlt.
  { apply observer_then; [done|]. intros _. by apply establishes_ret. }
  apply Z.ltb_ge in Hlt.
  apply (establishes_conseq _ (knowing project (λ h, E h ∧ database_ready project h)) _ _
    (λ _, knowing project (λ h, E h ∧ database_ready project h))).
  - assert (growing (λ h, E h ∧ database_ready project h))
      by (apply growing_and; [done|apply growing_seen]).
    apply establishes_ok; [apply ok_modify; intros h s; by apply knowing_status_free|].
    intros _. apply establishes_ok; [eauto 6 with ok|]. intros _. by apply establishes_ret.
  - intros h s [[Hs HEh] Hd]. split; [done|]. auto.
  - auto.
Qed.

Lemma waitForPowerSyncManagedRoles_passes :
  passes waitForPowerSyncManagedRoles (roles_ready project).
Proof using All.
  unfold passes, waitForPowerSyncManagedRoles. apply establishes_get. intros p [h0 [[Hm _] _]].
  unfold ClusterName, in_namespace, prj_Namespace, prj_Name. rewrite Hm.
  eapply (establishes_bind _ _ _ (λ c h s, J h s ∧
    (powerSyncManagedRolesReady c = inr true → roles_ready project h))).
  { apply (establishes_api_get (k := KCluster)). intros c h s Hs.
    split; [by apply J_extend|]. intros Hc. by apply seen_last. }
  intros c. eapply (establishes_bind _ _ _ (λ ready h s, J h s ∧
    (ready = true → roles_ready project h))).
  { apply establishes_on_error, establishes_lift. intros ready h s Hr [Hs Hc].
    split; [done|]. intros ->. by apply Hc. }
  intros [|]; cbn [negb].
  - apply establishes_ret. intros h s [[Hs HEh] Hc] _. split; [done|]. auto.
  - apply observer_then; [done|]. intros _. by apply establishes_ret.
Qed.

(** Builders read the metadata and the spec. *)
Lemma same_publication p : prj_meta p = prj_meta project → prj_Spec p = prj_Spec project →
  BuildPowerSyncPublication p = BuildPowerSyncPublication project.
Proof. destruct p, project. cbn. by intros -> ->. Qed.
Lemma same_script p : prj_meta p = prj_meta project → prj_Spec p = prj_Spec project →
  BuildCDCMigrationsConfigMap p = BuildCDCMigrationsConfigMap project.
Proof. destruct p, project. cbn. by intros -> ->. Qed.


Lemma ok_report t st r m : ok observer J (report t st r m).
Proof using HE. eauto 6 with ok. Qed.

(** The object a lookup found. *)
Definition found {k} (key : NamespacedName) (o : option (object k))
    : trace → SupabaseProject → Prop := λ h s,
  J h s ∧ ∀ x, o = Some x → Ev (Get k key) (inr x) ∈ h.
Lemma lookup_found {k} key wrap : establishes J (lookup_object k key wrap) (found key).
Proof using HE.
  apply establishes_lookup; intros o h s Hs; (split; [by apply J_extend|]); [done|].
  intros x [= ->]. apply elem_of_app. right. by left.
Qed.

Lemma reconcilePowerSyncPublication_passes :
  passes reconcilePowerSyncPublication (publication_ready project).
Proof using All.
  unfold passes, reconcilePowerSyncPublication, publication_pending.
  apply establishes_get. intros p [h0 [[Hm Hspec] _]].
  rewrite (same_publication p Hm Hspec).
  apply (establishes_bind _ _ _ (λ d h s,
    J h s ∧ BuildPowerSyncPublication project = inr d)); [by apply establishes_lift|].
  intros desired. apply establishes_pure. intros Hb.
  eapply establishes_bind; [apply (lookup_found (k := KPublication))|].
  intros [pub|]; cycle 1.
  { apply establishes_set_owner. intros refs.
    do 2 (apply observer_then; [done|]; intros ?). by apply establishes_ret. }
  case_match; [apply establishes_throw|]. cbv zeta.
  destruct (mergeLabels _ _) as [m labelsChanged] eqn:Hl.
  apply establishes_set_owner. intros refs.
  destruct (_ || _ || _) eqn:Hc; [apply observer_then; [done|]; intros ?; by apply establishes_ret|].
  destruct (negb (publicationIsApplied _)) eqn:Ha.
  { apply observer_then; [done|]; intros ?; by apply establishes_ret. }
  apply establishes_ret. intros h s [[Hs HEh] Hf] _. split; [done|]. split; [done|].
  exists desired. split; [done|]. exists pub. split; [by apply Hf|].
  apply orb_false_iff in Hc as [[Hspec' _]%orb_false_iff _]. rewrite Hspec' in Hl, Ha.
  apply negb_false_iff, bool_decide_eq_true in Hspec'. apply negb_false_iff in Ha.
  injection Hl as <- _. split; [by symmetry|]. exact Ha.
Qed.

Lemma createOrCheckJob_complete job hash name :
  meta_key (job_meta job) = in_namespace project name →
  establishes J (createOrCheckJob job hash) (λ done h s,
    done = true → J h s ∧ job_complete project name hash h).
Proof using All.
  intros Hkey. unfold createOrCheckJob. apply (establishes_set_owner (k := KJob)).
  intros refs0. cbv zeta.
  eapply establishes_bind; [apply (lookup_found (k := KJob))|]. intros [old|]; cycle 1.
  { apply observer_then; [done|]. intros ?. by apply establishes_ret. }
  apply establishes_read. intros p. case_match; [apply establishes_throw|].
  apply (establishes_set_owner (k := KJob)). intros refs.
  destruct (mergeLabels _ _) as [m labelsChanged] eqn:Hl.
  destruct (bool_decide (map_get _ _ ≠ hash)) eqn:Hh.
  { apply observer_then; [done|]. intros [e|u]; [destruct (IsNotFound e)|];
      by first [apply establishes_ret | apply establishes_throw]. }
  change (meta_key _) with (meta_key (job_meta job)). rewrite Hkey.
  apply (establishes_bind _ _ _ (λ checked h s,
    J h s ∧ Ev (Get KJob (in_namespace project name)) (inr old) ∈ h ∧
    (job_Conditions checked = job_Conditions old ∨
       ∃ sent, Ev (Update KJob sent) (inr checked) ∈ h))).
  - destruct (_ || labelsChanged).
    + apply establishes_map_error. intros h s [[Hs Hf] _]. split; [done|].
      intros [e|o] _; cbn; [done|]. split; [by apply J_extend|]. split.
      * apply elem_of_app. left. by apply Hf.
      * right. eexists. apply elem_of_app. right. by left.
    + apply establishes_ret. intros h s [[Hs Hf] _]. auto.
  - intros checked. apply establishes_lift.
    intros b h s Hv (Hs & Hf & Hc) ->. split; [done|]. exists old. split; [done|].
    apply bool_decide_eq_false, dec_stable in Hh. injection Hl as <- _. split; [exact Hh|].
    exists checked. split; [|done]. rewrite <- Hv. f_equal. by injection Hkey.
Qed.

Lemma reconcileCDCPermissions_passes :
  passes reconcileCDCPermissions (permissions_ready project).
Proof using All.
  unfold passes, reconcileCDCPermissions. apply establishes_get. intros p [h0 [[Hm Hspec] _]].
  rewrite (same_script p Hm Hspec).
  apply (establishes_bind _ _ _ (λ cm h s, J h s ∧ BuildCDCMigrationsConfigMap project = inr cm));
    [by apply establishes_lift|].
  intros cm. apply establishes_pure. intros Hcm.
  eapply establishes_bind.
  { apply establishes_on_error, establishes_of_ok. eapply createOrUpdateConfigMap_ok; eauto with ok.
    unfold BuildCDCMigrationsConfigMap in Hcm. destruct (buildCDCSetupScript project); [done|].
    injection Hcm as <-. pose proof (eq_refl (prj_meta project)). suffix_child. }
  intros ?. cbv beta zeta. apply establishes_get. intros q [h1 [[Hq _] _]].
  eapply establishes_bind.
  { apply establishes_on_error, (createOrCheckJob_complete _ _ (CDCJobName project)).
    unfold in_namespace, prj_Namespace, CDCJobName, prj_Name. rewrite <- Hq. done. }
  intros [|]; cbn [negb].
  - apply (establishes_conseq _ (knowing project (λ h, E h ∧ job_complete project (CDCJobName project)
      (cdcScriptHash cm) h)) _ _ (λ _, knowing project (λ h, E h ∧ job_complete project
      (CDCJobName project) (cdcScriptHash cm) h))).
    + apply establishes_ok; [|intros _; by apply establishes_ret].
      apply setCondition_ok; auto with ok.
    + intros h s Hd. destruct (Hd eq_refl) as [[Hs HEh] Hj]. by split.
    + intros r h s [Hs [HEh Hj]] _. split; [done|]. split; [done|]. by exists cm.
  - apply observer_then; [done|]. intros ?. by apply establishes_ret.
Qed.
End Phases.

(** ** PowerSync workloads, and the whole reconciliation *)

Section Running.
Context `{PlatformLaws} `{CryptoLib} `{UrlLib} (project : SupabaseProject).
Context (Hname : om_Name (prj_meta project) ≠ "").

Definition workloads_ready (h : trace) : Prop :=
  deployment_ready project (PowersyncAPIDeploymentName project) h ∧
  deployment_ready project (PowersyncReplicationDeploymentName project) h.
Lemma growing_workloads : growing workloads_ready.
Proof. apply growing_and; apply growing_seen. Qed.
Lemma growing_if (b : bool) (F : trace → Prop) : growing F → growing (λ h, b = true → F h).
Proof. intros HF h h' Hh Hb. by apply HF, Hh. Qed.
#[local] Hint Resolve growing_workloads growing_if : ok.

(** A deployment status is backed by the history. *)
Lemma status_passes E d name :
  growing E → meta_key (dp_meta d) = in_namespace project name →
  establishes (knowing project E) (deploymentStatus d) (λ o,
    knowing project (λ h, E h ∧ (o.1 = true → deployment_ready project name h))).
Proof.
  intros HE Hkey. eapply establishes_conseq; [apply (deploymentStatus_seen project E HE []); done|
    by split |].
  intros [b n] h s [[[Hs HEh] _] Hd]. by split.
Qed.

(** A child object is written and its failure reported. *)
Ltac written := ok_auto; eapply createOrUpdateConfigMap_ok +
  eapply createOrUpdateDeployment_ok + eapply createOrUpdateService_ok; eauto with ok; suffix_child.

Lemma reconcilePowersync_passes E content :
  growing E → passes project E (reconcilePowersync content) workloads_ready.
Proof using All.
  intros HE. unfold passes, reconcilePowersync, powersync_spec, powersync_failed,
    cleanupPowerSyncCompact.
  apply establishes_get. intros p Hp. pose proof Hp as [h0 [[Hm Hspec] _]].
  assert (Hns : om_Namespace (prj_meta p) = om_Namespace (prj_meta project)) by by rewrite Hm.
  apply establishes_ok; [apply ok_bind; [auto with ok|intros ?; auto with ok]|]. intros ps.
  cbv zeta.
  apply establishes_ok; [written|intros ?].
  apply establishes_ok.
  { ok_auto. eapply createOrUpdateConfigMap_ok; eauto with ok.
    eapply BuildPowersyncSyncRulesConfigMap_child; eauto with ok. }
  intros ?. do 3 (apply establishes_ok; [written|intros ?]).
  apply establishes_ok.
  { ok_auto; [eapply createOrUpdateCronJob_ok; eauto with ok;
      eapply BuildPowersyncCompactCronJob_child; eauto with ok
    |eapply deletePowerSync_ok; eauto with ok; [set_solver|]].
    match goal with Hx : ∃ h : trace, knowing _ _ h ?q |- child_name _ _ (_ ?q) =>
      destruct Hx as [? [[? _] _]]; suffix_child end. }
  intros ?.
  eapply establishes_bind; [apply (status_passes E _ (PowersyncAPIDeploymentName project) HE)|].
  { unfold PowersyncAPIDeploymentName, in_namespace, prj_Namespace, prj_Name. by rewrite <- Hm. }
  intros [apiReady n1]. cbn [fst].
  assert (HE1 : growing (λ h, E h ∧ (apiReady = true →
    deployment_ready project (PowersyncAPIDeploymentName project) h)))
    by (apply growing_and; [done|apply growing_if, growing_seen]).
  eapply establishes_bind.
  { apply (status_passes _ _ (PowersyncReplicationDeploymentName project) HE1).
    unfold PowersyncReplicationDeploymentName, in_namespace, prj_Namespace, prj_Name.
    by rewrite <- Hm. }
  intros [replicationReady n2]. cbn [fst].
  apply establishes_ok; [apply ok_modify; intros h s; by apply knowing_status_free|intros ?].
  destruct apiReady, replicationReady; cbn [negb orb].
  2,3,4: apply observer_then; [done|]; intros ?; by apply establishes_ret.
  apply establishes_ok.
  { apply setCondition_ok; [|auto with ok]. apply knowing_permissive.
    apply growing_and; [exact HE1|apply growing_if, growing_seen]. }
  intros ?. apply establishes_ret. intros h s [Hs [[HEh H1'] H2']] _. split; [done|]. split; [done|].
  split; auto.
Qed.

(** The status of a running project. *)
Definition running (p : SupabaseProject) : Prop :=
  sts_Phase (prj_Status p) = PhaseRunning ∧
  sts_ObservedGeneration (prj_Status p) = om_Generation (prj_meta p) ∧
  ∃ c, FindStatusCondition (sts_Conditions (prj_Status p)) ConditionTypeReady = Some c ∧
       cd_Status c = ConditionTrue.
(** The server has the status: it returned it, or stored it. *)
Definition persisted (p : SupabaseProject) (h : trace) : Prop :=
  seen KProject (meta_key (prj_meta p)) (λ current, prj_Status current = prj_Status p) h ∨
  Ev (StatusUpdate p) (inr p) ∈ h.

Lemma updateProjectStatus_persists Pre :
  (∀ h h' s, Pre h s → Pre (h ++ h') s) →
  establishes Pre updateProjectStatus (λ _ h s, Pre h s ∧ persisted s h).
Proof.
  intros HPre h s Hs. split; [done|]. intros [e|current] _; cbn; [done|].
  destruct (deep_equal _ _) eqn:Heq; cbn.
  - split; [by apply HPre|]. left. apply seen_last. by apply bool_decide_eq_true in Heq.
  - split; [done|]. intros [e|stored] Hrel; cbn; [done|]. cbn in Hrel. subst stored.
    split; [by apply HPre, HPre|]. right. apply elem_of_app. right. by left.
Qed.

Lemma complete_runs E :
  growing E →
  establishes (knowing project E) complete (λ _ h s,
    knowing project E h s ∧ running s ∧ persisted s h).
Proof using All.
  intros HE. unfold complete. apply establishes_read. intros p.
  eapply (establishes_bind _ _ _ (λ _ h s, knowing project E h s ∧
    sts_Phase (prj_Status s) = PhaseRunning ∧
    sts_ObservedGeneration (prj_Status s) = om_Generation (prj_meta s))).
  { intros h s [Hs ->]. split; [by apply knowing_status_free|done]. }
  intros _. apply (establishes_bind _ _ _ (λ _ h s, (knowing project E h s ∧ running s) ∧
    persisted s h)).
  - unfold report. eapply (establishes_bind _ _ _ (λ _ h s, knowing project E h s ∧ running s)).
    + intros h s (Hs & Hphase & Hgen). split; [done|]. intros now _. cbn.
      split; [apply knowing_status_free; by apply (permissive_extend _ _
        (knowing_permissive project E HE))|].
      split; [done|]. split; [done|]. cbn.
      match goal with |- context [SetStatusCondition ?cs ?c] =>
        destruct (FindStatusCondition_Set_eq cs c) as [t Ht] end.
      eexists. split; [exact Ht|]. done.
    + intros ?. apply updateProjectStatus_persists. intros h h' s [Hs Hr]. split; [|done].
      by apply (permissive_extend _ _ (knowing_permissive project E HE)).
  - intros ?. apply establishes_ret. intros h s [[??]?]. auto.
Qed.

(** Chain phases that may ask for a requeue. *)
Lemma or_requeue_passes E F (m k : M Result) Q :
  passes project E m F →
  establishes (knowing project (λ h, E h ∧ F h)) k (λ r h s, r = None → Q h s) →
  establishes (knowing project E) (or_requeue m k) (λ r h s, r = None → Q h s).
Proof.
  intros Hm Hk. eapply establishes_bind; [apply Hm|]. intros [d|].
  - by apply establishes_ret.
  - eapply establishes_conseq; [apply Hk| |done]. auto.
Qed.

(** What a reconciliation that asks for no requeue has seen. *)
Definition all_ready (h : trace) : Prop :=
  database_ready project h ∧ core_ready project h ∧
  (is_Some (sps_Powersync (prj_Spec project)) → powersync_ready project h).
Definition finished (h : trace) (s : SupabaseProject) : Prop :=
  all_ready h ∧ running s ∧ persisted s h ∧ same_spec project h s.

Lemma reconcilePowerSyncPhase_finishes :
  establishes (knowing project (λ h, database_ready project h ∧ core_ready project h))
    (reconcilePowerSyncPhase complete) (λ r h s, r = None → finished h s).
Proof using All.
  unfold reconcilePowerSyncPhase. apply establishes_get. intros p [h0 [[_ Hspec] _]].
  assert (HE : growing (λ h, database_ready project h ∧ core_ready project h))
    by (apply growing_and; [apply growing_seen|apply growing_core]).
  rewrite Hspec. destruct (sps_Powersync (prj_Spec project)) as [ps|] eqn:Hps.
  - apply establishes_ok.
    { eapply reconcilePowerSyncRulesValidation_ok; eauto with ok. }
    intros rules.
    eapply or_requeue_passes; [apply waitForPowerSyncManagedRoles_passes; eauto with ok|].
    assert (HE1 : growing (λ h, (database_ready project h ∧ core_ready project h) ∧
      roles_ready project h)) by (apply growing_and; [done|apply growing_seen]).
    eapply or_requeue_passes; [by apply reconcilePowerSyncPublication_passes|].
    assert (HE2 := growing_and _ _ HE1 (growing_publication project)). cbv beta in HE2.
    eapply or_requeue_passes; [by apply reconcileCDCPermissions_passes|].
    assert (HE3 := growing_and _ _ HE2 (growing_permissions project)). cbv beta in HE3.
    eapply or_requeue_passes; [by apply reconcilePowersync_passes|].
    assert (HE4 := growing_and _ _ HE3 growing_workloads). cbv beta in HE4.
    eapply establishes_conseq; [apply (complete_runs _ HE4)|done|].
    intros r h s ([Hs HEh] & Hr & Hp) _. unfold finished, all_ready, powersync_ready,
      workloads_ready in *. tauto.
  - apply establishes_ok; [eapply cleanupPowerSync_ok; eauto with ok|]. intros _.
    eapply establishes_conseq; [apply (complete_runs _ HE)|done|].
    intros r h s ([Hs HEh] & Hr & Hp) _. unfold finished, all_ready. rewrite Hps.
    split_and!; try tauto. by intros [? ?].
Qed.

Lemma reconcileWorkloads_finishes credentials :
  establishes (knowing project (database_ready project)) (reconcileWorkloads credentials)
    (λ r h s, r = None → finished h s).
Proof using All.
  unfold reconcileWorkloads. eapply establishes_bind.
  { apply (reconcileServices_settles project (database_ready project)); [done|].
    apply growing_seen. }
  intros ?. cbv beta. apply establishes_read. intros p.
  destruct (negb (coreServicesReady p)) eqn:Hr; [by apply establishes_ret|].
  eapply establishes_conseq; [apply reconcilePowerSyncPhase_finishes| |done].
  intros h s [Hs ->]. apply negb_false_iff in Hr. pose proof Hs as [[Hspec HEh] _].
  split; [done|]. split; [done|]. by eapply settled_core_ready.
Qed.

(** A phase that is only framed. *)
Ltac phase := apply establishes_ok;
  [first [ eapply reconcileDurableMetadataProtection_ok | eapply reconcileSecrets_ok
         | eapply ok_on_error; [eapply validateRecoveryBootstrapIntent_ok|intros ?]
         | eapply reconcileInitSQL_ok | eapply reconcileJWKSConfigMap_ok
         | eapply reconcileBackupInfrastructure_ok ]; eauto 6 with ok|].

Lemma reconcileProject_finishes :
  establishes (knowing project (λ _, True)) reconcileProject (λ r h s, r = None → finished h s).
Proof using All.
  unfold reconcileProject. apply establishes_get. intros p _.
  apply establishes_ok.
  { apply ok_when, ok_modify. intros h s. by apply knowing_status_free. }
  intros _. phase. intros _. phase. intros credentials. phase. intros _. phase. intros _.
  phase. intros _. phase. intros _. eapply establishes_bind.
  { apply establishes_of_ok. eapply reconcileCNPGCluster_ok; eauto with ok. }
  intros [d|]; [by apply establishes_ret|].
  eapply establishes_bind; [apply waitForDatabase_passes; eauto with ok|].
  intros [d|]; [by apply establishes_ret|].
  eapply establishes_conseq; [apply reconcileWorkloads_finishes| |done].
  intros h s Hs. destruct (Hs eq_refl) as [? [_ ?]]. by split.
Qed.
End Running.

(** C4: what a reconciliation reports as finished.  When [reconcileProject]
    returns without error and without asking for a requeue, the project it
    leaves is Running at its current generation with the condition Ready true,
    that status is on the server, and in the same reconciliation the server
    answered with: a database cluster with all its instances ready; every core
    deployment fully rolled out at its current generation; and, with PowerSync
    configured, the two managed roles reconciled, the declared publication
    applied, the permission job of the current script complete and both
    PowerSync deployments rolled out. *)
Theorem reconcileProject_running `{PlatformLaws} `{CryptoLib} `{UrlLib} project tr p :
  prj_Name project ≠ "" →
  runs (reconcileProject project) tr (p, inr None) →
  relies observer tr →
  all_ready project tr ∧ running p ∧ persisted p tr ∧ same_spec project tr p.
Proof.
  intros Hname Hruns Hrely.
  pose proof (reconcileProject_finishes project Hname [] project
    (conj (conj eq_refl eq_refl) I)) as Hs.
  by destruct (safe_sound _ _ _ _ _ _ Hs Hruns Hrely) as [_ Hf]; apply Hf.
Qed.
