(* ===== verification/Lifecycle.v ===== *)
(** * The lifecycle of the project's status

    The phase as a state machine, and what every status the controller sends
    to the server satisfies: a phase reachable from the one it found, Ready
    true only in phase Running, and well-formed conditions of the current
    generation. *)

From S2P Require Import Prelude KubeTypes Types Platform Effects Common ConfigMaps Cnpg Encoding Sha256 Crypto Secrets Deployments Services ObjectSync ClusterSync Store Provisioning Database CoreServices PowerSync Reconciler Safety Readiness Frame.

(** ** Phases *)

Inductive phase_step : string → string → Prop :=
| phase_admitted : phase_step "" PhasePending
| phase_started : phase_step PhasePending PhaseProvisioning
| phase_completed : phase_step PhaseProvisioning PhaseRunning
| phase_degraded : phase_step PhaseRunning PhaseProvisioning.
Definition phases : list string := [""; PhasePending; PhaseProvisioning; PhaseRunning].

Lemma phase_step_known a b : phase_step a b → b ∈ phases.
Proof. unfold phases. destruct 1; set_solver. Qed.
Lemma phase_reachable_known a b : a ∈ phases → rtc phase_step a b → b ∈ phases.
Proof. intros Ha. induction 1 as [|a c b Hs _ IH]; [done|]. by apply IH, (phase_step_known a). Qed.

(** Every known phase leads to the two last ones. *)
Lemma phase_to_provisioning a : a ∈ phases → rtc phase_step a PhaseProvisioning.
Proof.
  unfold phases. intros Ha. repeat (apply elem_of_cons in Ha as [->|Ha]);
    [| | | |by apply not_elem_of_nil in Ha].
  - eapply rtc_l; [apply phase_admitted|]. apply rtc_once, phase_started.
  - apply rtc_once, phase_started.
  - done.
  - apply rtc_once, phase_degraded.
Qed.
Lemma phase_to_running a : a ∈ phases → rtc phase_step a PhaseRunning.
Proof. intros Ha. eapply rtc_r; [by apply phase_to_provisioning|apply phase_completed]. Qed.
(** Nothing leads back to the first two. *)
Lemma phase_no_return a b :
  rtc phase_step a b → a ∈ [PhaseProvisioning; PhaseRunning] → b ∈ [PhaseProvisioning; PhaseRunning].
Proof.
  induction 1 as [|a c b Hs _ IH]; [done|]. intros Ha. apply IH.
  destruct Hs; set_solver.
Qed.

(** ** Lawful statuses *)

Section Lifecycle.
Context `{PlatformLaws} `{CryptoLib} `{UrlLib} (project : SupabaseProject).

Definition phase_of (p : SupabaseProject) : string := sts_Phase (prj_Status p).
Definition find_condition (p : SupabaseProject) : string → option Condition :=
  FindStatusCondition (sts_Conditions (prj_Status p)).
(** Ready is not true outside phase Running. *)
Definition ready_runs (p : SupabaseProject) : Prop :=
  ∀ c, find_condition p ConditionTypeReady = Some c → cd_Status c = ConditionTrue →
       phase_of p = PhaseRunning.
(** A condition the controller has set on the project. *)
Definition controller_condition (ty : string) (c : Condition) : Prop :=
  cd_Type c = ty ∧ condition_ok ty (cd_Status c) (cd_Reason c) = true ∧
  cd_ObservedGeneration c = om_Generation (prj_meta project).
Definition lawful (s : SupabaseProject) : Prop :=
  prj_meta s = prj_meta project ∧
  rtc phase_step (phase_of project) (phase_of s) ∧
  ready_runs s ∧
  ∀ ty c, find_condition s ty = Some c →
    find_condition project ty = Some c ∨ controller_condition ty c.

(** The server stores the status it is sent, and answers a Get with the object
    of that name. *)
Definition keyed (r : request) (v : response r) : Prop :=
  match r return response r → Prop with
  | Get k key => λ v, match v with inr o => obj_key o = key | inl _ => True end
  | _ => λ _, True
  end v.
Definition faithful (r : request) (v : response r) : Prop := stores_status r v ∧ keyed r v.
Definition lifecycle : policy := {|
  rely := faithful;
  guarantee := λ _ r, match r with StatusUpdate s => lawful s | _ => True end |}.

Context (Hphase : phase_of project ∈ phases) (Hready : ready_runs project).
Abbreviation J := (λ (_ : trace) s, lawful s).

Lemma lawful_start : lawful project.
Proof using Hready. split_and!; try done. intros ty c Hc. by left. Qed.

(** Setting a condition the controller may set. *)
Lemma lawful_condition s t st r m now :
  prj_meta s = prj_meta project → rtc phase_step (phase_of project) (phase_of s) →
  (t ≠ ConditionTypeReady → ready_runs s) →
  (t = ConditionTypeReady → st = ConditionTrue → phase_of s = PhaseRunning) →
  (∀ ty c, find_condition s ty = Some c →
     find_condition project ty = Some c ∨ controller_condition ty c) →
  condition_ok t st r = true → lawful (with_condition s t st r m now).
Proof using All.
  intros Hm Hp Hr Ht Hc Hok. split; [done|]. split; [exact Hp|].
  unfold find_condition, ready_runs, with_condition in *. cbn.
  set (c0 := {| cd_Type := t; cd_Status := st; cd_ObservedGeneration := _;
    cd_LastTransitionTime := now; cd_Reason := r; cd_Message := m |}).
  destruct (FindStatusCondition_Set_eq (sts_Conditions (prj_Status s)) c0) as [time Hset].
  change (cd_Type c0) with t in Hset. split.
  - intros c. destruct (decide (t = ConditionTypeReady)) as [->|Hne].
    + unfold find_condition. cbn. rewrite Hset. intros [= <-]. by apply Ht.
    + unfold find_condition. cbn. rewrite FindStatusCondition_Set_ne by done. by apply Hr.
  - intros ty c. destruct (decide (ty = t)) as [->|Hne].
    + rewrite Hset. intros [= <-]. right. split; [done|]. split; [done|].
      cbn. by rewrite Hm.
    + rewrite FindStatusCondition_Set_ne by done. apply Hc.
Qed.

Lemma lifecycle_permissive : permissive lifecycle J.
Proof.
  split; try done.
  - by intros h [] Hr.
  - intros h s s' Hs [Hst _]. cbn in Hst. by rewrite Hst.
Qed.

(** The phase changes, with Ready not true. *)
Lemma lawful_phase s phase :
  rtc phase_step (phase_of project) phase → phase_of s ≠ PhaseRunning →
  lawful s → lawful (with_phase phase s).
Proof.
  intros Hp Hn (Hm & _ & Hr & Hc). split; [done|]. split; [done|]. split; [|done].
  intros c Hf Ht. destruct Hn. by eapply Hr.
Qed.

Lemma lifecycle_frame : Frame lifecycle J.
Proof using All.
  split.
  - apply lifecycle_permissive.
  - intros k key o [_ Hk]. exact Hk.
  - done.
  - intros _ s f Hf (Hm & Hp & Hr & Hc). destruct (Hf (prj_Status s)) as [Hfp Hfc].
    unfold lawful, ready_runs, find_condition, phase_of in *. cbn. by rewrite Hfp, Hfc.
  - intros _ s t st r m now Hok Ht (Hm & Hp & Hr & Hc). apply lawful_condition; try done.
    intros Et Est. by rewrite (Ht Et) in Est.
  - intros _ s t Ht (Hm & Hp & Hr & Hc). split; [done|]. split; [done|].
    unfold ready_runs, find_condition in *. cbn. split.
    + intros c. rewrite FindStatusCondition_Remove_ne by done. apply Hr.
    + intros ty c. destruct (decide (ty = t)) as [->|Hne];
        [by rewrite FindStatusCondition_Remove_eq|].
      rewrite FindStatusCondition_Remove_ne by done. apply Hc.
  - intros _ s Hs Hp. apply lawful_phase; [|by unfold phase_of; rewrite Hp|done].
    eapply rtc_r; [apply Hs|]. unfold phase_of. rewrite Hp. apply phase_admitted.
  - intros _ s Hs Hp. apply lawful_phase; [|by unfold phase_of; rewrite Hp|done].
    eapply rtc_r; [apply Hs|]. unfold phase_of. rewrite Hp. apply phase_started.
  - intros _ s r m now Hr (Hm & Hp & _ & Hc). apply lawful_condition; try done.
    by apply phase_to_provisioning.
  - intros _ s g r m now Hr (Hm & Hp & _ & Hc). apply lawful_condition; try done.
    by apply phase_to_running.
Qed.

(** ** The whole reconciliation *)

Lemma lifecycle_may k key : may lifecycle J k key.
Proof. by split. Qed.

Lemma reconcileProject_lifecycle : ok lifecycle J reconcileProject.
Proof using All.
  pose proof lifecycle_frame as HF. pose proof lifecycle_may as Hm.
  assert (Hcore : ∀ p suffix, suffix ∈ core_suffixes →
    let key := in_namespace p (prj_Name p +:+ suffix) in
    may lifecycle J KDeployment key ∧ may lifecycle J KService key) by by split.
  assert (Hbase : ∀ k key, base_kind k = true → may lifecycle J k key) by done.
  unfold reconcileProject. apply ok_get_when; [by apply (fr_begin _ _ HF)|]. intros p.
  unfold or_requeue, reconcileWorkloads, reconcilePowerSyncPhase, or_requeue.
  frame_auto; eauto 4 with frame.
Qed.
End Lifecycle.

(** C6: the lifecycle of the status.  Started on a project whose phase is one of
    the four known ones, with Ready true at most while Running, a
    reconciliation only ever sends, and ends with, statuses
    - whose phase is reached from the initial one by the steps of the machine:
      empty to Pending, Pending to Provisioning, Provisioning to and from
      Running (so never back to Pending);
    - in which the condition Ready is true at most in phase Running;
    - whose conditions are those of the initial status, or of a known type,
      status True or False, with a reason the API server admits and the
      observed generation of the project. *)
Theorem reconcileProject_lifecycle_lawful `{PlatformLaws} `{CryptoLib} `{UrlLib} project tr p r :
  phase_of project ∈ phases → ready_runs project →
  runs (reconcileProject project) tr (p, r) →
  relies (lifecycle project) tr →
  (∀ q v, Ev (StatusUpdate q) v ∈ tr → lawful project q) ∧ lawful project p.
Proof.
  intros Hphase Hready Hruns Hrely.
  pose proof (reconcileProject_lifecycle project Hphase Hready [] project
    (lawful_start project Hready)) as Hs.
  destruct (safe_sound _ _ _ _ _ _ Hs Hruns Hrely) as [Hg Hp]. split; [|exact Hp].
  intros q v (tr1 & tr2 & Htr)%list_elem_of_split. exact (Hg tr1 _ tr2 Htr).
Qed.
