(* ===== verification/Order.v ===== *)
(** * The order of the phases

    Which evidence a reconciliation has gathered before it writes each kind of
    workload: the stages of the rollout, and that no stage is entered before
    its prerequisites were seen in the same reconciliation. *)

From S2P Require Import Prelude KubeTypes Types Platform Effects Common ConfigMaps Cnpg Encoding Sha256 Crypto Secrets Deployments Services ObjectSync ClusterSync Store Provisioning Database CoreServices PowerSync Reconciler Safety Discipline Gate Readiness Frame Lifecycle.

(** ** Stages *)

Section Stages.
Context `{Platform} (project : SupabaseProject).

(** The names of the PowerSync workloads. *)
Definition powersync_names : list string :=
  [PowersyncAPIDeploymentName project; PowersyncReplicationDeploymentName project].

(** The stage a created or updated object belongs to: 0 for what needs no
    database, 1 for the core workloads, 2 for the publication, 3 for the
    permission job, 4 for the PowerSync workloads. *)
Definition object_stage (k : kind) (name : string) : nat :=
  match k with
  | KDeployment | KService => if bool_decide (name ∈ powersync_names) then 4 else 1
  | KPublication => 2
  | KJob => 3
  | KCronJob => 4
  | _ => 0
  end.
Definition stage (r : request) : nat :=
  match r with
  | Create k o | Update k o => object_stage k (nn_Name (obj_key o))
  | _ => 0
  end.

(** What must have been seen to enter a stage. *)
Definition evidence (n : nat) (h : trace) : Prop :=
  (1 ≤ n → database_ready project h)%nat ∧
  (2 ≤ n → core_ready project h ∧ roles_ready project h)%nat ∧
  (3 ≤ n → publication_ready project h)%nat ∧
  (4 ≤ n → permissions_ready project h)%nat.

Lemma evidence_growing n : growing (evidence n).
Proof.
  intros h h' (H1 & H2 & H3 & H4). split_and!.
  - intros Hn. by apply growing_seen, H1.
  - intros Hn. destruct (H2 Hn). split; [by apply growing_core|by apply growing_seen].
  - intros Hn. by apply growing_publication, H3.
  - intros Hn. by apply growing_permissions, H4.
Qed.
Lemma evidence_le n m h : (m ≤ n)%nat → evidence n h → evidence m h.
Proof. intros Hle (H1 & H2 & H3 & H4). split_and!; intros Hm; [apply H1|apply H2|apply H3|apply H4]; lia. Qed.

Definition ordered : policy := {|
  rely := faithful; guarantee := λ h r, evidence (stage r) h |}.
(** No request beyond a stage. *)
Definition up_to (n : nat) : policy := {|
  rely := faithful; guarantee := λ _ r, (stage r ≤ n)%nat |}.
Definition anything : trace → SupabaseProject → Prop := λ _ _, True.

Lemma up_to_frame n : Frame (up_to n) anything.
Proof.
  split; try done.
  - split; try done; cbn; [intros _ [] ?; try done; cbn; lia|lia].
  - intros k key o [_ Hk]. exact Hk.
  - intros. cbn. lia.
Qed.
Lemma up_to_may n k key : (object_stage k (nn_Name key) ≤ n)%nat → may (up_to n) anything k key.
Proof. intros Hn h s o _ <-. by split. Qed.
Lemma up_to_base n k key : base_kind k = true → may (up_to n) anything k key.
Proof. intros Hk. apply up_to_may. destruct k; try done; cbn; lia. Qed.

(** What a program shows to an observer, and how far it goes, together. *)
Lemma ordered_safe {A} n (p : prog A) h Q Q' :
  evidence n h → safe (up_to n) p h Q' → safe observer p h Q → safe ordered p h Q.
Proof.
  revert h. induction p as [a|r k IH]; cbn; intros h Hh; [done|].
  intros [Hg Hs] [_ Ho]. split; [by eapply evidence_le|].
  intros v Hv. apply IH; [by apply evidence_growing|by apply Hs|by apply Ho, Hv].
Qed.

(** [enters]: a part of the reconciliation that keeps to the order, and what
    its success shows. *)
Definition enters {A} (Pre : trace → SupabaseProject → Prop) (m : M A)
    (Q : A → trace → SupabaseProject → Prop) : Prop :=
  triple ordered Pre m (λ h s r, match r with inr a => Q a h s | inl _ => True end).

Lemma enters_phase {A} n Pre (m : M A) Q :
  (∀ h s, Pre h s → evidence n h) → ok (up_to n) anything m → establishes Pre m Q →
  enters Pre m Q.
Proof.
  intros Hpre Hm Hq h s Hs. eapply ordered_safe; [by eapply Hpre|by apply Hm|by apply Hq].
Qed.
Lemma enters_bind {A B} Pre (m : M A) (f : A → M B) Mid Q :
  enters Pre m Mid → (∀ a, enters (Mid a) (f a) Q) → enters Pre (m ≫= f) Q.
Proof.
  intros Hm Hf. eapply (triple_bind _ _ _ Mid); [|apply Hf].
  eapply triple_conseq; [apply Hm|done|]. by intros h s [e|a].
Qed.
Lemma enters_ret {A} Pre (a : A) (Q : A → trace → SupabaseProject → Prop) :
  (∀ h s, Pre h s → Q a h s) → enters Pre (mret a) Q.
Proof. intros HQ h s. apply HQ. Qed.
Lemma enters_conseq {A} Pre Pre' (m : M A) Q :
  enters Pre' m Q → (∀ h s, Pre h s → Pre' h s) → enters Pre m Q.
Proof. intros Hm H1. eapply triple_conseq; [apply Hm|done|done]. Qed.
Lemma enters_read {B} Pre (f : SupabaseProject → M B) Q :
  (∀ p, enters (λ h s, Pre h s ∧ s = p) (f p) Q) → enters Pre (get_project ≫= f) Q.
Proof. intros Hf h s Hs. by apply (Hf s h s). Qed.
End Stages.

(** ** Names *)

(** The last character of a name: it tells the components apart. *)
Fixpoint last_char (s : string) : option Ascii.ascii :=
  match s with
  | EmptyString => None
  | String c EmptyString => Some c
  | String _ s => last_char s
  end.
Lemma last_char_app a b : b ≠ "" → last_char (a +:+ b) = last_char b.
Proof.
  intros Hb. induction a as [|c a IH]; [done|].
  change (String c a +:+ b) with (String c (a +:+ b)). cbn [last_char].
  destruct (a +:+ b) as [|c' s'] eqn:E; [by destruct a, b|exact IH].
Qed.

Section Run.
Context `{PlatformLaws} `{CryptoLib} `{UrlLib} (project : SupabaseProject).
Context (Hname : om_Name (prj_meta project) ≠ "").

Lemma core_may n p suffix :
  (1 ≤ n)%nat → suffix ∈ core_suffixes →
  let key := in_namespace p (prj_Name p +:+ suffix) in
  may (up_to project n) anything KDeployment key ∧ may (up_to project n) anything KService key.
Proof.
  intros Hn Hs key. assert (Hk : nn_Name key ∉ powersync_names project).
  { unfold key, powersync_names. intros Hin.
    assert (Hl : last_char suffix ∈ [last_char "i"; last_char "n"]).
    { rewrite <- (last_char_app (prj_Name p)) by (by intros ->; vm_compute in Hs; set_solver).
      apply elem_of_cons in Hin as [Hin|Hin%list_elem_of_singleton]; apply (f_equal last_char) in Hin;
        cbn [nn_Name in_namespace] in Hin; rewrite Hin; unfold PowersyncAPIDeploymentName,
        PowersyncReplicationDeploymentName; rewrite last_char_app by done; set_solver. }
    unfold core_suffixes in Hs.
    repeat (apply elem_of_cons in Hs as [->|Hs]; [vm_compute in Hl; set_solver|]).
    by apply not_elem_of_nil in Hs. }
  split; apply up_to_may; cbn; rewrite bool_decide_eq_false_2 by done; done.
Qed.

Abbreviation enters' := (enters project).

(** A framed phase, on what it keeps. *)
Lemma enters_ok {A B} n E (m : M A) (f : A → M B) Q :
  (∀ h, E h → evidence project n h) → ok observer (knowing project E) m →
  ok (up_to project n) anything m →
  (∀ a, enters' (knowing project E) (f a) Q) → enters' (knowing project E) (m ≫= f) Q.
Proof.
  intros HE Ho Hm Hf. eapply enters_bind; [|apply Hf].
  eapply enters_phase; [|exact Hm|by apply establishes_of_ok]. intros h s [_ Hh]. by apply HE.
Qed.
(** A phase that passes or asks for a requeue. *)
Lemma enters_passes n E F (m k : M Result) :
  (∀ h, E h → evidence project n h) → passes project E m F → ok (up_to project n) anything m →
  enters' (knowing project (λ h, E h ∧ F h)) k (λ _ _ _, True) →
  enters' (knowing project E) (or_requeue m k) (λ _ _ _, True).
Proof.
  intros HE Hp Hm Hk. eapply enters_bind.
  { eapply enters_phase; [|exact Hm|exact Hp]. intros h s [_ Hh]. by apply HE. }
  intros [d|]; [by apply enters_ret|]. eapply enters_conseq; [apply Hk|]. auto.
Qed.

(** The last part: nothing is concluded from it. *)
Lemma enters_end {A} n E (m : M A) :
  (∀ h, E h → evidence project n h) → ok (up_to project n) anything m →
  enters' (knowing project E) m (λ _ _ _, True).
Proof.
  intros HE Hm. eapply enters_phase; [|exact Hm|].
  - intros h s [_ Hh]. by apply HE.
  - apply observer_any. by intros h s [?|?].
Qed.

(** The requests of a phase go no further than its stage. *)
Ltac in_stage n :=
  pose proof (up_to_frame project n) as Hframe;
  pose proof (up_to_base project n) as Hbase;
  assert (Hconfig : ∀ key, may (up_to project n) anything KConfigMap key)
    by (intros; by apply Hbase);
  eauto 3 with frame.
Ltac have_evidence := intros h Hh; unfold evidence; split_and!; intros ?; first [tauto | lia].

Lemma reconcilePowerSyncPhase_ordered :
  enters' (knowing project (λ h, database_ready project h ∧ core_ready project h))
    (reconcilePowerSyncPhase complete) (λ _ _ _, True).
Proof using All.
  assert (HE : growing (λ h, database_ready project h ∧ core_ready project h))
    by (apply growing_and; [apply growing_seen|apply growing_core]).
  unfold reconcilePowerSyncPhase. apply enters_read. intros p. destruct (sps_Powersync (prj_Spec p)).
  - eapply enters_conseq; [|by intros h s [Hs _]; exact Hs].
    eapply (enters_ok 1); [have_evidence|eapply reconcilePowerSyncRulesValidation_ok; eauto with ok|
      in_stage 1%nat|]. intros rules.
    eapply (enters_passes 1); [have_evidence|apply waitForPowerSyncManagedRoles_passes; eauto with ok|
      in_stage 1%nat|].
    assert (HE1 := growing_and _ _ HE (growing_seen KCluster
      (in_namespace project (ClusterName project)) (λ c, powerSyncManagedRolesReady c = inr true))).
    cbv beta in HE1.
    eapply (enters_passes 2); [have_evidence|by apply reconcilePowerSyncPublication_passes|
      in_stage 2%nat; apply reconcilePowerSyncPublication_frame; [done|intros; apply up_to_may; cbn; lia]|].
    assert (HE2 := growing_and _ _ HE1 (growing_publication project)). cbv beta in HE2.
    eapply (enters_passes 3); [have_evidence|by apply reconcileCDCPermissions_passes|
      in_stage 3%nat; apply reconcileCDCPermissions_frame; [done|done|intros; apply up_to_may; cbn; lia]|].
    assert (HE3 := growing_and _ _ HE2 (growing_permissions project)). cbv beta in HE3.
    eapply (enters_passes 4); [have_evidence|by apply reconcilePowersync_passes| |].
    { apply reconcilePowersync_frame; [apply up_to_frame|]. intros k key _. apply up_to_may.
      unfold object_stage. destruct k; try lia; destruct (bool_decide _); lia. }
    eapply (enters_end 4); [have_evidence|in_stage 4%nat].
  - eapply enters_conseq; [|by intros h s [Hs _]; exact Hs].
    eapply (enters_ok 1); [have_evidence|eapply cleanupPowerSync_ok; eauto with ok|in_stage 1%nat|].
    intros _. eapply (enters_end 1); [have_evidence|in_stage 1%nat].
Qed.

Lemma reconcileWorkloads_ordered credentials :
  enters' (knowing project (database_ready project)) (reconcileWorkloads credentials)
    (λ _ _ _, True).
Proof using All.
  unfold reconcileWorkloads. eapply enters_bind.
  { eapply (enters_phase project 1); [intros h s [_ Hh]; revert h Hh; have_evidence| |
      apply (reconcileServices_settles project (database_ready project)); [done|apply growing_seen]].
    in_stage 1%nat. apply reconcileServices_frame; [done|done|].
    intros p suffix Hs. by apply core_may. }
  intros ?. apply enters_read. intros p.
  destruct (negb (coreServicesReady p)) eqn:Hr; [by apply enters_ret|].
  eapply enters_conseq; [apply reconcilePowerSyncPhase_ordered|].
  intros h s [Hs ->]. apply negb_false_iff in Hr. pose proof Hs as [[Hspec HEh] _].
  split; [done|]. split; [done|]. by eapply settled_core_ready.
Qed.

(** A phase before the database is ready. *)
Tactic Notation "early" uconstr(lem) := eapply (enters_ok 0 (λ _, True));
  [have_evidence|eapply lem; eauto 6 with ok|in_stage 0%nat|].

Lemma reconcileProject_ordered :
  enters' (knowing project (λ _, True)) reconcileProject (λ _ _ _, True).
Proof using All.
  unfold reconcileProject. apply enters_read. intros p.
  eapply enters_conseq; [|by intros h s [Hs _]; exact Hs].
  eapply (enters_ok 0 (λ _, True)); [have_evidence| | |intros ?].
  { apply ok_when, ok_modify. intros h s. by apply knowing_status_free. }
  { by apply ok_when, ok_modify. }
  early reconcileDurableMetadataProtection_ok. intros ?.
  early reconcileSecrets_ok. intros credentials.
  eapply (enters_ok 0 (λ _, True)); [have_evidence| | |intros ?].
  { apply ok_on_error; [eapply validateRecoveryBootstrapIntent_ok; eauto with ok|]. eauto 6 with ok. }
  { apply ok_on_error; [in_stage 0%nat|]. intros e. apply report_frame; [apply up_to_frame|done|done]. }
  early reconcileInitSQL_ok. intros ?. early reconcileJWKSConfigMap_ok. intros ?.
  early reconcileBackupInfrastructure_ok. intros ?.
  eapply (enters_passes 0 (λ _, True) (λ _, True)); [have_evidence| |in_stage 0%nat|].
  { apply (establishes_conseq _ (knowing project (λ _, True)) _ _ (λ _, knowing project (λ _, True)));
      [|done|]; [apply establishes_of_ok; eapply reconcileCNPGCluster_ok; eauto with ok|].
    by intros r h s [Hs _] _. }
  eapply (enters_passes 0); [have_evidence|apply waitForDatabase_passes; eauto with ok|in_stage 0%nat|].
  eapply enters_conseq; [apply reconcileWorkloads_ordered|]. intros h s [Hs [_ Hd]]. done.
Qed.
End Run.

(** C5: nothing is rolled out before what it needs.  In every reconciliation,
    an object is created or updated only after the server has answered, in
    that same reconciliation:
    - for a Deployment or Service: with a database cluster whose instances are
      all ready;
    - for the Publication, in addition: with every core deployment fully
      rolled out and both PowerSync roles reconciled in the database;
    - for the CDC permission Job, in addition: with the declared publication
      applied;
    - for the PowerSync Deployments and Service and for any CronJob, in
      addition: with the permission Job of the current script complete. *)
Theorem reconcileProject_order `{PlatformLaws} `{CryptoLib} `{UrlLib} project tr o :
  prj_Name project ≠ "" →
  runs (reconcileProject project) tr o → relies (ordered project) tr →
  ∀ tr1 e tr2, tr = tr1 ++ e :: tr2 → evidence project (stage project (ev_req e)) tr1.
Proof.
  intros Hname Hruns Hrely.
  pose proof (reconcileProject_ordered project Hname [] project
    (conj (conj eq_refl eq_refl) I)) as Hs.
  by apply (safe_sound _ _ _ _ _ _ Hs Hruns Hrely).
Qed.
