(* ===== verification/Isolation.v ===== *)
(** * Projects do not interfere

    What a reconciliation creates, changes or deletes is named after its
    project, and the names of two projects never meet: a reconciliation of one
    leaves every object another one writes alone, however the two interleave. *)

From S2P Require Import Prelude KubeTypes Types Platform Effects Common ConfigMaps Cnpg Encoding Sha256 Crypto Secrets Deployments Services ObjectSync ClusterSync Store Provisioning Database CoreServices PowerSync Reconciler Safety Discipline Readiness Frame Lifecycle.

(** ** Names after a project's *)

Lemma append_split a b s t :
  a +:+ s = b +:+ t → (∃ c, s = c +:+ t ∧ b = a +:+ c) ∨ (∃ c, t = c +:+ s ∧ a = b +:+ c).
Proof.
  revert b. induction a as [|x a IH]; intros b E; [left; by exists b|].
  destruct b as [|y b]; [right; by exists (String x a)|]. cbn in E. injection E as -> E.
  destruct (IH b E) as [(c & -> & ->)|(c & -> & ->)]; [left|right]; by exists c.
Qed.

(** No suffix of a kind ends in another one of that kind. *)
Definition suffixes_apart (k : kind) : bool :=
  forallb (λ s, forallb (λ t, negb (HasSuffix s t) || bool_decide (s = t)) (suffixes k)) (suffixes k).
Lemma suffixes_are_apart k : suffixes_apart k = true.
Proof. by destruct k; vm_compute. Qed.
Lemma suffix_unique k s t c : s ∈ suffixes k → t ∈ suffixes k → s = c +:+ t → s = t.
Proof.
  intros Hs Ht E. pose proof (suffixes_are_apart k) as Ha. unfold suffixes_apart in Ha.
  rewrite forallb_forall in Ha. specialize (Ha s ltac:(by apply list_elem_of_In)).
  rewrite forallb_forall in Ha. specialize (Ha t ltac:(by apply list_elem_of_In)).
  apply orb_true_iff in Ha as [Ha|Ha]; bools; [|done].
  by rewrite (proj2 (HasSuffix_spec s t)) in Ha by eauto.
Qed.
Lemma append_nil_inv c t : t = c +:+ t → c = "".
Proof.
  intros E. apply (f_equal String.length) in E. rewrite str_app_length in E.
  destruct c; [done|]. cbn in E. lia.
Qed.

Lemma child_name_inj k a b s t :
  s ∈ suffixes k → t ∈ suffixes k → a +:+ s = b +:+ t → a = b.
Proof.
  intros Hs Ht [(c & E & ->)|(c & E & ->)]%append_split;
    (assert (s = t) as -> by (first [by eapply suffix_unique|symmetry; by eapply suffix_unique]));
    by rewrite (append_nil_inv c t E), str_app_nil_r.
Qed.
(** An object is a child of at most one project. *)
Lemma child_unique m m' k key : child m k key → child m' k key → meta_key m = meta_key m'.
Proof.
  intros [Hns (s & Hs & Hn)] [Hns' (t & Ht & Hn')]. unfold meta_key. f_equal; [congruence|].
  eapply child_name_inj; [exact Hs|exact Ht|congruence].
Qed.

(** ** Writes of a run *)

(** The object a request creates, changes or deletes. *)
Definition written (r : request) : option (kind * NamespacedName) :=
  match r with
  | Create k o | Update k o | Delete k o _ => Some (k, obj_key o)
  | _ => None
  end.

Section Isolation.
Context `{PlatformLaws} `{CryptoLib} `{UrlLib}.

Lemma faithful_keeps_meta r v : faithful r v → keeps_meta r v.
Proof. intros [Hs _]. destruct r; try done. cbn in *. destruct v; [done|]. by rewrite Hs. Qed.

(** Under a server that answers with the object asked for: every request obeys
    the discipline, after reads that answered with what was asked. *)
Lemma disciplined project tr o e :
  prj_Name project ≠ "" → runs (reconcileProject project) tr o →
  Forall (λ e, faithful (ev_req e) (ev_resp e)) tr → e ∈ tr →
  ∃ h, write_ok (prj_meta project) h (ev_req e) ∧
       ∀ k key (x : object k), fetched h key x → obj_key x = key.
Proof.
  intros Hname Hruns Hrel He.
  assert (Hdis : relies (discipline (prj_meta project)) tr).
  { eapply Forall_impl; [exact Hrel|]. intros x. apply faithful_keeps_meta. }
  pose proof (reconcileProject_ok (P := discipline (prj_meta project))
    (J := same_meta (prj_meta project)) Hname (λ h r Hw, Hw)
    (same_meta_permissive _) (λ h s f Hs, Hs) (same_meta_knows _) [] project eq_refl) as Hs.
  destruct (safe_sound _ _ _ _ _ _ Hs Hruns Hdis) as [Hg _]. clear Hs.
  apply list_elem_of_split in He as (tr1 & tr2 & ->). exists ([] ++ tr1).
  split; [exact (Hg tr1 e tr2 eq_refl)|]. intros k key x Hx. cbn in Hx.
  apply Forall_app in Hrel as [Hrel _].
  by destruct (proj1 (Forall_forall _ _) Hrel _ Hx) as [_ Hk].
Qed.

(** What is written is a child of the project. *)
Lemma written_child project tr o e k key :
  prj_Name project ≠ "" → runs (reconcileProject project) tr o →
  Forall (λ e, faithful (ev_req e) (ev_resp e)) tr →
  e ∈ tr → written (ev_req e) = Some (k, key) → child (prj_meta project) k key.
Proof.
  intros Hname Hruns Hrel He Hw.
  destruct (disciplined project tr o e Hname Hruns Hrel He) as (h & Hg & Hkey).
  destruct e as [r v]. cbn in *. destruct r; simplify_eq/=.
  - apply Hg.
  - destruct Hg as (key' & old & Hc & Hf & -> & _). by rewrite (Hkey _ _ _ Hf).
  - destruct Hg as (key' & old & Hc & Hf & -> & _). by rewrite (Hkey _ _ _ Hf).
Qed.
End Isolation.

(** C3: projects are isolated.  Two reconciliations, of projects that differ
    in name or namespace, in any interleaving, against a server that answers a
    read with the object asked for and stores the status it is sent: no object
    that one creates, changes or deletes is created, changed or deleted by the
    other, even where one project's name extends the other's. *)
Theorem reconciliations_isolated `{PlatformLaws} `{CryptoLib} `{UrlLib} project project' tr tr' o o' :
  prj_Name project ≠ "" → prj_Name project' ≠ "" →
  project_key project ≠ project_key project' →
  runs (reconcileProject project) tr o → runs (reconcileProject project') tr' o' →
  Forall (λ e, faithful (ev_req e) (ev_resp e)) (tr ++ tr') →
  ∀ e e' k key,
    e ∈ tr → written (ev_req e) = Some (k, key) →
    e' ∈ tr' → written (ev_req e') ≠ Some (k, key).
Proof.
  intros Hn Hn' Hne Hr Hr' [Hf Hf']%Forall_app e e' k key He Hw He' Hw'. apply Hne.
  eapply (child_unique _ _ k key); [eapply (written_child project)|eapply (written_child project')];
    eassumption.
Qed.
