(* ===== verification/Phases.v ===== *)
(** * Contracts of single phases

    What one function of the controller promises its caller, on every branch,
    as statements about its runs: the wait for the database, the PowerSync
    token Secret, the permissions Job and the verdict on the core services. *)

From S2P Require Import Prelude KubeTypes Types Platform Effects Common ConfigMaps Cnpg Encoding Sha256 Crypto Secrets Deployments Services ObjectSync ClusterSync Store Provisioning Database CoreServices PowerSync Reconciler ErrorFlow Safety Readiness Frame Lifecycle.

(** ** Runs of the status helpers *)

(** A read or a status update that failed. *)
Definition failing (e : event) : bool :=
  match e with
  | Ev (Get k _) r => match r with inl _ => true | inr _ => false end
  | Ev (StatusUpdate _) r => match r with inl _ => true | inr _ => false end
  | _ => false
  end.
Definition failed (tr : trace) : Prop := ∃ e, e ∈ tr ∧ failing e = true.
Lemma failed_cons e tr : failed tr → failed (e :: tr).
Proof. intros (x & Hx & Hf). exists x. split; [by right|done]. Qed.
Lemma failed_head e tr : failing e = true → failed (e :: tr).
Proof. exists e. split; [by left|done]. Qed.
#[local] Hint Resolve failed_cons failed_head : core.

Section Status.
Context `{Platform}.

(** The status is on the server, or a request failed. *)
Definition reported (p : SupabaseProject) (tr : trace) (r : result unit) : Prop :=
  match r with inl _ => failed tr | inr _ => persisted p tr end.

Lemma persisted_cons p e tr : persisted p tr → persisted p (e :: tr).
Proof.
  intros [(o & Ho & Hs)|Hs]; [left; exists o; split; [by right|done]|by right; right].
Qed.
Lemma reported_cons p e tr r : reported p tr r → reported p (e :: tr) r.
Proof. destruct r; cbn; [apply failed_cons|apply persisted_cons]. Qed.

Lemma updateProjectStatus_runs s tr p r :
  runs (updateProjectStatus s) tr (p, r) → relies observer tr → p = s ∧ reported s tr r.
Proof.
  intros Hr Hrel. cbn in Hr. destruct Hr as ([e|current] & tr1 & -> & Hr); cbn in Hr.
  { destruct Hr as [-> [= -> ->]]. split; [done|]. by apply failed_head. }
  destruct (deep_equal _ _) eqn:Heq; cbn in Hr.
  { destruct Hr as [-> [= -> ->]]. split; [done|]. left.
    apply (seen_last _ _ _ current []). by apply bool_decide_eq_true in Heq. }
  destruct Hr as ([e|stored] & tr2 & -> & Hr); cbn in Hr; destruct Hr as [-> [= -> ->]].
  { split; [done|]. by apply failed_cons, failed_head. }
  apply Forall_cons in Hrel as [_ [Hst _]%Forall_cons]. cbn in Hst. subst stored.
  split; [done|]. right. right. by left.
Qed.

Lemma report_runs t st reason message s tr p r :
  runs (report t st reason message s) tr (p, r) → relies observer tr →
  ∃ now, p = with_condition s t st reason message now ∧ reported p tr r.
Proof.
  intros (now & tr' & -> & Hr) [_ Hrel]%Forall_cons. cbn in Hr.
  destruct (updateProjectStatus_runs _ _ _ _ Hr Hrel) as [-> Hp].
  exists now. split; [done|]. by apply reported_cons.
Qed.
(** A report at the end of a function. *)
Lemma report_then_runs {A} t st reason message (a : A) s tr p r :
  runs ((_ ← report t st reason message; mret a) s) tr (p, r) → relies observer tr →
  match r with
  | inl _ => failed tr
  | inr b => b = a ∧ persisted p tr ∧ ∃ now, p = with_condition s t st reason message now
  end.
Proof.
  intros [(e & -> & Hr)|(tr1 & tr2 & q & [] & -> & Hr & -> & [= -> ->])]%runs_bind_inv Hrel.
  - by destruct (report_runs _ _ _ _ _ _ _ _ Hr Hrel) as (now & _ & Hf).
  - rewrite app_nil_r in *. destruct (report_runs _ _ _ _ _ _ _ _ Hr Hrel) as (now & Hq & Hp). eauto.
Qed.
End Status.

(** ** The wait for the database *)

Section Database.
Context `{PlatformLaws}.

(** The condition of a type, and its status. *)
Definition condition_is (p : SupabaseProject) (type status : string) : Prop :=
  ∃ c, find_condition p type = Some c ∧ cd_Status c = status.

Lemma with_condition_is s t st reason message now :
  condition_is (with_condition s t st reason message now) t st.
Proof.
  unfold condition_is, find_condition, with_condition. cbn.
  match goal with |- context [SetStatusCondition ?cs ?c] =>
    destruct (FindStatusCondition_Set_eq cs c) as [now' Hf] end.
  cbn in Hf. eexists. split; [exact Hf|done].
Qed.
Lemma with_condition_other s t st reason message now ty :
  ty ≠ t → find_condition (with_condition s t st reason message now) ty = find_condition s ty.
Proof. intros Hne. unfold find_condition, with_condition. by apply FindStatusCondition_Set_ne. Qed.
End Database.

(** C14: the wait for the database.  Against a server that stores the status
    it is sent, [waitForDatabase] asks for the project's Cluster once and
    answers by it: while fewer instances are ready than the Cluster wants it
    asks to be called again, sets DatabaseReady to false and leaves the
    database status and the endpoints as they were; otherwise it continues,
    with DatabaseReady true, the database status copied from the Cluster and
    the endpoints overwritten: the database endpoint is set, and the API
    endpoint is cleared.  Either way the phase and the Ready condition stay as
    they were, of a running project whose database is lost too; the server has
    the status when it returns, and an error has a failed request behind it. *)
Theorem waitForDatabase_spec `{PlatformLaws} project tr p r :
  runs (waitForDatabase project) tr (p, r) → relies observer tr →
  match r with
  | inl _ => failed tr
  | inr requeue =>
      ∃ c tr', tr = Ev (Get KCluster (in_namespace project (ClusterName project))) (inr c) :: tr' ∧
      persisted p tr ∧ phase_of p = phase_of project ∧
      find_condition p ConditionTypeReady = find_condition project ConditionTypeReady ∧
      let st := prj_Status p in
      if cst_ReadyInstances (cl_Status c) <? cs_Instances (cl_Spec c)
      then requeue = Some RequeueDelay ∧ condition_is p ConditionTypeDatabaseReady ConditionFalse ∧
           sts_Database st = sts_Database (prj_Status project) ∧
           sts_Endpoints st = sts_Endpoints (prj_Status project)
      else requeue = None ∧ condition_is p ConditionTypeDatabaseReady ConditionTrue ∧
           dbs_Ready (sts_Database st) = true ∧
           dbs_Phase (sts_Database st) = cst_Phase (cl_Status c) ∧
           dbs_ReadyInstances (sts_Database st) = int32_of_int (cst_ReadyInstances (cl_Status c)) ∧
           dbs_PrimaryHost (sts_Database st) = cst_CurrentPrimary (cl_Status c) ∧
           ep_Database (sts_Endpoints st) = ClusterRWServiceName project +:+ ":5432" ∧
           ep_API (sts_Endpoints st) = ""
  end.
Proof.
  intros ([e|c] & tr1 & -> & Hr) [_ Hrel]%Forall_cons; cbn in Hr.
  { destruct Hr as [-> [= -> ->]]. by apply failed_head. }
  destruct (_ <? _) eqn:Hlt.
  - apply report_then_runs in Hr; [|done]. destruct r as [e|n]; [by apply failed_cons|].
    destruct Hr as (-> & Hp & now & ->). exists c, tr1. rewrite Hlt.
    split; [done|]. split; [by apply persisted_cons|]. split; [done|].
    split; [by rewrite with_condition_other|]. split; [done|].
    split; [apply with_condition_is|done].
  - apply (report_then_runs _ _ _ _ _ (project <| prj_Status ::= _ |>)) in Hr; [|done].
    destruct r as [e|n]; [by apply failed_cons|].
    destruct Hr as (-> & Hp & now & ->). exists c, tr1. rewrite Hlt.
    split; [done|]. split; [by apply persisted_cons|]. split; [done|].
    split; [by rewrite with_condition_other|]. split; [done|].
    split; [apply with_condition_is|done].
Qed.

(** ** The API token of PowerSync *)

(** A token Secret that is deleted between the two reads of
    [reconcilePowersyncAPITokenSecret] is created again without a token, and
    the next reconciliation refuses what this one created. *)
Lemma placeholder_race `{PlatformLaws} `{CryptoLib} project existing e refs :
  ValidatePowersyncAPITokenSecret (Some existing) = inr tt → IsNotFound e = true →
  let name := PowersyncAPITokenSecretName project in
  SetControllerReference (prj_meta project) (new_meta name (prj_Namespace project) ∅ ∅) = inr refs →
  ∃ created,
    runs (reconcilePowersyncAPITokenSecret project)
      [Ev (Get KSecret (in_namespace project name)) (inr existing);
       Ev (Get KSecret (in_namespace project name)) (inl e); Ev (Create KSecret created) None]
      (project, inr tt) ∧
    ∃ err, ValidatePowersyncAPITokenSecret (Some created) = inl err.
Proof.
  intros Hv Hnf name Href. subst name.
  unfold reconcilePowersyncAPITokenSecret, createOrUpdateSecret, set_owner, mbind, M_bind.
  eexists. split; cycle 1.
  { instantiate (1 := {| sec_meta := _; sec_Data := ∅; sec_StringData := ∅; sec_Type := _ |}).
    by eexists. }
  cbn -[ValidatePowersyncAPITokenSecret]. eexists _, _. split; [reflexivity|].
  cbn -[ValidatePowersyncAPITokenSecret]. rewrite Hv.
  unfold map_error, attempt, lift, mbind, M_bind. cbn. rewrite Href. cbn.
  eexists _, _. split; [reflexivity|]. cbn. rewrite Hnf. cbn.
  eexists _, _. split; [reflexivity|]. by cbn.
Qed.

(** ** The permissions Job *)

Section PermissionsJob.
Context `{PlatformLaws} (project : SupabaseProject) (job : Job) (hash : string).

Definition script_hash (j : Job) : string :=
  map_get (om_Annotations (job_meta j)) cdcScriptHashAnnotation.
Definition own_job (j : Job) : Prop := instance_of (k := KJob) j = prj_Name project.
(** [new] is the stored Job with the project's owner reference and labels. *)
Definition repairs (old new : Job) : Prop :=
  meta_key (job_meta new) = meta_key (job_meta old) ∧
  om_Annotations (job_meta new) = om_Annotations (job_meta old) ∧
  job_Spec new = job_Spec old ∧ job_Conditions new = job_Conditions old ∧
  IsControlledBy (job_meta new) (prj_meta project) = true.
Definition job_key : NamespacedName := meta_key (job_meta job).
Definition verdict (j : Job) : result bool := job_verdict (om_Name (job_meta job)) (job_Conditions j).

(** The runs of [createOrCheckJob], by what the server has. *)
Inductive job_step : trace → result bool → Prop :=
| job_unowned e :
    SetControllerReference (prj_meta project) (job_meta job) = inl e → job_step [] (inl e)
| job_unreadable e :
    IsNotFound e = false → job_step [Ev (Get KJob job_key) (inl e)] (inl e)
| job_created e new answer :
    IsNotFound e = true → meta_key (job_meta new) = job_key → script_hash new = hash →
    job_Spec new = job_Spec job → IsControlledBy (job_meta new) (prj_meta project) = true →
    job_step [Ev (Get KJob job_key) (inl e); Ev (Create KJob new) answer]
      (match answer with Some e => inl e | None => inr false end)
| job_foreign old e :
    ¬ own_job old → job_step [Ev (Get KJob job_key) (inr old)] (inl e)
| job_conflict old e :
    own_job old → SetControllerReference (prj_meta project) (job_meta old) = inl e →
    job_step [Ev (Get KJob job_key) (inr old)] (inl e)
| job_outdated old new answer :
    own_job old → script_hash old ≠ hash → repairs old new →
    job_step [Ev (Get KJob job_key) (inr old); Ev (Delete KJob new true) answer]
      (match answer with
       | Some e =>
           if IsNotFound e then inr false
           else inl (WrapError ("failed to delete outdated Job " +:+ om_Name (job_meta job) +:+ ": ") e)
       | None => inr false
       end)
| job_current old :
    own_job old → script_hash old = hash → IsControlledBy (job_meta old) (prj_meta project) = true →
    job_step [Ev (Get KJob job_key) (inr old)] (verdict old)
| job_repaired old new answer :
    own_job old → script_hash old = hash → repairs old new →
    job_step [Ev (Get KJob job_key) (inr old); Ev (Update KJob new) answer]
      (match answer with
       | inl e => inl (WrapError "updating CDC permissions Job metadata: " e)
       | inr stored => verdict stored
       end).

Lemma adopted_repairs old refs labels :
  SetControllerReference (prj_meta project) (job_meta old) = inr refs →
  repairs old (old <| job_meta := (mergeLabels ((job_meta old) <| om_OwnerReferences := refs |>) labels).1 |>).
Proof.
  intros Hr. split_and!; try done. cbn [job_meta].
  etransitivity; [|exact (SetControllerReference_controls _ _ _ Hr)].
  by apply IsControlledBy_refs.
Qed.

End PermissionsJob.

(** C11: the protocol of the permissions Job.  A run of [createOrCheckJob] is
    one of the steps of [job_step]: a missing Job is created once, with the
    hash of the current script, and is not complete; a Job of another instance
    is left alone and refused; a Job of another script is deleted in the
    foreground, never updated, and its verdict is not read; a Job of the
    current script is never created or deleted again, at most its owner and
    labels are repaired, and it is complete, failed or running by its first
    terminal condition.  The project is not changed. *)
Theorem createOrCheckJob_protocol `{PlatformLaws} project job hash tr p r :
  runs (createOrCheckJob job hash project) tr (p, r) →
  p = project ∧ job_step project job hash tr r.
Proof.
  intros Hr. unfold createOrCheckJob, set_owner, mbind, M_bind in Hr. cbn in Hr.
  destruct (SetControllerReference _ _) as [e|refs0] eqn:E0; cbn in Hr.
  { destruct Hr as [-> [= -> ->]]. split; [done|]. by apply job_unowned. }
  destruct Hr as ([e|old] & tr1 & -> & Hr); cbn in Hr.
  { destruct (IsNotFound e) eqn:Hnf; cbn in Hr.
    - destruct Hr as (answer & tr2 & -> & Hr). 
      assert (p = project ∧ tr2 = [] ∧ r = match answer with Some e => inl e | None => inr false end)
        as (-> & -> & ->) by (destruct answer; cbn in Hr; by destruct Hr as [-> [= -> ->]]).
      split; [done|]. apply job_created; try done.
      + unfold script_hash, map_get. cbn. by rewrite lookup_insert_eq.
      + cbn [job_meta]. etransitivity; [|exact (SetControllerReference_controls _ _ _ E0)].
        by apply IsControlledBy_refs.
    - destruct Hr as [-> [= -> ->]]. split; [done|]. by apply job_unreadable. }
  case_bool_decide as Hown; cbn in Hr.
  { destruct Hr as [-> [= -> ->]]. split; [done|]. by apply job_foreign. }
  destruct (SetControllerReference (prj_meta project) (job_meta old)) as [e|refs] eqn:E1; cbn in Hr.
  { destruct Hr as [-> [= -> ->]]. split; [done|]. by apply job_conflict. }
  pose proof (adopted_repairs project old refs (om_Labels (job_meta job)) E1) as Hrep.
  case_bool_decide as Hh; cbn in Hr.
  - destruct Hr as (answer & tr2 & -> & Hr). pose proof (λ a, job_outdated project job hash old _ a Hown Hh Hrep) as Hstep.
    destruct answer as [e|]; cbn in Hr; [destruct (IsNotFound e) eqn:Hnf; cbn in Hr|];
      destruct Hr as [-> [= -> ->]]; (split; [done|]); [..|exact (Hstep None)];
      specialize (Hstep (Some e)); cbv beta iota in Hstep; rewrite Hnf in Hstep; exact Hstep.
  - destruct (owners_changed _ _ || _) eqn:Hc; cbn in Hr.
    + destruct Hr as (answer & tr2 & -> & Hr). pose proof (λ a, job_repaired project job hash old _ a Hown Hh Hrep) as Hstep.
      destruct answer as [e|stored]; cbn in Hr; [destruct Hr as [-> [= -> ->]]|
        destruct (job_verdict _ _) eqn:Hv; cbn in Hr; destruct Hr as [-> [= -> ->]]];
      (split; [done|]); [exact (Hstep (inl e))|..];
      specialize (Hstep (inr stored)); unfold verdict in Hstep; rewrite Hv in Hstep; exact Hstep.
    + apply orb_false_iff in Hc as [Ho _]. apply negb_false_iff, bool_decide_eq_true in Ho.
      cbn in Ho. assert (Hctl : IsControlledBy (job_meta old) (prj_meta project) = true).
      { etransitivity; [|exact (SetControllerReference_controls _ _ _ E1)].
        apply IsControlledBy_refs. by rewrite Ho. }
      pose proof (job_current project job hash old Hown Hh Hctl) as Hcur. unfold verdict in Hcur.
      destruct (job_verdict _ _) eqn:Hv; cbn in Hr; destruct Hr as [-> [= -> ->]]; by split.
Qed.

(** ** The verdict on the core services *)

Section CoreServices.
Context `{PlatformLaws} `{CryptoLib} `{UrlLib}.

(** Taken back from Running. *)
Definition demoted (p : SupabaseProject) : Prop :=
  phase_of p = PhaseProvisioning ∧ condition_is p ConditionTypeReady ConditionFalse.
(** What a phase may end with: an error is a demotion that was reported, as far
    as the server took it; a return is given by [Q]. *)
Definition verdict_on (Q : trace → SupabaseProject → Prop) {A} : trace → SupabaseProject → result A → Prop :=
  λ h s r, match r with inl _ => demoted s ∧ (persisted s h ∨ failed h) | inr _ => Q h s end.
Definition unconstrained : trace → SupabaseProject → Prop := λ _ _, True.

Lemma failed_last e h : failing e = true → failed (h ++ [e]).
Proof. intros He. exists e. split; [apply elem_of_app; right; by left|done]. Qed.

Lemma updateProjectStatus_demoted :
  triple observer (λ _ s, demoted s) updateProjectStatus (λ h s r,
    demoted s ∧ match r with inl _ => failed h | inr _ => persisted s h end).
Proof using Type.
  intros h s Hs. split; [done|]. intros [e|current] _; cbn; [split; [done|by apply failed_last]|].
  destruct (deep_equal _ _) eqn:Heq; cbn.
  - split; [done|]. left. apply seen_last. by apply bool_decide_eq_true in Heq.
  - split; [done|]. intros [e|stored] Hrel; cbn; [split; [done|by apply failed_last]|].
    cbn in Hrel. subst stored. split; [done|]. right. apply elem_of_app. right. by left.
Qed.
Lemma triple_demote {B} reason message Pre (m : M B) Post :
  triple observer (λ _ s, demoted s) m Post →
  triple observer Pre (_ ← set_phase PhaseProvisioning;
                       _ ← setCondition ConditionTypeReady ConditionFalse reason message; m) Post.
Proof using All.
  intros Hm h s _. split; [done|]. intros now _. apply Hm. split; [done|].
  apply (with_condition_is (with_phase PhaseProvisioning s)).
Qed.

Lemma failCoreServices_demotes e Pre Q :
  triple observer Pre (failCoreServices e) (verdict_on Q).
Proof using All.
  apply triple_demote. eapply (triple_bind _ _ _ (λ _ h s, demoted s ∧ (persisted s h ∨ failed h))).
  - apply triple_attempt. eapply triple_conseq; [apply updateProjectStatus_demoted|done|].
    intros h s [e'|[]] [? ?]; auto.
  - intros r. by apply triple_throw.
Qed.
(** A component that fails demotes the project. *)
Lemma component_demotes {B} (m : M unit) (f : unit → M B) Q :
  (∀ a, triple observer unconstrained (f a) (verdict_on Q)) →
  triple observer unconstrained (a ← catch m failCoreServices; f a) (verdict_on Q).
Proof using All.
  intros Hf. eapply (triple_bind _ _ _ (λ _, unconstrained)); [|exact Hf].
  apply (triple_catch _ _ _ (λ _ _ _, True)); [apply observer_any; intros h s [e|a]; exact I|].
  intros e. eapply triple_conseq; [apply (failCoreServices_demotes e unconstrained unconstrained)|done|].
  by intros h s [?|?].
Qed.

Lemma reconcileServices_demotes credentials :
  triple observer unconstrained (reconcileServices credentials)
    (verdict_on (λ h s, coreServicesReady s = false → demoted s ∧ persisted s h)).
Proof using All.
  unfold reconcileServices. cbv zeta. do 5 (apply component_demotes; intros []).
  intros h s _. unfold when, mbind, M_bind. cbn [get_project prog_bind fst snd].
  destruct (coreServicesReady s) eqn:Hr; cbn [negb].
  - cbn. congruence.
  - eapply safe_mono; [|apply (triple_demote _ _ unconstrained _ _ updateProjectStatus_demoted h s I)].
    intros h' [s' [e|[]]] _ [Hd Hp]; cbn; auto.
Qed.
End CoreServices.

(** C15: the verdict on the core services.  Against a server that stores the
    status it is sent: if the phase fails, the project is taken back to
    Provisioning with the condition Ready false, and the server has that status
    unless a request to write it failed; if it returns, then either the server
    has answered, for each of the five deployments, that it is rolled out, or
    the project is taken back in the same way and the server has the status.  So
    a project does not stay Running past a core service that is not. *)
Theorem reconcileServices_verdict `{PlatformLaws} `{CryptoLib} `{UrlLib} project credentials tr p r :
  prj_Name project ≠ "" →
  runs (reconcileServices credentials project) tr (p, r) → relies observer tr →
  match r with
  | inl _ => demoted p ∧ (persisted p tr ∨ failed tr)
  | inr _ => if coreServicesReady p then core_ready project tr else demoted p ∧ persisted p tr
  end.
Proof.
  intros Hname Hruns Hrely.
  destruct (safe_sound _ _ _ _ _ _ (reconcileServices_demotes credentials [] project I) Hruns Hrely)
    as [_ Hd].
  pose proof (reconcileServices_settles project (λ _, True) Hname ltac:(done) credentials [] project
    (conj (conj eq_refl eq_refl) I)) as Hs.
  destruct (safe_sound _ _ _ _ _ _ Hs Hruns Hrely) as [_ Hc].
  destruct r as [e|[]]; [exact Hd|]. destruct (coreServicesReady p) eqn:Hr; [|by apply Hd].
  eapply settled_core_ready; [exact Hc|exact Hr].
Qed.
