(* ===== verification/Watches.v ===== *)
(** * Watches

    The mappings by which an event on an object requests reconciliations, and
    their registration: an event wakes the projects concerned and no other,
    and every object a reconciliation writes is watched, so that a later change
    to it is repaired. *)

From S2P Require Import Prelude KubeTypes Types Platform Effects Common ConfigMaps Cnpg Encoding Sha256 Crypto Secrets Deployments Services ObjectSync ClusterSync Store Provisioning Database CoreServices PowerSync Reconciler Safety Discipline Readiness Frame Lifecycle Isolation.

(** ** Watches *)

Section Watches.

(** A project the server listed or returned. *)
Definition listed (tr : trace) (namespace : string) (p : SupabaseProject) : Prop :=
  ∃ items, Ev (ListProjects namespace) (inr items) ∈ tr ∧ p ∈ items.

Lemma filter_keys (f : SupabaseProject → bool) items key :
  key ∈ project_key <$> List.filter f items ↔ ∃ p, p ∈ items ∧ f p = true ∧ key = project_key p.
Proof.
  rewrite list_elem_of_fmap. split; intros (p & H1 & H2).
  - apply list_elem_of_In, List.filter_In in H2 as [Hp Hf]. exists p.
    split; [by apply list_elem_of_In|done].
  - destruct H2 as [Hf ->]. exists p. split; [done|].
    apply list_elem_of_In, List.filter_In. split; [by apply list_elem_of_In|done].
Qed.

Lemma durable_belongs_child k name p :
  durable_belongs k name p = true ↔
  durable k = true ∧ child_name (prj_meta p) k name.
Proof.
  unfold child_name. destruct k; cbn; try (split; [done|by intros []]);
    rewrite ?orb_true_iff, ?bool_decide_eq_true; split.
  1,3,5: intros Hn; split; [done|]; try destruct Hn as [Hn|Hn]; eexists; (split; [|exact Hn]); set_solver.
  all: intros [_ (s & Hs & ->)]; set_solver.
Qed.

Lemma mapped_keys tr ns (P : SupabaseProject → bool) keys :
  runs (Call (ListProjects ns) (λ r : result (list SupabaseProject),
    match r with
    | inl _ => Ret []
    | inr items => Ret (project_key <$> List.filter P items)
    end)) tr keys →
  ∀ key, key ∈ keys ↔ ∃ p, listed tr ns p ∧ P p = true ∧ key = project_key p.
Proof.
  intros ([e|items] & tr' & -> & Hr) key; cbn in Hr; destruct Hr as [-> ->].
  - split; [set_solver|]. intros (p & (items & Hi & _) & _). apply list_elem_of_singleton in Hi.
    apply (f_equal (λ e, match e with Ev (ListProjects _) (inr _) => true | _ => false end)) in Hi. done.
  - rewrite filter_keys. split.
    + intros (p & Hp & Hf & ->). exists p. split; [|done]. exists items. split; [by left|done].
    + intros (p & (items' & Hi & Hp) & Hf & ->). exists p. split; [|done].
      apply list_elem_of_singleton in Hi.
      apply (f_equal (λ e, match e with Ev (ListProjects _) (inr l) => Some l | _ => None end)) in Hi.
      by simplify_eq/=.
Qed.

Lemma mapped_durable k (o : object k) tr keys :
  runs (mapDurableResourceToProject k o) tr keys →
  Forall (λ e, keyed (ev_req e) (ev_resp e)) tr →
  ∀ key, key ∈ keys ↔
    ∃ p, Ev (Get KProject key) (inr p) ∈ tr ∧ instance_of o = prj_Name p ∧
         durable k = true ∧ prj_Name p ≠ "" ∧ child (prj_meta p) k (obj_key o).
Proof.
  unfold mapDurableResourceToProject. cbv zeta. fold (instance_of o).
  set (key0 := {| nn_Namespace := _; nn_Name := _ |}).
  case_bool_decide as Hl; [intros [-> ->] _ key; set_solver|].
  intros (v & tr' & -> & Hr) [Hkey _]%Forall_cons key. cbn in Hkey.
  assert (Hend : tr' = [] ∧ keys = match v with
      inl _ => [] | inr q => if durable_belongs k (om_Name (obj_meta o)) q then [key0] else [] end)
    by (destruct v as [e|q]; [exact Hr|]; by destruct (durable_belongs _ _ _)).
  destruct Hend as [-> ->]. split.
  - destruct v as [e|q]; [set_solver|]. destruct (durable_belongs _ _ _) eqn:Hb; [|set_solver].
    intros ->%list_elem_of_singleton. apply durable_belongs_child in Hb as [Hd Hc].
    unfold obj_key, meta_key in Hkey. cbn in Hkey. injection Hkey as Hns Hn.
    exists q. split; [by left|]. unfold prj_Name. rewrite Hn. split_and!; try done.
  - intros (p & Hin & Hi & Hd & Hn & Hns & Hc). apply list_elem_of_singleton in Hin.
    apply (f_equal (λ e, match e with Ev (Get KProject k) (inr q) => Some (k, q) | _ => None end)) in Hin.
    cbn in Hin. destruct v as [e|q]; [done|]. injection Hin as -> ->.
    rewrite (proj2 (durable_belongs_child k (om_Name (obj_meta o)) q) (conj Hd Hc)). by left.
Qed.
End Watches.

(** C17: the watches wake exactly the projects concerned.  An event on a
    durable object requests the reconciliation of the project its instance
    label names, and only if the server has that project and the object is
    one of its children; an event on a Secret requests the projects of its
    namespace whose credential bundle it is, and an event on a ConfigMap those
    whose PowerSync rules it holds, as the server lists them. *)
Theorem watches_exact tr keys :
  (∀ k (o : object k), runs (mapDurableResourceToProject k o) tr keys →
     Forall (λ e, keyed (ev_req e) (ev_resp e)) tr →
     ∀ key, key ∈ keys ↔
       ∃ p, Ev (Get KProject key) (inr p) ∈ tr ∧ instance_of o = prj_Name p ∧
            durable k = true ∧ prj_Name p ≠ "" ∧ child (prj_meta p) k (obj_key o)) ∧
  (∀ m, runs (mapProjectCredentialsSecretToProjects m) tr keys →
     ∀ key, key ∈ keys ↔
       ∃ p, listed tr (om_Namespace m) p ∧ key = project_key p ∧
            sps_ProjectCredentialsSecret (prj_Spec p) = om_Name m) ∧
  (∀ m, runs (mapPowerSyncConfigMapToProjects m) tr keys →
     ∀ key, key ∈ keys ↔
       ∃ p ps, listed tr (om_Namespace m) p ∧ key = project_key p ∧
            sps_Powersync (prj_Spec p) = Some ps ∧
            sr_ConfigMapRef (pss_SyncRules ps) = om_Name m).
Proof.
  split; [|split].
  - intros k o Hr Hk. by apply mapped_durable.
  - intros m Hr key. rewrite (mapped_keys _ _ _ _ Hr key).
    split; intros (p & ? & H1 & H2); exists p; [apply bool_decide_eq_true in H1|]; try done.
    split; [done|]. split; [by apply bool_decide_eq_true|done].
  - intros m Hr key. rewrite (mapped_keys _ _ _ _ Hr key). split.
    + intros (p & ? & H1 & H2). exists p. destruct (sps_Powersync _) as [ps|]; [|done].
      apply bool_decide_eq_true in H1. eauto.
    + intros (p & ps & ? & ? & H1 & H2). exists p. rewrite H1, bool_decide_eq_true_2 by done. done.
Qed.

(** ** What a reconciliation writes is watched *)

Section Registered.
(** controller-runtime's handlers EnqueueRequestForObject (of [For]) and
    EnqueueRequestForOwner with OnlyControllerOwner (of [Owns]). *)
Context (EnqueueRequestForObject EnqueueRequestForOwner : ∀ k, object k → list NamespacedName).

Definition dispatch {k} (r : registration k) (o : object k) : prog (list NamespacedName) :=
  match r with
  | For _ => Ret (EnqueueRequestForObject k o)
  | Owns => Ret (EnqueueRequestForOwner k o)
  | Watches map => map o
  end.

(** A controller reference to a project requests the project it names. *)
Definition enqueues_controllers `{Platform} : Prop :=
  ∀ k (o : object k) r,
    r ∈ om_OwnerReferences (obj_meta o) → or_Controller r = Some true →
    owned_by_project (or_Name r) r = true →
    {| nn_Namespace := om_Namespace (obj_meta o); nn_Name := or_Name r |} ∈ EnqueueRequestForOwner k o.

(** The server still has the project, under the same metadata. *)
Definition serves (project : SupabaseProject) (e : event) : Prop :=
  match e with
  | Ev (Get k key) v =>
      match k return result (object k) → Prop with
      | KProject => λ v, key = project_key project → ∃ q, v = inr q ∧ prj_meta q = prj_meta project
      | _ => λ _, True
      end v
  | _ => True
  end.

(** Every event on [o] requests the project, by one of the registrations. *)
Definition watched `{Platform} (project : SupabaseProject) {k} (o : object k) : Prop :=
  ∃ r, r ∈ SetupWithManager k ∧ ∀ tr keys,
    runs (dispatch r o) tr keys → Forall (serves project) tr → project_key project ∈ keys.

Context `{Platform} (Howner : enqueues_controllers).

Lemma owned_watched project k (o : object k) :
  durable k = false → child (prj_meta project) k (obj_key o) →
  claimed (prj_meta project) (obj_meta o) → watched project o.
Proof using Howner.
  intros Hd [Hns (s & Hs & _)] (_ & r & Hr & Hc & Ho). exists Owns. split.
  - destruct k; try done; try (by apply not_elem_of_nil in Hs); by left.
  - intros tr keys [_ ->] _.
    assert (Hn : or_Name r = prj_Name project).
    { unfold owned_by_project in Ho. destruct (ParseGroupVersion _); [done|]. bools. done. }
    unfold project_key, meta_key, prj_Name in *. rewrite <- Hns, <- Hn in *. by apply Howner.
Qed.
Lemma durable_watched project k (o : object k) :
  prj_Name project ≠ "" → durable k = true → child (prj_meta project) k (obj_key o) →
  instance_of o = prj_Name project → watched project o.
Proof.
  intros Hn Hd [Hns Hc] Hi. exists (Watches (mapDurableResourceToProject k)). split.
  { destruct k; try done; by left. }
  intros tr keys Hr Hs. cbn in Hr. unfold mapDurableResourceToProject in Hr. cbv zeta in Hr.
  fold (instance_of o) in Hr. rewrite Hi, bool_decide_eq_false_2 in Hr by done.
  assert (Hkey : {| nn_Namespace := om_Namespace (obj_meta o); nn_Name := prj_Name project |} =
                 project_key project) by (unfold project_key, meta_key, prj_Name; f_equal; exact Hns).
  rewrite Hkey in Hr. destruct Hr as (v & tr' & -> & Hr).
  apply Forall_cons in Hs as [Hv _]. destruct (Hv eq_refl) as (q & -> & Hq).
  assert (Hb : durable_belongs k (om_Name (obj_meta o)) q = true)
    by (apply durable_belongs_child; rewrite Hq; by split).
  rewrite Hb in Hr. destruct Hr as [_ ->]. by left.
Qed.
End Registered.

(** The object a request puts on the server. *)
Inductive sends : request → ∀ k, object k → Prop :=
| sends_create k o : sends (Create k o) k o
| sends_update k o : sends (Update k o) k o.

(** C16: nothing is written that is not watched.  For every object a
    reconciliation of a named project creates or updates, of any kind, the
    manager has a registration of that kind by which an event on the object
    requests the reconciliation of this very project (as long as the server
    still has it), so that a later change to the object is repaired: an owned
    object through its controller reference, a durable one through its
    instance label.  The hypothesis on the handler of [Owns] is its
    documentation. *)
Theorem writes_are_watched `{PlatformLaws} `{CryptoLib} `{UrlLib}
    EnqueueRequestForObject EnqueueRequestForOwner project tr out e k (o : object k) :
  enqueues_controllers EnqueueRequestForOwner →
  prj_Name project ≠ "" → runs (reconcileProject project) tr out →
  Forall (λ e, faithful (ev_req e) (ev_resp e)) tr →
  e ∈ tr → sends (ev_req e) k o →
  watched EnqueueRequestForObject EnqueueRequestForOwner project o.
Proof.
  intros Howner Hn Hr Hrel He Hs.
  destruct (disciplined project tr out e Hn Hr Hrel He) as (h & Hw & Hkey).
  destruct Hs as [k o|k o]; cbn in Hw.
  - destruct Hw as [Hc Hk]. destruct (durable k) eqn:Hd; [|by apply owned_watched].
    apply durable_watched; try done. apply Hk.
  - destruct Hw as (key & old & Hc & Hf & Hko & Hk).
    rewrite <- (Hkey _ _ _ Hf), <- Hko in Hc.
    destruct k; cbn [update_ok] in Hk;
      first [ done
            | by apply durable_watched; try done; apply Hk
            | by apply owned_watched; try done; apply Hk ].
Qed.
