(* ===== verification/References.v ===== *)
(** * References between the objects of a project

    The builders agree across packages: the roles CloudNativePG creates use
    the Secrets the operator generates for them, and what the pods and the
    Cluster refer to exists, under the key they ask for. *)

From S2P Require Import Prelude KubeTypes Types Platform Effects Common EnvoyAssets ConfigMaps Cnpg Encoding Sha256 Crypto Secrets Deployments Services Workloads ErrorFlow.

(** ** What the generators produce *)

(** A Secret of the project with these entries. *)
Definition secret_with (p : SupabaseProject) (name : string) (data stringData : gmap string string)
    (s : Secret) : Prop :=
  om_Name (sec_meta s) = name ∧ om_Namespace (sec_meta s) = prj_Namespace p ∧
  sec_Data s = data ∧ sec_StringData s = stringData.
(** The credentials of a role: its name, and in hexadecimal the 32 bytes that
    the read of crypto/rand at position [i] of the history returned. *)
Definition role_secret (p : SupabaseProject) (h : trace) (i : nat) (name role : string) (s : Secret)
    : Prop :=
  ∃ bytes, h !! i = Some (Ev (RandRead 32) (inr bytes)) ∧ String.length bytes = 32%nat ∧
    secret_with p name ∅ {[ "username" := role; "password" := HexEncode bytes ]} s.

(** One successful generation of everything, its history, and the names the
    status records of it. *)
Inductive generates (p : SupabaseProject) : trace → list Secret → SecretNamesStatus → Prop :=
| generated s tr core names s' tr' powersync token tr'' hook hookName tr''' q q' q'' q''' :
    runs (GenerateSecrets p s) tr (q, inr (core, names)) →
    runs (GeneratePowersyncSecrets p s') tr' (q', inr powersync) →
    runs (GeneratePowersyncAPITokenSecret p q') tr'' (q'', inr token) →
    runs (GenerateEmailHookSecret p q'') tr''' (q''', inr (hook, hookName)) →
    generates p (tr ++ tr' ++ tr'' ++ tr''') (core ++ powersync ++ [token; hook])
      (names <| sn_PowersyncStoragePassword := (PowersyncSecretNames p).1 |>
             <| sn_PowersyncReplicationPassword := (PowersyncSecretNames p).2 |>
             <| sn_EmailHook := hookName |>).
Definition generation (p : SupabaseProject) (secrets : list Secret) (sn : SecretNamesStatus) : Prop :=
  ∃ h, generates p h secrets sn.

Lemma GenerateHex_inr n r v :
  GenerateHex n r = inr v → ∃ b, r = inr b ∧ String.length b = n ∧ v = HexEncode b.
Proof.
  unfold GenerateHex, random_bytes. destruct r as [e|b]; [done|]. cbn.
  case_bool_decide as Hl; [done|]. intros [= <-]. by exists b.
Qed.

(** A random read, then a Secret. *)
Lemma random_secret_runs {A} n (f : result string → result string) w (k : string → A) s tr q a :
  runs ((r ← call (RandRead n); v ← map_error (lift (f r)) w; mret (k v)) s) tr (q, inr a) →
  ∃ r v, tr = [Ev (RandRead n) r] ∧ f r = inr v ∧ a = k v.
Proof.
  intros (r & tr' & -> & Hr). cbn in Hr. destruct (f r) as [e|v] eqn:E; cbn in Hr.
  - by destruct Hr as [_ [=]].
  - destruct Hr as [-> [= _ ->]]. eauto.
Qed.

Lemma generateRoleSecret_runs p suffix role s tr q sec name :
  runs (generateRoleSecret p suffix role s) tr (q, inr (sec, name)) →
  name = prj_Name p +:+ "-" +:+ suffix +:+ "-password" ∧ length tr = 1%nat ∧
  role_secret p tr 0 name role sec.
Proof.
  intros (r & v & -> & Hv & [= -> ->])%random_secret_runs. split; [done|]. split; [done|].
  apply GenerateHex_inr in Hv as (b & -> & Hl & ->). by exists b.
Qed.
(** Positions in a longer history. *)
Lemma role_secret_app_l p h h' i name role s :
  role_secret p h i name role s → role_secret p (h ++ h') i name role s.
Proof. intros (b & Hi & Hs). exists b. split; [by apply lookup_app_l_Some|done]. Qed.
Lemma role_secret_app_r p h h' i n name role s :
  length h = n → role_secret p h' i name role s → role_secret p (h ++ h') (n + i) name role s.
Proof.
  intros <- (b & Hi & Hs). exists b. split; [|done].
  rewrite lookup_app_r by lia. by replace (length h + i - length h)%nat with i by lia.
Qed.
Lemma GenerateGoTrueFallbackSecret_runs p s tr q sec name :
  runs (GenerateGoTrueFallbackSecret p s) tr (q, inr (sec, name)) →
  name = GoTrueFallbackSecretName p ∧ length tr = 1%nat ∧
  ∃ v, secret_with p name ∅ {[ GoTrueFallbackSecretKey := v ]} sec.
Proof.
  intros (r & v & -> & Hv & [= -> ->])%random_secret_runs. split; [done|]. split; [done|]. by exists v.
Qed.
Lemma GeneratePowersyncAPITokenSecret_runs p s tr q sec :
  runs (GeneratePowersyncAPITokenSecret p s) tr (q, inr sec) →
  ∃ v, secret_with p (PowersyncAPITokenSecretName p) ∅ {[ PowersyncAPITokenSecretKey := v ]} sec.
Proof. intros (r & v & _ & Hv & ->)%random_secret_runs. by exists v. Qed.
Lemma GenerateEmailHookSecret_runs p s tr q sec name :
  runs (GenerateEmailHookSecret p s) tr (q, inr (sec, name)) →
  name = EmailHookSecretName p ∧ ∃ v, secret_with p name {[ EmailHookSecretKey := v ]} ∅ sec.
Proof. intros (r & v & _ & Hv & [= -> ->])%random_secret_runs. split; [done|]. by exists v. Qed.

(** ** The Secrets and their names, in the order they are generated *)

Lemma bind_inr {A B} (m : M A) (f : A → M B) p tr p' b :
  runs ((m ≫= f) p) tr (p', inr b) →
  ∃ tr1 tr2 p1 a, tr = tr1 ++ tr2 ∧ runs (m p) tr1 (p1, inr a) ∧ runs (f a p1) tr2 (p', inr b).
Proof. intros [(e & [=] & _)|(tr1 & tr2 & p1 & a & -> & H1 & H2)]%runs_bind_inv. eauto 10. Qed.

Lemma GenerateSecrets_runs p s tr q core names :
  runs (GenerateSecrets p s) tr (q, inr (core, names)) →
  ∃ fallback admin authenticator authAdmin,
    core = [fallback; admin; authenticator; authAdmin] ∧
    names = no_secret_names <| sn_GoTrueFallback := GoTrueFallbackSecretName p |>
              <| sn_SupabaseAdmin := prj_Name p +:+ "-supabase-admin-password" |>
              <| sn_Authenticator := prj_Name p +:+ "-authenticator-password" |>
              <| sn_AuthAdmin := prj_Name p +:+ "-auth-admin-password" |> ∧
    (∃ v, secret_with p (sn_GoTrueFallback names) ∅ {[ GoTrueFallbackSecretKey := v ]} fallback) ∧
    length tr = 4%nat ∧
    role_secret p tr 1 (sn_SupabaseAdmin names) "supabase_admin" admin ∧
    role_secret p tr 2 (sn_Authenticator names) "authenticator" authenticator ∧
    role_secret p tr 3 (sn_AuthAdmin names) "supabase_auth_admin" authAdmin.
Proof.
  unfold GenerateSecrets. intros (tr0 & ? & p1 & [fallback n0] & -> & H0 & Hr)%bind_inr.
  apply bind_inr in Hr as (tr1 & ? & ? & [admin n1] & -> & H1 & Hr).
  apply bind_inr in Hr as (tr2 & ? & ? & [authenticator n2] & -> & H2 & Hr).
  apply bind_inr in Hr as (tr3 & ? & ? & [authAdmin n3] & -> & H3 & Hr).
  destruct Hr as [-> [= _ -> ->]].
  apply GenerateGoTrueFallbackSecret_runs in H0 as (-> & L0 & H0).
  apply generateRoleSecret_runs in H1 as (-> & L1 & H1), H2 as (-> & L2 & H2), H3 as (-> & L3 & H3).
  exists fallback, admin, authenticator, authAdmin.
  split; [done|]. split; [done|]. split; [done|].
  split; [by rewrite !length_app, L0, L1, L2, L3|].
  pose proof (role_secret_app_r p tr0) as R0. pose proof (role_secret_app_r p tr1) as R1.
  pose proof (role_secret_app_r p tr2) as R2. split_and!.
  - apply (R0 _ 0%nat 1%nat); [done|]. by apply role_secret_app_l.
  - apply (R0 _ 1%nat 1%nat); [done|]. apply (R1 _ 0%nat 1%nat); [done|]. by apply role_secret_app_l.
  - apply (R0 _ 2%nat 1%nat); [done|]. apply (R1 _ 1%nat 1%nat); [done|].
    apply (R2 _ 0%nat 1%nat); [done|]. by apply role_secret_app_l.
Qed.
Lemma GeneratePowersyncSecrets_runs p s tr q secrets :
  runs (GeneratePowersyncSecrets p s) tr (q, inr secrets) →
  ∃ storage replication, secrets = [storage; replication] ∧
    role_secret p tr 0 (PowersyncSecretNames p).1 "powersync_storage" storage ∧
    role_secret p tr 1 (PowersyncSecretNames p).2 "powersync_replication" replication.
Proof.
  unfold GeneratePowersyncSecrets. intros (tr1 & ? & ? & [storage n1] & -> & H1 & Hr)%bind_inr.
  apply bind_inr in Hr as (tr2 & ? & ? & [replication n2] & -> & H2 & Hr). destruct Hr as [-> [= _ ->]].
  apply generateRoleSecret_runs in H1 as (-> & L1 & H1), H2 as (-> & L2 & H2).
  exists storage, replication. split; [done|]. split; [by apply role_secret_app_l|].
  apply (role_secret_app_r p tr1 _ 0%nat 1%nat); [done|]. by apply role_secret_app_l.
Qed.

(** A key of one of the Secrets. *)
Definition provides (secrets : list Secret) (name key : string) : Prop :=
  ∃ s, s ∈ secrets ∧ om_Name (sec_meta s) = name ∧ is_Some ((sec_StringData s ∪ sec_Data s) !! key).
Definition has_role (p : SupabaseProject) (h : trace) (i : nat) (secrets : list Secret)
    (name role : string) : Prop :=
  ∃ s, s ∈ secrets ∧ role_secret p h i name role s.
(** The position of the random read that each role's password comes from. *)
Definition password_read (role : string) : nat :=
  if bool_decide (role = "supabase_admin") then 1
  else if bool_decide (role = "authenticator") then 2
  else if bool_decide (role = "supabase_auth_admin") then 3
  else if bool_decide (role = "powersync_storage") then 4 else 5.

(** What a generation provides. *)
Record inventory (p : SupabaseProject) (h : trace) (secrets : list Secret) (sn : SecretNamesStatus)
    : Prop := {
  inv_admin : has_role p h (password_read "supabase_admin") secrets (sn_SupabaseAdmin sn) "supabase_admin";
  inv_authenticator : has_role p h (password_read "authenticator") secrets (sn_Authenticator sn) "authenticator";
  inv_auth_admin : has_role p h (password_read "supabase_auth_admin") secrets (sn_AuthAdmin sn) "supabase_auth_admin";
  inv_storage : has_role p h (password_read "powersync_storage") secrets (sn_PowersyncStoragePassword sn) "powersync_storage";
  inv_replication : has_role p h (password_read "powersync_replication") secrets (sn_PowersyncReplicationPassword sn) "powersync_replication";
  inv_fallback : provides secrets (GoTrueFallbackSecretName p) GoTrueFallbackSecretKey;
  inv_token : provides secrets (PowersyncAPITokenSecretName p) PowersyncAPITokenSecretKey;
  inv_hook : provides secrets (EmailHookSecretName p) EmailHookSecretKey;
  inv_fallback_name : sn_GoTrueFallback sn = GoTrueFallbackSecretName p;
  inv_hook_name : sn_EmailHook sn = EmailHookSecretName p }.

Lemma secret_with_provides p secrets name data stringData key s :
  s ∈ secrets → secret_with p name data stringData s → is_Some ((stringData ∪ data) !! key) →
  provides secrets name key.
Proof. intros Hs (Hn & _ & Hd & Hsd) Hk. exists s. by rewrite Hd, Hsd. Qed.

Lemma generates_inventory p h secrets sn : generates p h secrets sn → inventory p h secrets sn.
Proof.
  intros [s tr core names s' tr' powersync token tr'' hook hookName tr''' q q' q'' q''' H1 H2 H3 H4].
  apply GenerateSecrets_runs in H1 as (fallback & admin & authenticator & authAdmin & -> & -> &
    [v0 H0] & L & Ha & Hb & Hc).
  apply GeneratePowersyncSecrets_runs in H2 as (storage & replication & -> & Hd & He).
  apply GeneratePowersyncAPITokenSecret_runs in H3 as [v3 H3].
  apply GenerateEmailHookSecret_runs in H4 as [-> [v4 H4]].
  pose proof (role_secret_app_r p tr) as R. cbn [app]. split; try done.
  - exists admin. split; [set_solver|]. by apply role_secret_app_l.
  - exists authenticator. split; [set_solver|]. by apply role_secret_app_l.
  - exists authAdmin. split; [set_solver|]. by apply role_secret_app_l.
  - exists storage. split; [set_solver|]. apply (R _ 0%nat 4%nat); [done|]. by apply role_secret_app_l.
  - exists replication. split; [set_solver|]. apply (R _ 1%nat 4%nat); [done|].
    by apply role_secret_app_l.
  - eapply (secret_with_provides _ _ _ _ _ _ fallback); [set_solver|exact H0|].
    by rewrite lookup_union, lookup_singleton_eq.
  - eapply (secret_with_provides _ _ _ _ _ _ token); [set_solver|exact H3|].
    by rewrite lookup_union, lookup_singleton_eq.
  - eapply (secret_with_provides _ _ _ _ _ _ hook); [set_solver|exact H4|].
    by rewrite lookup_union, lookup_singleton_eq.
Qed.

(** ** Roles *)

(** The role logs in with a generated Secret of its own name, whose password is
    made of the random read at its position; or has no password at all. *)
Definition has_credentials (p : SupabaseProject) (h : trace) (position : string → nat)
    (secrets : list Secret) (r : RoleConfiguration) : Prop :=
  if rc_Login r
  then ∃ name, rc_PasswordSecret r = Some name ∧
         has_role p h (position (rc_Name r)) secrets name (rc_Name r)
  else rc_PasswordSecret r = None.
(** The roles a role is a member of: declared beside it; for the administrator,
    PostgreSQL's two roles to read and write all data. *)
Definition groups_of (r : RoleConfiguration) : string * list string := (rc_Name r, rc_InRoles r).
Definition member_of (names : list string) (r : string * list string) : Prop :=
  Forall (λ group, group ∈ names ∨
    r.1 = OwnerRole ∧ group ∈ ["pg_read_all_data"; "pg_write_all_data"]) r.2.
(** The role a bootstrap makes the owner, and the Secret with its password. *)
Definition bootstrap_owner (b : BootstrapConfiguration) : option (string * option string) :=
  match bc_InitDB b, bc_Recovery b with
  | Some i, None => Some (ib_Owner i, ib_Secret i)
  | None, Some r => Some (br_Owner r, br_Secret r)
  | _, _ => None
  end.

(** The roles the operator declares itself. *)
Definition operator_roles (p : SupabaseProject) (sn : SecretNamesStatus) : list RoleConfiguration :=
  buildRoles ((sps_Database (prj_Spec p)) <| db_AdditionalRoles := [] |>) sn ++
  match sps_Powersync (prj_Spec p) with Some _ => BuildPowersyncRoles sn | None => [] end.

Lemma operator_roles_names p sn :
  rc_Name <$> operator_roles p sn =
  ["api_access_role"; "anon"; "authenticated"; "service_role"; "supabase_admin"; "authenticator";
   "supabase_auth_admin"] ++
  match sps_Powersync (prj_Spec p) with
  | Some _ => ["powersync_storage"; "powersync_replication"] | None => []
  end.
Proof. unfold operator_roles. by destruct (sps_Powersync _). Qed.

Lemma role_secret_named p h i name role s :
  role_secret p h i name role s → om_Name (sec_meta s) = name.
Proof. by intros (? & _ & _ & ? & _). Qed.
Lemma generated_storage_names p secrets sn :
  generation p secrets sn →
  sn_PowersyncStoragePassword sn ≠ "" ∧ sn_PowersyncReplicationPassword sn ≠ "".
Proof. intros [h []]. cbn. by destruct (prj_Name p). Qed.

Lemma buildRoles_split spec sn :
  buildRoles spec sn = buildRoles (spec <| db_AdditionalRoles := [] |>) sn ++ db_AdditionalRoles spec.
Proof. unfold buildRoles. cbn [db_AdditionalRoles]. by rewrite app_nil_r. Qed.
Lemma all_roles_split p secrets sn :
  generation p secrets sn →
  buildAllRoles p sn ≡ₚ operator_roles p sn ++ db_AdditionalRoles (sps_Database (prj_Spec p)).
Proof.
  intros [Hs Hr]%generated_storage_names. unfold buildAllRoles, operator_roles.
  rewrite !bool_decide_eq_true_2 by done. rewrite buildRoles_split.
  generalize (buildRoles ((sps_Database (prj_Spec p)) <| db_AdditionalRoles := [] |>) sn) as own.
  generalize (BuildPowersyncRoles sn) as ps. intros ps own. destruct (sps_Powersync _); cbn [andb].
  - rewrite <- !app_assoc. apply Permutation_app_head, Permutation_app_comm.
  - by rewrite app_nil_r.
Qed.

Section OperatorRoles.
Context (p : SupabaseProject) (h : trace) (secrets : list Secret) (sn : SecretNamesStatus).

Lemma operator_roles_NoDup : NoDup (rc_Name <$> operator_roles p sn).
Proof. rewrite operator_roles_names. apply (bool_decide_unpack _). by destruct (sps_Powersync _). Qed.

Lemma operator_roles_credentials :
  inventory p h secrets sn →
  Forall (has_credentials p h password_read secrets) (operator_roles p sn).
Proof.
  intros [Ha Hb Hc Hd He _ _ _ _ _].
  unfold operator_roles, buildRoles, BuildPowersyncRoles, applyGeneratedRoleDefaults.
  destruct (sps_Powersync _); repeat (apply Forall_cons; split); try by apply Forall_nil.
  all: unfold has_credentials; cbn; try reflexivity.
  all: eexists; split; [reflexivity|assumption].
Qed.

Lemma operator_roles_groups :
  groups_of <$> operator_roles p sn =
  [("api_access_role", []); ("anon", ["api_access_role"]); ("authenticated", ["api_access_role"]);
   ("service_role", ["api_access_role"]);
   ("supabase_admin", ["pg_read_all_data"; "pg_write_all_data"]);
   ("authenticator", ["anon"; "authenticated"; "service_role"]); ("supabase_auth_admin", [])] ++
  match sps_Powersync (prj_Spec p) with
  | Some _ => [("powersync_storage", []); ("powersync_replication", [])] | None => []
  end.
Proof. unfold operator_roles. by destruct (sps_Powersync _). Qed.
Lemma operator_roles_members :
  Forall (member_of (rc_Name <$> operator_roles p sn)) (groups_of <$> operator_roles p sn).
Proof.
  rewrite operator_roles_names, operator_roles_groups.
  destruct (sps_Powersync _); repeat (apply Forall_cons; split); try by apply Forall_nil.
  all: unfold member_of; cbn [fst snd]; repeat (apply Forall_cons; split); try by apply Forall_nil.
  all: first [right; split; [reflexivity|]; repeat first [left; reflexivity|right]
             |left; repeat first [left; reflexivity|right]].
Qed.
(** No two of them share a read. *)
Lemma operator_roles_reads :
  NoDup ((password_read ∘ rc_Name) <$> filter (λ r, rc_Login r = true) (operator_roles p sn)).
Proof.
  assert ((password_read ∘ rc_Name) <$> filter (λ r, rc_Login r = true) (operator_roles p sn) =
    [1; 2; 3]%nat ++ match sps_Powersync (prj_Spec p) with Some _ => [4; 5]%nat | None => [] end) as ->.
  { unfold operator_roles. by destruct (sps_Powersync _). }
  apply (bool_decide_unpack _). by destruct (sps_Powersync _).
Qed.

Lemma bootstrap_owner_role :
  ∃ r, r ∈ operator_roles p sn ∧ rc_Login r = true ∧
    bootstrap_owner (buildBootstrapConfiguration p sn) = Some (rc_Name r, rc_PasswordSecret r).
Proof.
  eexists. split; [unfold operator_roles; apply elem_of_app; left; do 4 right; left|].
  split; [done|]. unfold buildBootstrapConfiguration. by destruct (recovery_enabled p).
Qed.

Lemma bootstrap_script i refs name key :
  bc_InitDB (buildBootstrapConfiguration p sn) = Some i →
  ib_PostInitApplicationSQLRefs i = Some refs → (name, key) ∈ refs →
  om_Name (cm_meta (BuildInitSQLConfigMap p)) = name ∧
  is_Some (cm_Data (BuildInitSQLConfigMap p) !! key).
Proof.
  unfold buildBootstrapConfiguration. destruct (recovery_enabled p); [done|].
  intros [= <-] [= <-] [= -> ->]%list_elem_of_singleton. split; [reflexivity|].
  exists InitSQLTemplate. apply lookup_singleton_eq.
Qed.
End OperatorRoles.

(** C13: the roles of the database and the Secrets generated for them agree.
    With the names of one generation, every role the Cluster declares for the
    operator is declared once; it logs in exactly if it has a password, kept in
    a generated Secret of the project whose username is the role's and whose
    password is, in hexadecimal, the 32 bytes of one successful read of
    crypto/rand in that generation, another read for every role; it is a member
    only of roles declared there, but for the administrator, who is also a
    member of PostgreSQL's pg_read_all_data and pg_write_all_data; and the
    bootstrap, of a new or a recovered database, makes one of them the owner,
    with that role's Secret, and runs a script the init SQL ConfigMap holds. *)
Theorem roles_have_credentials p h secrets sn :
  generates p h secrets sn →
  ∃ own managed bootstrap position,
    cs_Managed (cl_Spec (BuildCluster p sn)) = Some managed ∧
    cs_Bootstrap (cl_Spec (BuildCluster p sn)) = Some bootstrap ∧
    mg_Roles managed ≡ₚ own ++ db_AdditionalRoles (sps_Database (prj_Spec p)) ∧
    NoDup (rc_Name <$> own) ∧
    Forall (has_credentials p h position secrets) own ∧
    NoDup ((position ∘ rc_Name) <$> filter (λ r, rc_Login r = true) own) ∧
    Forall (member_of (rc_Name <$> own)) (groups_of <$> own) ∧
    (∃ r, r ∈ own ∧ rc_Login r = true ∧
       bootstrap_owner bootstrap = Some (rc_Name r, rc_PasswordSecret r)) ∧
    ∀ i refs name key, bc_InitDB bootstrap = Some i → ib_PostInitApplicationSQLRefs i = Some refs →
      (name, key) ∈ refs →
      om_Name (cm_meta (BuildInitSQLConfigMap p)) = name ∧
      is_Some (cm_Data (BuildInitSQLConfigMap p) !! key).
Proof.
  intros Hg. exists (operator_roles p sn). do 2 eexists. exists password_read.
  split; [reflexivity|]. split; [reflexivity|]. split; [eapply all_roles_split; by exists h|].
  split; [apply operator_roles_NoDup|].
  split; [by apply operator_roles_credentials, generates_inventory|].
  split; [apply operator_roles_reads|]. split; [apply operator_roles_members|].
  split; [apply bootstrap_owner_role|apply bootstrap_script].
Qed.

(** ** Pods *)

Section Pods.
Context `{Platform} `{UrlLib} (p : SupabaseProject) (ps : PowersyncSpec).
Context (secrets : list Secret) (sn : SecretNamesStatus) (jwks : string) (cdc : ConfigMap).

(** The ConfigMaps of a project with PowerSync. *)
Definition config_maps : list ConfigMap :=
  [BuildInitSQLConfigMap p; BuildJWKSConfigMap p jwks; BuildEnvoyConfigMap p;
   BuildPowersyncConfigMap p; cdc] ++
  match BuildPowersyncSyncRulesConfigMap p ps with Some cm => [cm] | None => [] end.

Definition configmap_ref (v : EnvVar) : option KeySelector := ev_ValueFrom v ≫= evs_ConfigMapKeyRef.
(** What a variable reads is there: in a generated Secret, in the credential
    bundle, or in a ConfigMap. *)
Definition resolves (v : EnvVar) : Prop :=
  (∀ ref, secret_ref v = Some ref →
     provides secrets (ks_Name ref) (ks_Key ref) ∨
     (ks_Name ref = sps_ProjectCredentialsSecret (prj_Spec p) ∧
      ks_Key ref ∈ RequiredProjectCredentialKeys)) ∧
  (∀ ref, configmap_ref v = Some ref →
     ∃ cm, cm ∈ config_maps ∧ om_Name (cm_meta cm) = ks_Name ref ∧
       is_Some (cm_Data cm !! ks_Key ref)).
Definition mounted (vol : Volume) : Prop :=
  ∀ nv, vol_ConfigMap vol = Some nv →
    (∃ cm, cm ∈ config_maps ∧ om_Name (cm_meta cm) = nv_Name nv) ∨
    nv_Name nv = sr_ConfigMapRef (pss_SyncRules ps).

Lemma resolves_value name value : resolves (env_value name value).
Proof. by split. Qed.
Lemma resolves_secret name secret key : provides secrets secret key → resolves (env_secret name secret key).
Proof. intros Hp. split; [|done]. intros ref [= <-]. by left. Qed.
Lemma resolves_bundle name key :
  key ∈ RequiredProjectCredentialKeys →
  resolves (env_secret name (sps_ProjectCredentialsSecret (prj_Spec p)) key).
Proof. intros Hk. split; [|done]. intros ref [= <-]. by right. Qed.
Lemma resolves_jwks name : resolves (env_configmap name (JWKSConfigMapName p) JWKSDataKey).
Proof.
  split; [done|]. intros ref [= <-]. exists (BuildJWKSConfigMap p jwks).
  split; [right; left|]. split; [done|]. exists jwks. apply lookup_singleton_eq.
Qed.

Lemma has_role_provides h i name role key :
  has_role p h i secrets name role → key = "username" ∨ key = "password" → provides secrets name key.
Proof.
  intros (s & Hs & b & _ & _ & Hw) Hk. eapply (secret_with_provides p secrets _ _ _ _ s Hs Hw).
  rewrite lookup_union. destruct Hk as [->| ->]; [by rewrite lookup_insert_eq|].
  by rewrite lookup_insert_ne, lookup_singleton_eq by done.
Qed.
Lemma named_or (name default : string) :
  name = default → (if bool_decide (name = "") then default else name) = default.
Proof. intros ->. by case_bool_decide. Qed.

Context (h : trace) (Hinv : inventory p h secrets sn).

(** The Secret of a hook or of the fallback key: recorded, or by its name. *)
Lemma resolves_fallback name :
  resolves (env_secret name (if bool_decide (sn_GoTrueFallback sn = "") then GoTrueFallbackSecretName p
                             else sn_GoTrueFallback sn) GoTrueFallbackSecretKey).
Proof using Hinv. rewrite named_or by apply Hinv. apply resolves_secret, Hinv. Qed.
Lemma resolves_hook name :
  resolves (env_secret name (if bool_decide (sn_EmailHook sn = "") then EmailHookSecretName p
                             else sn_EmailHook sn) "secret").
Proof using Hinv. rewrite named_or by apply Hinv. apply resolves_secret, Hinv. Qed.
Lemma resolves_role i name secret role key :
  has_role p h i secrets secret role → bool_decide (key ∈ ["username"; "password"]) = true →
  resolves (env_secret name secret key).
Proof.
  intros Hr Hk%bool_decide_eq_true. eapply resolves_secret, has_role_provides; [exact Hr|]. set_solver.
Qed.
Lemma resolves_required name key :
  bool_decide (key ∈ RequiredProjectCredentialKeys) = true →
  resolves (env_secret name (sps_ProjectCredentialsSecret (prj_Spec p)) key).
Proof. intros Hk%bool_decide_eq_true. by apply resolves_bundle. Qed.

Ltac resolve_leaf := first
  [ apply resolves_value | apply resolves_jwks | apply resolves_fallback | apply resolves_hook
  | apply resolves_secret, (inv_token _ _ _ _ Hinv)
  | apply resolves_required; reflexivity
  | eapply resolves_role; [first [apply (inv_admin _ _ _ _ Hinv) | apply (inv_authenticator _ _ _ _ Hinv)
      | apply (inv_auth_admin _ _ _ _ Hinv) | apply (inv_storage _ _ _ _ Hinv)
      | apply (inv_replication _ _ _ _ Hinv)]|reflexivity] ].
Ltac resolve := repeat (apply Forall_cons; split; [resolve_leaf|]); try by apply Forall_nil.

Lemma operator_env_resolves dbHost : Forall resolves (operator_env p sn dbHost).
Proof using Hinv.
  unfold operator_env, buildAuthEnv, applyGoTrueEnv, BuildDatabaseEnv. cbv zeta.
  match goal with |- context [as_GoTrueEnv ?a] => change (as_GoTrueEnv a) with (@nil GoTrueEnvVar) end.
  cbn [foldl fst]. rewrite !Forall_app. split_and!; try resolve.
  - destruct (as_Providers _) as [pr|]; [|by apply Forall_nil]. rewrite Forall_app. split.
    + destruct (aps_Google pr) as [g|]; [|by apply Forall_nil].
      destruct (gp_Enabled g); [|by apply Forall_nil]. destruct (gp_SkipNonceCheck g); resolve.
    + destruct (aps_Apple pr) as [a|]; [|by apply Forall_nil]. destruct (ap_Enabled a); resolve.
  - destruct (as_EmailHook _) as [hook|]; [|by apply Forall_nil]. destruct (eh_Enabled hook); resolve.
Qed.

Lemma pods_resolve c t :
  (c, t) ∈ pods p ps sn → c ≠ AuthComponentName → Forall resolves (pod_env t).
Proof using Hinv.
  unfold pods, deployments. intros Ht Hc. rewrite !elem_of_app in Ht. destruct Ht as [Ht|[Ht|Ht]].
  - cbn [fmap list_fmap prod_map fst snd id] in Ht.
    repeat (apply elem_of_cons in Ht as [[= -> ->]|Ht];
      [try done; erewrite pod_env_pulled by reflexivity; cbn; by resolve|]).
    by apply not_elem_of_nil in Ht.
  - unfold BuildPowersyncCompactCronJob in Ht. destruct (negb _); [by apply not_elem_of_nil in Ht|].
    apply list_elem_of_singleton in Ht. injection Ht as -> ->.
    erewrite pod_env_pulled by reflexivity. cbn. resolve.
  - apply list_elem_of_singleton in Ht. injection Ht as -> ->. unfold pod_env. cbn. resolve.
Qed.

(** ** Volumes *)

Context (Hcdc : BuildCDCMigrationsConfigMap p = inr cdc).
Context (Hrules : sr_ConfigMapRef (pss_SyncRules ps) ≠ "" ∨ sr_Inline (pss_SyncRules ps) ≠ "").

Lemma mounted_map name cm mode :
  cm ∈ config_maps → mounted (configmap_volume name (om_Name (cm_meta cm)) mode).
Proof. intros Hcm nv [= <-]. left. by exists cm. Qed.
Lemma mounted_empty name : mounted (emptydir_volume name).
Proof. by intros nv. Qed.
Lemma mounted_rules name mode : mounted (configmap_volume name (SyncRulesConfigMapName p ps) mode).
Proof using Hrules.
  unfold SyncRulesConfigMapName. case_bool_decide as Hr.
  - intros nv [= <-]. by right.
  - assert (Hi : sr_Inline (pss_SyncRules ps) ≠ "") by (by destruct Hrules).
    intros nv [= <-]. left. unfold config_maps, BuildPowersyncSyncRulesConfigMap.
    rewrite (bool_decide_eq_false_2 (_ ≠ "")) by (intros Hn; by apply Hn).
    rewrite bool_decide_eq_false_2 by done. eexists. split; [apply elem_of_app; right; by left|done].
Qed.
Lemma cdc_name : om_Name (cm_meta cdc) = CDCConfigMapName p.
Proof using Hcdc.
  unfold BuildCDCMigrationsConfigMap in Hcdc. destruct (buildCDCSetupScript p); [done|].
  by injection Hcdc as <-.
Qed.

Ltac mount := repeat (apply Forall_cons; split; [first
  [ apply mounted_empty | apply mounted_rules
  | apply (mounted_map _ (BuildEnvoyConfigMap p)); do 2 right; left
  | apply (mounted_map _ (BuildPowersyncConfigMap p)); do 3 right; left
  | rewrite <- cdc_name; apply mounted_map; do 4 right; left ]|]);
  try by apply Forall_nil.

Lemma pod_volumes_pulled t spec :
  pt_Spec t = AddImagePullSecrets spec p → ps_Volumes (pt_Spec t) = ps_Volumes spec.
Proof. intros ->. by destruct (AddImagePullSecrets_containers spec p) as (_ & _ & ->). Qed.
Lemma pods_mounted c t : (c, t) ∈ pods p ps sn → Forall mounted (ps_Volumes (pt_Spec t)).
Proof using Hcdc Hrules.
  unfold pods, deployments. intros Ht. rewrite !elem_of_app in Ht. destruct Ht as [Ht|[Ht|Ht]].
  - cbn [fmap list_fmap prod_map fst snd id] in Ht.
    repeat (apply elem_of_cons in Ht as [[= -> ->]|Ht];
      [erewrite pod_volumes_pulled by reflexivity; cbn [ps_Volumes new_podspec]; by mount|]).
    by apply not_elem_of_nil in Ht.
  - unfold BuildPowersyncCompactCronJob in Ht. destruct (negb _); [by apply not_elem_of_nil in Ht|].
    apply list_elem_of_singleton in Ht. injection Ht as -> ->.
    erewrite pod_volumes_pulled by reflexivity. cbn [ps_Volumes new_podspec]. mount.
  - apply list_elem_of_singleton in Ht. injection Ht as -> ->.
    change (ps_Volumes _) with [configmap_volume "scripts" (CDCConfigMapName p) (Some 493)]. mount.
Qed.
End Pods.

(** C12: no dangling reference.  For a project with PowerSync, with the names
    of one generation, valid sync rules and a publication the code accepts:
    every variable of every pod that reads a Secret reads a key of a generated
    Secret or a required key of the credential bundle, every variable that
    reads a ConfigMap and every ConfigMap volume finds a ConfigMap the operator
    writes, with that key (or the sync rules the project names); only what the
    project itself configures for GoTrue can point elsewhere. *)
Theorem references_resolve `{Platform} `{UrlLib} p ps secrets sn jwks cdc c t :
  generation p secrets sn →
  BuildCDCMigrationsConfigMap p = inr cdc →
  sr_ConfigMapRef (pss_SyncRules ps) ≠ "" ∨ sr_Inline (pss_SyncRules ps) ≠ "" →
  (c, t) ∈ pods p ps sn →
  Forall (mounted p ps jwks cdc) (ps_Volumes (pt_Spec t)) ∧
  ∀ v, v ∈ pod_env t →
    resolves p ps secrets jwks cdc v ∨
    (c = AuthComponentName ∧
     ∃ configured, configured ∈ as_GoTrueEnv (sps_Auth (prj_Spec p)) ∧ v = gotrue_variable configured).
Proof.
  intros [h Hg%generates_inventory] Hcdc Hrules Ht. split; [by eapply pods_mounted|]. intros v Hv.
  destruct (decide (c = AuthComponentName)) as [->|Hc].
  - assert (t = dp_Template (BuildAuthDeployment p sn)) as -> by (by eapply pods_auth).
    erewrite pod_env_pulled in Hv by reflexivity. cbn in Hv. rewrite app_nil_r in Hv.
    destruct (buildAuthEnv_origin p sn _ v Hv) as [Hop|Hconf]; [left|by right].
    eapply (proj1 (Forall_forall _ _) (operator_env_resolves p ps secrets sn jwks cdc h Hg _)); eauto.
  - left. eapply (proj1 (Forall_forall _ _) (pods_resolve p ps secrets sn jwks cdc h Hg c t Ht Hc)); eauto.
Qed.
