(* ===== verification/Effort.v ===== *)
(** * The requests of a reconciliation are bounded

    [costs n e m]: a run of [m] makes at most [n] requests if it succeeds, and
    at most [e] more if it fails (a failure is reported before it is
    returned).  The walk over the controller adds the phases up. *)

From S2P Require Import Prelude KubeTypes Types Platform Effects Common ConfigMaps Cnpg Encoding Sha256 Crypto Secrets Deployments Services ObjectSync ClusterSync Store Provisioning Database CoreServices PowerSync Reconciler ErrorFlow Safety Gate.

(** The server answers a status update with the spec it was sent. *)
Definition spec_kept : policy := {| rely := keeps_spec; guarantee := λ _ _, True |}.

Section Costs.
Context (N : nat).

(** At most [N] GoTrue variables are configured. *)
Definition small (s : SupabaseProject) : Prop :=
  (length (as_GoTrueEnv (sps_Auth (prj_Spec s))) ≤ N)%nat.
Definition surcharge {A} (e : nat) (r : result A) : nat :=
  match r with inl _ => e | inr _ => 0%nat end.
Definition costs {A} (n e : nat) (m : M A) : Prop :=
  ∀ s tr s' r, small s → runs (m s) tr (s', r) → relies spec_kept tr →
    small s' ∧ (length tr ≤ n + surcharge e r)%nat.

Lemma costs_weaken {A} n e n' e' (m : M A) :
  costs n e m → (n ≤ n')%nat → (e ≤ e')%nat → costs n' e' m.
Proof.
  intros Hm Hn He s tr s' r Hs Hr Hrel. destruct (Hm s tr s' r Hs Hr Hrel) as [? Hl].
  split; [done|]. destruct r; cbn in *; lia.
Qed.
Lemma costs_ret {A} n e (a : A) : costs n e (mret a).
Proof. intros s tr s' r Hs [-> [= -> ->]] _. cbn. split; [done|lia]. Qed.
Lemma costs_throw {A} n e err : costs n e (throw (A := A) err).
Proof. intros s tr s' r Hs [-> [= -> ->]] _. cbn. split; [done|lia]. Qed.
Lemma costs_lift {A} n e (r : result A) : costs n e (lift r).
Proof. intros s tr s' r' Hs [-> [= -> ->]] _. cbn. split; [done|lia]. Qed.
Lemma costs_get_project n e : costs n e get_project.
Proof. intros s tr s' r Hs [-> [= -> ->]] _. cbn. split; [done|lia]. Qed.
Lemma costs_modify f n e : (∀ s, prj_Spec (f s) = prj_Spec s) → costs n e (modify_project f).
Proof.
  intros Hf s tr s' r Hs [-> [= -> ->]] _. unfold small in *. rewrite Hf. cbn. split; [done|lia].
Qed.
Lemma costs_modify_status f n e : costs n e (modify_status f).
Proof. unfold modify_status. apply costs_modify. by intros s. Qed.
Lemma costs_deref {A} n e (o : option A) : costs n e (deref o).
Proof. destruct o; [apply costs_ret|apply costs_throw]. Qed.
Lemma costs_call r : costs 1 0 (call r).
Proof. intros s tr s' v Hs (a & tr' & -> & -> & [= -> ->]) _. cbn. split; [done|lia]. Qed.

Lemma costs_bind {A B} n1 e1 n e (m : M A) (f : A → M B) :
  costs n1 e1 m → (n1 ≤ n)%nat → (e1 ≤ e)%nat → (∀ a, costs (n - n1) e (f a)) →
  costs n e (m ≫= f).
Proof.
  intros Hm Hn He Hf s tr s' r Hs Hr Hrel.
  destruct (runs_bind_inv _ _ _ _ _ _ Hr) as [(err & -> & H1)|(tr1 & tr2 & p1 & a & -> & H1 & H2)].
  - destruct (Hm _ _ _ _ Hs H1 Hrel) as [? Hl]. split; [done|]. cbn in *. lia.
  - apply Forall_app in Hrel as [Hrel1 Hrel2].
    destruct (Hm _ _ _ _ Hs H1 Hrel1) as [Hs1 Hl1]. destruct (Hf a _ _ _ _ Hs1 H2 Hrel2) as [? Hl2].
    split; [done|]. rewrite length_app. cbn in *. lia.
Qed.
(** A step about whose value something is known. *)
Lemma costs_bind_known {A B} (Q : A → Prop) n1 e1 n e (m : M A) (f : A → M B) :
  (∀ s tr s' a, runs (m s) tr (s', inr a) → Q a) →
  costs n1 e1 m → (n1 ≤ n)%nat → (e1 ≤ e)%nat → (∀ a, Q a → costs (n - n1) e (f a)) →
  costs n e (m ≫= f).
Proof.
  intros HQ Hm Hn He Hf s tr s' r Hs Hr Hrel.
  destruct (runs_bind_inv _ _ _ _ _ _ Hr) as [(err & -> & H1)|(tr1 & tr2 & p1 & a & -> & H1 & H2)].
  - destruct (Hm _ _ _ _ Hs H1 Hrel) as [? Hl]. split; [done|]. cbn in *. lia.
  - apply Forall_app in Hrel as [Hrel1 Hrel2].
    destruct (Hm _ _ _ _ Hs H1 Hrel1) as [Hs1 Hl1].
    destruct (Hf a (HQ _ _ _ _ H1) _ _ _ _ Hs1 H2 Hrel2) as [? Hl2].
    split; [done|]. rewrite length_app. cbn in *. lia.
Qed.
(** Reading the project: it is still small. *)
Lemma costs_bind_get {B} n e (f : SupabaseProject → M B) :
  (∀ p, small p → costs n e (f p)) → costs n e (get_project ≫= f).
Proof. intros Hf s tr s1 r Hs Hr Hrel. exact (Hf s Hs s tr s1 r Hs Hr Hrel). Qed.
Lemma costs_never {A} n e (m : M A) : costs n e m → never m → costs 0 (n + e) m.
Proof.
  intros Hm Hn s tr s' r Hs Hr Hrel. destruct (Hm s tr s' r Hs Hr Hrel) as [? Hl]. split; [done|].
  destruct r; [cbn in *; lia|by destruct (Hn _ _ _ _ Hr)].
Qed.
Lemma costs_attempt {A} n e (m : M A) : costs n e m → costs (n + e) 0 (attempt m).
Proof.
  intros Hm s tr s' r Hs Hr Hrel.
  destruct r as [err|r].
  - apply runs_bind in Hr as (tr1 & tr2 & [p1 r1] & -> & H1 & [-> [=]]).
  - apply runs_attempt_inv in Hr. destruct (Hm _ _ _ _ Hs Hr Hrel) as [? Hl]. split; [done|].
    destruct r; cbn in *; lia.
Qed.
(** An error handler that never succeeds only adds to the surcharge. *)
Lemma costs_catch {A} n e e' (m : M A) f :
  costs n e m → (∀ err, never (f err)) → (∀ err, costs 0 e' (f err)) →
  costs n (e + e') (catch m f).
Proof.
  intros Hm Hn Hf s tr s' r Hs Hr Hrel. unfold catch in Hr.
  destruct (runs_bind_inv _ _ _ _ _ _ Hr) as [(err & -> & H1)|(tr1 & tr2 & p1 & o & -> & H1 & H2)].
  - apply runs_bind in H1 as (? & ? & ? & _ & _ & [_ [=]]).
  - apply runs_attempt_inv in H1. apply Forall_app in Hrel as [Hrel1 Hrel2].
    destruct (Hm _ _ _ _ Hs H1 Hrel1) as [Hs1 Hl1]. rewrite length_app. destruct o as [err|a].
    + destruct (Hf err _ _ _ _ Hs1 H2 Hrel2) as [? Hl2]. split; [done|].
      destruct r; [cbn in *; lia|by destruct (Hn err _ _ _ _ H2)].
    + destruct H2 as [-> [= -> ->]]. split; [done|]. cbn in *. lia.
Qed.
Lemma costs_then_throw {A} n e err (m : M unit) : costs n e m → costs 0 (n + e) (_ ← m; throw (A := A) err).
Proof.
  intros Hm. apply costs_never; [|by apply never_then; intros; apply never_throw].
  eapply costs_bind; [exact Hm|lia|lia|]. intros _. apply costs_throw.
Qed.
Lemma costs_on_error {A} n e n' e' (m : M A) h :
  costs n e m → (∀ err, costs n' e' (h err)) → costs n (e + (n' + e')) (on_error m h).
Proof.
  intros Hm Hh. apply costs_catch; [done| |]; intros err; [|by apply costs_then_throw].
  apply never_then. intros _. apply never_throw.
Qed.
Lemma costs_map_error {A} n e (m : M A) f : costs n e m → costs n e (map_error m f).
Proof.
  intros Hm. rewrite <- (Nat.add_0_r e). apply costs_catch; [done| |]; intros err; [apply never_throw|apply costs_throw].
Qed.
Lemma costs_when b n e (m : M unit) : costs n e m → costs n e (when b m).
Proof. intros Hm. destruct b; [done|apply costs_ret]. Qed.
Lemma costs_for_each {A} n e (l : list A) f :
  (∀ x, costs n e (f x)) → costs (length l * n) e (for_each l f).
Proof.
  intros Hf. induction l as [|x l IH]; [apply costs_ret|]. cbn [length for_each].
  eapply costs_bind; [apply Hf|lia|lia|]. intros _. eapply costs_weaken; [exact IH|lia|lia].
Qed.
Lemma costs_call_err r f : costs 1 0 (call_err r f).
Proof.
  eapply costs_bind; [apply costs_call|lia|lia|]. intros v.
  destruct (f v); [apply costs_throw|apply costs_ret].
Qed.
Lemma costs_call_lift {A} r (f : response r → result A) : costs 1 0 (v ← call r; lift (f v)).
Proof. eapply costs_bind; [apply costs_call|lia|lia|]. intros v. apply costs_lift. Qed.
End Costs.

(** ** Automation *)

Create HintDb costs.
#[export] Hint Constants Opaque : costs.
#[export] Hint Resolve costs_call costs_call_err costs_call_lift : costs.
#[export] Hint Extern 1 (costs _ _ _ (mret ?a)) => exact (costs_ret _ 0 0 a) : costs.
#[export] Hint Extern 1 (costs _ _ _ (throw ?e)) => exact (costs_throw _ 0 0 e) : costs.
#[export] Hint Extern 1 (costs _ _ _ (lift ?r)) => exact (costs_lift _ 0 0 r) : costs.
#[export] Hint Extern 1 (costs _ _ _ (deref ?o)) => exact (costs_deref _ 0 0 o) : costs.
#[export] Hint Extern 1 (costs _ _ _ (modify_status ?f)) =>
  exact (costs_modify_status _ f 0 0) : costs.
#[export] Hint Extern 1 (costs _ _ _ (call ?r)) => exact (costs_call _ r) : costs.
#[export] Hint Extern 1 (costs _ _ _ (api_get _ _)) => apply @costs_call_lift : costs.
#[export] Hint Extern 1 (costs _ _ _ (api_update _ _)) => apply @costs_call_lift : costs.
#[export] Hint Extern 1 (costs _ _ _ (api_create _ _)) => apply @costs_call_err : costs.
#[export] Hint Extern 1 (costs _ _ _ (api_delete _ _ _)) => apply @costs_call_err : costs.

Ltac budget := cbn [length]; lia.
(** The cost of a step that comes first. *)
Ltac cost_head :=
  cbv beta zeta;
  lazymatch goal with
  | |- costs _ _ _ (catch _ _) =>
      eapply costs_catch; [cost_head|intros ?; solve [never_auto; auto with honest]|intros ?; cost_head]
  | |- costs _ _ _ (on_error _ _) => eapply costs_on_error; [cost_head|intros ?; cost_head]
  | |- costs _ _ _ (map_error _ _) => eapply costs_map_error; cost_head
  | |- costs _ _ _ (when _ _) => eapply costs_when; cost_head
  | |- costs _ _ _ (attempt _) => eapply costs_attempt; cost_head
  | |- costs _ _ _ (for_each _ _) => eapply costs_for_each; intros ?; cost_head
  | |- _ => solve [eauto with costs]
  end.
(** Walk through a function with its budget. *)
Ltac cost_step :=
  cbv beta zeta;
  lazymatch goal with
  | |- costs _ _ _ (get_project ≫= _) => apply costs_bind_get; intros ? ?
  | |- costs _ _ _ (match ?x with _ => _ end) => destruct x eqn:?
  | |- costs _ _ _ (_ ≫= _) => eapply costs_bind; [cost_head|budget|budget|intros ?]
  | |- costs _ _ _ _ => eapply costs_weaken; [cost_head|budget|budget]
  end.
Ltac cost := repeat cost_step.
(** A step that branches, at the given cost. *)
Tactic Notation "cost_bind" constr(n) constr(e) :=
  cbv beta zeta; eapply (costs_bind _ n e); [cost|budget|budget|intros ?; cost].

(** ** Helpers *)

Section Helpers.
Context `{Platform} (N : nat).

Lemma setCondition_costs t s r m : costs N 1 0 (setCondition t s r m).
Proof. unfold setCondition. eapply costs_bind; [cost_head|budget|budget|]. intros now. by apply costs_modify. Qed.
Lemma updateProjectStatus_costs : costs N 2 0 updateProjectStatus.
Proof.
  unfold updateProjectStatus. apply costs_bind_get. intros p Hp.
  eapply costs_bind; [cost_head|budget|budget|]. intros current. destruct (deep_equal _ _); [cost|].
  intros s tr s' r Hs (v & tr' & -> & Hr) Hrel. apply Forall_cons in Hrel as [Hv _].
  destruct v as [err|stored]; destruct Hr as [-> [= -> ->]]; cbn in *; split; try done; try lia.
  unfold small in *. destruct Hv as [_ Hv]. by rewrite Hv.
Qed.
Hint Resolve setCondition_costs updateProjectStatus_costs : costs.
Lemma report_costs t s r m : costs N 3 0 (report t s r m).
Proof. unfold report. cost. Qed.
Lemma set_owner_costs {k} (o : object k) : costs N 0 0 (set_owner o).
Proof. unfold set_owner. cost. Qed.
Lemma lookup_object_costs k key wrap : costs N 1 0 (lookup_object k key wrap).
Proof. unfold lookup_object. cost. Qed.
Lemma update__costs {k} (o : object k) : costs N 1 0 (update_ o).
Proof. unfold update_. cost. Qed.
Hint Resolve report_costs : costs.
Hint Extern 1 (costs _ _ _ (set_owner _)) =>
  match goal with |- costs _ _ _ (@set_owner _ ?k ?o) => exact (@set_owner_costs k o) end : costs.
Hint Extern 1 (costs _ _ _ (lookup_object _ _ _)) =>
  match goal with |- costs _ _ _ (lookup_object ?k ?key ?wrap) =>
    exact (lookup_object_costs k key wrap) end : costs.
Hint Extern 1 (costs _ _ _ (update_ _)) =>
  match goal with |- costs _ _ _ (@update_ ?k ?o) => exact (@update__costs k o) end : costs.

Lemma createOrUpdateSecret_costs s : costs N 2 0 (createOrUpdateSecret s).
Proof. unfold createOrUpdateSecret. cost. Qed.
Lemma createOrUpdateConfigMap_costs c : costs N 2 0 (createOrUpdateConfigMap c).
Proof. unfold createOrUpdateConfigMap. cost. Qed.
Lemma createOrUpdateDeployment_costs d : costs N 2 0 (createOrUpdateDeployment d).
Proof. unfold createOrUpdateDeployment. cost. Qed.
Lemma createOrUpdateService_costs s : costs N 2 0 (createOrUpdateService s).
Proof. unfold createOrUpdateService. cost. Qed.
Lemma createOrUpdateObjectStore_costs o : costs N 2 0 (createOrUpdateObjectStore o).
Proof. unfold createOrUpdateObjectStore. cost. Qed.
Lemma createOrUpdateScheduledBackup_costs o : costs N 2 0 (createOrUpdateScheduledBackup o).
Proof. unfold createOrUpdateScheduledBackup. cost. Qed.
Lemma createOrUpdateCronJob_costs c : costs N 2 0 (createOrUpdateCronJob c).
Proof. unfold createOrUpdateCronJob. cost. Qed.
Lemma createOrCheckJob_costs j h : costs N 2 0 (createOrCheckJob j h).
Proof. unfold createOrCheckJob. cost. cost_bind 1%nat 0%nat. Qed.
Lemma delete_ignore_costs {k} (o : object k) : costs N 1 0 (delete_ignore o).
Proof. unfold delete_ignore. cost. Qed.
Hint Extern 1 (costs _ _ _ (delete_ignore _)) =>
  match goal with |- costs _ _ _ (@delete_ignore ?k ?o) => exact (@delete_ignore_costs k o) end
  : costs.
Lemma deletePowerSyncOwnedResource_costs k n : costs N 2 0 (deletePowerSyncOwnedResource k n).
Proof. unfold deletePowerSyncOwnedResource. cost. Qed.
Lemma deploymentStatus_costs d : costs N 1 0 (deploymentStatus d).
Proof. unfold deploymentStatus. cost. Qed.
End Helpers.

#[export] Hint Resolve setCondition_costs updateProjectStatus_costs report_costs
  createOrUpdateSecret_costs createOrUpdateConfigMap_costs createOrUpdateDeployment_costs
  createOrUpdateService_costs createOrUpdateObjectStore_costs createOrUpdateScheduledBackup_costs
  createOrUpdateCronJob_costs createOrCheckJob_costs deletePowerSyncOwnedResource_costs
  deploymentStatus_costs : costs.
#[export] Hint Extern 1 (costs _ _ _ (set_owner _)) =>
  match goal with |- costs ?N _ _ (@set_owner _ ?k ?o) => exact (@set_owner_costs _ N k o) end
  : costs.
#[export] Hint Extern 1 (costs _ _ _ (lookup_object _ _ _)) =>
  match goal with |- costs ?N _ _ (lookup_object ?k ?key ?wrap) =>
    exact (lookup_object_costs N k key wrap) end : costs.
#[export] Hint Extern 1 (costs _ _ _ (update_ _)) =>
  match goal with |- costs ?N _ _ (@update_ ?k ?o) => exact (@update__costs N k o) end : costs.

(** A function that always reports a failure. *)
Ltac cost_failure n := apply (costs_never _ n 0); [cost|never_auto].

Section Phases.
Context `{Platform} `{CryptoLib} `{UrlLib} (N : nat).
Hint Resolve failEmailHookSecret_never @failReconcileSecrets_never failBackup_never
  failRecovery_never @fail_database_never @fail_component_never failAuthGoTrueEnv_never
  failCoreServices_never : honest.

(** ** Phases 0 to 2 *)

Lemma set_phase_costs phase : costs N 0 0 (set_phase phase).
Proof. apply costs_modify_status. Qed.
Hint Resolve set_phase_costs : costs.
Lemma protect_durable_costs k n : costs N 2 0 (protect_durable k n).
Proof. unfold protect_durable. cost. Qed.
Hint Resolve protect_durable_costs : costs.
Lemma reconcileDurableMetadataProtection_costs : costs N 8 0 reconcileDurableMetadataProtection.
Proof. unfold reconcileDurableMetadataProtection. cost. Qed.

Lemma GenerateEmailHookSecret_costs p : costs N 1 0 (GenerateEmailHookSecret p).
Proof. unfold GenerateEmailHookSecret. cost. Qed.
Lemma GenerateGoTrueFallbackSecret_costs p : costs N 1 0 (GenerateGoTrueFallbackSecret p).
Proof. unfold GenerateGoTrueFallbackSecret. cost. Qed.
Lemma generateRoleSecret_costs p a b : costs N 1 0 (generateRoleSecret p a b).
Proof. unfold generateRoleSecret. cost. Qed.
Hint Resolve GenerateEmailHookSecret_costs GenerateGoTrueFallbackSecret_costs
  generateRoleSecret_costs : costs.
Lemma GenerateSecrets_costs p : costs N 4 0 (GenerateSecrets p).
Proof. unfold GenerateSecrets. cost. Qed.
Lemma GeneratePowersyncSecrets_costs p : costs N 2 0 (GeneratePowersyncSecrets p).
Proof. unfold GeneratePowersyncSecrets. cost. Qed.
Lemma GeneratePowersyncAPITokenSecret_costs p : costs N 1 0 (GeneratePowersyncAPITokenSecret p).
Proof. unfold GeneratePowersyncAPITokenSecret. cost. Qed.
Hint Resolve GenerateSecrets_costs GeneratePowersyncSecrets_costs
  GeneratePowersyncAPITokenSecret_costs : costs.

Lemma failEmailHookSecret_costs r e : costs N 0 3 (failEmailHookSecret r e).
Proof. unfold failEmailHookSecret. cost_failure 3%nat. Qed.
Lemma failReconcileSecrets_costs {A} r m e : costs N 0 4 (failReconcileSecrets (A := A) r m e).
Proof. unfold failReconcileSecrets. cost_failure 4%nat. Qed.
Hint Resolve failEmailHookSecret_costs @failReconcileSecrets_costs : costs.

Lemma reconcileEmailHookSecret_costs : costs N 7 3 reconcileEmailHookSecret.
Proof. unfold reconcileEmailHookSecret. cost. cost_bind 3%nat 3%nat. Qed.
Lemma reconcilePowersyncAPITokenSecret_costs : costs N 4 0 reconcilePowersyncAPITokenSecret.
Proof. unfold reconcilePowersyncAPITokenSecret. cost. Qed.
Lemma all_exist_costs names : costs N (length names) 0 (all_exist names).
Proof. induction names as [|n names IH]; cbn [all_exist]; cost. Qed.
Hint Resolve reconcileEmailHookSecret_costs reconcilePowersyncAPITokenSecret_costs
  all_exist_costs : costs.
(** The two PowerSync role secrets, when one is missing. *)
Lemma powersync_role_secrets_costs p :
  costs N 6 3 (psSecrets ← on_error (GeneratePowersyncSecrets p) (λ err,
                 report ConditionTypeSecretsReady ConditionFalse "PowersyncSecretsFailed" (Error err));
               for_each psSecrets (λ secret,
                 on_error (createOrUpdateSecret secret) (λ err,
                   report ConditionTypeSecretsReady ConditionFalse "CreateFailed" (Error err)))).
Proof.
  eapply (costs_bind_known _ (λ l, length l = 2%nat)); [|cost_head|budget|budget|].
  - intros s tr s' l Hr.
    destruct (runs_bind_inv _ _ _ _ _ _ Hr) as [(? & [=] & _)|(? & ? & ? & [?|l'] & _ & Ha & Hr')];
      apply runs_attempt_inv in Ha.
    { by destruct (runs_bind_inv _ _ _ _ _ _ Hr') as [(? & [=] & _)|(? & ? & ? & ? & _ & _ & [_ [=]])]. }
    destruct Hr' as [_ [= _ <-]]. unfold GeneratePowersyncSecrets in Ha.
    apply runs_bind_inv in Ha as [(? & [=] & _)|(? & ? & ? & [? ?] & _ & _ & Ha)].
    apply runs_bind_inv in Ha as [(? & [=] & _)|(? & ? & ? & [? ?] & _ & _ & Ha)].
    by destruct Ha as [_ [= _ ->]].
  - intros l Hl. eapply costs_weaken; [cost_head|rewrite Hl; budget|budget].
Qed.
Lemma reconcilePowersyncSecrets_costs names : costs N 12 3 (reconcilePowersyncSecrets names).
Proof.
  unfold reconcilePowersyncSecrets. cost.
  eapply (costs_bind _ 6 3); [|budget|budget|intros ?; cost].
  destruct a; [cost|apply powersync_role_secrets_costs].
Qed.
Hint Resolve reconcilePowersyncSecrets_costs : costs.
Lemma GenerateSecrets_length p s tr s' a :
  runs (GenerateSecrets p s) tr (s', inr a) → length a.1 = 4%nat.
Proof.
  unfold GenerateSecrets. intros Hr.
  do 4 apply runs_bind_inv in Hr as [(? & [=] & _)|(? & ? & ? & [? ?] & _ & _ & Hr)].
  by destruct Hr as [_ [= _ ->]].
Qed.
Lemma reconcileImplementationSecrets_costs : costs N 31 3 reconcileImplementationSecrets.
Proof.
  unfold reconcileImplementationSecrets. apply costs_bind_get. intros p Hp.
  eapply costs_bind_known; [apply GenerateSecrets_length|cost_head|budget|budget|].
  intros [generated names] Hl. cbn in Hl.
  eapply (costs_bind _ 8 0); [eapply costs_weaken; [cost_head|rewrite Hl; budget|budget]|budget|budget|].
  intros _. apply costs_bind_get. intros q Hq. cost_bind 12%nat 3%nat.
Qed.
Lemma validate_credentials_costs s : costs N 2 0 (validate_credentials s).
Proof. unfold validate_credentials. cost. Qed.
Hint Resolve reconcileImplementationSecrets_costs validate_credentials_costs : costs.
Lemma reconcileSecrets_costs : costs N 37 7 reconcileSecrets.
Proof. unfold reconcileSecrets. cost. Qed.
Lemma validateRecoveryBootstrapIntent_costs : costs N 2 0 validateRecoveryBootstrapIntent.
Proof. unfold validateRecoveryBootstrapIntent. cost. Qed.
Lemma reconcileInitSQL_costs : costs N 2 0 reconcileInitSQL.
Proof. unfold reconcileInitSQL. cost. Qed.
Lemma reconcileJWKSConfigMap_costs j : costs N 2 3 (reconcileJWKSConfigMap j).
Proof. unfold reconcileJWKSConfigMap. cost. Qed.

(** ** Phases 2.5 to 4 *)

Lemma validateS3Secret_costs ns n : costs N 1 0 (validateS3Secret ns n).
Proof.
  unfold validateS3Secret. eapply (costs_bind _ 1 0); [|budget|budget|intros ?; cost].
  apply (costs_catch _ 1 0 0); [cost_head| |]; intros err;
    [never_auto|]; destruct (IsNotFound err); apply costs_throw.
Qed.
Lemma failBackup_costs r e : costs N 0 3 (failBackup r e).
Proof. unfold failBackup. cost_failure 3%nat. Qed.
Lemma failRecovery_costs r e : costs N 0 3 (failRecovery r e).
Proof. unfold failRecovery. cost_failure 3%nat. Qed.
Lemma fail_database_costs {A} r e : costs N 0 3 (fail_database (A := A) r e).
Proof. unfold fail_database. cost_failure 3%nat. Qed.
Lemma remove_condition_costs t : costs N 0 0 (remove_condition t).
Proof. apply costs_modify_status. Qed.
Lemma delete_durable_costs k w n : costs N 2 0 (delete_durable k w n).
Proof. unfold delete_durable. cost. Qed.
Hint Resolve validateS3Secret_costs failBackup_costs failRecovery_costs @fail_database_costs
  remove_condition_costs delete_durable_costs : costs.
Lemma cleanupBackupResources_costs : costs N 6 0 cleanupBackupResources.
Proof. unfold cleanupBackupResources. cost. Qed.
Lemma cleanupRecoveryResources_costs : costs N 4 0 cleanupRecoveryResources.
Proof. unfold cleanupRecoveryResources. cost. Qed.
Hint Resolve cleanupBackupResources_costs cleanupRecoveryResources_costs : costs.
Lemma reconcileBackup_costs : costs N 8 3 reconcileBackup.
Proof. unfold reconcileBackup. cost. Qed.
Lemma reconcileRecovery_costs : costs N 6 3 reconcileRecovery.
Proof. unfold reconcileRecovery. cost. Qed.
Hint Resolve reconcileBackup_costs reconcileRecovery_costs : costs.
Lemma reconcileBackupInfrastructure_costs : costs N 14 3 reconcileBackupInfrastructure.
Proof. unfold reconcileBackupInfrastructure. cost. Qed.
Lemma sync_cluster_costs e d : costs N 1 3 (sync_cluster e d).
Proof. unfold sync_cluster. cost. Qed.
Hint Resolve sync_cluster_costs : costs.
Lemma reconcileCNPGCluster_costs : costs N 5 3 reconcileCNPGCluster.
Proof. unfold reconcileCNPGCluster. cost. Qed.
Lemma waitForDatabase_costs : costs N 4 0 waitForDatabase.
Proof. unfold waitForDatabase. cost. Qed.

(** ** Phase 5 *)

Lemma set_service_status_costs f : costs N 0 0 (set_service_status f).
Proof. apply costs_modify_status. Qed.
Hint Resolve set_service_status_costs : costs.
Lemma fail_component_costs {A} c r e : costs N 0 3 (fail_component (A := A) c r e).
Proof. unfold fail_component. cost_failure 3%nat. Qed.
Lemma failAuthGoTrueEnv_costs e : costs N 0 3 (failAuthGoTrueEnv e).
Proof. unfold failAuthGoTrueEnv. cost_failure 3%nat. Qed.
Lemma failCoreServices_costs e : costs N 0 3 (failCoreServices e).
Proof. unfold failCoreServices. cost_failure 3%nat. Qed.
Hint Resolve @fail_component_costs failAuthGoTrueEnv_costs failCoreServices_costs : costs.
Lemma reconcileServiceComponent_costs c : costs N 6 3 (reconcileServiceComponent c).
Proof. unfold reconcileServiceComponent. cost. Qed.
Lemma validateGoTrueEnvKey_costs k t h ns ref : costs N 1 0 (validateGoTrueEnvKey k t h ns ref).
Proof. unfold validateGoTrueEnvKey. cost. Qed.
Hint Resolve reconcileServiceComponent_costs validateGoTrueEnvKey_costs : costs.
(** One read per configured variable. *)
Lemma validateGoTrueEnvSources_costs : costs N N 0 validateGoTrueEnvSources.
Proof.
  unfold validateGoTrueEnvSources, validateGoTrueEnvSecretKey, validateGoTrueEnvConfigMapKey.
  apply costs_bind_get. intros p Hp.
  eapply costs_weaken; [apply (costs_for_each _ 1 0)|unfold small in Hp; lia|lia].
  intros configured. cost.
Qed.
Lemma buildAuthDeployment_costs : costs N 1 0 buildAuthDeployment.
Proof. unfold buildAuthDeployment. cost. Qed.
Hint Resolve validateGoTrueEnvSources_costs buildAuthDeployment_costs : costs.
Lemma reconcileAuth_costs h : costs N (N + 7) 3 (reconcileAuth h).
Proof. unfold reconcileAuth. cost. Qed.
Lemma reconcileRest_costs h : costs N 6 3 (reconcileRest h).
Proof. apply reconcileServiceComponent_costs. Qed.
Lemma reconcileStudio_costs h : costs N 6 3 (reconcileStudio h).
Proof. apply reconcileServiceComponent_costs. Qed.
Lemma reconcileMeta_costs : costs N 6 3 reconcileMeta.
Proof. apply reconcileServiceComponent_costs. Qed.
Lemma reconcileGateway_costs h : costs N 8 3 (reconcileGateway h).
Proof.
  unfold reconcileGateway. apply costs_bind_get. intros p Hp.
  eapply (costs_bind _ 2 3); [|budget|budget|intros ?; cost].
  apply (costs_catch _ 2 0 3); [cost_head| |]; intros err; [never_auto|cost_failure 3%nat].
Qed.
Hint Resolve reconcileAuth_costs reconcileRest_costs reconcileStudio_costs reconcileMeta_costs
  reconcileGateway_costs : costs.
Lemma reconcileServices_costs c : costs N (N + 36) 6 (reconcileServices c).
Proof.
  unfold reconcileServices. cbv zeta.
  do 5 (eapply costs_bind; [cost_head|budget|budget|intros _]).
  apply costs_bind_get. intros p Hp. apply costs_when. cost.
Qed.

(** ** Phase 6 *)

Lemma powersync_spec_costs : costs N 0 0 powersync_spec.
Proof. unfold powersync_spec. cost. Qed.
Hint Resolve powersync_spec_costs : costs.
Lemma loadAndValidatePowerSyncRules_costs : costs N 1 0 loadAndValidatePowerSyncRules.
Proof. unfold loadAndValidatePowerSyncRules. cost. cost_bind 1%nat 0%nat. Qed.
Hint Resolve loadAndValidatePowerSyncRules_costs : costs.
Lemma reconcilePowerSyncRulesValidation_costs : costs N 1 3 reconcilePowerSyncRulesValidation.
Proof. unfold reconcilePowerSyncRulesValidation. cost. Qed.
Lemma waitForPowerSyncManagedRoles_costs : costs N 4 3 waitForPowerSyncManagedRoles.
Proof. unfold waitForPowerSyncManagedRoles. cost. Qed.
Lemma publication_pending_costs m : costs N 3 0 (publication_pending m).
Proof. unfold publication_pending. cost. Qed.
Hint Resolve publication_pending_costs : costs.
Lemma reconcilePowerSyncPublication_costs : costs N 5 0 reconcilePowerSyncPublication.
Proof. unfold reconcilePowerSyncPublication. cost. Qed.
Lemma reconcileCDCPermissions_costs : costs N 7 3 reconcileCDCPermissions.
Proof. unfold reconcileCDCPermissions. cost. Qed.
Lemma powersync_failed_costs r e : costs N 3 0 (powersync_failed r e).
Proof. unfold powersync_failed. cost. Qed.
Lemma cleanupPowerSyncCompact_costs : costs N 2 0 cleanupPowerSyncCompact.
Proof. unfold cleanupPowerSyncCompact. cost. Qed.
Hint Resolve powersync_failed_costs cleanupPowerSyncCompact_costs : costs.
Lemma reconcilePowersync_costs r : costs N 17 3 (reconcilePowersync r).
Proof. unfold reconcilePowersync. cost. cost_bind 2%nat 3%nat. cost_bind 2%nat 3%nat. Qed.
Lemma cleanupPowerSync_costs : costs N 20 0 cleanupPowerSync.
Proof. unfold cleanupPowerSync, powersync_resources. cost. Qed.

(** ** The reconciler *)

Hint Resolve reconcileDurableMetadataProtection_costs reconcileSecrets_costs
  validateRecoveryBootstrapIntent_costs reconcileInitSQL_costs reconcileJWKSConfigMap_costs
  reconcileBackupInfrastructure_costs reconcileCNPGCluster_costs waitForDatabase_costs
  reconcileServices_costs reconcilePowerSyncRulesValidation_costs
  waitForPowerSyncManagedRoles_costs reconcilePowerSyncPublication_costs
  reconcileCDCPermissions_costs reconcilePowersync_costs cleanupPowerSync_costs : costs.
Lemma or_requeue_costs n1 e1 n e m k :
  costs N n1 e1 m → (n1 ≤ n)%nat → (e1 ≤ e)%nat → costs N (n - n1) e k →
  costs N n e (or_requeue m k).
Proof.
  intros Hm ? ? Hk. eapply costs_bind; [exact Hm|done|done|]. intros [d|]; [|done].
  apply costs_ret.
Qed.
Lemma complete_costs : costs N 3 0 complete.
Proof. unfold complete. cost. Qed.
Hint Resolve complete_costs : costs.
Lemma reconcilePowerSyncPhase_costs : costs N 37 3 (reconcilePowerSyncPhase complete).
Proof.
  unfold reconcilePowerSyncPhase. cost.
  do 4 (eapply or_requeue_costs; [cost_head|budget|budget|]). cost.
Qed.
Hint Resolve reconcilePowerSyncPhase_costs : costs.
Lemma reconcileWorkloads_costs c : costs N (N + 73) 6 (reconcileWorkloads c).
Proof. unfold reconcileWorkloads. cost. Qed.
Hint Resolve reconcileWorkloads_costs : costs.
Lemma reconcileProject_costs : costs N (N + 147) 7 reconcileProject.
Proof.
  unfold reconcileProject. cost.
  do 2 (eapply or_requeue_costs; [cost_head|budget|budget|]). cost.
Qed.
End Phases.

(** ** The bound *)

Section Bound.
Context `{Platform} `{CryptoLib} `{UrlLib}.

(** The GoTrue variables of the project the run starts by reading. *)
Definition configured_variables (tr : trace) : nat :=
  match tr with
  | Ev (Get KProject _) (inr project) :: _ => length (as_GoTrueEnv (sps_Auth (prj_Spec project)))
  | _ => 0
  end.
(** What a run may cost beyond the one read per variable. *)
Definition request_budget {A} (r : result A) : nat :=
  match r with inl _ => 155 | inr _ => 148 end.

(** C8: a reconciliation is a bounded amount of work.  Whatever the API
    server answers (as long as a status update does not change the spec), one
    call of Reconcile makes at most 148 requests, the clock and the random
    source included, plus one per GoTrue variable of the project it has read,
    and at most 7 more to report a failure: there is no unbounded loop, no
    wait and no retry inside a reconciliation. *)
Theorem Reconcile_bounded key tr r :
  runs (Reconcile key) tr r → relies spec_kept tr →
  (length tr ≤ configured_variables tr + request_budget r)%nat.
Proof.
  intros (v & tr' & -> & Hr) [_ Hrel]%Forall_cons. destruct v as [err|project]; cbn in Hr |- *.
  - destruct (IsNotFound err); destruct Hr as [-> ->]; cbn; lia.
  - apply runs_bind in Hr as (tr1 & tr2 & [p r'] & -> & Hr & [-> ->]).
    rewrite app_nil_r in *.
    destruct (reconcileProject_costs (length (as_GoTrueEnv (sps_Auth (prj_Spec project))))
      project _ _ _ (le_n _) Hr Hrel) as [_ Hl].
    destruct r'; cbn in *; lia.
Qed.
End Bound.
