(* ===== verification/Frugal.v ===== *)
(** * No write without a reason

    The controller writes only what its own reads call for: right before each
    write it reads the object concerned; it creates what the server then said
    is missing, updates and deletes what the server then returned, and never
    sends an update that changes nothing.  [frugal h m] is the property of a
    function that runs after the history [h]; it is compositional (only steps
    without requests keep the last read), and needs no assumption on the server. *)

From S2P Require Import Prelude KubeTypes Types Platform Effects Common ConfigMaps Cnpg Encoding Sha256 Crypto Secrets Deployments Services ObjectSync ClusterSync Store Apply Provisioning Database CoreServices PowerSync Reconciler ErrorFlow.

(** The last event of the history is this read and its answer. *)
Definition last_read (h : trace) (k : kind) (key : NamespacedName) (v : result (object k)) : Prop :=
  ∃ h0, h = h0 ++ [Ev (Get k key) v].
(** What a request needs to have been read, as the last event before it. *)
Definition needed (h : trace) (r : request) : Prop :=
  match r with
  | Create k o => ∃ e, last_read h k (obj_key o) (inl e) ∧ IsNotFound e = true
  | Update k o => ∃ key old, last_read h k key (inr old) ∧
      obj_key o = obj_key old ∧ om_UID (obj_meta o) = om_UID (obj_meta old) ∧ o ≠ old
  | Delete k o _ => ∃ key (old : object k), last_read h k key (inr old) ∧
      obj_key o = obj_key old ∧ om_UID (obj_meta o) = om_UID (obj_meta old)
  | StatusUpdate p => ∃ q : object KProject,
      last_read h KProject (meta_key (prj_meta p)) (inr q) ∧ prj_Status q ≠ prj_Status p
  | Get _ _ | ListProjects _ | Now | RandRead _ => True
  end.
Definition frugal {A} (h : trace) (m : M A) : Prop :=
  ∀ s tr s' r, runs (m s) tr (s', r) →
    ∀ tr1 e tr2, tr = tr1 ++ e :: tr2 → needed (h ++ tr1) (ev_req e).

Lemma last_read_app h' h k key v : last_read h k key v → last_read (h' ++ h) k key v.
Proof. intros [h0 ->]. exists (h' ++ h0). by rewrite app_assoc. Qed.
Lemma last_read_snoc h k key v : last_read (h ++ [Ev (Get k key) v]) k key v.
Proof. by exists h. Qed.
Lemma needed_app h' h r : needed h r → needed (h' ++ h) r.
Proof.
  pose proof (last_read_app h' h) as Hl. destruct r; cbn; try done.
  - intros (e & He & Hn). eauto.
  - intros (key & old & Hf & Hn). eauto.
  - intros (key & old & Hf & Hn). eauto.
  - intros (q & Hf & Hn). eauto.
Qed.
#[export] Hint Resolve last_read_snoc : core.

(** ** Rules *)

Section Rules.
Lemma frugal_nil {A} h (m : M A) : frugal [] m → frugal h m.
Proof. intros Hm s tr s' r Hr tr1 e tr2 E. by eapply needed_app, (Hm _ _ _ _ Hr tr1 e tr2). Qed.
(** Without requests. *)
Definition silent {A} (m : M A) : Prop := ∀ s tr s' r, runs (m s) tr (s', r) → tr = [].
Lemma frugal_silent {A} h (m : M A) : silent m → frugal h m.
Proof. intros Hm s tr s' r Hr tr1 e tr2 ->. apply Hm in Hr. by destruct tr1. Qed.
Lemma silent_ret {A} (a : A) : silent (mret a).
Proof. by intros s tr s' r [-> _]. Qed.
Lemma silent_throw {A} e : silent (throw (A := A) e).
Proof. by intros s tr s' r [-> _]. Qed.
Lemma silent_lift {A} (r : result A) : silent (lift r).
Proof. by intros s tr s' r' [-> _]. Qed.
Lemma silent_get_project : silent get_project.
Proof. by intros s tr s' r [-> _]. Qed.
Lemma silent_modify f : silent (modify_project f).
Proof. by intros s tr s' r [-> _]. Qed.
Lemma silent_modify_status f : silent (modify_status f).
Proof. apply silent_modify. Qed.
Lemma silent_put q : silent (put_project q).
Proof. by intros s tr s' r [-> _]. Qed.
Lemma silent_deref {A} (o : option A) : silent (deref o).
Proof. destruct o; [apply silent_ret|apply silent_throw]. Qed.
Lemma frugal_ret {A} h (a : A) : frugal h (mret a).
Proof. apply frugal_silent, silent_ret. Qed.
Lemma frugal_throw {A} h e : frugal h (throw (A := A) e).
Proof. apply frugal_silent, silent_throw. Qed.
Lemma frugal_lift {A} h (r : result A) : frugal h (lift r).
Proof. apply frugal_silent, silent_lift. Qed.
Lemma frugal_modify h f : frugal h (modify_project f).
Proof. apply frugal_silent, silent_modify. Qed.

(** What was read before a step that sends requests is not the last read
    after it. *)
Lemma frugal_bind {A B} h (m : M A) (f : A → M B) :
  frugal h m → (∀ a, frugal [] (f a)) → frugal h (m ≫= f).
Proof.
  intros Hm Hf s tr s' r Hr.
  destruct (runs_bind_inv _ _ _ _ _ _ Hr) as [(err & -> & H1)|(trA & trB & p1 & a & -> & H1 & H2)].
  { exact (Hm _ _ _ _ H1). }
  intros tr1 e tr2 E.
  assert (Hn : ∀ k, trB = k ++ e :: tr2 → needed (h ++ trA ++ k) (ev_req e)).
  { intros k Ek. rewrite app_assoc. apply needed_app. exact (Hf a _ _ _ _ H2 k e tr2 Ek). }
  apply app_eq_inv in E as [(k & -> & E)|(k & -> & E)].
  - destruct k as [|x k]; simplify_eq/=; [specialize (Hn [] eq_refl); by rewrite !app_nil_r in Hn|].
    exact (Hm _ _ _ _ H1 tr1 x k eq_refl).
  - by apply Hn.
Qed.
Lemma frugal_bind_silent {A B} h (m : M A) (f : A → M B) :
  silent m → (∀ a, frugal h (f a)) → frugal h (m ≫= f).
Proof.
  intros Hm Hf s tr s' r Hr.
  destruct (runs_bind_inv _ _ _ _ _ _ Hr) as [(err & -> & H1)|(trA & trB & p1 & a & -> & H1 & H2)];
    apply Hm in H1 as ->; [by intros [|]|]. exact (Hf a _ _ _ _ H2).
Qed.
Lemma frugal_attempt {A} h (m : M A) : frugal h m → frugal h (attempt m).
Proof.
  intros Hm s tr s' r Hr. apply runs_bind in Hr as (tr1 & tr2 & [p1 r1] & -> & H1 & [-> _]).
  rewrite app_nil_r. exact (Hm _ _ _ _ H1).
Qed.
Lemma frugal_catch {A} h (m : M A) f :
  frugal h m → (∀ e, frugal [] (f e)) → frugal h (catch m f).
Proof.
  intros Hm Hf. apply frugal_bind; [by apply frugal_attempt|]. intros [e|a]; [done|apply frugal_ret].
Qed.
Lemma frugal_on_error {A} h (m : M A) f :
  frugal h m → (∀ e, frugal [] (f e)) → frugal h (on_error m f).
Proof.
  intros Hm Hf. apply frugal_catch; [done|]. intros e. apply frugal_bind; [done|].
  intros _. apply frugal_throw.
Qed.
Lemma frugal_map_error {A} h (m : M A) f : frugal h m → frugal h (map_error m f).
Proof. intros Hm. apply frugal_catch; [done|]. intros e. apply frugal_throw. Qed.
Lemma frugal_when b h m : frugal h m → frugal h (when b m).
Proof. intros Hm. destruct b; [done|apply frugal_ret]. Qed.
Lemma frugal_for_each {A} h (l : list A) f : (∀ x, frugal [] (f x)) → frugal h (for_each l f).
Proof.
  intros Hf. apply frugal_nil. induction l as [|x l IH]; [apply frugal_ret|]. by apply frugal_bind.
Qed.

Lemma frugal_call h r : needed h r → frugal h (call r).
Proof.
  intros Hn s tr s' v (a & tr' & -> & -> & _) [|x tr1] e tr2 E; simplify_eq/=;
    [by rewrite app_nil_r|by destruct tr1].
Qed.
Lemma frugal_call_err h r f : needed h r → frugal h (call_err r f).
Proof.
  intros Hn. apply frugal_bind; [by apply frugal_call|]. intros v.
  destruct (f v); [apply frugal_throw|apply frugal_ret].
Qed.
Lemma frugal_call_lift {A} h r (f : response r → result A) :
  needed h r → frugal h (v ← call r; lift (f v)).
Proof. intros Hn. apply frugal_bind; [by apply frugal_call|]. intros v. apply frugal_lift. Qed.
End Rules.

(** ** Reads that matter later *)

Section Reads.
Lemma frugal_after_read {A} h r v (p : prog (SupabaseProject * result A)) :
  needed h r →
  (∀ tr s' x, runs p tr (s', x) → ∀ tr1 e tr2, tr = tr1 ++ e :: tr2 →
     needed ((h ++ [Ev r v]) ++ tr1) (ev_req e)) →
  ∀ tr s' x, runs p tr (s', x) → ∀ tr1 e tr2, Ev r v :: tr = tr1 ++ e :: tr2 →
     needed (h ++ tr1) (ev_req e).
Proof.
  intros Hn Hp tr s' x Hr [|y tr1] e tr2 E; simplify_eq/=; [by rewrite app_nil_r|].
  rewrite (cons_middle _ h), app_assoc. by eapply Hp.
Qed.
Lemma frugal_lookup {B} h k key wrap (f : option (object k) → M B) :
  (∀ e, IsNotFound e = true → frugal (h ++ [Ev (Get k key) (inl e)]) (f None)) →
  (∀ o, frugal (h ++ [Ev (Get k key) (inr o)]) (f (Some o))) →
  frugal h (lookup_object k key wrap ≫= f).
Proof.
  intros Hnone Hsome s tr s' r ([e|o] & tr' & -> & Hr); cbn in Hr.
  - destruct (IsNotFound e) eqn:He; cbn in Hr.
    + eapply frugal_after_read; [done|apply (Hnone e He)|exact Hr].
    + destruct Hr as [-> _]. intros [|x [|]] y tr2 E; by simplify_eq/=.
  - eapply frugal_after_read; [done|apply (Hsome o)|exact Hr].
Qed.
Lemma frugal_api_get {B} h k key (f : object k → M B) :
  (∀ o, frugal (h ++ [Ev (Get k key) (inr o)]) (f o)) → frugal h (api_get k key ≫= f).
Proof.
  intros Hf s tr s' r ([e|o] & tr' & -> & Hr); cbn in Hr.
  - destruct Hr as [-> _]. intros [|x [|]] y tr2 E; by simplify_eq/=.
  - eapply frugal_after_read; [done|apply (Hf o)|exact Hr].
Qed.
Lemma frugal_set_owner `{Platform} {B} h {k} (o : object k) (f : object k → M B) :
  (∀ refs, frugal h (f (set_meta ((obj_meta o) <| om_OwnerReferences := refs |>) o))) →
  frugal h (set_owner o ≫= f).
Proof.
  intros Hf s tr s' r Hr. unfold set_owner, mbind, M_bind in Hr. cbn in Hr.
  destruct (SetControllerReference _ _) as [e|refs]; cbn in Hr; [|by eapply Hf].
  destruct Hr as [-> _]. by intros [|].
Qed.
Lemma frugal_lift_bind {A B} h (r : result A) (f : A → M B) :
  (∀ a, r = inr a → frugal h (f a)) → frugal h (lift r ≫= f).
Proof.
  intros Hf s tr s' x Hr. unfold lift, mbind, M_bind in Hr. cbn in Hr.
  destruct r as [e|a]; cbn in Hr; [|by eapply Hf].
  destruct Hr as [-> _]. by intros [|].
Qed.
End Reads.

(** ** Create or update *)

Section Apply.
Context `{PlatformLaws}.

Lemma frugal_owned_by_set {B} h {k} (mg : managed k) (o : object k) (f : object k → M B) :
  (∀ o', (∃ refs, o' = set_meta ((obj_meta o) <| om_OwnerReferences := refs |>) o) →
     (mg_owned mg = false → o' = o) → frugal h (f o')) →
  frugal h (owned_by_set mg o ≫= f).
Proof.
  intros Hf. unfold owned_by_set. destruct (mg_owned mg).
  - apply frugal_set_owner. intros refs. apply Hf; [by exists refs|done].
  - change (frugal h (f o)). apply Hf; [|done]. exists (om_OwnerReferences (obj_meta o)).
    symmetry. apply set_meta_same. by destruct (obj_meta o).
Qed.

Lemma apply_frugal {k} (mg : managed k) same accepts `{!ManagedLaws mg same accepts} h d :
  frugal h (apply mg d).
Proof.
  unfold apply. apply frugal_owned_by_set. intros d' _ _. apply frugal_lookup.
  - intros e He. apply frugal_map_error, frugal_call_err. exists e. split; [|done]. apply last_read_snoc.
  - intros x. apply frugal_bind_silent; [apply silent_get_project|]. intros p.
    apply frugal_lift_bind. intros [] Hg. apply frugal_owned_by_set. intros a [refs ->] Hu.
    destruct (_ && _) eqn:Hc; [apply frugal_ret|]. apply frugal_map_error. unfold update_.
    apply frugal_bind; [|intros; apply frugal_ret]. apply frugal_call_lift.
    exists (meta_key (obj_meta d')), x. split; [apply last_read_snoc|].
    set (a := set_meta _ x) in *.
    destruct (merged_identity (mg := mg) d' a) as [-> ->]. unfold obj_key, a. rewrite obj_meta_set.
    split; [done|]. split; [done|]. eapply merge_changes; [done| |exact Hu|exact Hc].
    by rewrite obj_meta_set.
Qed.
Lemma helper_frugal h hp (d : object (hkind hp)) : frugal h (createOrUpdate hp d).
Proof.
  intros s tr s' r Hr. apply (peq_runs _ _ (helper_refines hp d s)) in Hr.
  pose proof (helper_laws hp).
  exact (apply_frugal (policy_of hp) (unchanged hp) (acceptable hp) h d _ _ _ _ Hr).
Qed.
End Apply.

(** ** Automation *)

Create HintDb frugal.
#[export] Hint Constants Opaque : frugal.
#[export] Hint Resolve frugal_ret frugal_throw frugal_lift silent_ret silent_throw silent_lift
  silent_get_project silent_modify silent_modify_status silent_put silent_deref : frugal.
#[export] Hint Extern 2 (frugal _ _) =>
  simple apply frugal_silent; solve [eauto 2 with frugal nocore] : frugal.
#[export] Hint Extern 1 (frugal _ (call Now)) => exact (frugal_call _ Now I) : frugal.
#[export] Hint Extern 1 (frugal _ (call (RandRead ?n))) => exact (frugal_call _ (RandRead n) I) : frugal.
#[export] Hint Extern 1 (frugal _ (api_get ?k ?key)) =>
  exact (frugal_call_lift _ (Get k key) _ I) : frugal.

Ltac frugal_step :=
  cbv beta zeta;
  lazymatch goal with
  | |- frugal ?h (lookup_object ?k ?key ?wrap ≫= _) =>
      apply (frugal_lookup h k key wrap); intros ?; [intros ?|]
  | |- frugal ?h (@set_owner _ ?k ?o ≫= _) => apply (frugal_set_owner h (k := k) o); intros ?
  | |- frugal _ (get_project ≫= _) => apply frugal_bind_silent; [|intros ?]
  | |- frugal _ (lift _ ≫= _) => apply frugal_bind_silent; [|intros ?]
  | |- frugal _ (deref _ ≫= _) => apply frugal_bind_silent; [|intros ?]
  | |- frugal _ (modify_project _ ≫= _) => apply frugal_bind_silent; [|intros ?]
  | |- frugal _ (modify_status _ ≫= _) => apply frugal_bind_silent; [|intros ?]
  | |- frugal _ (_ ≫= _) => apply frugal_bind; [|intros ?]
  | |- frugal _ (catch _ _) => apply frugal_catch; [|intros ?]
  | |- frugal _ (on_error _ _) => apply frugal_on_error; [|intros ?]
  | |- frugal _ (map_error _ _) => apply frugal_map_error
  | |- frugal _ (attempt _) => apply frugal_attempt
  | |- frugal _ (when _ _) => apply frugal_when
  | |- frugal _ (for_each _ _) => apply frugal_for_each; intros ?
  | |- frugal _ (match ?x with _ => _ end) => destruct x eqn:?
  end.
Ltac frugal := repeat first [solve [eauto with frugal] | frugal_step].
(** Writes just after the read they need. *)
Lemma frugal_create h k key (o : object k) e :
  IsNotFound e = true → key = obj_key o → frugal (h ++ [Ev (Get k key) (inl e)]) (api_create k o).
Proof. intros He ->. refine (frugal_call_err _ (Create k o) _ _). exists e. eauto. Qed.
Lemma frugal_update h k key (old o : object k) :
  obj_key o = obj_key old → om_UID (obj_meta o) = om_UID (obj_meta old) → o ≠ old →
  frugal (h ++ [Ev (Get k key) (inr old)]) (api_update k o).
Proof. intros Hk Hu Hne. refine (frugal_call_lift _ (Update k o) _ _). exists key, old. eauto. Qed.
Lemma frugal_update_ h k key (old o : object k) :
  obj_key o = obj_key old → om_UID (obj_meta o) = om_UID (obj_meta old) → o ≠ old →
  frugal (h ++ [Ev (Get k key) (inr old)]) (update_ o).
Proof. intros. apply frugal_bind; [by apply frugal_update|]. intros. apply frugal_ret. Qed.
Lemma frugal_delete h k key (old o : object k) fg :
  obj_key o = obj_key old → om_UID (obj_meta o) = om_UID (obj_meta old) →
  frugal (h ++ [Ev (Get k key) (inr old)]) (api_delete k o fg).
Proof. intros Hk Hu. refine (frugal_call_err _ (Delete k o fg) _ _). exists key, old. eauto. Qed.

(** ** The helpers *)

Section Helpers.
Context `{PlatformLaws}.

Lemma createOrUpdateSecret_frugal h d : frugal h (createOrUpdateSecret d).
Proof. exact (helper_frugal h HSecret d). Qed.
Lemma createOrUpdateConfigMap_frugal h d : frugal h (createOrUpdateConfigMap d).
Proof. exact (helper_frugal h HConfigMap d). Qed.
Lemma createOrUpdateDeployment_frugal h d : frugal h (createOrUpdateDeployment d).
Proof. exact (helper_frugal h HDeployment d). Qed.
Lemma createOrUpdateService_frugal h d : frugal h (createOrUpdateService d).
Proof. exact (helper_frugal h HService d). Qed.
Lemma createOrUpdateCronJob_frugal h d : frugal h (createOrUpdateCronJob d).
Proof. exact (helper_frugal h HCronJob d). Qed.
Lemma createOrUpdateObjectStore_frugal h d : frugal h (createOrUpdateObjectStore d).
Proof. destruct d as [d|]; [exact (helper_frugal h HObjectStore d)|apply frugal_ret]. Qed.
Lemma createOrUpdateScheduledBackup_frugal h d : frugal h (createOrUpdateScheduledBackup d).
Proof. destruct d as [d|]; [exact (helper_frugal h HScheduledBackup d)|apply frugal_ret]. Qed.

Lemma setCondition_frugal h t s r m : frugal h (setCondition t s r m).
Proof.
  unfold setCondition. apply frugal_bind; [eauto with frugal|]. intros now. apply frugal_modify.
Qed.
Lemma updateProjectStatus_frugal h : frugal h updateProjectStatus.
Proof.
  unfold updateProjectStatus. frugal_step; [eauto with frugal|]. apply frugal_api_get. intros current.
  destruct (deep_equal _ _) eqn:Heq; [eauto with frugal|]. frugal_step; [|frugal].
  refine (frugal_call _ (StatusUpdate _) _). exists current. split; [apply last_read_snoc|].
  unfold deep_equal, Status_deq in Heq. intros E. rewrite E in Heq.
  by rewrite eq_deep_equal_true in Heq.
Qed.
Hint Resolve setCondition_frugal updateProjectStatus_frugal : frugal.
Lemma report_frugal h t s r m : frugal h (report t s r m).
Proof. unfold report. frugal. Qed.
Hint Resolve report_frugal : frugal.

(** Changes of metadata are changes. *)
Lemma owners_differ {k} (a b : object k) :
  om_OwnerReferences (obj_meta a) = om_OwnerReferences (obj_meta b) → owners_changed a b = false.
Proof. intros E. unfold owners_changed. rewrite E. apply negb_false_iff, eq_deep_equal_true. Qed.
Lemma merged m d m' c :
  mergeLabels m d = (m', c) →
  (meta_key m' = meta_key m ∧ om_UID m' = om_UID m) ∧ om_OwnerReferences m' = om_OwnerReferences m ∧
  (om_Labels m' = om_Labels m → c = false).
Proof.
  intros E. pose proof (labels_differ m d) as Hl. rewrite E in Hl. cbn in Hl.
  unfold mergeLabels in E. by injection E as <- _.
Qed.
Lemma removed m n m' c :
  removeSupabaseProjectOwnerReference m n = (m', c) →
  (meta_key m' = meta_key m ∧ om_UID m' = om_UID m) ∧ om_Labels m' = om_Labels m ∧
  (om_OwnerReferences m' = om_OwnerReferences m → c = false).
Proof.
  intros E. pose proof (removal_differs m n) as Hr. rewrite E in Hr. cbn in Hr.
  unfold removeSupabaseProjectOwnerReference in E. repeat case_match; by simplify_eq.
Qed.
(** Adopting and relabelling an object. *)
Lemma adoption_differs {k} (o : object k) refs d m' c :
  let a := set_meta ((obj_meta o) <| om_OwnerReferences := refs |>) o in
  mergeLabels (obj_meta a) d = (m', c) → owners_changed o a || c = true → m' ≠ obj_meta o.
Proof.
  intros a Hm Hc E. destruct (merged _ _ _ _ Hm) as (_ & Hr & Hl). unfold a in Hr, Hl.
  rewrite obj_meta_set, E in Hr, Hl. cbn in Hr, Hl. rewrite (Hl eq_refl), orb_false_r in Hc.
  rewrite owners_differ in Hc; [done|]. unfold a. rewrite obj_meta_set. done.
Qed.

Lemma createOrCheckJob_frugal h j hash : frugal h (createOrCheckJob j hash).
Proof.
  unfold createOrCheckJob. do 2 frugal_step.
  { frugal_step; [by apply (frugal_create _ KJob)|eauto with frugal]. }
  frugal_step; [eauto with frugal|]. frugal_step; [eauto with frugal|]. frugal_step. frugal_step.
  destruct (bool_decide (map_get (om_Annotations _) _ ≠ _)).
  - frugal_step; [|frugal]. apply frugal_attempt.
    destruct (merged _ _ _ _ Heqp) as [[Hk Hu] _].
    by apply (frugal_delete _ KJob); [exact Hk|exact Hu].
  - frugal_step; [|eauto with frugal]. destruct (_ || _) eqn:Hc; [|eauto with frugal].
    destruct (merged _ _ _ _ Heqp) as [[Hk Hu] _].
    apply frugal_map_error, (frugal_update _ KJob); [exact Hk|exact Hu|]. intros E.
    apply (adoption_differs (k := KJob) _ _ _ _ _ Heqp Hc). by apply (f_equal job_meta) in E.
Qed.

Lemma deletePowerSyncOwnedResource_frugal h k n : frugal h (deletePowerSyncOwnedResource k n).
Proof.
  unfold deletePowerSyncOwnedResource, delete_ignore. frugal_step; [eauto with frugal|].
  frugal_step; [eauto with frugal|]. frugal_step; [|eauto with frugal]. frugal_step; [|frugal].
  by apply frugal_attempt, frugal_delete.
Qed.
Lemma deploymentStatus_frugal h d : frugal h (deploymentStatus d).
Proof. unfold deploymentStatus. frugal. Qed.
Lemma protect_durable_frugal h k n : frugal h (protect_durable k n).
Proof.
  unfold protect_durable. frugal_step; [eauto with frugal|]. frugal_step; [eauto with frugal|].
  frugal_step; [eauto with frugal|]. frugal_step. frugal_step; [eauto with frugal|].
  destruct (removed _ _ _ _ Heqp) as ([Hk Hu] & _ & Hr).
  apply frugal_map_error, frugal_update_; unfold obj_key; rewrite ?obj_meta_set; try done.
  intros E. apply (f_equal obj_meta) in E. rewrite obj_meta_set in E.
  by rewrite Hr in Heqb0 by by rewrite E.
Qed.
Lemma delete_durable_frugal h k w n : frugal h (delete_durable k w n).
Proof.
  unfold delete_durable. frugal_step; [eauto with frugal|]. frugal_step; [eauto with frugal|].
  frugal_step; [eauto with frugal|]. frugal_step; [|frugal].
  by apply frugal_attempt, frugal_delete.
Qed.
End Helpers.

#[export] Hint Resolve setCondition_frugal updateProjectStatus_frugal report_frugal
  createOrUpdateSecret_frugal createOrUpdateConfigMap_frugal createOrUpdateDeployment_frugal
  createOrUpdateService_frugal createOrUpdateObjectStore_frugal
  createOrUpdateScheduledBackup_frugal createOrUpdateCronJob_frugal createOrCheckJob_frugal
  deletePowerSyncOwnedResource_frugal deploymentStatus_frugal protect_durable_frugal
  delete_durable_frugal : frugal.

(** ** The cluster *)

Section Cluster.
Context `{PlatformLaws}.

Lemma set_optional_changed {A} `{DeepEqual (option A)} (e d v : option A) :
  (∀ x : option A, deep_equal x x = true) → set_optional e d = (v, true) → v ≠ e.
Proof.
  intros Hrefl Hs ->. unfold set_optional in Hs. destruct d as [d|]; [|done].
  destruct (deep_equal e (Some d)) eqn:E; [done|]. injection Hs as Hd. by rewrite Hd, Hrefl in E.
Qed.
Lemma reconcileStorage_changed e d s : reconcileStorage e d = (s, inr true) → s ≠ e.
Proof.
  unfold reconcileStorage. destruct (storage_size_changed e d) as [err|c] eqn:Hc; [done|].
  assert (Hsize : c = true → st_Size e ≠ st_Size d).
  { intros ->. revert Hc. unfold storage_size_changed. repeat (case_match; try done).
    all: intros [= Hb]; by apply bool_decide_eq_true in Hb. }
  destruct (set_optional _ (st_StorageClass d)) as [v1 c1] eqn:E1.
  destruct (set_optional _ (st_ResizeInUseVolumes d)) as [v2 c2] eqn:E2.
  destruct (set_optional _ (st_PersistentVolumeClaimTemplate d)) as [v3 c3] eqn:E3.
  intros [= <- Hor] E. destruct c; [by apply Hsize; [|rewrite <- E]|]. cbn in *.
  assert (v1 = st_StorageClass e) by by rewrite <- E.
  assert (v2 = st_ResizeInUseVolumes e) by by rewrite <- E.
  assert (v3 = st_PersistentVolumeClaimTemplate e) by by rewrite <- E.
  destruct c1; [apply set_optional_changed in E1; [done|intros; apply eq_deep_equal_true]|].
  destruct c2; [apply set_optional_changed in E2; [done|intros; apply eq_deep_equal_true]|].
  destruct c3; [apply set_optional_changed in E3; [done|intros; apply deep_equal_refl]|done].
Qed.
(** A reported change of the mutable fields is a change of the spec. *)
Lemma mutable_changed e d s : reconcileClusterMutableFields e d = (s, inr true) → s ≠ e.
Proof.
  rewrite reconcileClusterMutableFields_synced.
  destruct (reconcileStorage _ _) as [st [err|c]] eqn:Hst; [done|]. intros [= <- Hc] E.
  pose proof (synced_settled e d st) as Hd. rewrite E in Hd. rewrite Hd in Hc. cbn in Hc. subst c.
  apply reconcileStorage_changed in Hst. apply Hst. by rewrite <- E.
Qed.
End Cluster.

Section Phases.
Context `{PlatformLaws} `{CryptoLib} `{UrlLib}.

Lemma fail_database_frugal {A} h r e : frugal h (fail_database (A := A) r e).
Proof. unfold fail_database. frugal. Qed.
Hint Resolve @fail_database_frugal : frugal.
(** On the Cluster just read. *)
Lemma sync_cluster_frugal h key existing desired :
  frugal (h ++ [Ev (Get KCluster key) (inr existing)]) (sync_cluster existing desired).
Proof.
  unfold sync_cluster. frugal_step; [eauto with frugal|]. rename a into p. frugal_step; [eauto with frugal|].
  destruct (removeSupabaseProjectOwnerReference _ _) as [m1 c1] eqn:E1.
  destruct (mergeLabels _ _) as [m2 c2] eqn:E2.
  destruct (removed _ _ _ _ E1) as ([Hk1 Hu1] & Hl1 & Hr1).
  destruct (merged _ _ _ _ E2) as ([Hk2 Hu2] & Hr2 & Hl2).
  assert (Hmeta : m2 = cl_meta existing → c1 || c2 = false).
  { intros ->. rewrite Hl2 by by rewrite Hl1. by rewrite Hr1. }
  assert (Hup : ∀ w o, obj_meta o = m2 → o ≠ existing →
    frugal (h ++ [Ev (Get KCluster key) (inr existing)]) (map_error (update_ (k := KCluster) o) w)).
  { intros w o Ho Hne. apply frugal_map_error, (frugal_update_ _ KCluster); [..|done];
      unfold obj_key; rewrite Ho; cbn [obj_meta]; congruence. }
  assert (Hwhen : ∀ w, frugal (h ++ [Ev (Get KCluster key) (inr existing)])
    (when (c1 || c2) (map_error (update_ (k := KCluster) (existing <| cl_meta := m2 |>)) w))).
  { intros w. destruct (c1 || c2) eqn:Hc; [|apply frugal_ret]. apply Hup; [done|].
    intros E. apply (f_equal cl_meta) in E. by specialize (Hmeta E). }
  frugal_step; [frugal_step; [apply Hwhen|eauto with frugal]|].
  destruct (reconcileClusterMutableFields _ _) as [spec [e|c]] eqn:Er;
    [frugal_step; [apply Hwhen|eauto with frugal]|].
  destruct (_ || c) eqn:Hc; [|eauto with frugal]. frugal_step; [|eauto with frugal].
  apply Hup; [done|]. intros E.
  pose proof (f_equal cl_meta E) as Em. cbn in Em. rewrite (Hmeta Em) in Hc. cbn in Hc. subst c.
  apply mutable_changed in Er. apply Er. by apply (f_equal cl_Spec) in E.
Qed.
Lemma reconcileCNPGCluster_frugal h : frugal h reconcileCNPGCluster.
Proof.
  unfold reconcileCNPGCluster. frugal_step; [eauto with frugal|]. frugal_step.
  - frugal_step; [|frugal]. frugal_step; [|eauto with frugal]. by apply (frugal_create _ KCluster).
  - apply sync_cluster_frugal.
Qed.

Lemma publication_pending_frugal h m : frugal h (publication_pending m).
Proof. unfold publication_pending. frugal. Qed.
Hint Resolve publication_pending_frugal : frugal.
Lemma reconcilePowerSyncPublication_frugal h : frugal h reconcilePowerSyncPublication.
Proof.
  unfold reconcilePowerSyncPublication. frugal_step; [eauto with frugal|]. rename a into p.
  apply frugal_lift_bind. intros desired _. frugal_step.
  - frugal_step. frugal_step; [|eauto with frugal]. by apply (frugal_create _ KPublication).
  - frugal_step; [eauto with frugal|]. destruct (mergeLabels _ _) as [m c] eqn:Em. frugal_step.
    destruct (_ || _ || _) eqn:Hc; [|frugal]. frugal_step; [|eauto with frugal].
    destruct (merged _ _ _ _ Em) as ([Hk Hu] & Hr & Hl).
    apply frugal_map_error, (frugal_update_ _ KPublication);
      [revert Hk; by destruct (negb _)|revert Hu; by destruct (negb _)|]. intros E.
    destruct (deep_equal (pb_Spec desired) (pb_Spec o)) eqn:Hs; cbn [negb] in *.
    + cbn [orb] in Hc.
      pose proof (f_equal pb_meta E) as E'. cbn in E'.
      pose proof (f_equal om_Labels E') as El. pose proof (f_equal om_OwnerReferences E') as Eo.
      cbn in El, Eo. rewrite (Hl El), (owners_differ (k := KPublication)) in Hc; [done|].
      cbn. congruence.
    + pose proof (f_equal pb_Spec E) as Es. cbn in Es. rewrite <- Es in Hs.
      unfold deep_equal, PublicationSpec_deq in Hs. by rewrite eq_deep_equal_true in Hs.
Qed.

(** ** The walk *)

Lemma set_phase_frugal h phase : frugal h (set_phase phase).
Proof. unfold set_phase. eauto with frugal. Qed.
Lemma set_service_status_frugal h f : frugal h (set_service_status f).
Proof. unfold set_service_status. eauto with frugal. Qed.
Lemma remove_condition_frugal h t : frugal h (remove_condition t).
Proof. unfold remove_condition. eauto with frugal. Qed.
Hint Resolve set_phase_frugal set_service_status_frugal remove_condition_frugal : frugal.
Lemma generateRoleSecret_frugal h p a b : frugal h (generateRoleSecret p a b).
Proof. unfold generateRoleSecret. frugal. Qed.
Hint Resolve generateRoleSecret_frugal : frugal.
Lemma GenerateSecrets_frugal h p : frugal h (GenerateSecrets p).
Proof. unfold GenerateSecrets, GenerateGoTrueFallbackSecret. frugal. Qed.
Lemma GeneratePowersyncSecrets_frugal h p : frugal h (GeneratePowersyncSecrets p).
Proof. unfold GeneratePowersyncSecrets. frugal. Qed.
Hint Resolve GenerateSecrets_frugal GeneratePowersyncSecrets_frugal : frugal.

Lemma reconcileEmailHookSecret_frugal h : frugal h reconcileEmailHookSecret.
Proof. unfold reconcileEmailHookSecret, failEmailHookSecret, GenerateEmailHookSecret. frugal. Qed.
Lemma reconcilePowersyncAPITokenSecret_frugal h : frugal h reconcilePowersyncAPITokenSecret.
Proof. unfold reconcilePowersyncAPITokenSecret, GeneratePowersyncAPITokenSecret. frugal. Qed.
Lemma all_exist_frugal h names : frugal h (all_exist names).
Proof. revert h. induction names as [|n names IH]; intros h; cbn [all_exist]; frugal. Qed.
Hint Resolve reconcileEmailHookSecret_frugal reconcilePowersyncAPITokenSecret_frugal
  all_exist_frugal : frugal.
Lemma reconcileImplementationSecrets_frugal h : frugal h reconcileImplementationSecrets.
Proof. unfold reconcileImplementationSecrets, reconcilePowersyncSecrets. frugal. Qed.
Lemma validate_credentials_frugal h s : frugal h (validate_credentials s).
Proof. unfold validate_credentials. frugal. Qed.
Hint Resolve reconcileImplementationSecrets_frugal validate_credentials_frugal : frugal.
Lemma reconcileSecrets_frugal h : frugal h reconcileSecrets.
Proof. unfold reconcileSecrets, failReconcileSecrets. frugal. Qed.
Lemma validateRecoveryBootstrapIntent_frugal h : frugal h validateRecoveryBootstrapIntent.
Proof. unfold validateRecoveryBootstrapIntent. frugal. Qed.
Lemma validateS3Secret_frugal h ns n : frugal h (validateS3Secret ns n).
Proof. unfold validateS3Secret. frugal. Qed.
Hint Resolve validateS3Secret_frugal : frugal.
Lemma reconcileBackupInfrastructure_frugal h : frugal h reconcileBackupInfrastructure.
Proof.
  unfold reconcileBackupInfrastructure, reconcileBackup, reconcileRecovery, cleanupBackupResources,
    cleanupRecoveryResources, failBackup, failRecovery. frugal.
Qed.
Lemma waitForDatabase_frugal h : frugal h waitForDatabase.
Proof. unfold waitForDatabase. frugal. Qed.

Lemma reconcileServiceComponent_frugal h c : frugal h (reconcileServiceComponent c).
Proof. unfold reconcileServiceComponent, fail_component. frugal. Qed.
Lemma validateGoTrueEnvSources_frugal h : frugal h validateGoTrueEnvSources.
Proof.
  unfold validateGoTrueEnvSources, validateGoTrueEnvSecretKey, validateGoTrueEnvConfigMapKey,
    validateGoTrueEnvKey. frugal.
Qed.
Lemma buildAuthDeployment_frugal h : frugal h buildAuthDeployment.
Proof. unfold buildAuthDeployment. frugal. Qed.
Hint Resolve reconcileServiceComponent_frugal validateGoTrueEnvSources_frugal
  buildAuthDeployment_frugal : frugal.
Lemma failCoreServices_frugal h e : frugal h (failCoreServices e).
Proof. unfold failCoreServices. frugal. Qed.
Hint Resolve failCoreServices_frugal : frugal.
Lemma reconcileServices_frugal h c : frugal h (reconcileServices c).
Proof.
  unfold reconcileServices, reconcileAuth, reconcileRest, reconcileStudio, reconcileMeta,
    reconcileGateway, failAuthGoTrueEnv. frugal.
Qed.

Lemma powersync_spec_frugal h : frugal h powersync_spec.
Proof. unfold powersync_spec. frugal. Qed.
Hint Resolve powersync_spec_frugal : frugal.
Lemma reconcilePowerSyncRulesValidation_frugal h : frugal h reconcilePowerSyncRulesValidation.
Proof. unfold reconcilePowerSyncRulesValidation, loadAndValidatePowerSyncRules. frugal. Qed.
Lemma waitForPowerSyncManagedRoles_frugal h : frugal h waitForPowerSyncManagedRoles.
Proof. unfold waitForPowerSyncManagedRoles. frugal. Qed.
Lemma reconcileCDCPermissions_frugal h : frugal h reconcileCDCPermissions.
Proof. unfold reconcileCDCPermissions. frugal. Qed.
Lemma reconcilePowersync_frugal h r : frugal h (reconcilePowersync r).
Proof. unfold reconcilePowersync, powersync_failed, cleanupPowerSyncCompact. frugal. Qed.
Lemma cleanupPowerSync_frugal h : frugal h cleanupPowerSync.
Proof. unfold cleanupPowerSync. frugal. Qed.
Hint Resolve reconcileSecrets_frugal validateRecoveryBootstrapIntent_frugal
  reconcileBackupInfrastructure_frugal reconcileCNPGCluster_frugal waitForDatabase_frugal
  reconcileServices_frugal reconcilePowerSyncRulesValidation_frugal
  waitForPowerSyncManagedRoles_frugal reconcilePowerSyncPublication_frugal
  reconcileCDCPermissions_frugal reconcilePowersync_frugal cleanupPowerSync_frugal : frugal.

Lemma reconcileProject_frugal h : frugal h reconcileProject.
Proof.
  unfold reconcileProject, reconcileDurableMetadataProtection, reconcileInitSQL,
    reconcileJWKSConfigMap, reconcileWorkloads, reconcilePowerSyncPhase, complete, or_requeue.
  frugal.
Qed.
End Phases.

(** C9: no write without a reason.  Whatever the server answers, every write of
    a reconciliation directly follows the read that calls for it: an object is
    created only when the request before was the Get of its name and was
    answered NotFound; updated or deleted only when the request before was a Get
    that returned the same object (name, namespace and UID), and updated only to
    something else than what was returned; and the status is written only when
    the request before was the Get of the project and returned another status. *)
Theorem reconcileProject_writes_needed `{PlatformLaws} `{CryptoLib} `{UrlLib} project tr1 e tr2 o :
  runs (reconcileProject project) (tr1 ++ e :: tr2) o → needed tr1 (ev_req e).
Proof. destruct o as [p r]. intros Hr. exact (reconcileProject_frugal [] _ _ _ _ Hr tr1 e tr2 eq_refl). Qed.
