(* ===== verification/Removal.v ===== *)
(** * The removal of PowerSync

    What a reconciliation leaves of PowerSync once it is no longer configured:
    it rolls nothing of it out any more, and one that finishes has dealt with
    every object of an earlier configuration and cleared its part of the
    status. *)

From S2P Require Import Prelude KubeTypes Types Platform Effects Common ConfigMaps Cnpg Encoding Sha256 Crypto Secrets Deployments Services ObjectSync ClusterSync Store Provisioning Database CoreServices PowerSync Reconciler Safety Discipline Gate Readiness Frame Lifecycle Order.

(** ** Evidence of a removal *)

Section Evidence.
Context `{Platform} `{UrlLib} (project : SupabaseProject).

Definition absent {A} (r : result A) : Prop :=
  match r with inl e => IsNotFound e = true | inr _ => False end.
Definition deleted (r : option error) : Prop :=
  match r with Some e => IsNotFound e = true | None => True end.

(** The server said that the object does not exist, returned one the project
    does not control, or one that the project does and that was then deleted. *)
Definition gone (k : kind) (key : NamespacedName) (h : trace) : Prop :=
  ∃ (v : result (object k)), Ev (Get k key) v ∈ h ∧
  (absent v ∨
   ∃ o, v = inr o ∧
     (IsControlledBy (obj_meta o) (prj_meta project) = true →
      ∃ r, Ev (Delete k o false) r ∈ h ∧ deleted r)).
Definition all_gone (l : list (kind * string)) (h : trace) : Prop :=
  Forall (λ r, gone r.1 (in_namespace project r.2) h) l.

(** The objects the PowerSync phase builds for a configured project. *)
Inductive powersync_object (q : SupabaseProject) : ∀ k, object k → Prop :=
| BuiltPublication pub :
    BuildPowerSyncPublication q = inr pub → powersync_object q KPublication pub
| BuiltMigrations cm :
    BuildCDCMigrationsConfigMap q = inr cm → powersync_object q KConfigMap cm
| BuiltJob names : powersync_object q KJob (BuildCDCPermissionsJob q names)
| BuiltConfig : powersync_object q KConfigMap (BuildPowersyncConfigMap q)
| BuiltSyncRules ps cm :
    BuildPowersyncSyncRulesConfigMap q ps = Some cm → powersync_object q KConfigMap cm
| BuiltAPI ps names : powersync_object q KDeployment (BuildPowersyncAPIDeployment q ps names)
| BuiltService : powersync_object q KService (BuildPowersyncAPIService q)
| BuiltReplication ps names :
    powersync_object q KDeployment (BuildPowersyncReplicationDeployment q ps names)
| BuiltCompact ps names cj :
    BuildPowersyncCompactCronJob q ps names = Some cj → powersync_object q KCronJob cj.

(** The removal knows every one of them by its name. *)
Lemma powersync_object_known q k (o : object k) :
  powersync_object q k o →
  ∃ name, obj_key o = in_namespace q name ∧ (k, name) ∈ powersync_resources q.
Proof.
  intros Ho. exists (om_Name (obj_meta o)). unfold powersync_resources.
  destruct Ho as [pub Hb|cm Hb| | |ps cm Hb| | | |ps names cj Hb]; try (by split; [|cbn; set_solver]).
  - unfold BuildPowerSyncPublication in Hb. destruct (EffectivePublicationSchemas q); [done|].
    injection Hb as <-. split; [done|cbn; set_solver].
  - unfold BuildCDCMigrationsConfigMap in Hb. destruct (buildCDCSetupScript q); [done|].
    injection Hb as <-. split; [done|cbn; set_solver].
  - unfold BuildPowersyncSyncRulesConfigMap in Hb. repeat case_match; [done..|].
    injection Hb as <-. split; [done|cbn; set_solver].
  - unfold BuildPowersyncCompactCronJob in Hb. case_match; [done|].
    injection Hb as <-. split; [done|cbn; set_solver].
Qed.

(** The status says nothing about PowerSync. *)
Definition unreported (s : SupabaseProject) : Prop :=
  let st := prj_Status s in
  sv_PowersyncAPI (sts_Services st) = no_service_status ∧
  sv_PowersyncReplication (sts_Services st) = no_service_status ∧
  FindStatusCondition (sts_Conditions st) ConditionTypeCDCReady = None ∧
  FindStatusCondition (sts_Conditions st) ConditionTypePowersyncReady = None.

Lemma growing_gone k key : growing (gone k key).
Proof.
  intros h h' (v & Hv & Hgone). exists v. split; [apply elem_of_app; by left|].
  destruct Hgone as [?|(o & -> & Ho)]; [by left|]. right. exists o. split; [done|].
  intros (r & Hr & Hd)%Ho. exists r. split; [apply elem_of_app; by left|done].
Qed.
Lemma growing_all_gone l : growing (all_gone l).
Proof. intros h h' Hl. eapply Forall_impl; [apply Hl|]. intros r. apply growing_gone. Qed.
End Evidence.
#[export] Hint Resolve growing_gone growing_all_gone : ok.

(** ** The cleanup *)

Section Cleanup.
Context `{PlatformLaws} `{CryptoLib} `{UrlLib} (project : SupabaseProject).
Abbreviation knowing' := (knowing project).

Lemma delete_ignore_deletes {k} (E : trace → Prop) (o : object k) :
  growing E →
  establishes (knowing' E) (delete_ignore o) (λ _ h s,
    knowing' E h s ∧ ∃ r, Ev (Delete k o false) r ∈ h ∧ deleted r).
Proof.
  intros HE h s [Hs Hh]. split; [done|]. intros v _.
  assert (Hin : Ev (Delete k o false) v ∈ h ++ [Ev (Delete k o false) v])
    by (apply elem_of_app; right; by left).
  destruct v as [e|]; cbn; [destruct (IsNotFound e) eqn:He; cbn; [|done]|];
    (split; [split; [done|by apply HE]|]; by eexists).
Qed.

Lemma deletePowerSyncOwnedResource_removes E k name :
  growing E →
  establishes (knowing' E) (deletePowerSyncOwnedResource k name)
    (λ _, knowing' (λ h, E h ∧ gone project k (in_namespace project name) h)).
Proof.
  intros HE. unfold deletePowerSyncOwnedResource. apply establishes_get.
  intros p [h0 [[Hm _] _]]. rewrite Hm.
  change {| nn_Namespace := prj_Namespace p; nn_Name := name |} with (in_namespace p name).
  replace (in_namespace p name) with (in_namespace project name)
    by (unfold in_namespace, prj_Namespace; by rewrite Hm).
  intros h s [Hs Hh]. split; [done|]. intros [e|o] _; cbn.
  - destruct (IsNotFound e) eqn:He; cbn; [|done]. split; [done|]. split; [by apply HE|].
    eexists. split; [apply elem_of_app; right; by left|]. by left.
  - set (h' := h ++ _). assert (Hget : Ev (Get k (in_namespace project name)) (inr o) ∈ h')
      by (apply elem_of_app; right; by left).
    assert (Hk : knowing' E h' s) by (split; [done|by apply HE]).
    destruct (IsControlledBy _ _) eqn:Hc; cbn.
    + eapply safe_mono; [|apply (delete_ignore_deletes _ o HE h' s Hk)].
      intros h'' [s' [err|[]]] Hp; cbn; [done|]. intros ([Hs' HEh] & Hd).
      split; [done|]. split; [done|]. eexists. split; [by eapply elem_of_prefix|]. eauto.
    + split; [done|]. split; [apply Hk|]. eexists. split; [done|].
      right. exists o. split; [done|congruence].
Qed.

Lemma for_each_removes E l :
  growing E →
  establishes (knowing' E) (for_each l (λ r, deletePowerSyncOwnedResource r.1 r.2))
    (λ _, knowing' (λ h, E h ∧ all_gone project l h)).
Proof.
  revert E. induction l as [|[k name] l IH]; intros E HE; cbn [for_each fst snd].
  - apply establishes_ret. intros h s [Hs Hh]. split; [done|]. split; [done|constructor].
  - eapply establishes_bind; [by apply deletePowerSyncOwnedResource_removes|]. intros [].
    assert (HE' := growing_and _ _ HE (growing_gone project k (in_namespace project name))). cbv beta in HE'.
    eapply establishes_conseq; [by apply IH|done|].
    intros [] h s [Hs [[HEh Hg] Hl]]. split; [done|]. split; [done|by constructor].
Qed.

Lemma powersync_resources_same p :
  prj_meta p = prj_meta project → powersync_resources p = powersync_resources project.
Proof.
  intros Hm. unfold powersync_resources, PowersyncAPIDeploymentName,
    PowersyncReplicationDeploymentName, PowersyncConfigMapName, PowersyncSyncRulesConfigMapName,
    CDCConfigMapName, CDCJobName, PowersyncCompactCronJobName, prj_Name. by rewrite Hm.
Qed.

(** A status that needs no cleanup says nothing. *)
Lemma clean_unreported p : powerSyncStatusNeedsCleanup p = false → unreported p.
Proof.
  unfold powerSyncStatusNeedsCleanup, unreported. intros Hc.
  destruct (negb _ || negb _) eqn:Hn; [done|].
  apply orb_false_iff in Hn as [Ha%negb_false_iff Hr%negb_false_iff].
  apply orb_false_iff in Hc as [Hd%bool_decide_eq_false Hp%bool_decide_eq_false].
  apply bool_decide_eq_true in Ha, Hr. split_and!; [done..|by apply dec_stable|by apply dec_stable].
Qed.
Lemma cleaned_unreported p :
  unreported (p <| prj_Status ::= (λ s, s
    <| sts_Services ::= (λ sv, sv <| sv_PowersyncAPI := no_service_status |>
                                  <| sv_PowersyncReplication := no_service_status |>) |>
    <| sts_Conditions ::= (λ cs, RemoveStatusCondition cs ConditionTypeCDCReady) |>
    <| sts_Conditions ::= (λ cs, RemoveStatusCondition cs ConditionTypePowersyncReady) |>) |>).
Proof.
  unfold unreported. cbn. split_and!; [done..| |apply FindStatusCondition_Remove_eq].
  rewrite FindStatusCondition_Remove_ne by done. apply FindStatusCondition_Remove_eq.
Qed.
Lemma updateProjectStatus_keeps E (Q : SupabaseProject → Prop) :
  growing E →
  establishes (λ h s, knowing' E h s ∧ Q s) updateProjectStatus (λ _ h s, knowing' E h s ∧ Q s).
Proof.
  intros HE. eapply establishes_conseq;
    [apply (updateProjectStatus_persists (λ h s, knowing' E h s ∧ Q s))|done|by intros [] h s [? _]].
  intros h h' s [[Hs Hh] HQ]. split; [split; [done|by apply HE]|done].
Qed.

Lemma cleanupPowerSync_removes :
  establishes (knowing' (λ _, True)) cleanupPowerSync (λ _ h s,
    knowing' (all_gone project (powersync_resources project)) h s ∧ unreported s).
Proof.
  unfold cleanupPowerSync. apply establishes_get. intros p [h0 [[Hm _] _]].
  rewrite (powersync_resources_same p Hm).
  eapply establishes_bind; [by apply for_each_removes|]. intros []. apply establishes_read.
  intros q. destruct (negb _) eqn:Hn.
  - apply establishes_ret. intros h s [[Hs [_ Hg]] ->]. apply negb_true_iff in Hn.
    split; [by split|by apply clean_unreported].
  - eapply (establishes_bind _ _ _ (λ _ h s,
      knowing' (all_gone project (powersync_resources project)) h s ∧ unreported s));
      [|intros []; apply updateProjectStatus_keeps; auto with ok].
    apply triple_modify. intros h s [[Hs [_ Hg]] ->].
    split; [split; [by destruct Hs|done]|apply cleaned_unreported].
Qed.

(** Completing the reconciliation sets the condition Ready only. *)
Lemma complete_keeps_unreported E :
  growing E →
  establishes (λ h s, knowing' E h s ∧ unreported s) complete
    (λ _ h s, knowing' E h s ∧ unreported s).
Proof.
  intros HE. unfold complete, report. apply establishes_read. intros p.
  eapply (establishes_bind _ _ _ (λ _ h s, knowing' E h s ∧ unreported s)).
  { apply triple_modify. intros h s [[[Hs Hh] Hu] ->]. split; [by split|exact Hu]. }
  intros []. eapply (establishes_bind _ _ _ (λ _ h s, knowing' E h s ∧ unreported s));
    [|intros []; by apply establishes_ret].
  eapply (establishes_bind _ _ _ (λ _ h s, knowing' E h s ∧ unreported s));
    [|intros []; by apply updateProjectStatus_keeps].
  intros h s [[Hs Hh] Hu]. split; [done|]. intros now _. cbn.
  split; [split; [by destruct Hs|by apply HE]|]. unfold unreported in *. cbn.
  rewrite !FindStatusCondition_Set_ne by done. exact Hu.
Qed.
End Cleanup.

(** ** The reconciliation without PowerSync *)

Section Run.
Context `{PlatformLaws} `{CryptoLib} `{UrlLib} (project : SupabaseProject).
Context (Hname : om_Name (prj_meta project) ≠ "").
Context (Hnone : sps_Powersync (prj_Spec project) = None).

(** Whatever an earlier configuration of the same project built is gone. *)
Definition dismantled (h : trace) (s : SupabaseProject) : Prop :=
  (∀ q k (o : object k), prj_meta q = prj_meta project → powersync_object q k o →
     gone project k (obj_key o) h) ∧
  unreported s.
Lemma all_gone_dismantled h s :
  all_gone project (powersync_resources project) h → unreported s → dismantled h s.
Proof using Type.
  intros Hg Hu. split; [|done].
  intros q k o Hm (name & -> & Hin)%powersync_object_known.
  rewrite (powersync_resources_same project q Hm) in Hin.
  unfold all_gone in Hg. rewrite Forall_forall in Hg. specialize (Hg _ Hin).
  unfold in_namespace, prj_Namespace in *. cbn in *. by rewrite Hm.
Qed.

(** [removes]: a part that writes nothing beyond the core workloads, and what
    its success shows. *)
Definition removes {A} (Pre : trace → SupabaseProject → Prop) (m : M A)
    (Q : A → trace → SupabaseProject → Prop) : Prop :=
  triple (up_to project 1) Pre m (λ h s r, match r with inr a => Q a h s | inl _ => True end).

Lemma observed_safe {A} n (p : prog A) h Q Q' :
  safe (up_to project n) p h Q' → safe observer p h Q → safe (up_to project n) p h Q.
Proof using Type.
  revert h. induction p as [a|r k IH]; cbn; intros h; [done|].
  intros [Hg Hs] [_ Ho]. split; [done|]. intros v Hv. apply IH; [by apply Hs|by apply Ho, Hv].
Qed.
Lemma removes_part {A} Pre (m : M A) Q :
  ok (up_to project 1) anything m → establishes Pre m Q → removes Pre m Q.
Proof using Type.
  intros Hm Hq h s Hs. eapply observed_safe; [by apply (Hm h s)|by apply Hq].
Qed.
Lemma removes_bind {A B} Pre (m : M A) (f : A → M B) Mid Q :
  removes Pre m Mid → (∀ a, removes (Mid a) (f a) Q) → removes Pre (m ≫= f) Q.
Proof using Type.
  intros Hm Hf. eapply (triple_bind _ _ _ Mid); [|apply Hf].
  eapply triple_conseq; [apply Hm|done|]. by intros h s [e|a].
Qed.
Lemma removes_ret {A} Pre (a : A) (Q : A → trace → SupabaseProject → Prop) :
  (∀ h s, Pre h s → Q a h s) → removes Pre (mret a) Q.
Proof using Type. intros HQ h s. apply HQ. Qed.

Abbreviation known := (knowing project (λ _, True)).
(** A phase of which nothing is needed. *)
Lemma removes_step {A B} (m : M A) (f : A → M B) Q :
  ok observer known m → ok (up_to project 1) anything m →
  (∀ a, removes known (f a) Q) → removes known (m ≫= f) Q.
Proof using Type.
  intros Ho Hm Hf. eapply removes_bind; [|apply Hf].
  apply removes_part; [done|by apply establishes_of_ok].
Qed.
Lemma removes_get {B} (f : SupabaseProject → M B) Q :
  (∀ p, sps_Powersync (prj_Spec p) = None → removes known (f p) Q) →
  removes known (get_project ≫= f) Q.
Proof using Hnone.
  intros Hf h s Hs. apply (Hf s); [|done]. destruct Hs as [[_ Hspec] _]. by rewrite Hspec.
Qed.
(** A phase that may ask for a requeue. *)
Lemma removes_requeue (m k : M Result) Q :
  ok observer known m → ok (up_to project 1) anything m →
  removes known k (λ r h s, r = None → Q h s) →
  removes known (or_requeue m k) (λ r h s, r = None → Q h s).
Proof using Type.
  intros Ho Hm Hk. apply removes_step; [done..|]. intros [d|]; [by apply removes_ret|done].
Qed.

(** The requests of a phase stay within the core workloads. *)
Ltac core_only :=
  pose proof (up_to_frame project 1) as Hframe;
  pose proof (up_to_base project 1) as Hbase;
  assert (Hconfig : ∀ key, may (up_to project 1) anything KConfigMap key)
    by (intros; by apply Hbase);
  eauto 3 with frame.
Tactic Notation "step" uconstr(lem) :=
  apply removes_step; [eapply lem; eauto 6 with ok|core_only|].

Lemma reconcilePowerSyncPhase_removes :
  removes known (reconcilePowerSyncPhase complete) (λ r h s, r = None → dismantled h s).
Proof using All.
  unfold reconcilePowerSyncPhase. apply removes_get. intros p ->.
  eapply removes_bind; [apply removes_part; [core_only|by apply cleanupPowerSync_removes]|].
  intros []. apply removes_part; [core_only|].
  eapply establishes_conseq;
    [apply (complete_keeps_unreported project (all_gone project (powersync_resources project))),
      growing_all_gone|done|].
  intros r h s [[_ Hg] Hu] _. by apply all_gone_dismantled.
Qed.

Lemma reconcileProject_dismantles :
  removes known reconcileProject (λ r h s, r = None → dismantled h s).
Proof using All.
  unfold reconcileProject. apply removes_get. intros p _.
  apply removes_step; [| |intros []].
  { apply ok_when, ok_modify. intros h s. by apply knowing_status_free. }
  { by apply ok_when, ok_modify. }
  step reconcileDurableMetadataProtection_ok. intros ?. step reconcileSecrets_ok. intros credentials.
  apply removes_step; [| |intros ?].
  { apply ok_on_error; [eapply validateRecoveryBootstrapIntent_ok; eauto with ok|]. eauto 6 with ok. }
  { apply ok_on_error; [core_only|]. intros e. apply report_frame; [apply up_to_frame|done|done]. }
  step reconcileInitSQL_ok. intros ?. step reconcileJWKSConfigMap_ok. intros ?.
  step reconcileBackupInfrastructure_ok. intros ?.
  apply removes_requeue; [eapply reconcileCNPGCluster_ok; eauto with ok|core_only|].
  apply removes_requeue; [eapply waitForDatabase_ok; eauto with ok|core_only|].
  unfold reconcileWorkloads. apply removes_step; [eapply reconcileServices_ok; eauto with ok| |].
  { core_only. apply reconcileServices_frame; [done|done|]. intros q suffix Hs. by apply core_may. }
  intros ?. apply removes_get. intros q _. destruct (negb _); [by apply removes_ret|].
  apply reconcilePowerSyncPhase_removes.
Qed.
End Run.

(** C10: the removal of PowerSync.  When PowerSync is not configured, no
    request of a reconciliation, whatever its end, creates or updates a
    Publication, a Job, a CronJob or a PowerSync Deployment or Service; and a
    reconciliation that finishes has dealt with each object the builders of the
    PowerSync phase make for a project of this name, however it was configured
    (the server said that it does not exist, or returned one the project does
    not control, or it was deleted), and leaves a status without PowerSync: both
    services cleared, the conditions CDCReady and PowersyncReady gone. *)
Theorem reconcileProject_removes_powersync `{PlatformLaws} `{CryptoLib} `{UrlLib} project tr p r :
  prj_Name project ≠ "" → sps_Powersync (prj_Spec project) = None →
  runs (reconcileProject project) tr (p, r) → relies (up_to project 1) tr →
  (∀ e, e ∈ tr → (stage project (ev_req e) ≤ 1)%nat) ∧
  (r = inr None → dismantled project tr p).
Proof.
  intros Hname Hnone Hruns Hrely.
  pose proof (reconcileProject_dismantles project Hname Hnone [] project
    (conj (conj eq_refl eq_refl) I)) as Hs.
  destruct (safe_sound _ _ _ _ _ _ Hs Hruns Hrely) as [Hg Hq]. split.
  - intros e (tr1 & tr2 & ->)%list_elem_of_split. by apply (Hg tr1 e tr2).
  - intros ->. by apply Hq.
Qed.
