(* ===== verification/Samples.v ===== *)
(** * Concrete instances

    Executable stand-ins for the libraries the development is parametric in,
    with proofs that they obey the laws, and sample projects and objects: what
    the witnesses of the theorems evaluate. *)

From S2P Require Import Prelude KubeTypes Types Platform Effects Common ConfigMaps Cnpg Encoding Sha256 Crypto Secrets Deployments Services ObjectSync ClusterSync Store Provisioning Database CoreServices PowerSync Reconciler.
From Stdlib Require Import Ascii.

(** ** Kubernetes *)

(** In place; the transition time only moves with the status. *)
Fixpoint sample_set_condition (cs : list Condition) (c : Condition) : list Condition :=
  match cs with
  | [] => [c]
  | x :: cs =>
      if bool_decide (cd_Type x = cd_Type c)
      then (if bool_decide (cd_Status x = cd_Status c)
            then c <| cd_LastTransitionTime := cd_LastTransitionTime x |> else c) :: cs
      else x :: sample_set_condition cs c
  end.
Definition sample_find_condition (cs : list Condition) (ty : string) : option Condition :=
  List.find (λ x, bool_decide (cd_Type x = ty)) cs.
Definition sample_remove_condition (cs : list Condition) (ty : string) : list Condition :=
  List.filter (λ x, negb (bool_decide (cd_Type x = ty))) cs.

Definition sample_owner (o : ObjectMeta) : OwnerReference :=
  {| or_APIVersion := "supabase.guion.dev/v1alpha1"; or_Kind := "SupabaseProject";
     or_Name := om_Name o; or_UID := om_UID o; or_Controller := Some true;
     or_BlockOwnerDeletion := Some true |}.
Definition is_controller (r : OwnerReference) : bool := bool_decide (or_Controller r = Some true).
(** The controller reference replaces that of the same name, and another
    controller is an error. *)
Definition sample_set_controller (o m : ObjectMeta) : result (list OwnerReference) :=
  let refs := om_OwnerReferences m in
  if existsb (λ r, is_controller r && negb (bool_decide (or_UID r = om_UID o))) refs
  then inl (ErrorString "already owned by another controller")
  else inr (List.filter (λ r, negb (bool_decide (or_Kind r = "SupabaseProject") &&
                                    bool_decide (or_Name r = om_Name o))) refs ++ [sample_owner o]).
Definition sample_controlled (m o : ObjectMeta) : bool :=
  match List.find is_controller (om_OwnerReferences m) with
  | Some r => bool_decide (or_UID r = om_UID o)
  | None => false
  end.
Definition sample_group (apiVersion : string) : result string :=
  match Split apiVersion slash with
  | [_] => inr ""
  | [group; _] => inr group
  | _ => inl (ErrorString "unexpected GroupVersion string")
  end.

(** A size in Gi, as the number of its digits and unit. *)
Definition sample_platform : Platform := {|
  SetStatusCondition := sample_set_condition;
  FindStatusCondition := sample_find_condition;
  RemoveStatusCondition := sample_remove_condition;
  SetControllerReference := sample_set_controller;
  IsControlledBy := sample_controlled;
  ParseGroupVersion := sample_group;
  Quantity := nat;
  ParseQuantity := λ s, inr (String.length s);
  QuantityCmp := Nat.compare;
  ResourcesDeepEqual := eq_deep_equal;
  ClusterDefault := λ c, c;
  UnmarshalSyncRules := λ _, inr (3, true);
  Quote := λ s, dq +:+ s +:+ dq |}.

Section Laws.

Lemma find_app_negb {A} (f : A → bool) l r :
  List.find f (List.filter (λ x, negb (f x)) l ++ r) = List.find f r.
Proof.
  induction l as [|x l IH]; cbn; [done|]. destruct (f x) eqn:E; cbn; [done|]. by rewrite E.
Qed.
Lemma find_filter_other (ty ty' : string) cs : ty' ≠ ty →
  List.find (λ x, bool_decide (cd_Type x = ty'))
    (List.filter (λ x, negb (bool_decide (cd_Type x = ty))) cs) =
  List.find (λ x, bool_decide (cd_Type x = ty')) cs.
Proof.
  intros Hne. induction cs as [|c cs IH]; cbn; [done|].
  destruct (decide (cd_Type c = ty)) as [E|E].
  - rewrite bool_decide_eq_true_2 by done. cbn. rewrite bool_decide_eq_false_2 by congruence. done.
  - rewrite bool_decide_eq_false_2 by done. cbn. by rewrite IH.
Qed.
Lemma sample_set_find cs c :
  ∃ t, sample_find_condition (sample_set_condition cs c) (cd_Type c) =
       Some (c <| cd_LastTransitionTime := t |>).
Proof.
  unfold sample_find_condition. induction cs as [|x cs IH]; cbn.
  { exists (cd_LastTransitionTime c). rewrite bool_decide_eq_true_2 by done. by destruct c. }
  destruct (decide (cd_Type x = cd_Type c)) as [E|E].
  - rewrite (bool_decide_eq_true_2 _ E). cbn. destruct (bool_decide (cd_Status x = _)); cbn;
      rewrite bool_decide_eq_true_2 by done; [by eexists|].
    exists (cd_LastTransitionTime c). by destruct c.
  - rewrite (bool_decide_eq_false_2 _ E). cbn. by rewrite (bool_decide_eq_false_2 _ E).
Qed.
Lemma sample_set_find_other cs c ty : ty ≠ cd_Type c →
  sample_find_condition (sample_set_condition cs c) ty = sample_find_condition cs ty.
Proof.
  intros Hne. unfold sample_find_condition. induction cs as [|x cs IH]; cbn.
  { by rewrite bool_decide_eq_false_2. }
  destruct (decide (cd_Type x = cd_Type c)) as [E|E].
  - rewrite (bool_decide_eq_true_2 _ E). cbn.
    rewrite (bool_decide_eq_false_2 (cd_Type x = ty)) by congruence.
    destruct (bool_decide (cd_Status x = _)); cbn; by rewrite bool_decide_eq_false_2.
  - rewrite (bool_decide_eq_false_2 _ E). cbn. by rewrite IH.
Qed.

Lemma filter_negb_twice {A} (f : A → bool) l :
  List.filter (λ x, negb (f x)) (List.filter (λ x, negb (f x)) l) =
  List.filter (λ x, negb (f x)) l.
Proof.
  induction l as [|x l IH]; cbn; [done|]. destruct (f x) eqn:E; cbn; [done|]. by rewrite E, IH.
Qed.
Lemma existsb_filter_false {A} (f g : A → bool) l :
  existsb f l = false → existsb f (List.filter g l) = false.
Proof.
  induction l as [|x l IH]; cbn; [done|]. intros [Hx Hl]%orb_false_iff.
  destruct (g x); cbn; rewrite ?Hx; auto.
Qed.

Lemma sample_controller_stable o m refs :
  sample_set_controller o m = inr refs →
  sample_set_controller o (m <| om_OwnerReferences := refs |>) = inr refs.
Proof.
  unfold sample_set_controller. cbn. destruct (existsb _ _) eqn:E; [done|]. intros [= <-].
  rewrite existsb_app, existsb_filter_false by done. cbn.
  rewrite bool_decide_eq_true_2, andb_false_r by done. cbn.
  rewrite List.filter_app, filter_negb_twice. cbn.
  rewrite (bool_decide_eq_true_2 (om_Name o = om_Name o)) by done. cbn. by rewrite app_nil_r.
Qed.
Lemma sample_controller_controls o m refs :
  sample_set_controller o m = inr refs →
  sample_controlled (m <| om_OwnerReferences := refs |>) o = true.
Proof.
  unfold sample_set_controller, sample_controlled. cbn.
  destruct (existsb _ _) eqn:E; [done|]. intros [= <-].
  induction (om_OwnerReferences m) as [|r l IH]; cbn.
  { unfold is_controller. cbn. by rewrite !bool_decide_eq_true_2. }
  cbn in E. apply orb_false_iff in E as [Er El]. destruct (negb (_ && _)); cbn; [|auto].
  destruct (is_controller r); [cbn in Er|auto].
  apply negb_false_iff, bool_decide_eq_true in Er. by rewrite Er, bool_decide_eq_true_2.
Qed.

Lemma sample_controller_names o m refs :
  sample_set_controller o m = inr refs →
  ∃ r, r ∈ refs ∧ or_Controller r = Some true ∧ or_Kind r = "SupabaseProject" ∧
       or_Name r = om_Name o ∧ sample_group (or_APIVersion r) = inr GroupVersion_Group.
Proof.
  unfold sample_set_controller. destruct (existsb _ _); [done|]. intros [= <-].
  exists (sample_owner o). split; [apply elem_of_app; right; by left|done].
Qed.

Lemma sample_laws : @PlatformLaws sample_platform.
Proof.
  split; cbn.
  - apply sample_set_find.
  - apply sample_set_find_other.
  - intros cs ty. unfold sample_find_condition, sample_remove_condition.
    pose proof (find_app_negb (λ x, bool_decide (cd_Type x = ty)) cs []) as Hf.
    by rewrite app_nil_r in Hf.
  - intros cs ty ty'. apply find_filter_other.
  - apply sample_controller_stable.
  - intros o m m' _ Hr. unfold sample_set_controller. by rewrite Hr.
  - apply sample_controller_controls.
  - apply sample_controller_names.
  - intros m m' o Hr. unfold sample_controlled. by rewrite Hr.
  - done.
  - apply Nat.compare_refl.
  - apply eq_deep_equal_laws.
Qed.
End Laws.

(** ** Keys, tokens and URLs *)

(** The 32-byte big-endian encoding of 1, in base64url. *)
Definition sample_coordinate : string :=
  EncodeToString RawURLEncoding (byte_string (replicate 31 0 ++ [1])).
Definition sample_key : JWK :=
  {| jwk_Kty := "EC"; jwk_Alg := ES256; jwk_Use := "sig"; jwk_Crv := "P-256";
     jwk_X := sample_coordinate; jwk_Y := sample_coordinate; jwk_D := sample_coordinate;
     jwk_Kid := "key-1"; jwk_KeyOps := []; jwk_Ext := None |}.
(** A curve of one point, whose signatures all verify; the only documents are
    the sample key, its header, and claims named by their role. *)
Definition sample_crypto : CryptoLib := {|
  UnmarshalJWKs := λ _, inr [sample_key];
  UnmarshalHeader := λ _, inr {| jh_Alg := ES256; jh_Typ := "JWT"; jh_Kid := "key-1" |};
  UnmarshalClaims := λ role, inr {| jc_Role := role; jc_Aud := JString "authenticated";
    jc_Iss := "supabase"; jc_Iat := 0; jc_Exp := 100 |};
  MarshalJWKs := λ _, inr "[]";
  MarshalJWKSet := λ _, inr "{}";
  MarshalHeader := λ _, inr "header";
  MarshalClaims := λ c, inr (jc_Role c);
  P256_N := 2;
  P256_IsOnCurve := λ x y, (x =? 1) && (y =? 1);
  P256_ScalarBaseMult := λ _, (1, 1);
  ecdsa_Verify := λ _ _ _ _, true |}.

(** A parser that knows one shape of URL. *)
Definition sample_url : UrlLib := {|
  url_Parse := λ s, inr {| u_Scheme := "https"; u_Host := s; u_Path := ""; u_RawPath := "";
    u_RawQuery := ""; u_Fragment := ""; u_other := ∅ |};
  url_String := u_Host |}.

Definition sample_token (role : string) : string :=
  EncodeToString RawURLEncoding "header" +:+ "." +:+ EncodeToString RawURLEncoding role +:+ "." +:+
  EncodeToString RawURLEncoding (byte_string (replicate 64 1)).

(** ** A project and its bundle *)

Definition sample_meta : ObjectMeta :=
  {| om_Name := "demo"; om_Namespace := "apps"; om_UID := "uid-1"; om_Generation := 1;
     om_Labels := ∅; om_Annotations := ∅; om_OwnerReferences := [] |}.
Definition sample_database : DatabaseSpec :=
  {| db_Instances := 1;
     db_Storage := {| st_Size := "10Gi"; st_StorageClass := None; st_ResizeInUseVolumes := None;
                      st_PersistentVolumeClaimTemplate := None |};
     db_Image := ""; db_Resources := no_resources; db_EnableSuperuserAccess := false;
     db_Parameters := ∅; db_AdditionalPreloadLibraries := []; db_AdditionalExtensions := [];
     db_Backup := None; db_Recovery := None; db_AdditionalRoles := [] |}.
Definition sample_auth : AuthSpec :=
  {| as_ImageTag := ""; as_Replicas := 1; as_SiteURL := "https://demo.example";
     as_ExternalURL := "https://api.demo.example"; as_AccessTokenExpirationSeconds := 0;
     as_DisableSignup := false; as_EnableAnonymousUsers := false; as_AutoConfirmEmail := false;
     as_GoTrueEnv := []; as_Providers := None; as_EmailHook := None; as_SMTP := None;
     as_Resources := no_resources |}.
Definition sample_spec : SupabaseProjectSpec :=
  {| sps_Database := sample_database; sps_ProjectCredentialsSecret := "demo-credentials";
     sps_Auth := sample_auth;
     sps_Rest := {| rs_ImageTag := ""; rs_Replicas := 1; rs_Schemas := ["public"];
                    rs_Resources := no_resources |};
     sps_Studio := {| ss_ImageTag := ""; ss_Replicas := 1; ss_PublicURL := "https://studio";
                      ss_OrganizationName := ""; ss_ProjectName := "";
                      ss_Resources := no_resources |};
     sps_Meta := {| ms_ImageTag := ""; ms_Replicas := 1; ms_Resources := no_resources |};
     sps_Gateway := {| gs_ImageTag := ""; gs_Replicas := 1; gs_Resources := no_resources |};
     sps_Powersync := None; sps_ImagePullSecrets := [] |}.
Definition no_status : SupabaseProjectStatus :=
  {| sts_Phase := ""; sts_Conditions := [];
     sts_Database := {| dbs_Ready := false; dbs_Phase := ""; dbs_ReadyInstances := 0;
                        dbs_PrimaryHost := "" |};
     sts_Services :=
       {| sv_Auth := no_service_status; sv_Rest := no_service_status;
          sv_Studio := no_service_status; sv_Meta := no_service_status;
          sv_Gateway := no_service_status; sv_PowersyncAPI := no_service_status;
          sv_PowersyncReplication := no_service_status |};
     sts_SecretNames := no_secret_names;
     sts_Endpoints := {| ep_API := ""; ep_Database := "" |}; sts_ObservedGeneration := 0 |}.
Definition sample_project : SupabaseProject :=
  {| prj_meta := sample_meta; prj_Spec := sample_spec; prj_Status := no_status |}.

(** With PowerSync. *)
Definition sample_powersync : PowersyncSpec :=
  {| pss_PublicationSchemas := None;
     pss_Image := {| is_Registry := ""; is_Repository := ""; is_Tag := ""; is_PullPolicy := "" |};
     pss_API := {| pa_Replicas := 1; pa_Resources := no_resources; pa_NodeOptions := "" |};
     pss_Replication := {| pr_Resources := no_resources; pr_NodeOptions := "" |};
     pss_SyncRules := {| sr_Inline := "config: {edition: 3}"; sr_ConfigMapRef := "" |};
     pss_Compact := {| pcs_Enabled := true; pcs_Schedule := ""; pcs_Resources := no_resources |} |}.
Definition powersync_project : SupabaseProject :=
  sample_project <| prj_Spec ::= (λ s, s <| sps_Powersync := Some sample_powersync |>) |>.

Definition sample_bundle : Secret :=
  {| sec_meta := new_meta "demo-credentials" "apps" ∅ ∅;
     sec_Data := list_to_map [
       (ProjectCredentialsSigningKeysKey, "[...]");
       (ProjectCredentialsPublishableKey,
         canonical_opaque_key "sb_publishable_" "abcdefghijklmnopqrstuv");
       (ProjectCredentialsSecretKey,
         canonical_opaque_key "sb_secret_" "abcdefghijklmnopqrstuv");
       (ProjectCredentialsAnonRoleJWTKey, sample_token "anon");
       (ProjectCredentialsServiceRoleJWTKey, sample_token "service_role")];
     sec_StringData := ∅; sec_Type := "Opaque" |}.

Example sample_bundle_valid :
  match @ValidateProjectCredentials sample_platform sample_crypto 1 1 (Some sample_bundle) with
  | inr c => pc_PublicJWKS c = "{}" ∧ pc_SigningKeyID c = "key-1"
  | inl _ => False
  end.
Proof. by vm_compute. Qed.
