(* ===== verification/WizardSamples.v ===== *)
(** * Libraries for the wizard

    Concrete functions that meet [WizardLaws], to evaluate and apply the
    theorems of [Wizard], [WizardTerminal] and [WizardProcess]: a reader that counts, a curve
    with one point, and a JSON codec that is exact on every value. *)

From S2P Require Import Prelude KubeTypes Types Platform Encoding Sha256 Crypto Secrets Wizard WizardTerminal WizardProcess Samples.
From stdpp Require Import countable.
From Stdlib Require Import Ascii.
#[local] Open Scope Z_scope.
#[local] Existing Instances sample_platform.

(** ** A codec: countable types as non-empty bit strings *)

Fixpoint bits_of (p : positive) : string :=
  match p with
  | xH => "1"
  | xO p => String "0" (bits_of p)
  | xI p => String "1" (bits_of p)
  end.
Fixpoint of_bits (s : string) : option positive :=
  match s with
  | EmptyString => None
  | String c EmptyString => Some xH
  | String c s => (if bool_decide (c = "0"%char) then xO else xI) <$> of_bits s
  end.
Lemma bits_of_ne p : bits_of p ≠ "".
Proof. by destruct p. Qed.
Lemma of_bits_of p : of_bits (bits_of p) = Some p.
Proof.
  induction p as [p IH|p IH|]; [..|done]; cbn [bits_of of_bits];
    (destruct (bits_of p) eqn:E; [by destruct (bits_of_ne p)|]); by rewrite IH.
Qed.

Definition marshal {A} `{Countable A} (a : A) : result string := inr (bits_of (encode a)).
Definition unmarshal {A} `{Countable A} (s : string) : result A :=
  match of_bits s ≫= decode with Some a => inr a | None => inl (ErrorString "invalid") end.
Lemma unmarshal_marshal {A} `{Countable A} (a : A) s : marshal a = inr s → unmarshal s = inr a.
Proof. intros [= <-]. unfold unmarshal. rewrite of_bits_of. cbn. by rewrite decode_encode. Qed.

#[export] Instance JWK_countable : Countable JWK.
Proof.
  refine (inj_countable' (λ k, (jwk_Kty k, jwk_Alg k, jwk_Use k, jwk_Crv k, jwk_X k, jwk_Y k,
      jwk_D k, jwk_Kid k, jwk_KeyOps k, jwk_Ext k))
    (λ '(a, b, c, d, e, f, g, h, i, j), Build_JWK a b c d e f g h i j) _); by intros [].
Defined.
#[export] Instance JWTHeader_countable : Countable JWTHeader.
Proof.
  refine (inj_countable' (λ h, (jh_Alg h, jh_Typ h, jh_Kid h))
    (λ '(a, b, c), Build_JWTHeader a b c) _); by intros [].
Defined.

(** Claims whose audience is a string. *)
Definition claims_row (c : JWTClaims) : string * string * string * Z * Z :=
  (jc_Role c, match jc_Aud c with JString s => s | _ => "" end, jc_Iss c, jc_Iat c, jc_Exp c).
Definition row_claims (row : string * string * string * Z * Z) : JWTClaims :=
  let '(role, aud, iss, iat, exp) := row in
  {| jc_Role := role; jc_Aud := JString aud; jc_Iss := iss; jc_Iat := iat; jc_Exp := exp |}.

Definition codec_crypto : CryptoLib := {|
  UnmarshalJWKs := unmarshal; UnmarshalHeader := unmarshal;
  UnmarshalClaims := λ s, row_claims <$> unmarshal s;
  MarshalJWKs := marshal; MarshalJWKSet := marshal; MarshalHeader := marshal;
  MarshalClaims := λ c, marshal (claims_row c);
  P256_N := 2;
  P256_IsOnCurve := λ x y, (x =? 1) && (y =? 1);
  P256_ScalarBaseMult := λ _, (1, 1);
  ecdsa_Verify := λ _ _ _ _, true |}.

(** The reader's state is the byte it repeats next. *)
Definition counting_reader : WizardLib Z := {|
  ReadFull := λ n r, (r + 1, inr (byte_string (replicate n (r mod 256))));
  ecdsa_GenerateKey := λ r,
    (r + 1, inr {| sk_PublicKey := {| pk_X := 1; pk_Y := 1 |}; sk_D := 1 |});
  ecdsa_Sign := λ _ _ r, (r + 1, inr (1, 1)) |}.

#[export] Instance counting_laws : @WizardLaws Z codec_crypto counting_reader.
Proof.
  split.
  - intros n r r' b [= <- <-]. by rewrite byte_string_length, length_replicate.
  - intros r r' k [= <- <-]. by repeat split.
  - done.
  - intros k digest r r' a b _ [= <- <- <-]. by repeat split.
  - intros l. by eexists.
  - intros l. by eexists.
  - intros h. by eexists.
  - intros c. by eexists.
  - intros l s _. apply unmarshal_marshal.
  - by eexists.
  - intros h s _. apply unmarshal_marshal.
  - intros c s aud Haud _ Hs. cbn in *. rewrite (unmarshal_marshal _ _ Hs).
    destruct c as [role a iss iat exp]. cbn in Haud. by subst.
Qed.

(** ** Witnesses *)

Section Witnesses.
#[local] Existing Instances sample_platform codec_crypto counting_reader.

Definition wizard_now : Time := {| t_Unix := 1767225600; t_Offset := 3600 |}.

Lemma generateCredentialBundle_total_witness :
  ∃ r' bundle, generateCredentialBundle wizard_now 1767225601 1767225602 0 = (r', inr bundle).
Proof.
  refine (generateCredentialBundle_total wizard_now 1767225601 1767225602 _ _ _ _ _ 0).
  - intros n r. by do 2 eexists.
  - intros r. by do 2 eexists.
  - intros k digest r. by do 2 eexists.
  - by vm_compute.
  - by vm_compute.
Defined.

Lemma generateCredentialBundle_valid_witness :
  ∃ bundle creds,
    (generateCredentialBundle wizard_now 1767225601 1767225602 0).2 = inr bundle ∧
    ValidateProjectCredentials 1924991000 1924991000 (Some (secret bundle)) = inr creds ∧
    pc_SecretKey creds = bd_SecretKey bundle.
Proof.
  assert (Hok : match (generateCredentialBundle wizard_now 1767225601 1767225602 0).2 with
                | inr _ => true | inl _ => false end = true) by by vm_compute.
  destruct (generateCredentialBundle wizard_now 1767225601 1767225602 0) as [r' [e|bundle]] eqn:E;
    [done|].
  destruct (generateCredentialBundle_valid wizard_now 1767225601 1767225602 0 r' bundle
    1924991000 1924991000 E) as [_ Hv].
  destruct Hv as (creds & Hc & _ & _ & Hs & _); [by vm_compute..|].
  exists bundle, creds. exact (conj eq_refl (conj Hc Hs)).
Defined.

(** A dialogue in which every operation succeeds. *)
Fixpoint obliging {A} (d : dialogue A) : history * A :=
  match d with
  | Done a => ([], a)
  | Do op k => let (h, a) := obliging (k None) in ((op, None) :: h, a)
  end.
Lemma obliging_plays {A} (d : dialogue A) : plays d (obliging d).1 (obliging d).2.
Proof.
  induction d as [a|op k IH]; cbn; [done|]. specialize (IH None).
  destruct (obliging (k None)) as [h a]. by exists None, h.
Qed.

Definition sample_fields : credentialBundle :=
  {| bd_SigningKeys := "a"; bd_PublishableKey := "b"; bd_SecretKey := "c"; bd_AnonRoleJWT := "d";
     bd_ServiceRoleJWT := "e" |}.

Lemma runWizard_clipboard_witness :
  let h := (obliging (runWizard (inr sample_fields))).1 in
  clip h = None ∧ copied h = ["a"; "b"; "c"; "d"; "e"].
Proof.
  pose proof (obliging_plays (runWizard (inr sample_fields))) as Hp.
  destruct (runWizard_clipboard _ _ _ Hp) as (_ & _ & Hok).
  destruct (Hok eq_refl) as (Hc & bundle & [= <-] & Hd). by split.
Defined.

Lemma runWizard_no_leak_witness :
  ∃ h2, plays (runWizard (inr (sample_fields <| bd_SecretKey := "x" |>))) h2 None ∧
    hide <$> h2 = hide <$> (obliging (runWizard (inr sample_fields))).1.
Proof.
  apply (runWizard_no_leak sample_fields (sample_fields <| bd_SecretKey := "x" |>)).
  exact (obliging_plays (runWizard (inr sample_fields))).
Defined.
End Witnesses.

(** The process, uninterrupted: status 0, and the values handed over. *)
Lemma wizard_process_witness :
  ∃ log, reaches true true (inr sample_fields) log (Exited 0) ∧
    copied (of_thread Main log) = ["a"; "b"; "c"; "d"; "e"] ∧ clip (seen log) = None.
Proof.
  destruct (schedule (replicate 49 RunMain) (launch true true (inr sample_fields))) as [[log q]|] eqn:E;
    [|by vm_compute in E].
  assert (Hq : q = Exited 0).
  { vm_compute in E. by injection E as _ <-. }
  subst q. assert (Hr := schedule_reaches _ _ _ _ [] _ _ _ (reaches_start _ _ _) E).
  exists log. split; [exact Hr|].
  destruct (wizard_process true true (inr sample_fields) log (Exited 0) Hr)
    as (_ & _ & [(_ & Hc & b & Hb & Hd)|[[Hn _]|[Hn _]]]); [|discriminate Hn..].
  injection Hb as <-. split; [exact Hd|exact Hc].
Defined.
