(* ===== verification/Simulation.v ===== *)
(** * A simulated API server

    An executable server to run the controller against: a list of stored
    objects, the create, update and delete semantics of the API server, and
    the other controllers (kubelet, CloudNativePG, jobs) as one function that
    makes everything ready.  Used by witnesses and examples; no theorem assumes
    it. *)

From S2P Require Import Prelude KubeTypes Types Platform Effects Common ConfigMaps Cnpg Encoding Sha256 Crypto Secrets Deployments Services ObjectSync ClusterSync Store Provisioning Database CoreServices PowerSync Reconciler Samples.

Record stored := Stored { stored_kind : kind; stored_object : object stored_kind }.
Abbreviation world := (list stored).

Definition as_kind (k : kind) (s : stored) : option (object k) :=
  match decide (stored_kind s = k) with
  | left E => Some (eq_rect _ object (stored_object s) _ E)
  | right _ => None
  end.
Definition matches (k : kind) (key : NamespacedName) (s : stored) : bool :=
  bool_decide (stored_kind s = k) && bool_decide (obj_key (stored_object s) = key).
Definition find_object (k : kind) (key : NamespacedName) (w : world) : option (object k) :=
  List.find (matches k key) w ≫= as_kind k.
Definition replace_object (k : kind) (o : object k) (w : world) : world :=
  (λ s, if matches k (obj_key o) s then Stored k o else s) <$> w.

Definition handle (w : world) (r : request) : world * response r :=
  match r return world * response r with
  | Get k key => (w, match find_object k key w with
                     | Some o => inr o
                     | None => inl (StatusError true "not found")
                     end)
  | Create k o => match find_object k (obj_key o) w with
                  | Some _ => (w, Some (StatusError false "already exists"))
                  | None => (w ++ [Stored k o], None)
                  end
  | Update k o => match find_object k (obj_key o) w with
                  | Some _ => (replace_object k o w, inr o)
                  | None => (w, inl (StatusError true "not found"))
                  end
  | Delete k o _ => (List.filter (λ s, negb (matches k (obj_key o) s)) w, None)
  | StatusUpdate p => (replace_object KProject p w, inr p)
  | ListProjects _ => (w, inr (omap (as_kind KProject) w))
  | Now => (w, 1)
  | RandRead n => (w, inr (byte_string (replicate n 65)))
  end.

(** Everything the other controllers do between two reconciliations. *)
Definition make_ready (s : stored) : stored :=
  match s with
  | Stored KDeployment d =>
      let n := default 1 (dp_Replicas d) in
      Stored KDeployment (d <| dp_Status :=
        {| dps_ObservedGeneration := om_Generation (dp_meta d); dps_UpdatedReplicas := n;
           dps_ReadyReplicas := n; dps_AvailableReplicas := n; dps_UnavailableReplicas := 0 |} |>)
  | Stored KCluster c =>
      Stored KCluster (c <| cl_Status ::= (λ st,
        st <| cst_ReadyInstances := cs_Instances (cl_Spec c) |>
           <| cst_ByStatus := {[ RoleStatusReconciled :=
                                 ["powersync_storage"; "powersync_replication"] ]} |>) |>)
  | Stored KPublication p =>
      Stored KPublication (p <| pb_Status :=
        {| pbt_ObservedGeneration := om_Generation (pb_meta p); pbt_Applied := Some true;
           pbt_Message := "" |} |>)
  | Stored KJob j =>
      Stored KJob (j <| job_Conditions :=
        [{| jc_Type := "Complete"; jc_Status := ConditionTrue; jc_Message := "" |}] |>)
  | s => s
  end.

#[local] Existing Instances sample_platform sample_crypto sample_url.
Definition demo_key : NamespacedName := {| nn_Namespace := "apps"; nn_Name := "demo" |}.

(** One reconciliation, then the other controllers. *)
Definition round (w : world) : world * result Result :=
  let '(w, _, r) := interp handle w (Reconcile demo_key) in (make_ready <$> w, r).
Fixpoint rounds (n : nat) (w : world) : world * list (result Result) :=
  match n with
  | O => (w, [])
  | S n => let '(w, r) := round w in let '(w, rs) := rounds n w in (w, r :: rs)
  end.

Definition start (p : SupabaseProject) : world :=
  [Stored KProject p; Stored KSecret sample_bundle].

(** The server keeps to whatever relation its answers satisfy. *)
Lemma interp_relies {A} P (w : world) (p : prog A) w' tr a :
  (∀ w r, rely P r (handle w r).2) →
  interp handle w p = (w', tr, a) → relies P tr.
Proof.
  intros HP. revert w w' tr a. induction p as [x|r k IH]; cbn; intros w w' tr a H.
  - simplify_eq. constructor.
  - pose proof (HP w r) as Hr. destruct (handle w r) as [w1 v].
    destruct (interp handle w1 (k v)) as [[w2 tr2] a2] eqn:E. simplify_eq.
    constructor; [done|by eapply IH].
Qed.

(** The project as the server has it. *)
Definition project_of (w : world) : SupabaseProject :=
  default sample_project (find_object KProject demo_key w).
(** The whole reconciliation on a world. *)
Definition run_world (w : world) : world * trace * (SupabaseProject * result Result) :=
  interp handle w (reconcileProject (project_of w)).

(** Two rounds bring up the sample project; the third finds everything ready. *)
Definition settled_world : world := (rounds 2 (start sample_project)).1.
Definition powersync_world : world := (rounds 5 (start powersync_project)).1.

(** PowerSync is rolled out and then taken out of the spec; a first round takes
    its roles out of the Cluster. *)
Definition without_powersync (w : world) : world :=
  replace_object KProject ((project_of w) <| prj_Spec ::= (λ s, s <| sps_Powersync := None |>) |>) w.
Definition removal_world : world := (round (without_powersync (round powersync_world).1)).1.

(** From nothing to Running. *)
Example demo_rounds :
  (rounds 4 (start sample_project)).2 =
    [inr (Some RequeueDelay); inr (Some RequeueDelay); inr None; inr None].
Proof. by vm_compute. Qed.
Example powersync_rounds :
  (rounds 6 (start powersync_project)).2 = replicate 5 (inr (Some RequeueDelay)) ++ [inr None].
Proof. by vm_compute. Qed.
(** The kinds of object written, in order. *)
Definition writes (tr : trace) : list kind :=
  omap (λ e, match ev_req e with
             | Create k _ | Update k _ | Delete k _ _ => Some k
             | StatusUpdate _ => Some KProject
             | _ => None
             end) tr.
(** Once Running, a reconciliation writes nothing but the project's status,
    twice: [waitForDatabase] clears the API endpoint, [reconcileGateway]
    restores it. *)
Example steady_state_writes : writes (run_world (round settled_world).1).1.2 = [KProject; KProject].
Proof. by vm_compute. Qed.
Example powersync_removal_writes :
  (run_world removal_world).2.2 = inr None ∧
  omap (λ e, match ev_req e with Delete k _ _ => Some k | _ => None end) (run_world removal_world).1.2 =
    [KDeployment; KDeployment; KService; KConfigMap; KConfigMap; KConfigMap; KJob; KCronJob;
     KPublication].
Proof. by vm_compute. Qed.
Example powersync_steady_state_writes :
  writes (run_world (round powersync_world).1).1.2 = [KProject; KProject].
Proof. by vm_compute. Qed.
