(* ===== verification/Witnesses.v ===== *)
(** * Witnesses

    Each property that has hypotheses, applied to a concrete input where they
    hold: the simulated server of [Simulation], the sample project and the
    sample keys of [Samples]. *)

From S2P Require Import Prelude KubeTypes Types Platform Effects Common ConfigMaps Cnpg Encoding Sha256 Crypto Secrets Deployments Services Workloads Gateway ObjectSync ClusterSync Store Defaulting Apply Converge Provisioning Database CoreServices PowerSync Reconciler ErrorFlow Safety Discipline Gate Readiness Frame Lifecycle Order Isolation Phases Watches References Effort Frugal Removal Samples Simulation.

#[local] Existing Instances sample_platform sample_laws sample_crypto sample_url.

(** ** Whole reconciliations *)

Lemma handle_keeps_meta w r : keeps_meta r (handle w r).2.
Proof. by destruct r. Qed.
Lemma handle_keeps_spec w r : keeps_spec r (handle w r).2.
Proof. by destruct r. Qed.
Lemma handle_stores_status w r : stores_status r (handle w r).2.
Proof. by destruct r. Qed.

Lemma reconcileProject_discipline_witness :
  ∃ tr p r,
    runs (reconcileProject (project_of settled_world)) tr (p, r) ∧
    Forall (λ e, ∃ h, write_ok (prj_meta (project_of settled_world)) h (ev_req e)) tr.
Proof.
  destruct (run_world settled_world) as [[w tr] [p r]] eqn:E.
  assert (Hname : prj_Name (project_of settled_world) ≠ "") by by vm_compute.
  assert (Hr := interp_runs _ _ _ _ _ _ E).
  assert (Hrel := interp_relies (discipline (prj_meta (project_of settled_world))) _ _ _ _ _
    handle_keeps_meta E).
  exists tr, p, r. split; [exact Hr|].
  destruct (reconcileProject_discipline (project_of settled_world) tr p r Hname Hr Hrel) as [Hw _].
  apply Forall_forall. intros e (tr1 & tr2 & ->)%list_elem_of_split. exists tr1.
  exact (Hw tr1 e tr2 eq_refl).
Defined.

Lemma reconcileProject_credential_gate_witness :
  ∃ tr o,
    runs (reconcileProject (project_of settled_world)) tr o ∧
    Forall (λ e, ∃ h, gated (project_of settled_world) h (ev_req e)) tr.
Proof.
  destruct (run_world settled_world) as [[w tr] o] eqn:E.
  assert (Hr := interp_runs _ _ _ _ _ _ E).
  assert (Hrel := interp_relies (gate (project_of settled_world)) _ _ _ _ _ handle_keeps_spec E).
  exists tr, o. split; [exact Hr|].
  apply Forall_forall. intros e (tr1 & tr2 & ->)%list_elem_of_split. exists tr1.
  exact (reconcileProject_credential_gate (project_of settled_world) _ o Hr Hrel tr1 e tr2 eq_refl).
Defined.

(** With PowerSync: the last round of the simulation. *)
Lemma reconcileProject_running_witness :
  ∃ tr p,
    runs (reconcileProject (project_of powersync_world)) tr (p, inr None) ∧
    all_ready (project_of powersync_world) tr ∧
    is_Some (sps_Powersync (prj_Spec (project_of powersync_world))) ∧
    running p.
Proof.
  destruct (run_world powersync_world) as [[w tr] [p r]] eqn:E.
  assert (r = inr None) as ->.
  { change r with ((w, tr, (p, r)).2.2). rewrite <- E. by vm_compute. }
  assert (Hname : prj_Name (project_of powersync_world) ≠ "") by by vm_compute.
  assert (Hps : bool_decide (is_Some (sps_Powersync (prj_Spec (project_of powersync_world)))) = true)
    by (vm_compute; reflexivity).
  assert (Hr := interp_runs _ _ _ _ _ _ E).
  assert (Hrel := interp_relies observer _ _ _ _ _ handle_stores_status E).
  exists tr, p. generalize dependent (project_of powersync_world).
  intros project Hname Hps Hr.
  destruct (reconcileProject_running project tr p Hname Hr Hrel) as (Hall & Hrun & _).
  split; [exact Hr|]. split; [exact Hall|]. split; [by apply bool_decide_eq_true in Hps|exact Hrun].
Defined.

(** The simulated server answers a Get with the object of that name. *)
Lemma find_object_key k key w o : find_object k key w = Some o → obj_key o = key.
Proof.
  unfold find_object. destruct (List.find (matches k key) w) as [s|] eqn:E; cbn; [|done].
  apply List.find_some in E as [_ Hm]. unfold matches, as_kind in *. bools.
  destruct (decide _) as [Ek|]; [|done]. intros [= <-]. by destruct Ek.
Qed.
Lemma handle_faithful w r : faithful r (handle w r).2.
Proof.
  split; [apply handle_stores_status|]. destruct r as [k key| | | | | | |]; try done. cbn.
  destruct (find_object k key w) eqn:E; [by eapply find_object_key|done].
Qed.

(** The round in which the PowerSync workloads are rolled out. *)
Definition rollout_world : world := (rounds 4 (start powersync_project)).1.
Lemma reconcileProject_order_witness :
  let project := project_of rollout_world in
  ∃ tr1 e tr2 o, runs (reconcileProject project) (tr1 ++ e :: tr2) o ∧
    stage project (ev_req e) = 4%nat ∧ evidence project 4 tr1.
Proof.
  intros project. destruct (run_world rollout_world) as [[w tr] o] eqn:E.
  assert (Hname : prj_Name project ≠ "") by by vm_compute.
  assert (Hex : existsb (λ e, Nat.eqb (stage project (ev_req e)) 4) tr = true).
  { change tr with ((w, tr, o).1.2). rewrite <- E. by vm_compute. }
  assert (Hr := interp_runs _ _ _ _ _ _ E).
  assert (Hrel := interp_relies (ordered project) _ _ _ _ _ handle_faithful E).
  apply existsb_exists in Hex as (e & He & Hst). apply Nat.eqb_eq in Hst.
  apply list_elem_of_In, list_elem_of_split in He as (tr1 & tr2 & ->).
  exists tr1, e, tr2, o. split; [exact Hr|]. split; [exact Hst|].
  pose proof (reconcileProject_order project _ o Hname Hr Hrel tr1 e tr2 eq_refl) as Hev.
  by rewrite Hst in Hev.
Defined.

(** A project whose PowerSync was rolled out and is no longer wanted: its
    publication is deleted. *)
Lemma reconcileProject_removes_powersync_witness :
  ∃ tr p,
    runs (reconcileProject (project_of removal_world)) tr (p, inr None) ∧
    existsb (λ e, match ev_req e with Delete KPublication _ _ => true | _ => false end) tr = true ∧
    dismantled (project_of removal_world) tr p.
Proof.
  destruct (run_world removal_world) as [[w tr] [p r]] eqn:E.
  assert (r = inr None) as ->.
  { change r with ((w, tr, (p, r)).2.2). rewrite <- E. by vm_compute. }
  assert (Hdel : existsb (λ e, match ev_req e with Delete KPublication _ _ => true | _ => false end) tr
    = true).
  { change tr with ((w, tr, (p, inr None : result Result)).1.2). rewrite <- E. by vm_compute. }
  assert (Hname : prj_Name (project_of removal_world) ≠ "") by by vm_compute.
  assert (Hnone : sps_Powersync (prj_Spec (project_of removal_world)) = None) by (vm_compute; reflexivity).
  assert (Hr := interp_runs _ _ _ _ _ _ E).
  assert (Hrel := interp_relies (up_to (project_of removal_world) 1) _ _ _ _ _ handle_faithful E).
  exists tr, p. generalize dependent (project_of removal_world). intros project Hname Hnone Hr Hrel.
  destruct (reconcileProject_removes_powersync project tr p _ Hname Hnone Hr Hrel) as [_ Hd].
  split; [exact Hr|]. split; [exact Hdel|]. by apply Hd.
Defined.

Lemma reconcileProject_lifecycle_lawful_witness :
  let project := project_of (start sample_project) in
  ∃ tr p r, runs (reconcileProject project) tr (p, r) ∧ lawful project p ∧
    phase_of project = "" ∧ phase_of p = PhaseProvisioning.
Proof.
  intros project. destruct (run_world (start sample_project)) as [[w tr] [p r]] eqn:E.
  assert (Hr := interp_runs _ _ _ _ _ _ E).
  assert (Hrel := interp_relies (lifecycle project) _ _ _ _ _ handle_faithful E).
  assert (Hp : phase_of p = PhaseProvisioning).
  { change p with ((w, tr, (p, r)).2.1). rewrite <- E. by vm_compute. }
  exists tr, p, r. split; [exact Hr|]. split; [|by split].
  apply (reconcileProject_lifecycle_lawful project tr p r); [by left|by intros c|exact Hr|exact Hrel].
Defined.

(** A project whose name extends the sample's, as the sample's PowerSync objects
    do: what the sample creates, it never touches. *)
Definition extending_project : SupabaseProject :=
  powersync_project <| prj_meta ::= (λ m, m <| om_Name := "demo-powersync" |>) |>.
Lemma reconciliations_isolated_witness :
  ∃ tr tr' o o' key,
    runs (reconcileProject sample_project) tr o ∧ runs (reconcileProject extending_project) tr' o' ∧
    (∃ e, e ∈ tr ∧ written (ev_req e) = Some (KCluster, key)) ∧
    ∀ e', e' ∈ tr' → written (ev_req e') ≠ Some (KCluster, key).
Proof.
  destruct (interp handle (start sample_project) (reconcileProject sample_project)) as [[w tr] o] eqn:E.
  destruct (interp handle (start extending_project) (reconcileProject extending_project))
    as [[w' tr'] o'] eqn:E'.
  pose (key := in_namespace sample_project "demo-pg").
  assert (Hex : existsb (λ e, bool_decide (written (ev_req e) = Some (KCluster, key))) tr = true).
  { change tr with ((w, tr, o).1.2). rewrite <- E. by vm_compute. }
  assert (Hr := interp_runs _ _ _ _ _ _ E). assert (Hr' := interp_runs _ _ _ _ _ _ E').
  assert (Hrel := interp_relies (lifecycle sample_project) _ _ _ _ _ handle_faithful E).
  assert (Hrel' := interp_relies (lifecycle sample_project) _ _ _ _ _ handle_faithful E').
  apply existsb_exists in Hex as (e & He & Hw). apply bool_decide_eq_true in Hw.
  apply list_elem_of_In in He.
  exists tr, tr', o, o', key. split; [exact Hr|]. split; [exact Hr'|].
  split; [exists e; split; [exact He|exact Hw]|]. intros e' He'.
  refine (reconciliations_isolated sample_project extending_project tr tr' o o' _ _ _ Hr Hr' _
    e e' KCluster key He Hw He').
  1-2: by vm_compute.
  1: by apply (bool_decide_unpack _); vm_compute.
  apply Forall_app. split; [exact Hrel|exact Hrel'].
Defined.

(** The Secrets of the first reconciliation are watched through their owner
    references. *)
Definition sample_enqueue (k : kind) (o : object k) : list NamespacedName :=
  (λ r, {| nn_Namespace := om_Namespace (obj_meta o); nn_Name := or_Name r |}) <$>
    List.filter (λ r, is_controller r && owned_by_project (or_Name r) r)
      (om_OwnerReferences (obj_meta o)).
Lemma sample_enqueues : enqueues_controllers sample_enqueue.
Proof.
  intros k o r Hr Hc Ho. apply list_elem_of_fmap. exists r. split; [done|].
  apply list_elem_of_In, List.filter_In. split; [by apply list_elem_of_In|].
  unfold is_controller. by rewrite Hc, Ho, bool_decide_eq_true_2.
Qed.
Lemma writes_are_watched_witness :
  ∃ tr out e (o : object KSecret),
    runs (reconcileProject sample_project) tr out ∧ e ∈ tr ∧ sends (ev_req e) KSecret o ∧
    watched (λ _ _, []) sample_enqueue sample_project o.
Proof.
  destruct (interp handle (start sample_project) (reconcileProject sample_project)) as [[w tr] out] eqn:E.
  assert (Hex : existsb (λ e, match ev_req e with Create KSecret _ => true | _ => false end) tr = true).
  { change tr with ((w, tr, out).1.2). rewrite <- E. by vm_compute. }
  assert (Hr := interp_runs _ _ _ _ _ _ E).
  assert (Hrel := interp_relies (lifecycle sample_project) _ _ _ _ _ handle_faithful E).
  apply existsb_exists in Hex as (e & He & Hc). apply list_elem_of_In in He.
  assert (Hs : ∃ o : object KSecret, sends (ev_req e) KSecret o).
  { clear He. destruct e as [[] v]; try discriminate Hc. cbn in Hc. destruct k; try discriminate Hc.
    exists o. apply sends_create. }
  destruct Hs as [o Hs]. exists tr, out, e, o.
  split; [exact Hr|]. split; [exact He|]. split; [exact Hs|].
  refine (writes_are_watched (λ _ _, []) sample_enqueue sample_project tr out e KSecret o
    sample_enqueues _ Hr Hrel He Hs).
  by vm_compute.
Defined.

(** The creation of the Cluster. *)
Lemma reconcileProject_writes_needed_witness :
  ∃ tr1 e tr2 o, runs (reconcileProject sample_project) (tr1 ++ e :: tr2) o ∧
    (∃ c, ev_req e = Create KCluster c) ∧ needed tr1 (ev_req e).
Proof.
  destruct (interp handle (start sample_project) (reconcileProject sample_project)) as [[w tr] o] eqn:E.
  assert (Hex : existsb (λ e, match ev_req e with Create KCluster _ => true | _ => false end) tr = true).
  { change tr with ((w, tr, o).1.2). rewrite <- E. by vm_compute. }
  assert (Hr := interp_runs _ _ _ _ _ _ E). clear E.
  apply existsb_exists in Hex as (e & He & Hc).
  apply list_elem_of_In, list_elem_of_split in He as (tr1 & tr2 & ->).
  exists tr1, e, tr2, o. split; [exact Hr|]. split.
  - clear Hr. destruct e as [[] v]; try discriminate Hc. cbn in Hc. destruct k; try discriminate Hc.
    by eexists.
  - exact (reconcileProject_writes_needed sample_project tr1 e tr2 o Hr).
Defined.

(** The whole entry point on the settled world: a clean history. *)
Lemma Reconcile_reports_failures_witness :
  ∃ tr, runs (Reconcile demo_key) tr (inr None) ∧ clean tr.
Proof.
  destruct (interp handle settled_world (Reconcile demo_key)) as [[w tr] r] eqn:E.
  assert (r = inr None) as -> by (change r with ((w, tr, r).2); rewrite <- E; by vm_compute).
  assert (Hr := interp_runs _ _ _ _ _ _ E).
  exists tr. split; [exact Hr|]. exact (Reconcile_reports_failures demo_key tr None Hr).
Defined.

(** On the settled world every phase runs: 59 requests, within the bound. *)
Lemma Reconcile_bounded_witness :
  ∃ tr r, runs (Reconcile demo_key) tr r ∧ (59 ≤ length tr ≤ 148)%nat.
Proof.
  destruct (interp handle settled_world (Reconcile demo_key)) as [[w tr] r] eqn:E.
  assert (Hr := interp_runs _ _ _ _ _ _ E).
  assert (Hrel := interp_relies spec_kept _ _ _ _ _ handle_keeps_spec E).
  assert (Hl : (59 <=? length tr)%nat = true).
  { change tr with ((w, tr, r).1.2). rewrite <- E. by vm_compute. }
  assert (Hc : configured_variables tr = 0%nat).
  { change tr with ((w, tr, r).1.2). rewrite <- E. by vm_compute. }
  assert (Hb : r = inr None).
  { change r with ((w, tr, r).2). rewrite <- E. by vm_compute. }
  exists tr, r. apply Nat.leb_le in Hl.
  assert (H := Reconcile_bounded demo_key tr r Hr Hrel). rewrite Hc, Hb in H.
  split; [exact Hr|]. split; [exact Hl|]. cbn [request_budget] in H. lia.
Defined.

(** ** Create-or-update *)

(** The Meta deployment, first created, then served with the API server's
    defaults. *)
Definition meta_deployment : Deployment := BuildMetaDeployment sample_project no_secret_names.
Definition meta_sent : Deployment :=
  meta_deployment <| dp_meta ::= (λ m, m <| om_OwnerReferences := [sample_owner sample_meta] |>) |>.
Definition served_probe (p : Probe) : Probe :=
  p <| pr_SuccessThreshold := 1 |> <| pr_HTTPGet ::= fmap (λ h, h <| hg_Scheme := "HTTP" |>) |>.
Definition served_container (c : Container) : Container :=
  c <| ct_TerminationMessagePath := "/dev/termination-log" |>
    <| ct_TerminationMessagePolicy := "File" |>
    <| ct_LivenessProbe ::= fmap served_probe |> <| ct_ReadinessProbe ::= fmap served_probe |>.
Definition meta_stored : Deployment :=
  meta_sent <| dp_Strategy := {| dst_Type := "RollingUpdate"; dst_RollingUpdate := Some ("25%", "25%") |} |>
    <| dp_Template ::= (λ t, t <| pt_Spec ::= (λ s, s
       <| ps_RestartPolicy := "Always" |> <| ps_TerminationGracePeriodSeconds := Some 30 |>
       <| ps_DNSPolicy := "ClusterFirst" |> <| ps_SecurityContext := Some ∅ |>
       <| ps_SchedulerName := "default-scheduler" |>
       <| ps_Containers ::= fmap served_container |>) |>) |>.
Ltac defaulted :=
  repeat first [exact (or_introl eq_refl) | exact (or_intror (conj eq_refl eq_refl)) | exact eq_refl
               | exact (or_intror (conj (list_elem_of_here _ _) eq_refl)) | constructor].
Lemma meta_defaulted : deployment_defaulted meta_sent meta_stored.
Proof. defaulted. Qed.

Lemma helpers_converge_witness :
  dp_Template meta_stored ≠ dp_Template meta_sent ∧
  runs (createOrUpdate HDeployment meta_deployment sample_project)
    [Ev (Get KDeployment {| nn_Namespace := "apps"; nn_Name := "demo-meta" |}) (inr meta_stored)]
    (sample_project, inr tt).
Proof.
  split; [intros E; apply (f_equal (λ t, ps_RestartPolicy (pt_Spec t))) in E; by vm_compute in E|].
  set (get := λ r, Ev (Get KDeployment {| nn_Namespace := "apps"; nn_Name := "demo-meta" |}) r).
  assert (E : interp handle [] (createOrUpdate HDeployment meta_deployment sample_project) =
    ([Stored KDeployment meta_sent],
     [get (inl (StatusError true "not found")); Ev (Create KDeployment meta_sent) None],
     (sample_project, inr tt))) by (vm_compute; reflexivity).
  refine (helpers_converge HDeployment meta_deployment meta_sent meta_stored sample_project
    _ sample_project _ _ (interp_runs _ _ _ _ _ _ E) _ _).
  - by vm_compute.
  - exists sample_powersync, no_secret_names, MetaComponentName, meta_deployment.
    split; [do 3 right; left|by left].
  - left. right. left.
  - split; [reflexivity..|exact meta_defaulted].
Defined.


(** ** Components *)

Lemma PublicJWK_verifies_witness :
  ∃ pub, PublicJWK sample_key = inr pub ∧ jwk_D pub = "" ∧
    VerifyES256JWTWithPublicKey 1 (sample_token "anon") pub "anon" RequiredRoleAudience = inr tt.
Proof.
  destruct (PublicJWK sample_key) as [e|pub] eqn:E; [by vm_compute in E|].
  exists pub. destruct (PublicJWK_verifies sample_key pub E) as (Hd & _ & Hv).
  split; [done|]. split; [exact Hd|]. rewrite Hv. by vm_compute.
Defined.

Lemma credentials_preimage_inj_witness :
  map_get (sec_Data sample_bundle) ProjectCredentialsSecretKey =
  map_get (sec_Data sample_bundle ∪ {[ "other" := "x" ]}) ProjectCredentialsSecretKey.
Proof.
  apply (credentials_preimage_inj (sec_Data sample_bundle)
           (sec_Data sample_bundle ∪ {[ "other" := "x" ]})).
  - by vm_compute.
  - right. right. by left.
Defined.

(** An old owner reference of the project, of another API version. *)
Definition owned_meta : ObjectMeta :=
  (new_meta "demo-pg" "apps" ∅ ∅) <| om_OwnerReferences :=
    [{| or_APIVersion := "supabase.guion.dev/v1"; or_Kind := "SupabaseProject"; or_Name := "demo";
        or_UID := "uid-0"; or_Controller := Some true; or_BlockOwnerDeletion := None |};
     {| or_APIVersion := "v1"; or_Kind := "ConfigMap"; or_Name := "demo"; or_UID := "uid-9";
        or_Controller := None; or_BlockOwnerDeletion := None |}] |>.
Lemma removeSupabaseProjectOwnerReference_spec_witness :
  (removeSupabaseProjectOwnerReference owned_meta "demo").2 = true ∧
  ∀ o, o ∈ om_OwnerReferences (removeSupabaseProjectOwnerReference owned_meta "demo").1 →
    owned_by_project "demo" o = false.
Proof.
  pose proof (removeSupabaseProjectOwnerReference_spec owned_meta "demo" ltac:(done)) as Hs.
  destruct (removeSupabaseProjectOwnerReference owned_meta "demo") as [m changed].
  destruct Hs as (_ & Hc & Ho & _). split; [|exact Ho].
  apply Hc. exists {| or_APIVersion := "supabase.guion.dev/v1"; or_Kind := "SupabaseProject";
    or_Name := "demo"; or_UID := "uid-0"; or_Controller := Some true;
    or_BlockOwnerDeletion := None |}. split; [by left|by vm_compute].
Defined.

Definition barman_plugin (object : string) : PluginConfiguration :=
  {| pc_Name := BarmanCloudPluginName; pc_Enabled := Some true; pc_IsWALArchiver := Some true;
     pc_Parameters := {[ "barmanObjectName" := object ]} |}.
Lemma reconcileBarmanPlugin_spec_witness :
  ∃ plugins, reconcileBarmanPlugin [barman_plugin "old"] [barman_plugin "new"] = (plugins, true) ∧
    reconcileBarmanPlugin plugins [barman_plugin "new"] = (plugins, false).
Proof.
  eexists. split; [by vm_compute|].
  eapply (reconcileBarmanPlugin_spec [barman_plugin "old"] [barman_plugin "new"] _ true).
  by vm_compute.
Defined.

Lemma reconcileClusterMutableFields_converges_witness :
  let e := cl_Spec (BuildCluster sample_project no_secret_names) in
  let d := e <| cs_Instances := 3 |> <| cs_ImageName := "postgres:18" |> in
  ∃ e', reconcileClusterMutableFields e d = (e', inr true) ∧
    reconcileClusterMutableFields e' d = (e', inr false) ∧ cs_Instances e' = 3.
Proof.
  intros e d. destruct (reconcileClusterMutableFields e d) as [e' r] eqn:E.
  assert (r = inr true) as -> by (change r with ((e', r).2); rewrite <- E; by vm_compute).
  exists e'. split; [done|].
  pose proof (reconcileClusterMutableFields_converges e d e' (inr true) E) as (Hst & Hi & _).
  split; [exact Hst|]. rewrite Hi. reflexivity.
Defined.

(** ** Workloads *)

(** A site URL configured twice, and an attempt at the signing keys. *)
Definition configured_variable (name value : string) : GoTrueEnvVar :=
  {| ge_Name := name; ge_Value := Some value; ge_ValueFrom := None |}.
Definition configured_env : list GoTrueEnvVar :=
  [configured_variable "GOTRUE_SITE_URL" "https://a"; configured_variable "GOTRUE_JWT_KEYS" "[]";
   configured_variable "GOTRUE_SITE_URL" "https://b"].
Definition configured_project : SupabaseProject :=
  powersync_project <| prj_Spec ::= (λ s, s <| sps_Auth ::= (λ a,
    a <| as_GoTrueEnv := configured_env |>) |>) |>.

Lemma applyGoTrueEnv_overlay_witness :
  let merged := applyGoTrueEnv [env_value "GOTRUE_JWT_KEYS" "k"; env_value "GOTRUE_SITE_URL" "s"]
                  configured_env in
  env_get merged "GOTRUE_JWT_KEYS" = Some (env_value "GOTRUE_JWT_KEYS" "k") ∧
  env_get merged "GOTRUE_SITE_URL" = Some (env_value "GOTRUE_SITE_URL" "https://b").
Proof.
  destruct (applyGoTrueEnv_overlay [env_value "GOTRUE_JWT_KEYS" "k"; env_value "GOTRUE_SITE_URL" "s"]
    configured_env) as (_ & _ & Hget); [apply (bool_decide_unpack _); vm_compute; exact I|].
  split; [rewrite (Hget "GOTRUE_JWT_KEYS")|rewrite (Hget "GOTRUE_SITE_URL")]; by vm_compute.
Defined.

Lemma buildAuthEnv_settings_witness :
  let env := buildAuthEnv configured_project no_secret_names "demo-pg-rw" in
  env_get env "GOTRUE_SITE_URL" = Some (env_value "GOTRUE_SITE_URL" "https://b").
Proof.
  destruct (buildAuthEnv_settings configured_project no_secret_names "demo-pg-rw")
    as (_ & _ & _ & Hget).
  exact (Hget "GOTRUE_SITE_URL" (configured_variable "GOTRUE_SITE_URL" "https://b")
    ltac:(by vm_compute) ltac:(by vm_compute)).
Defined.

Lemma services_route_witness :
  ∃ d, (AuthComponentName, d) ∈ deployments powersync_project sample_powersync no_secret_names ∧
    svc_Selector (BuildAuthService powersync_project) ⊆ pt_Labels (dp_Template d).
Proof.
  destruct (services_route powersync_project sample_powersync no_secret_names) as (_ & Hs & _).
  destruct (Hs AuthComponentName (BuildAuthService powersync_project) ltac:(by left))
    as (d & Hd & _ & Hsel & _).
  exists d. split; [exact Hd|exact Hsel].
Defined.

Lemma credentials_confined_witness :
  sealed configured_project RestComponentName (dp_Template (BuildRestDeployment configured_project no_secret_names)).
Proof.
  apply (credentials_confined configured_project sample_powersync no_secret_names).
  unfold pods. apply elem_of_app. left. right. by left.
Defined.

(** ** Signing keys *)

Lemma ParseSigningJWK_bounds_witness :
  ParseSigningJWK "[...]" = inr sample_key ∧
  ∃ sk, ecdsaPrivateKey sample_key = inr sk ∧ 0 < sk_D sk < P256_N.
Proof.
  assert (E : ParseSigningJWK "[...]" = inr sample_key) by (vm_compute; reflexivity).
  split; [exact E|].
  pose proof (ParseSigningJWK_bounds "[...]" sample_key E) as Hk. clear E.
  destruct Hk as (sk & pub & Hsk & Hpub & Hd & Hrest). clear Hrest.
  exists sk. split; [exact Hsk|exact Hd].
Defined.

(** ** Phases *)

(** The first reconciliation has created the Cluster; its instance is up. *)
Definition database_world : world := (rounds 1 (start sample_project)).1.
Lemma waitForDatabase_spec_witness :
  ∃ tr p, runs (waitForDatabase (project_of database_world)) tr (p, inr None) ∧
    ep_API (sts_Endpoints (prj_Status p)) = "" ∧ persisted p tr.
Proof.
  destruct (interp handle database_world (waitForDatabase (project_of database_world)))
    as [[w tr] [p r]] eqn:E.
  assert (r = inr None) as -> by (change r with ((w, tr, (p, r)).2.2); rewrite <- E; by vm_compute).
  assert (Hr := interp_runs _ _ _ _ _ _ E).
  assert (Hrel := interp_relies observer _ _ _ _ _ handle_stores_status E).
  exists tr, p. split; [exact Hr|].
  destruct (waitForDatabase_spec (project_of database_world) tr p (inr None) Hr Hrel)
    as (c & tr' & _ & Hp & _ & _ & Hst).
  clear E Hr Hrel. destruct (_ <? _).
  - destruct Hst as [Hn _]. discriminate Hn.
  - destruct Hst as (_ & _ & _ & _ & _ & _ & _ & Ha). split; [exact Ha|exact Hp].
Defined.

(** A running project one of whose deployments loses its pods is taken back. *)
Definition lose_pods (name : string) (s : stored) : stored :=
  match s with
  | Stored KDeployment d =>
      if bool_decide (om_Name (dp_meta d) = name)
      then Stored KDeployment (d <| dp_Status ::= (λ st, st <| dps_ReadyReplicas := 0 |>
                                                           <| dps_AvailableReplicas := 0 |>) |>)
      else s
  | s => s
  end.
Definition degraded_world : world :=
  lose_pods (RestDeploymentName sample_project) <$> (round settled_world).1.
Definition degraded_project : SupabaseProject := project_of degraded_world.
Definition any_credentials : ProjectCredentials :=
  {| pc_SigningKeys := ""; pc_PublishableKey := ""; pc_SecretKey := ""; pc_AnonRoleJWT := "";
     pc_ServiceRoleJWT := ""; pc_PublicJWKS := ""; pc_SigningKeyID := ""; pc_PodTemplateHash := "" |}.
Lemma reconcileServices_verdict_witness :
  ∃ tr p, phase_of degraded_project = PhaseRunning ∧
    runs (reconcileServices any_credentials degraded_project) tr (p, inr tt) ∧
    demoted p ∧ persisted p tr.
Proof.
  destruct (interp handle degraded_world (reconcileServices any_credentials degraded_project))
    as [[w tr] [p r]] eqn:E.
  assert (r = inr tt) as -> by (change r with ((w, tr, (p, r)).2.2); rewrite <- E; by vm_compute).
  assert (Hready : coreServicesReady p = false).
  { change p with ((w, tr, (p, inr tt : result unit)).2.1). rewrite <- E. by vm_compute. }
  assert (Hr := interp_runs _ _ _ _ _ _ E).
  assert (Hrel := interp_relies observer _ _ _ _ _ handle_stores_status E).
  assert (Hphase : phase_of degraded_project = PhaseRunning) by (vm_compute; reflexivity).
  assert (Hname : prj_Name degraded_project ≠ "") by (vm_compute; discriminate).
  exists tr, p. generalize dependent degraded_project. intros project _ Hr Hphase Hname.
  pose proof (reconcileServices_verdict project any_credentials tr p (inr tt) Hname Hr Hrel) as Hv.
  cbv beta iota in Hv. rewrite Hready in Hv. split; [exact Hphase|]. split; [exact Hr|exact Hv].
Defined.

(** The permissions Job does not exist yet. *)
Lemma createOrCheckJob_protocol_witness :
  let job := BuildCDCPermissionsJob powersync_project no_secret_names in
  ∃ tr r, runs (createOrCheckJob job "h" powersync_project) tr (powersync_project, r) ∧
    job_step powersync_project job "h" tr r.
Proof.
  intros job.
  destruct (interp handle (start powersync_project) (createOrCheckJob job "h" powersync_project))
    as [[w tr] [p r]] eqn:E.
  assert (Hr := interp_runs _ _ _ _ _ _ E).
  destruct (createOrCheckJob_protocol powersync_project job "h" tr p r Hr) as [-> Hs].
  exists tr, r. split; [exact Hr|exact Hs].
Defined.

Lemma watches_exact_witness :
  ∃ tr keys, runs (mapProjectCredentialsSecretToProjects (sec_meta sample_bundle)) tr keys ∧
    demo_key ∈ keys.
Proof.
  destruct (interp handle (start sample_project)
    (mapProjectCredentialsSecretToProjects (sec_meta sample_bundle))) as [[w tr] keys] eqn:E.
  assert (Hr := interp_runs _ _ _ _ _ _ E). cbn in E. injection E as <- <- <-.
  eexists _, _. split; [exact Hr|].
  apply (proj1 (proj2 (watches_exact _ _)) (sec_meta sample_bundle) Hr demo_key).
  exists sample_project. split; [|by split]. eexists. split; [left|left].
Defined.

(** ** References *)

(** The generators, run on the simulated server. *)
Lemma interp_returns {A} (m : M A) q0 :
  match (interp handle [] (m q0)).2.2 with
  | inr a => ∃ tr q, runs (m q0) tr (q, inr a)
  | inl _ => True
  end.
Proof.
  destruct (interp handle [] (m q0)) as [[w tr] [q [e|a]]] eqn:E; [done|].
  exists tr, q. by eapply interp_runs.
Qed.
Lemma sample_generation : ∃ h secrets sn, generates powersync_project h secrets sn.
Proof.
  pose proof (interp_returns (GenerateSecrets powersync_project) powersync_project) as H1.
  destruct (interp _ _ _).2.2 as [e|[core names]] eqn:E; [by vm_compute in E|].
  destruct H1 as (tr1 & q1 & H1). clear E.
  pose proof (interp_returns (GeneratePowersyncSecrets powersync_project) q1) as H2.
  destruct (interp _ _ _).2.2 as [e|secrets] eqn:E; [by vm_compute in E|].
  destruct H2 as (tr2 & q2 & H2). clear E.
  pose proof (interp_returns (GeneratePowersyncAPITokenSecret powersync_project) q2) as H3.
  destruct (interp _ _ _).2.2 as [e|token] eqn:E; [by vm_compute in E|].
  destruct H3 as (tr3 & q3 & H3). clear E.
  pose proof (interp_returns (GenerateEmailHookSecret powersync_project) q3) as H4.
  destruct (interp _ _ _).2.2 as [e|[hook hookName]] eqn:E; [by vm_compute in E|].
  destruct H4 as (tr4 & q4 & H4). do 3 eexists. by eapply generated.
Qed.

Lemma roles_have_credentials_witness :
  ∃ h secrets sn own position, generates powersync_project h secrets sn ∧
    NoDup (rc_Name <$> own) ∧ Forall (has_credentials powersync_project h position secrets) own.
Proof.
  destruct sample_generation as (h & secrets & sn & Hg).
  destruct (roles_have_credentials powersync_project h secrets sn Hg)
    as (own & _ & _ & position & _ & _ & _ & Hn & Hc & _).
  exists h, secrets, sn, own, position. split; [exact Hg|]. split; [exact Hn|exact Hc].
Defined.

Lemma references_resolve_witness :
  ∃ secrets sn cdc, generation powersync_project secrets sn ∧
    Forall (resolves powersync_project sample_powersync secrets "{}" cdc)
      (pod_env (dp_Template (BuildPowersyncAPIDeployment powersync_project sample_powersync sn))).
Proof.
  destruct sample_generation as (h & secrets & sn & Hgen).
  assert (Hg : generation powersync_project secrets sn) by by exists h.
  destruct (BuildCDCMigrationsConfigMap powersync_project) as [e|cdc] eqn:Hcdc; [by vm_compute in Hcdc|].
  exists secrets, sn, cdc. split; [exact Hg|]. apply Forall_forall. intros v Hv.
  destruct (references_resolve powersync_project sample_powersync secrets sn "{}" cdc
    PowersyncAPIComponentName _ Hg Hcdc ltac:(by right)
    ltac:(unfold pods; apply elem_of_app; left; do 5 right; left)) as [_ Hres].
  destruct (Hres v Hv) as [Hr|[Hc _]]; [exact Hr|done].
Defined.

Lemma gateway_routes_witness :
  upstreams (envoy_file sample_project "cds.yaml") = backends sample_project ≫= upstreams_of.
Proof.
  destruct (gateway_routes sample_project) as [Hu _]; [vm_compute; reflexivity|]. exact Hu.
Defined.
